(** * Curtain / cloth scenes: a shallow embedding of the frame choreography

    The two React scene components ([CurtainScene.tsx], [ClothScene.tsx]) are
    embedded as state-passing programs.  The closure variables of each
    [useEffect] body become the fields of a state record; a function that can
    throw returns an [Outcome] next to the (possibly already mutated) state,
    as a JavaScript exception leaves earlier assignments in place.

    JavaScript numbers are idealised as real numbers.  The rendering engine
    and the physics engine are external collaborators: the constructors the
    scenes call are modelled by their documented contract, and the solver
    step and the normal recomputation are left abstract (class [Engine]). *)

From Stdlib Require Import Reals Lra Lia String.
From stdpp Require Import base list.

Local Open Scope R_scope.

(** ** Vectors, quaternions *)

Record Vec3 := mkVec3 { vx : R; vy : R; vz : R }.
Record Quat := mkQuat { qx : R; qy : R; qz : R; qw : R }.

Definition vzero : Vec3 := mkVec3 0 0 0.
Definition qidentity : Quat := mkQuat 0 0 0 1.

Definition vadd (a b : Vec3) : Vec3 :=
  mkVec3 (vx a + vx b) (vy a + vy b) (vz a + vz b).

(** ** Exceptions and the execution monad *)

Inductive Error :=
| GraphicsNotReady          (* new Error("Graphics not ready") *)
| LoadFailure (src : string) (* new Error(`Failed to load ${src}`) *)
| AmmoLoaderMissing         (* new Error("Ammo loader not found on window") *)
| AmmoInitFailure           (* the promise of window.Ammo(...) rejected *)
| TypeError (what : string) (* property access on null / undefined *)
| EngineFault (what : string). (* out-of-range access inside the engine *)

Inductive Outcome (A : Type) :=
| Ret (a : A)
| Throw (e : Error).
Arguments Ret {A} a.
Arguments Throw {A} e.

Definition Exec (St A : Type) : Type := St -> Outcome A * St.

Definition ret {St A} (a : A) : Exec St A := fun s => (Ret a, s).
Definition throw {St A} (e : Error) : Exec St A := fun s => (Throw e, s).
Definition bind {St A B} (c : Exec St A) (k : A -> Exec St B) : Exec St B :=
  fun s => match c s with
           | (Ret a, s') => k a s'
           | (Throw e, s') => (Throw e, s')
           end.
Definition gets {St A} (f : St -> A) : Exec St A := fun s => (Ret (f s), s).
Definition modify {St} (f : St -> St) : Exec St unit := fun s => (Ret tt, f s).
(** Dereferencing a variable that holds [null] is a [TypeError]. *)
Definition deref {St A} (what : string) (f : St -> option A) : Exec St A :=
  fun s => match f s with
           | Some a => (Ret a, s)
           | None => (Throw (TypeError what), s)
           end.
(** [try { c } catch (e) { h e }] *)
Definition try_catch {St A} (c : Exec St A) (h : Error -> Exec St A) : Exec St A :=
  fun s => match c s with
           | (Ret a, s') => (Ret a, s')
           | (Throw e, s') => h e s'
           end.

Notation "'let!' x ':=' c 'in' k" := (bind c (fun x => k))
  (at level 10, x name, c at level 100, k at level 200).
Notation "c '>>' k" := (bind c (fun _ => k))
  (at level 190, right associativity).

(** A [for] loop over the listed indices, stopping at the first exception. *)
Fixpoint forEach {St A} (body : A -> Exec St unit) (l : list A) : Exec St unit :=
  match l with
  | [] => ret tt
  | x :: r => body x >> forEach body r
  end.

(** ** The rendering engine (three.js), as far as the scenes use it *)

Module THREE.

(** A typed-array backed attribute; [needsUpdate] is the dirty flag. *)
Record BufferAttribute := mkAttr { array : list R; needsUpdate : bool }.

Record BufferGeometry := mkGeo {
  attr_position : BufferAttribute;
  attr_normal : option BufferAttribute
}.

(** Modelled from the spec: the plane constructor of the rendering engine is
    not part of the repository.  It lays out a grid of
    [(widthSegments+1) * (heightSegments+1)] vertices, row by row from the top,
    three coordinates per vertex, centred on the origin in the plane z = 0,
    with a unit normal per vertex. *)
Definition planeRow (width height : R) (gridX gridY iy : nat) : list R :=
  flat_map (fun ix =>
              [INR ix * (width / INR gridX) - width / 2;
               - (INR iy * (height / INR gridY) - height / 2);
               0])
           (seq 0 (gridX + 1)).

Definition planeVertices (width height : R) (gridX gridY : nat) : list R :=
  flat_map (planeRow width height gridX gridY) (seq 0 (gridY + 1)).

Definition planeNormals (gridX gridY : nat) : list R :=
  flat_map (fun _ => [0; 0; 1]) (seq 0 ((gridX + 1) * (gridY + 1))).

Definition PlaneGeometry (width height : R) (widthSegments heightSegments : nat)
  : BufferGeometry :=
  mkGeo (mkAttr (planeVertices width height widthSegments heightSegments) false)
        (Some (mkAttr (planeNormals widthSegments heightSegments) false)).

(** Apply [f] to every complete coordinate triplet of a flat array; a
    trailing incomplete triplet is left as it is. *)
Fixpoint mapTriplets (f : R -> R -> R -> list R) (l : list R) : list R :=
  match l with
  | x :: y :: z :: r => f x y z ++ mapTriplets f r
  | rest => rest
  end.

Definition onPosition (f : list R -> list R) (g : BufferGeometry) : BufferGeometry :=
  mkGeo (mkAttr (f (array (attr_position g))) (needsUpdate (attr_position g)))
        (attr_normal g).

(** [geometry.translate(x, y, z)] moves the positions only. *)
Definition translate (x y z : R) (g : BufferGeometry) : BufferGeometry :=
  onPosition (mapTriplets (fun a b c => [a + x; b + y; c + z])) g.

(** [geometry.rotateY(angle)] rotates positions and normals about the y axis. *)
Definition rotY (angle : R) (a b c : R) : list R :=
  [cos angle * a + sin angle * c; b; - sin angle * a + cos angle * c].

Definition rotateY (angle : R) (g : BufferGeometry) : BufferGeometry :=
  mkGeo (mkAttr (mapTriplets (rotY angle) (array (attr_position g)))
                (needsUpdate (attr_position g)))
        (match attr_normal g with
         | Some n => Some (mkAttr (mapTriplets (rotY angle) (array n)) (needsUpdate n))
         | None => None
         end).

Inductive Geometry :=
| Box (sx sy sz : R)
| Buffer (g : BufferGeometry).

(** A reference held in [userData.physicsBody]: an index into the physics
    engine's heap of rigid bodies or of soft bodies. *)
Inductive BodyRef := RigidRef (i : nat) | SoftRef (i : nat).

Record Mesh := mkMesh {
  position : Vec3;
  quaternion : Quat;
  geometry : Geometry;
  physicsBody : option BodyRef
}.

Definition set_position (p : Vec3) (m : Mesh) : Mesh :=
  mkMesh p (quaternion m) (geometry m) (physicsBody m).
Definition set_quaternion (q : Quat) (m : Mesh) : Mesh :=
  mkMesh (position m) q (geometry m) (physicsBody m).
Definition set_geometry (g : Geometry) (m : Mesh) : Mesh :=
  mkMesh (position m) (quaternion m) g (physicsBody m).
Definition set_physicsBody (b : option BodyRef) (m : Mesh) : Mesh :=
  mkMesh (position m) (quaternion m) (geometry m) b.

(** The position array of a mesh, when its geometry carries one. *)
Definition positions (m : Mesh) : option (list R) :=
  match geometry m with
  | Buffer g => Some (array (attr_position g))
  | Box _ _ _ => None
  end.

Record PerspectiveCamera := mkCamera {
  fov : R;          (* vertical field of view, in degrees *)
  aspect : R;
  near : R;
  far : R;
  cam_position : Vec3
}.

Definition set_aspect (a : R) (c : PerspectiveCamera) : PerspectiveCamera :=
  mkCamera (fov c) a (near c) (far c) (cam_position c).

Record WebGLRenderer := mkRenderer {
  pixelRatio : R;
  size : R * R;
  opacity : string;   (* domElement.style.opacity; the empty string when unset *)
  framesRendered : nat
}.

Definition setSize (w h : R) (r : WebGLRenderer) : WebGLRenderer :=
  mkRenderer (pixelRatio r) (w, h) (opacity r) (framesRendered r).
Definition setOpacity (o : string) (r : WebGLRenderer) : WebGLRenderer :=
  mkRenderer (pixelRatio r) (size r) o (framesRendered r).
Definition render (r : WebGLRenderer) : WebGLRenderer :=
  mkRenderer (pixelRatio r) (size r) (opacity r) (S (framesRendered r)).

Inductive SceneObject := AmbientLight | DirectionalLight | MeshObject.

Record Scene := mkScene { children : list SceneObject }.

Definition add (o : SceneObject) (sc : Scene) : Scene := mkScene (children sc ++ [o]).

End THREE.

(** ** The physics engine (ammo.js), as far as the scenes use it *)

Module Ammo.

Record btTransform := mkTransform { origin : Vec3; rotation : Quat }.

Definition ACTIVE_TAG : nat := 1.
Definition DISABLE_DEACTIVATION : nat := 4.

Record btRigidBody := mkBody {
  mass : R;
  halfExtents : Vec3;
  worldTransform : btTransform;
  linearVelocity : Vec3;
  angularVelocity : Vec3;
  activationState : nat
}.

(** Modelled from the spec: the engine's setters are not part of the
    repository; each overwrites the attribute it names, and [activate] marks
    the body active. *)
Definition setWorldTransform (t : btTransform) (b : btRigidBody) : btRigidBody :=
  mkBody (mass b) (halfExtents b) t (linearVelocity b) (angularVelocity b) (activationState b).
Definition setLinearVelocity (v : Vec3) (b : btRigidBody) : btRigidBody :=
  mkBody (mass b) (halfExtents b) (worldTransform b) v (angularVelocity b) (activationState b).
Definition setAngularVelocity (v : Vec3) (b : btRigidBody) : btRigidBody :=
  mkBody (mass b) (halfExtents b) (worldTransform b) (linearVelocity b) v (activationState b).
Definition setActivationState (n : nat) (b : btRigidBody) : btRigidBody :=
  mkBody (mass b) (halfExtents b) (worldTransform b) (linearVelocity b) (angularVelocity b) n.
Definition activate (b : btRigidBody) : btRigidBody := setActivationState ACTIVE_TAG b.

(** [new btRigidBody(new btRigidBodyConstructionInfo(mass, motionState, shape, inertia))] *)
Definition newRigidBody (m : R) (half : Vec3) (t : btTransform) : btRigidBody :=
  mkBody m half t vzero vzero ACTIVE_TAG.

(** A soft-body node: position [m_x] and accumulated force [m_f]. *)
Record Node := mkNode { m_x : Vec3; m_f : Vec3 }.

Record Anchor := mkAnchor {
  a_node : nat;
  a_body : nat;
  a_disableCollision : bool;
  a_influence : R
}.

Record btSoftBody := mkSoft {
  m_nodes : list Node;
  m_anchors : list Anchor;
  viterations : nat;
  piterations : nat;
  totalMass : R;
  sb_margin : R;
  sb_activationState : nat
}.

Definition set_nodes (ns : list Node) (b : btSoftBody) : btSoftBody :=
  mkSoft ns (m_anchors b) (viterations b) (piterations b) (totalMass b) (sb_margin b)
         (sb_activationState b).
Definition appendAnchor (node body : nat) (disableCollision : bool) (influence : R)
           (b : btSoftBody) : btSoftBody :=
  mkSoft (m_nodes b) (m_anchors b ++ [mkAnchor node body disableCollision influence])
         (viterations b) (piterations b) (totalMass b) (sb_margin b) (sb_activationState b).
Definition configure (vit pit : nat) (m mg : R) (act : nat) (b : btSoftBody) : btSoftBody :=
  mkSoft (m_nodes b) (m_anchors b) vit pit m mg act.

(** [n.get_m_f().op_add(force)] *)
Definition addForce (f : Vec3) (n : Node) : Node := mkNode (m_x n) (vadd (m_f n) f).

Definition lerp (a b : Vec3) (t : R) : Vec3 :=
  mkVec3 (vx a + (vx b - vx a) * t) (vy a + (vy b - vy a) * t) (vz a + (vz b - vz a) * t).

(** Modelled from the spec: the patch helper of the physics engine is not part
    of the repository.  [CreatePatch(info, p00, p10, p01, p11, resx, resy, fixeds,
    gendiags)] builds a grid of [resx * resy] mass points spanning the four
    corners, row by row with the x index running fastest; it yields no body
    when a resolution is below 2. *)
Definition patchRow (p00 p10 p01 p11 : Vec3) (resx resy iy : nat) : list Node :=
  map (fun ix =>
         mkNode (lerp (lerp p00 p01 (INR iy / INR (resy - 1)))
                      (lerp p10 p11 (INR iy / INR (resy - 1)))
                      (INR ix / INR (resx - 1)))
                vzero)
      (seq 0 resx).

Definition CreatePatch (p00 p10 p01 p11 : Vec3) (resx resy : nat)
  : option btSoftBody :=
  if (resx <? 2)%nat || (resy <? 2)%nat then None
  else Some (mkSoft (flat_map (patchRow p00 p10 p01 p11 resx resy) (seq 0 resy))
                    [] 0 0 0 0 ACTIVE_TAG).

Record btHingeConstraint := mkHinge {
  h_bodyA : nat;
  h_bodyB : nat;
  h_pivotA : Vec3;
  h_pivotB : Vec3;
  h_axis : Vec3;
  motorEnabled : bool;
  motorTargetVelocity : R;
  maxMotorImpulse : R
}.

Definition enableAngularMotor (on : bool) (target maxImpulse : R)
           (h : btHingeConstraint) : btHingeConstraint :=
  mkHinge (h_bodyA h) (h_bodyB h) (h_pivotA h) (h_pivotB h) (h_axis h) on target maxImpulse.

(** The engine's heap: every object the scene created through the module. *)
Record Heap := mkHeap {
  bodies : list btRigidBody;
  softs : list btSoftBody;
  hinges : list btHingeConstraint
}.

Definition emptyHeap : Heap := mkHeap [] [] [].

Definition set_bodies (l : list btRigidBody) (h : Heap) : Heap := mkHeap l (softs h) (hinges h).
Definition set_softs (l : list btSoftBody) (h : Heap) : Heap := mkHeap (bodies h) l (hinges h).
Definition set_hinges (l : list btHingeConstraint) (h : Heap) : Heap := mkHeap (bodies h) (softs h) l.

(** The dynamics world: gravity and the objects registered with it. *)
Record World := mkWorld {
  gravity : Vec3;
  w_rigid : list nat;
  w_soft : list (nat * Z * Z);   (* body, collision group, collision mask *)
  w_constraints : list nat
}.

Definition newWorld (g : Vec3) : World := mkWorld g [] [] [].
Definition addRigidBody (i : nat) (w : World) : World :=
  mkWorld (gravity w) (w_rigid w ++ [i]) (w_soft w) (w_constraints w).
Definition addSoftBody (i : nat) (group mask : Z) (w : World) : World :=
  mkWorld (gravity w) (w_rigid w) (w_soft w ++ [(i, group, mask)]) (w_constraints w).
Definition addConstraint (i : nat) (w : World) : World :=
  mkWorld (gravity w) (w_rigid w) (w_soft w) (w_constraints w ++ [i]).

End Ammo.

(** ** The abstract collaborators

    [stepSimulation world heap dt maxSubSteps] is the solver step and
    [computeVertexNormals positions] the normal recomputation; neither is
    specified beyond its signature. *)
Class Engine := {
  stepSimulation : Ammo.World -> Ammo.Heap -> R -> nat -> Ammo.Heap;
  computeVertexNormals : list R -> list R
}.

(** ** The browser side shared by both scenes *)

Inductive Listener := ResizeListener | ScrollListener | KeydownListener | KeyupListener.

Definition listener_eqb (a b : Listener) : bool :=
  match a, b with
  | ResizeListener, ResizeListener | ScrollListener, ScrollListener
  | KeydownListener, KeydownListener | KeyupListener, KeyupListener => true
  | _, _ => false
  end.

(** [addEventListener] ignores a listener that is already registered. *)
Definition addEventListener (l : Listener) (ls : list Listener) : list Listener :=
  if existsb (listener_eqb l) ls then ls else ls ++ [l].
Definition removeEventListener (l : Listener) (ls : list Listener) : list Listener :=
  List.filter (fun x => negb (listener_eqb l x)) ls.

Record Window := mkWindow {
  innerWidth : R;
  innerHeight : R;
  devicePixelRatio : R;
  scrollY : option R
}.

Record Browser := mkBrowser {
  window : Window;
  container : bool;          (* containerRef.current is attached *)
  listeners : list Listener;
  pendingFrames : nat;       (* callbacks queued by requestAnimationFrame *)
  console : list Error       (* console.error *)
}.

Definition set_window (w : Window) (b : Browser) : Browser :=
  mkBrowser w (container b) (listeners b) (pendingFrames b) (console b).
Definition set_container (c : bool) (b : Browser) : Browser :=
  mkBrowser (window b) c (listeners b) (pendingFrames b) (console b).
Definition set_listeners (l : list Listener) (b : Browser) : Browser :=
  mkBrowser (window b) (container b) l (pendingFrames b) (console b).
Definition set_pendingFrames (n : nat) (b : Browser) : Browser :=
  mkBrowser (window b) (container b) (listeners b) n (console b).
Definition consoleError (e : Error) (b : Browser) : Browser :=
  mkBrowser (window b) (container b) (listeners b) (pendingFrames b) (console b ++ [e]).

(** [THREE.Clock] with [autoStart]: the first [getDelta] starts the clock and
    yields 0, a later one yields the seconds since the previous call. *)
Record Clock := mkClock { running : bool; oldTime : R }.

Definition getDelta (now : R) (c : Clock) : R * Clock :=
  if running c then ((now - oldTime c) / 1000, mkClock true now)
  else (0, mkClock true now).

(** The calls a frame makes on the two engines, in program order. *)
Inductive Call :=
| SetWorldTransform (body : nat) (t : Ammo.btTransform)
| SetLinearVelocity (body : nat) (v : Vec3)
| SetAngularVelocity (body : nat) (v : Vec3)
| Activate (body : nat)
| EnableAngularMotor (on : bool) (target maxImpulse : R)
| StepSimulation (dt : R) (maxSubSteps : nat)
| AddForce (soft idx : nat) (f : Vec3)
| SyncVertices (soft : nat)
| ComputeVertexNormals
| Render
| RequestAnimationFrame.

Inductive Side := LeftSide | RightSide.

#[global] Instance Side_eq_dec : EqDecision Side.
Proof. solve_decision. Defined.

(** A cached reference to the position (or normal) attribute of the cloth
    mesh held by the variable it was taken from. *)
Inductive AttrRef := CachedAttribute.

(** The loop [for (i = 0; i < numVerts; i++) { p = nodes.at(i).get_m_x();
    arr[i3++] = p.x(); arr[i3++] = p.y(); arr[i3++] = p.z(); }] shared by both
    scenes: [count] iterations are left, [i] is the node index and [i3] the
    running buffer index.  A write past the end of a typed array is ignored;
    a node index past the end of the node array is an engine fault. *)
Fixpoint copyNodes (nodes : list Ammo.Node) (count i i3 : nat) (arr : list R)
  : option (list R) :=
  match count with
  | O => Some arr
  | S k =>
      match nodes !! i with
      | None => None
      | Some n =>
          let p := Ammo.m_x n in
          copyNodes nodes k (S i) (S (S (S i3)))
                    (<[S (S i3) := vz p]> (<[S i3 := vy p]> (<[i3 := vx p]> arr)))
      end
  end.

(** [numVerts = arr.length / 3] is a floating-point quotient, so [i < numVerts]
    holds exactly when [3 * i < arr.length]. *)
Definition loopCount (len : nat) : nat := ((len + 2) / 3)%nat.

Definition syncArray (nodes : list Ammo.Node) (arr : list R) : option (list R) :=
  copyNodes nodes (loopCount (length arr)) 0 0 arr.

(** ** The curtain scene ([CurtainScene.tsx]) *)

Module Curtain.

(** Where the asynchronous boot sequence stands. *)
Inductive BootPhase := NotMounted | AwaitingScript | AwaitingAmmo | BootEnded.

Record State := mkState {
  renderer : option THREE.WebGLRenderer;
  scene : option THREE.Scene;
  camera : option THREE.PerspectiveCamera;
  clock : Clock;
  AmmoLib : option Ammo.Heap;
  physicsWorld : option Ammo.World;
  leftCloth : option THREE.Mesh;
  rightCloth : option THREE.Mesh;
  leftPosAttr : option AttrRef;
  rightPosAttr : option AttrRef;
  leftRodMesh : option THREE.Mesh;
  rightRodMesh : option THREE.Mesh;
  leftRodStartX : R;
  rightRodStartX : R;
  slideDistance : R;
  scrollProgress : R;
  browser : Browser;
  calls : list Call;
  phase : BootPhase
}.

Definition set_renderer (v : option THREE.WebGLRenderer) (s : State) : State :=
  mkState v (scene s) (camera s) (clock s) (AmmoLib s) (physicsWorld s) (leftCloth s)
    (rightCloth s) (leftPosAttr s) (rightPosAttr s) (leftRodMesh s) (rightRodMesh s)
    (leftRodStartX s) (rightRodStartX s) (slideDistance s) (scrollProgress s) (browser s) 
    (calls s) (phase s).
Definition set_scene (v : option THREE.Scene) (s : State) : State :=
  mkState (renderer s) v (camera s) (clock s) (AmmoLib s) (physicsWorld s) (leftCloth s)
    (rightCloth s) (leftPosAttr s) (rightPosAttr s) (leftRodMesh s) (rightRodMesh s)
    (leftRodStartX s) (rightRodStartX s) (slideDistance s) (scrollProgress s) (browser s) 
    (calls s) (phase s).
Definition set_camera (v : option THREE.PerspectiveCamera) (s : State) : State :=
  mkState (renderer s) (scene s) v (clock s) (AmmoLib s) (physicsWorld s) (leftCloth s)
    (rightCloth s) (leftPosAttr s) (rightPosAttr s) (leftRodMesh s) (rightRodMesh s)
    (leftRodStartX s) (rightRodStartX s) (slideDistance s) (scrollProgress s) (browser s) 
    (calls s) (phase s).
Definition set_clock (v : Clock) (s : State) : State :=
  mkState (renderer s) (scene s) (camera s) v (AmmoLib s) (physicsWorld s) (leftCloth s)
    (rightCloth s) (leftPosAttr s) (rightPosAttr s) (leftRodMesh s) (rightRodMesh s)
    (leftRodStartX s) (rightRodStartX s) (slideDistance s) (scrollProgress s) (browser s) 
    (calls s) (phase s).
Definition set_AmmoLib (v : option Ammo.Heap) (s : State) : State :=
  mkState (renderer s) (scene s) (camera s) (clock s) v (physicsWorld s) (leftCloth s)
    (rightCloth s) (leftPosAttr s) (rightPosAttr s) (leftRodMesh s) (rightRodMesh s)
    (leftRodStartX s) (rightRodStartX s) (slideDistance s) (scrollProgress s) (browser s) 
    (calls s) (phase s).
Definition set_physicsWorld (v : option Ammo.World) (s : State) : State :=
  mkState (renderer s) (scene s) (camera s) (clock s) (AmmoLib s) v (leftCloth s) (rightCloth s)
    (leftPosAttr s) (rightPosAttr s) (leftRodMesh s) (rightRodMesh s) (leftRodStartX s)
    (rightRodStartX s) (slideDistance s) (scrollProgress s) (browser s) (calls s) (phase s).
Definition set_leftCloth (v : option THREE.Mesh) (s : State) : State :=
  mkState (renderer s) (scene s) (camera s) (clock s) (AmmoLib s) (physicsWorld s) v 
    (rightCloth s) (leftPosAttr s) (rightPosAttr s) (leftRodMesh s) (rightRodMesh s) (leftRodStartX s)
    (rightRodStartX s) (slideDistance s) (scrollProgress s) (browser s) (calls s) (phase s).
Definition set_rightCloth (v : option THREE.Mesh) (s : State) : State :=
  mkState (renderer s) (scene s) (camera s) (clock s) (AmmoLib s) (physicsWorld s) (leftCloth s)
    v (leftPosAttr s) (rightPosAttr s) (leftRodMesh s) (rightRodMesh s) (leftRodStartX s)
    (rightRodStartX s) (slideDistance s) (scrollProgress s) (browser s) (calls s) (phase s).
Definition set_leftPosAttr (v : option AttrRef) (s : State) : State :=
  mkState (renderer s) (scene s) (camera s) (clock s) (AmmoLib s) (physicsWorld s) (leftCloth s)
    (rightCloth s) v (rightPosAttr s) (leftRodMesh s) (rightRodMesh s) (leftRodStartX s)
    (rightRodStartX s) (slideDistance s) (scrollProgress s) (browser s) (calls s) (phase s).
Definition set_rightPosAttr (v : option AttrRef) (s : State) : State :=
  mkState (renderer s) (scene s) (camera s) (clock s) (AmmoLib s) (physicsWorld s) (leftCloth s)
    (rightCloth s) (leftPosAttr s) v (leftRodMesh s) (rightRodMesh s) (leftRodStartX s)
    (rightRodStartX s) (slideDistance s) (scrollProgress s) (browser s) (calls s) (phase s).
Definition set_leftRodMesh (v : option THREE.Mesh) (s : State) : State :=
  mkState (renderer s) (scene s) (camera s) (clock s) (AmmoLib s) (physicsWorld s) (leftCloth s)
    (rightCloth s) (leftPosAttr s) (rightPosAttr s) v (rightRodMesh s) (leftRodStartX s)
    (rightRodStartX s) (slideDistance s) (scrollProgress s) (browser s) (calls s) (phase s).
Definition set_rightRodMesh (v : option THREE.Mesh) (s : State) : State :=
  mkState (renderer s) (scene s) (camera s) (clock s) (AmmoLib s) (physicsWorld s) (leftCloth s)
    (rightCloth s) (leftPosAttr s) (rightPosAttr s) (leftRodMesh s) v (leftRodStartX s)
    (rightRodStartX s) (slideDistance s) (scrollProgress s) (browser s) (calls s) (phase s).
Definition set_leftRodStartX (v : R) (s : State) : State :=
  mkState (renderer s) (scene s) (camera s) (clock s) (AmmoLib s) (physicsWorld s) (leftCloth s)
    (rightCloth s) (leftPosAttr s) (rightPosAttr s) (leftRodMesh s) (rightRodMesh s) v
    (rightRodStartX s) (slideDistance s) (scrollProgress s) (browser s) (calls s) (phase s).
Definition set_rightRodStartX (v : R) (s : State) : State :=
  mkState (renderer s) (scene s) (camera s) (clock s) (AmmoLib s) (physicsWorld s) (leftCloth s)
    (rightCloth s) (leftPosAttr s) (rightPosAttr s) (leftRodMesh s) (rightRodMesh s)
    (leftRodStartX s) v (slideDistance s) (scrollProgress s) (browser s) (calls s) (phase s).
Definition set_slideDistance (v : R) (s : State) : State :=
  mkState (renderer s) (scene s) (camera s) (clock s) (AmmoLib s) (physicsWorld s) (leftCloth s)
    (rightCloth s) (leftPosAttr s) (rightPosAttr s) (leftRodMesh s) (rightRodMesh s)
    (leftRodStartX s) (rightRodStartX s) v (scrollProgress s) (browser s) (calls s) (phase s).
Definition set_scrollProgress (v : R) (s : State) : State :=
  mkState (renderer s) (scene s) (camera s) (clock s) (AmmoLib s) (physicsWorld s) (leftCloth s)
    (rightCloth s) (leftPosAttr s) (rightPosAttr s) (leftRodMesh s) (rightRodMesh s)
    (leftRodStartX s) (rightRodStartX s) (slideDistance s) v (browser s) (calls s) (phase s).
Definition set_browser (v : Browser) (s : State) : State :=
  mkState (renderer s) (scene s) (camera s) (clock s) (AmmoLib s) (physicsWorld s) (leftCloth s)
    (rightCloth s) (leftPosAttr s) (rightPosAttr s) (leftRodMesh s) (rightRodMesh s)
    (leftRodStartX s) (rightRodStartX s) (slideDistance s) (scrollProgress s) v (calls s) 
    (phase s).
Definition set_calls (v : list Call) (s : State) : State :=
  mkState (renderer s) (scene s) (camera s) (clock s) (AmmoLib s) (physicsWorld s) (leftCloth s)
    (rightCloth s) (leftPosAttr s) (rightPosAttr s) (leftRodMesh s) (rightRodMesh s)
    (leftRodStartX s) (rightRodStartX s) (slideDistance s) (scrollProgress s) (browser s) v
    (phase s).
Definition set_phase (v : BootPhase) (s : State) : State :=
  mkState (renderer s) (scene s) (camera s) (clock s) (AmmoLib s) (physicsWorld s) (leftCloth s)
    (rightCloth s) (leftPosAttr s) (rightPosAttr s) (leftRodMesh s) (rightRodMesh s)
    (leftRodStartX s) (rightRodStartX s) (slideDistance s) (scrollProgress s) (browser s) 
    (calls s) v.

Definition segX : nat := 40.
Definition segY : nat := 50.
Definition gravity : R := -9.8.
Definition margin : R := 0.05.
Definition maxScrollPx : R := 600.
Definition tinyAssistForce : R := 3.

(** The closure variables as the effect body initialises them. *)
Definition initial (b : Browser) : State :=
  mkState None None None (mkClock false 0) None None None None None None None None
          0 0 0 0 b [] NotMounted.

Definition rod (sd : Side) (s : State) : option THREE.Mesh :=
  match sd with LeftSide => leftRodMesh s | RightSide => rightRodMesh s end.
Definition set_rod (sd : Side) (v : option THREE.Mesh) (s : State) : State :=
  match sd with LeftSide => set_leftRodMesh v s | RightSide => set_rightRodMesh v s end.
Definition cloth (sd : Side) (s : State) : option THREE.Mesh :=
  match sd with LeftSide => leftCloth s | RightSide => rightCloth s end.
Definition set_cloth (sd : Side) (v : option THREE.Mesh) (s : State) : State :=
  match sd with LeftSide => set_leftCloth v s | RightSide => set_rightCloth v s end.
Definition posAttr (sd : Side) (s : State) : option AttrRef :=
  match sd with LeftSide => leftPosAttr s | RightSide => rightPosAttr s end.

Definition log (c : Call) : Exec State unit :=
  modify (fun s => set_calls (calls s ++ [c]) s).

Definition easeOutCubic (t : R) : R := 1 - (1 - t) ^ 3.

Definition assertReady : Exec State unit :=
  fun s => match scene s, camera s, renderer s with
           | Some _, Some _, Some _ => (Ret tt, s)
           | _, _, _ => (Throw GraphicsNotReady, s)
           end.

Definition onResize (s : State) : State :=
  match renderer s, camera s with
  | Some r, Some c =>
      let w := window (browser s) in
      set_renderer (Some (THREE.setSize (innerWidth w) (innerHeight w) r))
        (set_camera (Some (THREE.set_aspect (innerWidth w / innerHeight w) c)) s)
  | _, _ => s
  end.

Definition onScroll (s : State) : State :=
  let y := default 0 (scrollY (window (browser s))) in
  set_scrollProgress (Rmax 0 (Rmin 1 (y / maxScrollPx))) s.

Definition initGraphics (s : State) : State :=
  if container (browser s) then
    let w := window (browser s) in
    let sc := THREE.add THREE.DirectionalLight (THREE.add THREE.AmbientLight (THREE.mkScene [])) in
    let cam := THREE.mkCamera 60 (innerWidth w / innerHeight w) 0.1 2000 (mkVec3 0 0 8) in
    let rd := THREE.mkRenderer (devicePixelRatio w) (innerWidth w, innerHeight w) "" 0 in
    set_browser
      (set_listeners
         (addEventListener ScrollListener
            (addEventListener ResizeListener (listeners (browser s))))
         (browser s))
      (set_renderer (Some rd) (set_camera (Some cam) (set_scene (Some sc) s)))
  else s.

Definition initPhysics : Exec State unit :=
  let! _ := deref "AmmoLib" AmmoLib in
  modify (set_physicsWorld (Some (Ammo.newWorld (mkVec3 0 gravity 0)))).

Record ViewSize := mkViewSize { viewW : R; viewH : R }.

Definition computeViewSize : Exec State ViewSize :=
  assertReady >>
  let! cam := deref "camera" camera in
  let dist := vz (THREE.cam_position cam) in
  let vFov := THREE.fov cam * PI / 180 in
  let viewH := 2 * tan (vFov / 2) * dist in
  let viewW := viewH * THREE.aspect cam in
  ret (mkViewSize viewW viewH).

Definition createRod (xCenter y len : R) : Exec State THREE.Mesh :=
  assertReady >>
  let bar := THREE.mkMesh (mkVec3 xCenter y 0) qidentity (THREE.Box len 0.1 0.1) None in
  let! sc := deref "scene" scene in
  modify (set_scene (Some (THREE.add THREE.MeshObject sc))) >>
  let! lib := gets AmmoLib in
  match lib with
  | None => ret bar
  | Some heap =>
      let body := Ammo.newRigidBody 0 (mkVec3 (len * 0.5) 0.05 0.05)
                    (Ammo.mkTransform (mkVec3 xCenter y 0) qidentity) in
      let i := length (Ammo.bodies heap) in
      modify (set_AmmoLib (Some (Ammo.set_bodies (Ammo.bodies heap ++ [body]) heap))) >>
      let! w := deref "physicsWorld" physicsWorld in
      modify (set_physicsWorld (Some (Ammo.addRigidBody i w))) >>
      ret (THREE.set_physicsBody (Some (THREE.RigidRef i)) bar)
  end.

(** The closure [mk] of [createCurtains]; materials and shadow flags do not
    reach the physics or the buffers and are left out. *)
Definition mk (half viewH yTop xShift : R) : Exec State THREE.Mesh :=
  let geo := THREE.translate xShift (yTop - viewH / 2) 0
               (THREE.PlaneGeometry half viewH segX segY) in
  let mesh := THREE.mkMesh vzero qidentity (THREE.Buffer geo) None in
  let! sc := deref "scene" scene in
  modify (set_scene (Some (THREE.add THREE.MeshObject sc))) >>
  ret mesh.

(** The closure [makePatch]; the result is the heap index of the new body. *)
Definition makePatch (viewH yTop xLeft xRight : R) : Exec State nat :=
  let yBottom := yTop - viewH in
  let c00 := mkVec3 xLeft yTop 0 in
  let c01 := mkVec3 xRight yTop 0 in
  let c10 := mkVec3 xLeft yBottom 0 in
  let c11 := mkVec3 xRight yBottom 0 in
  let! w := deref "physicsWorld" physicsWorld in
  let! heap := deref "AmmoLib" AmmoLib in
  match Ammo.CreatePatch c00 c01 c10 c11 (segX + 1) (segY + 1) with
  | None => throw (TypeError "body")
  | Some body =>
      let body' := Ammo.configure 18 18 1.0 (margin * 2) Ammo.DISABLE_DEACTIVATION body in
      let i := length (Ammo.softs heap) in
      modify (set_AmmoLib (Some (Ammo.set_softs (Ammo.softs heap ++ [body']) heap))) >>
      modify (set_physicsWorld (Some (Ammo.addSoftBody i 1 (-1) w))) >>
      ret i
  end.

(** The closure [anchorRow]: the top row of the patch follows the rod. *)
Definition anchorRow (soft : nat) (rodMesh : option THREE.Mesh) : Exec State unit :=
  match rodMesh with
  | None => ret tt
  | Some r =>
      match THREE.physicsBody r with
      | Some (THREE.RigidRef b) =>
          let! heap := deref "AmmoLib" AmmoLib in
          modify (set_AmmoLib (Some (Ammo.set_softs
            (alter (fun sb => fold_left (fun acc i => Ammo.appendAnchor i b false 1.0 acc)
                                        (seq 0 (segX + 1)) sb)
                   soft (Ammo.softs heap)) heap)))
      | _ => throw (EngineFault "appendAnchor")
      end
  end.

Definition setClothBody (sd : Side) (soft : nat) : Exec State unit :=
  let! m := deref "cloth" (cloth sd) in
  modify (set_cloth sd (Some (THREE.set_physicsBody (Some (THREE.SoftRef soft)) m))).

Definition createCurtains : Exec State unit :=
  assertReady >>
  let! v := computeViewSize in
  let half := viewW v / 2 in
  let yTop := viewH v / 2 - 0.2 in
  modify (set_slideDistance (viewW v * 5)) >>
  let! l := createRod (- half / 2) yTop half in
  modify (set_leftRodMesh (Some l)) >>
  let! r := createRod (half / 2) yTop half in
  modify (set_rightRodMesh (Some r)) >>
  modify (set_leftRodStartX (- half / 2)) >>
  modify (set_rightRodStartX (half / 2)) >>
  let! lc := mk half (viewH v) yTop (- half / 2) in
  modify (set_leftCloth (Some lc)) >>
  let! rc := mk half (viewH v) yTop (half / 2) in
  modify (set_rightCloth (Some rc)) >>
  modify (set_leftPosAttr (Some CachedAttribute)) >>
  modify (set_rightPosAttr (Some CachedAttribute)) >>
  let! lib := gets AmmoLib in
  match lib with
  | None => ret tt
  | Some _ =>
      let! leftSoft := makePatch (viewH v) yTop (- half) 0 in
      let! rightSoft := makePatch (viewH v) yTop 0 half in
      setClothBody LeftSide leftSoft >>
      setClothBody RightSide rightSoft >>
      (let! lr := gets leftRodMesh in anchorRow leftSoft lr) >>
      (let! rr := gets rightRodMesh in anchorRow rightSoft rr)
  end.

Section Frame.
Context `{Engine}.

(** The closure [moveRod] of [animate]; [t] is the eased scroll progress the
    closure captures. *)
Definition moveRod (t : R) (sd : Side) (startX dir : R) : Exec State unit :=
  let! mesh := gets (rod sd) in
  match mesh with
  | None => ret tt
  | Some m =>
      let! sdist := gets slideDistance in
      let targetX := startX + dir * sdist * t in
      let m' := THREE.set_position
                  (mkVec3 targetX (vy (THREE.position m)) (vz (THREE.position m))) m in
      modify (set_rod sd (Some m')) >>
      let! lib := gets AmmoLib in
      match THREE.physicsBody m', lib with
      | Some (THREE.RigidRef b), Some heap =>
          let tr := Ammo.mkTransform
                      (mkVec3 targetX (vy (THREE.position m')) (vz (THREE.position m')))
                      (THREE.quaternion m') in
          modify (set_AmmoLib (Some (Ammo.set_bodies
            (alter (fun body =>
                      Ammo.activate
                        (Ammo.setAngularVelocity vzero
                           (Ammo.setLinearVelocity vzero
                              (Ammo.setWorldTransform tr body))))
                   b (Ammo.bodies heap)) heap))) >>
          log (SetWorldTransform b tr) >>
          log (SetLinearVelocity b vzero) >>
          log (SetAngularVelocity b vzero) >>
          log (Activate b)
      | Some (THREE.SoftRef _), Some _ => throw (TypeError "setLinearVelocity")
      | _, _ => ret tt
      end
  end.

(** [n = nodes.at(idx); n.get_m_f().op_add(force)] on soft body [soft]. *)
Definition addNodeForce (soft : nat) (force : Vec3) (idx : nat) : Exec State unit :=
  let! heap := deref "AmmoLib" AmmoLib in
  match Ammo.softs heap !! soft with
  | None => throw (EngineFault "soft body")
  | Some sb =>
      match Ammo.m_nodes sb !! idx with
      | None => throw (EngineFault "nodes.at")
      | Some n =>
          modify (set_AmmoLib (Some (Ammo.set_softs
            (<[soft := Ammo.set_nodes (<[idx := Ammo.addForce force n]> (Ammo.m_nodes sb)) sb]>
               (Ammo.softs heap)) heap))) >>
          log (AddForce soft idx force)
      end
  end.

Definition cols : nat := 2.

(** The node indices [xIndex + y * (segX + 1)] the assist loop visits. *)
Definition assistIndices (side : Side) : list nat :=
  flat_map (fun c =>
              map (fun y =>
                     ((match side with LeftSide => c | RightSide => segX - c end)
                      + y * (segX + 1))%nat)
                  (seq 0 (segY + 1)))
           (seq 0 cols).

(** The closure [applyAssist]. *)
Definition applyAssist (t : R) (soft : option THREE.BodyRef) (side : Side)
  : Exec State unit :=
  match soft with
  | Some (THREE.SoftRef i) =>
      let fx := match side with
                | LeftSide => - tinyAssistForce * t
                | RightSide => tinyAssistForce * t
                end in
      forEach (addNodeForce i (mkVec3 fx 0 0)) (assistIndices side)
  | _ => throw (TypeError "get_m_nodes")
  end.

(** What [sync] does to the geometry once the node positions are copied. *)
Definition refreshGeometry (arr' : list R) (g : THREE.BufferGeometry)
  : THREE.BufferGeometry :=
  let flag := match THREE.attr_normal g with
              | Some n => THREE.needsUpdate n
              | None => false
              end in
  (* mesh.geometry.computeVertexNormals() fills (or creates) the normal attribute *)
  let normal := THREE.mkAttr (computeVertexNormals arr') flag in
  (* attr.needsUpdate = true; if (nAttr) nAttr.needsUpdate = true *)
  THREE.mkGeo (THREE.mkAttr arr' true)
              (Some (THREE.mkAttr (THREE.array normal) true)).

(** The closure [sync], applied to the cloth and the cached attribute of one
    side. *)
Definition sync (sd : Side) : Exec State unit :=
  let! mesh := gets (cloth sd) in
  let! attr := gets (posAttr sd) in
  match mesh, attr with
  | Some m, Some _ =>
      match THREE.physicsBody m, THREE.geometry m with
      | Some (THREE.SoftRef i), THREE.Buffer g =>
          let! heap := deref "AmmoLib" AmmoLib in
          match Ammo.softs heap !! i with
          | None => throw (EngineFault "soft body")
          | Some sb =>
              match syncArray (Ammo.m_nodes sb) (THREE.array (THREE.attr_position g)) with
              | None => throw (EngineFault "nodes.at")
              | Some arr' =>
                  modify (set_cloth sd
                            (Some (THREE.set_geometry
                                     (THREE.Buffer (refreshGeometry arr' g)) m))) >>
                  log (SyncVertices i) >>
                  log ComputeVertexNormals
              end
          end
      | _, _ => throw (TypeError "get_m_nodes")
      end
  | _, _ => ret tt
  end.

Definition tickClock (now : R) : Exec State R :=
  fun s => let (dt, c) := getDelta now (clock s) in (Ret dt, set_clock c s).

Definition whenCloth (sd : Side) (k : THREE.Mesh -> Exec State unit) : Exec State unit :=
  let! c := gets (cloth sd) in
  match c with
  | Some m => k m
  | None => ret tt
  end.

(** The physics part of a frame, entered when [physicsWorld && AmmoLib]. *)
Definition physicsStep (dt t : R) (world : Ammo.World) (heap : Ammo.Heap)
  : Exec State unit :=
  modify (set_AmmoLib (Some (stepSimulation world heap dt 10))) >>
  log (StepSimulation dt 10) >>
  (if Rlt_dec 0 tinyAssistForce then
     whenCloth LeftSide (fun m => applyAssist t (THREE.physicsBody m) LeftSide) >>
     whenCloth RightSide (fun m => applyAssist t (THREE.physicsBody m) RightSide)
   else ret tt) >>
  whenCloth LeftSide (fun _ => sync LeftSide) >>
  whenCloth RightSide (fun _ => sync RightSide).

Definition present (t : R) : Exec State unit :=
  modify (fun s =>
            match renderer s with
            | Some r => set_renderer
                          (Some (THREE.setOpacity (if Rge_dec t 1 then "0" else "1") r)) s
            | None => s
            end) >>
  let! r := deref "renderer" renderer in
  modify (set_renderer (Some (THREE.render r))) >>
  log Render >>
  modify (fun s => set_browser
                     (set_pendingFrames (S (pendingFrames (browser s))) (browser s)) s) >>
  log RequestAnimationFrame.

Definition frame (now : R) : Exec State unit :=
  let! dt := tickClock now in
  let! t := gets (fun s => easeOutCubic (scrollProgress s)) in
  (let! x := gets leftRodStartX in moveRod t LeftSide x (-1)) >>
  (let! x := gets rightRodStartX in moveRod t RightSide x 1) >>
  (let! w := gets physicsWorld in
   let! lib := gets AmmoLib in
   match w, lib with
   | Some world, Some heap => physicsStep dt t world heap
   | _, _ => ret tt
   end) >>
  present t.

Definition animate (now : R) : Exec State unit :=
  fun s => match renderer s, scene s, camera s with
           | Some _, Some _, Some _ => frame now s
           | _, _, _ => (Ret tt, s)
           end.

(** The cleanup function the effect returns. *)
Definition cleanup (s : State) : State :=
  set_camera None
    (set_scene None
       (set_renderer None
          (set_browser
             (set_listeners
                (removeEventListener ScrollListener
                   (removeEventListener ResizeListener (listeners (browser s))))
                (browser s))
             s))).

(** *** The boot sequence, cut at its two [await]s *)

(** [console.error]: what the boot sequence does with a caught exception, and
    what the browser does with one that escapes a callback. *)
Definition report (e : Error) : Exec State unit :=
  modify (fun s => set_browser (consoleError e (browser s)) s).

Definition bootTail (now : R) : Exec State unit :=
  createCurtains >> modify onScroll >> animate now.

(** Up to the first [await]: [initGraphics(); await loadScript(...)]. *)
Definition mount (s : State) : State :=
  set_phase AwaitingScript (initGraphics s).

Inductive Event :=
| ScriptLoaded (windowAmmo : bool) (* loadScript resolved; window.Ammo is defined or not *)
| ScriptFailed (src : string)      (* loadScript rejected *)
| AmmoResolved                     (* window.Ammo(...) resolved with the module *)
| AmmoRejected                     (* window.Ammo(...) rejected *)
| Frame                            (* a queued animation-frame callback fires *)
| Scroll (y : R)
| Resize (w h : R)
| Unmount.

Definition listening (l : Listener) (s : State) : bool :=
  existsb (listener_eqb l) (listeners (browser s)).

(** One turn of the event loop at time [now] (milliseconds). *)
Definition handle (now : R) (e : Event) (s : State) : State :=
  match e with
  | ScriptLoaded windowAmmo =>
      match phase s with
      | AwaitingScript =>
          if windowAmmo then set_phase AwaitingAmmo s
          else snd (try_catch (bootTail now) report (set_phase BootEnded s))
      | _ => s
      end
  | ScriptFailed src =>
      match phase s with
      | AwaitingScript => snd (report (LoadFailure src) (set_phase BootEnded s))
      | _ => s
      end
  | AmmoResolved =>
      match phase s with
      | AwaitingAmmo =>
          snd (try_catch (initPhysics >> bootTail now) report
                 (set_AmmoLib (Some Ammo.emptyHeap) (set_phase BootEnded s)))
      | _ => s
      end
  | AmmoRejected =>
      match phase s with
      | AwaitingAmmo => snd (report AmmoInitFailure (set_phase BootEnded s))
      | _ => s
      end
  | Frame =>
      match pendingFrames (browser s) with
      | O => s
      | S n =>
          snd (try_catch (animate now) report
                 (set_browser (set_pendingFrames n (browser s)) s))
      end
  | Scroll y =>
      let w := window (browser s) in
      let s' := set_browser
                  (set_window (mkWindow (innerWidth w) (innerHeight w) (devicePixelRatio w)
                                        (Some y)) (browser s)) s in
      if listening ScrollListener s' then onScroll s' else s'
  | Resize w h =>
      let w0 := window (browser s) in
      let s' := set_browser
                  (set_window (mkWindow w h (devicePixelRatio w0) (scrollY w0)) (browser s)) s in
      if listening ResizeListener s' then onResize s' else s'
  | Unmount => set_browser (set_container false (browser (cleanup s))) (cleanup s)
  end.

Definition run (evs : list (R * Event)) (s : State) : State :=
  fold_left (fun acc ev => handle (fst ev) (snd ev) acc) evs s.

End Frame.

End Curtain.

(** ** The cloth scene ([ClothScene.tsx]) *)

Module Cloth.

Inductive BootPhase := NotMounted | AwaitingScript | AwaitingAmmo | BootEnded.

Record State := mkState {
  renderer : option THREE.WebGLRenderer;
  scene : option THREE.Scene;
  camera : option THREE.PerspectiveCamera;
  clock : Clock;
  AmmoLib : option Ammo.Heap;
  physicsWorld : option Ammo.World;
  rigidBodies : list THREE.Mesh;
  hinge : option nat;
  armMovement : R;
  cloth : option THREE.Mesh;
  clothPosAttr : option AttrRef;
  clothNormAttr : option AttrRef;
  browser : Browser;
  calls : list Call;
  phase : BootPhase
}.

Definition set_renderer (v : option THREE.WebGLRenderer) (s : State) : State :=
  mkState v (scene s) (camera s) (clock s) (AmmoLib s) (physicsWorld s) (rigidBodies s) 
    (hinge s) (armMovement s) (cloth s) (clothPosAttr s) (clothNormAttr s) (browser s) (calls s) 
    (phase s).
Definition set_scene (v : option THREE.Scene) (s : State) : State :=
  mkState (renderer s) v (camera s) (clock s) (AmmoLib s) (physicsWorld s) (rigidBodies s)
    (hinge s) (armMovement s) (cloth s) (clothPosAttr s) (clothNormAttr s) (browser s) (calls s)
    (phase s).
Definition set_camera (v : option THREE.PerspectiveCamera) (s : State) : State :=
  mkState (renderer s) (scene s) v (clock s) (AmmoLib s) (physicsWorld s) (rigidBodies s) 
    (hinge s) (armMovement s) (cloth s) (clothPosAttr s) (clothNormAttr s) (browser s) (calls s) 
    (phase s).
Definition set_clock (v : Clock) (s : State) : State :=
  mkState (renderer s) (scene s) (camera s) v (AmmoLib s) (physicsWorld s) (rigidBodies s)
    (hinge s) (armMovement s) (cloth s) (clothPosAttr s) (clothNormAttr s) (browser s) (calls s)
    (phase s).
Definition set_AmmoLib (v : option Ammo.Heap) (s : State) : State :=
  mkState (renderer s) (scene s) (camera s) (clock s) v (physicsWorld s) (rigidBodies s) 
    (hinge s) (armMovement s) (cloth s) (clothPosAttr s) (clothNormAttr s) (browser s) (calls s) 
    (phase s).
Definition set_physicsWorld (v : option Ammo.World) (s : State) : State :=
  mkState (renderer s) (scene s) (camera s) (clock s) (AmmoLib s) v (rigidBodies s) (hinge s)
    (armMovement s) (cloth s) (clothPosAttr s) (clothNormAttr s) (browser s) (calls s) (phase s).
Definition set_rigidBodies (v : list THREE.Mesh) (s : State) : State :=
  mkState (renderer s) (scene s) (camera s) (clock s) (AmmoLib s) (physicsWorld s) v (hinge s)
    (armMovement s) (cloth s) (clothPosAttr s) (clothNormAttr s) (browser s) (calls s) (phase s).
Definition set_hinge (v : option nat) (s : State) : State :=
  mkState (renderer s) (scene s) (camera s) (clock s) (AmmoLib s) (physicsWorld s) 
    (rigidBodies s) v (armMovement s) (cloth s) (clothPosAttr s) (clothNormAttr s) (browser s) (calls s)
    (phase s).
Definition set_armMovement (v : R) (s : State) : State :=
  mkState (renderer s) (scene s) (camera s) (clock s) (AmmoLib s) (physicsWorld s) 
    (rigidBodies s) (hinge s) v (cloth s) (clothPosAttr s) (clothNormAttr s) (browser s) (calls s) (phase s).
Definition set_cloth (v : option THREE.Mesh) (s : State) : State :=
  mkState (renderer s) (scene s) (camera s) (clock s) (AmmoLib s) (physicsWorld s) 
    (rigidBodies s) (hinge s) (armMovement s) v (clothPosAttr s) (clothNormAttr s) (browser s) (calls s)
    (phase s).
Definition set_clothPosAttr (v : option AttrRef) (s : State) : State :=
  mkState (renderer s) (scene s) (camera s) (clock s) (AmmoLib s) (physicsWorld s) 
    (rigidBodies s) (hinge s) (armMovement s) (cloth s) v (clothNormAttr s) (browser s) (calls s) (phase s).
Definition set_clothNormAttr (v : option AttrRef) (s : State) : State :=
  mkState (renderer s) (scene s) (camera s) (clock s) (AmmoLib s) (physicsWorld s) 
    (rigidBodies s) (hinge s) (armMovement s) (cloth s) (clothPosAttr s) v (browser s) (calls s) (phase s).
Definition set_browser (v : Browser) (s : State) : State :=
  mkState (renderer s) (scene s) (camera s) (clock s) (AmmoLib s) (physicsWorld s) 
    (rigidBodies s) (hinge s) (armMovement s) (cloth s) (clothPosAttr s) (clothNormAttr s) v (calls s) 
    (phase s).
Definition set_calls (v : list Call) (s : State) : State :=
  mkState (renderer s) (scene s) (camera s) (clock s) (AmmoLib s) (physicsWorld s) 
    (rigidBodies s) (hinge s) (armMovement s) (cloth s) (clothPosAttr s) (clothNormAttr s) (browser s) v
    (phase s).
Definition set_phase (v : BootPhase) (s : State) : State :=
  mkState (renderer s) (scene s) (camera s) (clock s) (AmmoLib s) (physicsWorld s) 
    (rigidBodies s) (hinge s) (armMovement s) (cloth s) (clothPosAttr s) (clothNormAttr s) (browser s) 
    (calls s) v.

Definition gravityConstant : R := -9.8.
Definition margin : R := 0.05.

Definition initial (b : Browser) : State :=
  mkState None None None (mkClock false 0) None None [] None 0 None None None b [] NotMounted.

Definition log (c : Call) : Exec State unit :=
  modify (fun s => set_calls (calls s ++ [c]) s).

Definition report (e : Error) : Exec State unit :=
  modify (fun s => set_browser (consoleError e (browser s)) s).

(** [containerRef.current!] is not checked: appending the canvas to a detached
    container throws after scene, camera and renderer are assigned.  The orbit
    controls and the shadow settings do not reach physics or buffers and are
    left out. *)
Definition initGraphics : Exec State unit :=
  let! w := gets (fun s => window (browser s)) in
  modify (set_scene (Some (THREE.mkScene []))) >>
  modify (set_camera (Some (THREE.mkCamera 60 (innerWidth w / innerHeight w) 0.2 2000
                              (mkVec3 (-12) 7 4)))) >>
  modify (set_renderer (Some (THREE.mkRenderer (devicePixelRatio w)
                                (innerWidth w, innerHeight w) "" 0))) >>
  let! attached := gets (fun s => container (browser s)) in
  if attached : bool then
    modify (set_scene (Some (THREE.add THREE.DirectionalLight
                               (THREE.add THREE.AmbientLight (THREE.mkScene []))))) >>
    modify (fun s => set_browser
                       (set_listeners (addEventListener ResizeListener (listeners (browser s)))
                                      (browser s)) s)
  else throw (TypeError "container.appendChild").

Definition initPhysics : Exec State unit :=
  let! _ := deref "AmmoLib" AmmoLib in
  modify (set_physicsWorld (Some (Ammo.newWorld (mkVec3 0 gravityConstant 0)))).

(** [createRigidBody]; the result is the mesh with its body reference set. *)
Definition createRigidBody (threeObject : THREE.Mesh) (halfExtents : Vec3) (mass : R)
           (pos : Vec3) (quat : Quat) : Exec State THREE.Mesh :=
  let obj := THREE.set_quaternion quat (THREE.set_position pos threeObject) in
  let! heap := deref "AmmoLib" AmmoLib in
  let body := Ammo.newRigidBody mass halfExtents (Ammo.mkTransform pos quat) in
  let i := length (Ammo.bodies heap) in
  let obj' := THREE.set_physicsBody (Some (THREE.RigidRef i)) obj in
  modify (set_AmmoLib (Some (Ammo.set_bodies (Ammo.bodies heap ++ [body]) heap))) >>
  let! sc := deref "scene" scene in
  modify (set_scene (Some (THREE.add THREE.MeshObject sc))) >>
  (if Rlt_dec 0 mass then
     modify (fun s => set_rigidBodies (rigidBodies s ++ [obj']) s) >>
     let! heap' := deref "AmmoLib" AmmoLib in
     modify (set_AmmoLib (Some (Ammo.set_bodies
       (alter (Ammo.setActivationState Ammo.DISABLE_DEACTIVATION) i (Ammo.bodies heap'))
       heap')))
   else ret tt) >>
  let! w := deref "physicsWorld" physicsWorld in
  modify (set_physicsWorld (Some (Ammo.addRigidBody i w))) >>
  ret obj'.

Definition createParallelepiped (sx sy sz mass : R) (pos : Vec3) (quat : Quat)
  : Exec State THREE.Mesh :=
  createRigidBody (THREE.mkMesh vzero qidentity (THREE.Box sx sy sz) None)
                  (mkVec3 (sx * 0.5) (sy * 0.5) (sz * 0.5)) mass pos quat.

Definition brickMass : R := 0.5.
Definition brickLength : R := 1.2.
Definition brickDepth : R := 0.6.
Definition brickHeight : R := brickLength * 0.5.
Definition numBricksLength : nat := 6.
Definition numBricksHeight : nat := 8.
Definition z0 : R := - INR numBricksLength * brickLength * 0.5.

(** The inner loop of the wall: the bricks [i] of one row, threading the
    running position [pos]. *)
Fixpoint brickRow (oddRow : bool) (nRow : nat) (idxs : list nat) (pos : Vec3)
  : Exec State Vec3 :=
  match idxs with
  | [] => ret pos
  | i :: rest =>
      let ends := oddRow && ((i =? 0)%nat || (i =? nRow - 1)%nat) in
      let len := if ends then brickLength * 0.5 else brickLength in
      let mass := if ends then brickMass * 0.5 else brickMass in
      let! _ := createParallelepiped brickDepth brickHeight len mass pos qidentity in
      let dz := if oddRow && ((i =? 0)%nat || (i =? nRow - 2)%nat)
                then 0.75 * brickLength else brickLength in
      brickRow oddRow nRow rest (mkVec3 (vx pos) (vy pos) (vz pos + dz))
  end.

(** The outer loop of the wall over the rows [j]. *)
Fixpoint wallRows (js : list nat) (pos : Vec3) : Exec State Vec3 :=
  match js with
  | [] => ret pos
  | j :: rest =>
      let oddRow := (j mod 2 =? 1)%nat in
      let z := if oddRow then z0 - 0.25 * brickLength else z0 in
      let nRow := if oddRow then (numBricksLength + 1)%nat else numBricksLength in
      let! pos' := brickRow oddRow nRow (seq 0 nRow) (mkVec3 (vx pos) (vy pos) z) in
      wallRows rest (mkVec3 (vx pos') (vy pos' + brickHeight) (vz pos'))
  end.

Definition clothWidth : R := 4.
Definition clothHeight : R := 3.
Definition clothNumSegmentsZ : nat := 4 * 5.
Definition clothNumSegmentsY : nat := 3 * 5.
Definition clothPos : Vec3 := mkVec3 (-3) 3 2.
Definition armMass : R := 2.
Definition armLength : R := 3 + clothWidth.
Definition pylonHeight : R := vy clothPos + clothHeight.
Definition influence : R := 0.5.

Section Frame.
Context `{Engine}.

(** [geometry.computeVertexNormals()] *)
Definition recomputeNormals (g : THREE.BufferGeometry) : THREE.BufferGeometry :=
  THREE.mkGeo (THREE.attr_position g)
    (Some (THREE.mkAttr (computeVertexNormals (THREE.array (THREE.attr_position g)))
             (match THREE.attr_normal g with
              | Some n => THREE.needsUpdate n
              | None => false
              end))).

Definition clothGeometry : THREE.BufferGeometry :=
  THREE.translate (vx clothPos) (vy clothPos + clothHeight * 0.5)
                  (vz clothPos - clothWidth * 0.5)
    (THREE.rotateY (PI * 0.5)
       (THREE.PlaneGeometry clothWidth clothHeight clothNumSegmentsZ clothNumSegmentsY)).

Definition alterSoft (i : nat) (f : Ammo.btSoftBody -> Ammo.btSoftBody) : Exec State unit :=
  let! heap := deref "AmmoLib" AmmoLib in
  modify (set_AmmoLib (Some (Ammo.set_softs (alter f i (Ammo.softs heap)) heap))).

(** The body reference an anchor or a hinge is given. *)
Definition rigidOf (m : THREE.Mesh) : Exec State nat :=
  match THREE.physicsBody m with
  | Some (THREE.RigidRef b) => ret b
  | _ => throw (EngineFault "rigid body")
  end.

Definition createObjects : Exec State unit :=
  (* ground *)
  let! _ := createParallelepiped 40 1 40 0 (mkVec3 0 (-0.5) 0) qidentity in
  (* wall *)
  let! _ := wallRows (seq 0 numBricksHeight) (mkVec3 0 (brickHeight * 0.5) z0) in
  (* cloth visuals *)
  let mesh := THREE.mkMesh vzero qidentity (THREE.Buffer clothGeometry) None in
  modify (set_cloth (Some mesh)) >>
  let! sc := deref "scene" scene in
  modify (set_scene (Some (THREE.add THREE.MeshObject sc))) >>
  (* cache attrs *)
  modify (set_clothPosAttr (Some CachedAttribute)) >>
  modify (set_clothNormAttr (Some CachedAttribute)) >>
  modify (set_cloth (Some (THREE.set_geometry
                             (THREE.Buffer (recomputeNormals clothGeometry)) mesh))) >>
  (* cloth soft body *)
  let clothCorner00 := mkVec3 (vx clothPos) (vy clothPos + clothHeight) (vz clothPos) in
  let clothCorner01 := mkVec3 (vx clothPos) (vy clothPos + clothHeight)
                              (vz clothPos - clothWidth) in
  let clothCorner10 := mkVec3 (vx clothPos) (vy clothPos) (vz clothPos) in
  let clothCorner11 := mkVec3 (vx clothPos) (vy clothPos) (vz clothPos - clothWidth) in
  let! w := deref "physicsWorld" physicsWorld in
  let! heap := deref "AmmoLib" AmmoLib in
  match Ammo.CreatePatch clothCorner00 clothCorner01 clothCorner10 clothCorner11
                         (clothNumSegmentsZ + 1) (clothNumSegmentsY + 1) with
  | None => throw (TypeError "clothSoftBody")
  | Some body =>
      let body' := Ammo.configure 10 10 0.9 (margin * 3) Ammo.DISABLE_DEACTIVATION body in
      let soft := length (Ammo.softs heap) in
      modify (set_AmmoLib (Some (Ammo.set_softs (Ammo.softs heap ++ [body']) heap))) >>
      modify (set_physicsWorld (Some (Ammo.addSoftBody soft 1 (-1) w))) >>
      let! c := deref "cloth" cloth in
      modify (set_cloth (Some (THREE.set_physicsBody (Some (THREE.SoftRef soft)) c))) >>
      (* arm *)
      let! _ := createParallelepiped 1 0.2 1 0
                  (mkVec3 (vx clothPos) 0.1 (vz clothPos - armLength)) qidentity in
      let! pylon := createParallelepiped 0.4 pylonHeight 0.4 0
                      (mkVec3 (vx clothPos) (0.5 * pylonHeight) (vz clothPos - armLength))
                      qidentity in
      let! arm := createParallelepiped 0.4 0.4 (armLength + 0.4) armMass
                    (mkVec3 (vx clothPos) (pylonHeight + 0.2) (vz clothPos - 0.5 * armLength))
                    qidentity in
      (* anchors *)
      let! armBody := rigidOf arm in
      alterSoft soft (Ammo.appendAnchor 0 armBody false influence) >>
      alterSoft soft (Ammo.appendAnchor clothNumSegmentsZ armBody false influence) >>
      (* hinge *)
      let! pylonBody := rigidOf pylon in
      let! heap' := deref "AmmoLib" AmmoLib in
      let h := Ammo.mkHinge pylonBody armBody (mkVec3 0 (pylonHeight * 0.5) 0)
                 (mkVec3 0 (-0.2) (- armLength * 0.5)) (mkVec3 0 1 0) false 0 0 in
      let hi := length (Ammo.hinges heap') in
      modify (set_AmmoLib (Some (Ammo.set_hinges (Ammo.hinges heap' ++ [h]) heap'))) >>
      modify (set_hinge (Some hi)) >>
      let! w' := deref "physicsWorld" physicsWorld in
      modify (set_physicsWorld (Some (Ammo.addConstraint hi w')))
  end.

Definition keydown (code : string) (s : State) : State :=
  let s1 := if String.eqb code "KeyQ" then set_armMovement 1 s else s in
  if String.eqb code "KeyA" then set_armMovement (-1) s1 else s1.

Definition keyup (s : State) : State := set_armMovement 0 s.

Definition initInput (s : State) : State :=
  set_browser
    (set_listeners
       (addEventListener KeyupListener
          (addEventListener KeydownListener (listeners (browser s))))
       (browser s)) s.

Definition tickClock (now : R) : Exec State R :=
  fun s => let (dt, c) := getDelta now (clock s) in (Ret dt, set_clock c s).

(** The vertex copy of [animate], entered when [cloth && clothPosAttr]. *)
Definition syncCloth (m : THREE.Mesh) : Exec State unit :=
  match THREE.physicsBody m, THREE.geometry m with
  | Some (THREE.SoftRef i), THREE.Buffer g =>
      let! heap := deref "AmmoLib" AmmoLib in
      match Ammo.softs heap !! i with
      | None => throw (EngineFault "soft body")
      | Some sb =>
          match syncArray (Ammo.m_nodes sb) (THREE.array (THREE.attr_position g)) with
          | None => throw (EngineFault "nodes.at")
          | Some arr' =>
              let g1 := recomputeNormals
                          (THREE.mkGeo (THREE.mkAttr arr' (THREE.needsUpdate (THREE.attr_position g)))
                                       (THREE.attr_normal g)) in
              let! nattr := gets clothNormAttr in
              let g2 := THREE.mkGeo (THREE.mkAttr arr' true)
                          (match nattr, THREE.attr_normal g1 with
                           | Some _, Some n => Some (THREE.mkAttr (THREE.array n) true)
                           | _, n => n
                           end) in
              modify (set_cloth (Some (THREE.set_geometry (THREE.Buffer g2) m))) >>
              log (SyncVertices i) >>
              log ComputeVertexNormals
          end
      end
  | _, _ => throw (TypeError "get_m_nodes")
  end.

(** The loop over [rigidBodies]: each mesh takes the pose of its body. *)
Definition mirrorPose (heap : Ammo.Heap) (obj : THREE.Mesh) : THREE.Mesh :=
  match THREE.physicsBody obj with
  | Some (THREE.RigidRef b) =>
      match Ammo.bodies heap !! b with
      | Some body =>
          THREE.set_quaternion (Ammo.rotation (Ammo.worldTransform body))
            (THREE.set_position (Ammo.origin (Ammo.worldTransform body)) obj)
      | None => obj
      end
  | _ => obj
  end.

Definition animate (now : R) : Exec State unit :=
  let! deltaTime := tickClock now in
  (let! h := gets hinge in
   match h with
   | Some hi =>
       let! am := gets armMovement in
       let! heap := deref "AmmoLib" AmmoLib in
       modify (set_AmmoLib (Some (Ammo.set_hinges
         (alter (Ammo.enableAngularMotor true (0.8 * am) 50) hi (Ammo.hinges heap)) heap))) >>
       log (EnableAngularMotor true (0.8 * am) 50)
   | None => ret tt
   end) >>
  (let! w := gets physicsWorld in
   match w with
   | Some world =>
       let! heap := deref "AmmoLib" AmmoLib in
       modify (set_AmmoLib (Some (stepSimulation world heap deltaTime 10))) >>
       log (StepSimulation deltaTime 10) >>
       (let! c := gets cloth in
        let! a := gets clothPosAttr in
        match c, a with
        | Some m, Some _ => syncCloth m
        | _, _ => ret tt
        end) >>
       let! heap' := deref "AmmoLib" AmmoLib in
       modify (fun s => set_rigidBodies (map (mirrorPose heap') (rigidBodies s)) s)
   | None => ret tt
   end) >>
  let! r := deref "renderer" renderer in
  modify (set_renderer (Some (THREE.render r))) >>
  log Render >>
  modify (fun s => set_browser
                     (set_pendingFrames (S (pendingFrames (browser s))) (browser s)) s) >>
  log RequestAnimationFrame.

Definition onWindowResize (s : State) : State :=
  match renderer s with
  | None => s
  | Some r =>
      let w := window (browser s) in
      set_renderer (Some (THREE.setSize (innerWidth w) (innerHeight w) r))
        (set_camera (THREE.set_aspect (innerWidth w / innerHeight w) <$> camera s) s)
  end.

(** The cleanup function the effect returns. *)
Definition cleanup (s : State) : State :=
  let s' := set_browser
              (set_listeners
                 (removeEventListener KeyupListener
                    (removeEventListener KeydownListener
                       (removeEventListener ResizeListener (listeners (browser s)))))
                 (browser s)) s in
  match renderer s' with
  | Some _ => set_renderer None s'
  | None => s'
  end.

(** *** The boot sequence, cut at its two [await]s; nothing catches *)

Definition bootTail (now : R) : Exec State unit :=
  initGraphics >> initPhysics >> createObjects >> modify initInput >> animate now.

Definition mount (s : State) : State := set_phase AwaitingScript s.

Inductive Event :=
| ScriptLoaded (windowAmmo : bool)
| ScriptFailed (src : string)
| AmmoResolved
| AmmoRejected
| Frame
| Keydown (code : string)
| Keyup
| Resize (w h : R)
| Unmount.

Definition listening (l : Listener) (s : State) : bool :=
  existsb (listener_eqb l) (listeners (browser s)).

Definition handle (now : R) (e : Event) (s : State) : State :=
  match e with
  | ScriptLoaded windowAmmo =>
      match phase s with
      | AwaitingScript =>
          if windowAmmo then set_phase AwaitingAmmo s
          else snd (report AmmoLoaderMissing (set_phase BootEnded s))
      | _ => s
      end
  | ScriptFailed src =>
      match phase s with
      | AwaitingScript => snd (report (LoadFailure src) (set_phase BootEnded s))
      | _ => s
      end
  | AmmoResolved =>
      match phase s with
      | AwaitingAmmo =>
          snd (try_catch (bootTail now) report
                 (set_AmmoLib (Some Ammo.emptyHeap) (set_phase BootEnded s)))
      | _ => s
      end
  | AmmoRejected =>
      match phase s with
      | AwaitingAmmo => snd (report AmmoInitFailure (set_phase BootEnded s))
      | _ => s
      end
  | Frame =>
      match pendingFrames (browser s) with
      | O => s
      | S n =>
          snd (try_catch (animate now) report
                 (set_browser (set_pendingFrames n (browser s)) s))
      end
  | Keydown code => if listening KeydownListener s then keydown code s else s
  | Keyup => if listening KeyupListener s then keyup s else s
  | Resize w h =>
      let w0 := window (browser s) in
      let s' := set_browser
                  (set_window (mkWindow w h (devicePixelRatio w0) (scrollY w0)) (browser s)) s in
      if listening ResizeListener s' then onWindowResize s' else s'
  | Unmount => set_browser (set_container false (browser (cleanup s))) (cleanup s)
  end.

Definition run (evs : list (R * Event)) (s : State) : State :=
  fold_left (fun acc ev => handle (fst ev) (snd ev) acc) evs s.

End Frame.

End Cloth.

(** ** Concrete inputs used to exercise the statements *)

(** A solver stand-in: every soft-body node falls with gravity for [dt]
    seconds and its force accumulator is cleared; rigid bodies stay put. *)
Definition fallNode (g : Vec3) (dt : R) (n : Ammo.Node) : Ammo.Node :=
  Ammo.mkNode (mkVec3 (vx (Ammo.m_x n) + vx g * dt) (vy (Ammo.m_x n) + vy g * dt)
                      (vz (Ammo.m_x n) + vz g * dt))
              vzero.

Definition fallStep (w : Ammo.World) (h : Ammo.Heap) (dt : R) (maxSubSteps : nat)
  : Ammo.Heap :=
  Ammo.set_softs
    ((fun sb => Ammo.set_nodes (fallNode (Ammo.gravity w) dt <$> Ammo.m_nodes sb) sb)
       <$> Ammo.softs h)
    h.

(** A normal pass that gives every vertex the normal (0, 0, 1). *)
Definition flatNormals (positions : list R) : list R :=
  THREE.mapTriplets (fun _ _ _ => [0; 0; 1]) positions.

Definition demoEngine : Engine :=
  {| stepSimulation := fallStep; computeVertexNormals := flatNormals |}.

(** A 1600 x 900 window with an attached container, scrolled to the top. *)
Definition demoBrowser : Browser :=
  mkBrowser (mkWindow 1600 900 1 (Some 0)) true [] 0 [].

(** ** Vocabulary for the statements *)

(** [framed R c]: whatever [c] does, and whether it returns or throws, the
    state it leaves is related by [R] to the one it started from. *)
Definition framed {St A} (R : St -> St -> Prop) (c : Exec St A) : Prop :=
  forall s, R s (snd (c s)).

(** What the actuator works from: the rods' start positions, the slide
    distance and the control signal. *)
Definition sameControls (s s' : Curtain.State) : Prop :=
  Curtain.leftRodStartX s' = Curtain.leftRodStartX s /\
  Curtain.rightRodStartX s' = Curtain.rightRodStartX s /\
  Curtain.slideDistance s' = Curtain.slideDistance s /\
  Curtain.scrollProgress s' = Curtain.scrollProgress s.

(** The rods and what the actuator works from are untouched. *)
Definition sameRods (s s' : Curtain.State) : Prop :=
  Curtain.leftRodMesh s' = Curtain.leftRodMesh s /\
  Curtain.rightRodMesh s' = Curtain.rightRodMesh s /\
  sameControls s s'.

(** The x coordinate of a rod mesh. *)
Definition rodX (sd : Side) (s : Curtain.State) : option R :=
  (fun m => vx (THREE.position m)) <$> Curtain.rod sd s.

(** A rod whose [userData.physicsBody], if set, is a rigid body. *)
Definition rigidRod (m : THREE.Mesh) : Prop :=
  forall i, THREE.physicsBody m <> Some (THREE.SoftRef i).

(** The pose [moveRod] gives a rod mesh and its body. *)
Definition rodTarget (startX dir slide t : R) (m : THREE.Mesh) : Ammo.btTransform :=
  Ammo.mkTransform
    (mkVec3 (startX + dir * slide * t) (vy (THREE.position m)) (vz (THREE.position m)))
    (THREE.quaternion m).

(** The kinematic overwrite of a rod's body, as [moveRod] performs it. *)
Definition kinematicPose (tr : Ammo.btTransform) (body : Ammo.btRigidBody)
  : Ammo.btRigidBody :=
  Ammo.activate
    (Ammo.setAngularVelocity vzero
       (Ammo.setLinearVelocity vzero (Ammo.setWorldTransform tr body))).

(** The engine calls of one kinematic overwrite. *)
Definition poseCalls (b : nat) (tr : Ammo.btTransform) : list Call :=
  [SetWorldTransform b tr; SetLinearVelocity b vzero; SetAngularVelocity b vzero;
   Activate b].

(** The number of vertices, and of soft-body nodes, of one curtain. *)
Definition nodeCount : nat := (Curtain.segX + 1) * (Curtain.segY + 1).

Definition GraphicsReady (s : Curtain.State) : Prop :=
  is_Some (Curtain.scene s) /\ is_Some (Curtain.camera s) /\
  is_Some (Curtain.renderer s).

(** The rod on side [sd] exists and refers to rigid body [b]. *)
Definition rodDriven (sd : Side) (b : nat) (s : Curtain.State) : Prop :=
  exists m, Curtain.rod sd s = Some m /\
            THREE.physicsBody m = Some (THREE.RigidRef b).

(** The curtain on side [sd] exists with a cached position attribute over
    [3 * nodeCount] entries and refers to soft body [i], which has
    [nodeCount] nodes. *)
Definition patchAligned (sd : Side) (i : nat) (s : Curtain.State) : Prop :=
  exists m g heap sb,
    Curtain.cloth sd s = Some m /\
    Curtain.posAttr sd s = Some CachedAttribute /\
    THREE.geometry m = THREE.Buffer g /\
    THREE.physicsBody m = Some (THREE.SoftRef i) /\
    Curtain.AmmoLib s = Some heap /\
    Ammo.softs heap !! i = Some sb /\
    length (Ammo.m_nodes sb) = nodeCount /\
    length (THREE.array (THREE.attr_position g)) = (nodeCount * 3)%nat.

(** The state a successful boot with the physics engine leaves, and every
    later frame keeps: graphics and world exist, both rods are backed by
    rigid bodies [bL], [bR] and both curtains by soft bodies [iL], [iR]. *)
Definition Simulated (bL bR iL iR : nat) (s : Curtain.State) : Prop :=
  GraphicsReady s /\ is_Some (Curtain.physicsWorld s) /\
  rodDriven LeftSide bL s /\ rodDriven RightSide bR s /\
  patchAligned LeftSide iL s /\ patchAligned RightSide iR s.

(** What is asked of the solver step: it keeps the soft bodies in place and
    neither adds nor removes nodes. *)
Definition KeepsNodeCounts `{Engine} : Prop :=
  forall w h dt n,
    (fun sb => length (Ammo.m_nodes sb)) <$> Ammo.softs (stepSimulation w h dt n)
    = (fun sb => length (Ammo.m_nodes sb)) <$> Ammo.softs h.

(** Every soft body of [h] is still there in [h'] with the same node
    positions. *)
Definition keepsPositions (h h' : Ammo.Heap) : Prop :=
  forall j sb, Ammo.softs h !! j = Some sb ->
    exists sb', Ammo.softs h' !! j = Some sb' /\
                Ammo.m_x <$> Ammo.m_nodes sb' = Ammo.m_x <$> Ammo.m_nodes sb.

(** The seam force of side [side] at eased progress [t]. *)
Definition assistForce (side : Side) (t : R) : Vec3 :=
  mkVec3 (match side with
          | LeftSide => - Curtain.tinyAssistForce * t
          | RightSide => Curtain.tinyAssistForce * t
          end) 0 0.

Definition assistCalls (soft : nat) (side : Side) (t : R) : list Call :=
  (fun idx => AddForce soft idx (assistForce side t)) <$> Curtain.assistIndices side.

Definition syncCalls (soft : nat) : list Call := [SyncVertices soft; ComputeVertexNormals].

(** The claimed order of a frame, read on its call log: once the world has
    been stepped, no further force is injected. *)
Definition forcesPrecedeStep (l : list Call) : Prop :=
  forall pre post dt n soft idx f,
    l = pre ++ StepSimulation dt n :: post -> ~ In (AddForce soft idx f) post.

(** After a frame: every vertex triplet of the curtain on side [sd] holds the
    position of the node with the same index of soft body [i], the normals
    are recomputed from those positions, and both attributes are dirty. *)
Definition patchSynced `{Engine} (sd : Side) (i : nat) (s : Curtain.State) : Prop :=
  exists m g heap sb,
    Curtain.cloth sd s = Some m /\
    THREE.geometry m = THREE.Buffer g /\
    Curtain.AmmoLib s = Some heap /\
    Ammo.softs heap !! i = Some sb /\
    (forall k, (k < nodeCount)%nat ->
       exists nd, Ammo.m_nodes sb !! k = Some nd /\
                  THREE.array (THREE.attr_position g) !! (3 * k)%nat
                  = Some (vx (Ammo.m_x nd)) /\
                  THREE.array (THREE.attr_position g) !! (3 * k + 1)%nat
                  = Some (vy (Ammo.m_x nd)) /\
                  THREE.array (THREE.attr_position g) !! (3 * k + 2)%nat
                  = Some (vz (Ammo.m_x nd))) /\
    THREE.needsUpdate (THREE.attr_position g) = true /\
    THREE.attr_normal g
    = Some (THREE.mkAttr (computeVertexNormals (THREE.array (THREE.attr_position g))) true).

(** The engine calls of one frame of the simulated curtain scene, in program
    order. *)
Definition frameCalls (bL bR iL iR : nat) (trL trR : Ammo.btTransform) (dt t : R)
  : list Call :=
  poseCalls bL trL ++ poseCalls bR trR
  ++ StepSimulation dt 10
  :: assistCalls iL LeftSide t ++ assistCalls iR RightSide t
  ++ syncCalls iL ++ syncCalls iR
  ++ [Render; RequestAnimationFrame].

(** The view size [computeViewSize] derives from a camera. *)
Definition viewSizeOf (cam : THREE.PerspectiveCamera) : Curtain.ViewSize :=
  let viewH := 2 * tan (THREE.fov cam * PI / 180 / 2) * vz (THREE.cam_position cam) in
  Curtain.mkViewSize (viewH * THREE.aspect cam) viewH.

(** The rod mesh and the rod body [createRod] builds. *)
Definition rodMesh (xCenter y len : R) (body : option THREE.BodyRef) : THREE.Mesh :=
  THREE.mkMesh (mkVec3 xCenter y 0) qidentity (THREE.Box len 0.1 0.1) body.

Definition rodBody (xCenter y len : R) : Ammo.btRigidBody :=
  Ammo.newRigidBody 0 (mkVec3 (len * 0.5) 0.05 0.05)
    (Ammo.mkTransform (mkVec3 xCenter y 0) qidentity).

(** The curtain mesh [mk] builds for a view of the given size. *)
Definition curtainGeometry (half viewH yTop xShift : R) : THREE.BufferGeometry :=
  THREE.translate xShift (yTop - viewH / 2) 0
    (THREE.PlaneGeometry half viewH Curtain.segX Curtain.segY).

Definition curtainMesh (half viewH yTop xShift : R) (body : option THREE.BodyRef)
  : THREE.Mesh :=
  THREE.mkMesh vzero qidentity (THREE.Buffer (curtainGeometry half viewH yTop xShift)) body.

(** The anchoring of the top row of a patch to rod body [b]. *)
Definition anchored (b : nat) (sb : Ammo.btSoftBody) : Ammo.btSoftBody :=
  fold_left (fun acc i => Ammo.appendAnchor i b false 1.0 acc) (seq 0 (Curtain.segX + 1)) sb.

(** The length of the position buffer of the curtain on side [sd]. *)
Definition clothLength (sd : Side) (s : Curtain.State) : option nat :=
  m ← Curtain.cloth sd s; length <$> THREE.positions m.

(** What every frame keeps, whether it completes or throws: the boot phase,
    the registered listeners, the controls, and the length of both position
    buffers. *)
Definition frameKeeps (s s' : Curtain.State) : Prop :=
  Curtain.phase s' = Curtain.phase s /\
  listeners (Curtain.browser s') = listeners (Curtain.browser s) /\
  sameControls s s' /\
  forall sd, clothLength sd s' = clothLength sd s.

(** The curtain scene mounted in the demo browser, and booted there with
    the engine available (the first frame has run). *)
Definition demoStart : Curtain.State := Curtain.mount (Curtain.initial demoBrowser).

Definition demoBooted : Curtain.State :=
  @Curtain.run demoEngine
    [(0, Curtain.ScriptLoaded true); (16, Curtain.AmmoResolved)] demoStart.

(** The demo scene between [createCurtains] and the first frame of its boot. *)
Definition demoBuilt : Curtain.State :=
  snd (Curtain.createCurtains
         (Curtain.set_physicsWorld (Some (Ammo.newWorld (mkVec3 0 Curtain.gravity 0)))
            (Curtain.set_AmmoLib (Some Ammo.emptyHeap)
               (Curtain.set_phase Curtain.BootEnded
                  (Curtain.set_phase Curtain.AwaitingAmmo demoStart))))).

(** The curtain scene after disposal: no renderer, and neither of the two
    listeners the scene registers is still registered. *)
Definition Disposed (s : Curtain.State) : Prop :=
  Curtain.renderer s = None /\
  existsb (listener_eqb ResizeListener) (listeners (Curtain.browser s)) = false /\
  existsb (listener_eqb ScrollListener) (listeners (Curtain.browser s)) = false.

(** The frames requested so far, read on the call log. *)
Definition isRequest (c : Call) : bool :=
  match c with RequestAnimationFrame => true | _ => false end.

Definition framesRequested (l : list Call) : nat := length (List.filter isRequest l).

(** The number of vertices, and of soft-body nodes, of the cloth. *)
Definition clothNodeCount : nat :=
  (Cloth.clothNumSegmentsZ + 1) * (Cloth.clothNumSegmentsY + 1).

(** The cloth scene has what [createRigidBody] needs: the engine module, the
    scene and the world. *)
Definition bodyUp (s : Cloth.State) : Prop :=
  is_Some (Cloth.AmmoLib s) /\ is_Some (Cloth.scene s) /\ is_Some (Cloth.physicsWorld s).

(** What building rigid bodies leaves alone: everything but the scene
    graph, the list of dynamic meshes, the world's registrations and the
    rigid bodies on the engine's heap. *)
Definition buildKeeps (s s' : Cloth.State) : Prop :=
  Cloth.renderer s' = Cloth.renderer s /\ Cloth.camera s' = Cloth.camera s /\
  Cloth.clock s' = Cloth.clock s /\ Cloth.hinge s' = Cloth.hinge s /\
  Cloth.armMovement s' = Cloth.armMovement s /\ Cloth.cloth s' = Cloth.cloth s /\
  Cloth.clothPosAttr s' = Cloth.clothPosAttr s /\
  Cloth.clothNormAttr s' = Cloth.clothNormAttr s /\
  Cloth.browser s' = Cloth.browser s /\ Cloth.calls s' = Cloth.calls s /\
  Cloth.phase s' = Cloth.phase s /\
  Ammo.softs <$> Cloth.AmmoLib s' = Ammo.softs <$> Cloth.AmmoLib s /\
  Ammo.hinges <$> Cloth.AmmoLib s' = Ammo.hinges <$> Cloth.AmmoLib s.

(** The cloth mesh exists with a cached position attribute over
    [3 * clothNodeCount] entries and refers to soft body [soft], which has
    [clothNodeCount] nodes; the world exists. *)
Definition ClothReady (soft : nat) (s : Cloth.State) : Prop :=
  exists m g heap sb,
    Cloth.cloth s = Some m /\
    Cloth.clothPosAttr s = Some CachedAttribute /\
    Cloth.clothNormAttr s = Some CachedAttribute /\
    THREE.geometry m = THREE.Buffer g /\
    THREE.physicsBody m = Some (THREE.SoftRef soft) /\
    Cloth.AmmoLib s = Some heap /\
    Ammo.softs heap !! soft = Some sb /\
    length (Ammo.m_nodes sb) = clothNodeCount /\
    length (THREE.array (THREE.attr_position g)) = (clothNodeCount * 3)%nat /\
    is_Some (Cloth.physicsWorld s).

(** After a frame of the cloth scene: every vertex triplet holds the position
    of the node with the same index, the normals are recomputed from those
    positions, and both attributes are dirty. *)
Definition clothSynced `{Engine} (soft : nat) (s : Cloth.State) : Prop :=
  exists m g heap sb,
    Cloth.cloth s = Some m /\
    THREE.geometry m = THREE.Buffer g /\
    Cloth.AmmoLib s = Some heap /\
    Ammo.softs heap !! soft = Some sb /\
    (forall k, (k < clothNodeCount)%nat ->
       exists nd, Ammo.m_nodes sb !! k = Some nd /\
                  THREE.array (THREE.attr_position g) !! (3 * k)%nat
                  = Some (vx (Ammo.m_x nd)) /\
                  THREE.array (THREE.attr_position g) !! (3 * k + 1)%nat
                  = Some (vy (Ammo.m_x nd)) /\
                  THREE.array (THREE.attr_position g) !! (3 * k + 2)%nat
                  = Some (vz (Ammo.m_x nd))) /\
    THREE.needsUpdate (THREE.attr_position g) = true /\
    THREE.attr_normal g
    = Some (THREE.mkAttr (computeVertexNormals (THREE.array (THREE.attr_position g))) true).


(** The motor call of a frame of the cloth scene, made when the hinge
    exists. *)
Definition motorCalls (s : Cloth.State) : list Call :=
  match Cloth.hinge s with
  | Some _ => [EnableAngularMotor true (0.8 * Cloth.armMovement s) 50]
  | None => []
  end.

(** The cloth scene once a frame has rendered and requested its successor. *)
Definition presented (r : THREE.WebGLRenderer) (s : Cloth.State) : Cloth.State :=
  Cloth.set_calls (Cloth.calls s ++ [Render; RequestAnimationFrame])
    (Cloth.set_browser
       (set_pendingFrames (S (pendingFrames (Cloth.browser s))) (Cloth.browser s))
       (Cloth.set_renderer (Some (THREE.render r)) s)).

(** The length of the position buffer of the cloth. *)
Definition clothBuffer (s : Cloth.State) : option nat :=
  m ← Cloth.cloth s; length <$> THREE.positions m.

(** What every frame of the cloth scene keeps, whether it completes or
    throws: the boot phase, the registered listeners and the length of the
    position buffer. *)
Definition clothKeeps (s s' : Cloth.State) : Prop :=
  Cloth.phase s' = Cloth.phase s /\
  listeners (Cloth.browser s') = listeners (Cloth.browser s) /\
  clothBuffer s' = clothBuffer s.

(** None of the three listeners the cloth scene registers is registered. *)
Definition Unlistened (s : Cloth.State) : Prop :=
  Cloth.listening ResizeListener s = false /\
  Cloth.listening KeydownListener s = false /\
  Cloth.listening KeyupListener s = false.

(** The cloth scene mounted in the demo browser, and booted there (the first
    frame has run). *)
Definition clothStart : Cloth.State := Cloth.mount (Cloth.initial demoBrowser).

Definition clothBooted : Cloth.State :=
  @Cloth.run demoEngine [(0, Cloth.ScriptLoaded true); (16, Cloth.AmmoResolved)] clothStart.

(** The two demo scenes at the point where their objects are built: the
    curtain scene with graphics, module and world, the cloth scene with
    module, scene graph and world. *)
Definition demoWorld : Curtain.State :=
  Curtain.set_physicsWorld (Some (Ammo.newWorld (mkVec3 0 Curtain.gravity 0)))
    (Curtain.set_AmmoLib (Some Ammo.emptyHeap)
       (Curtain.set_phase Curtain.BootEnded demoStart)).

Definition clothGround : Cloth.State :=
  Cloth.set_physicsWorld (Some (Ammo.newWorld (mkVec3 0 Cloth.gravityConstant 0)))
    (Cloth.set_scene (Some (THREE.mkScene []))
       (Cloth.set_AmmoLib (Some Ammo.emptyHeap)
          (Cloth.set_phase Cloth.BootEnded clothStart))).

(** Successive frame callbacks, fired at the given times. *)
Definition curtainFrames `{Engine} (times : list R) (s : Curtain.State) : Curtain.State :=
  fold_left (fun acc t => snd (Curtain.animate t acc)) times s.

Definition clothFrames `{Engine} (times : list R) (s : Cloth.State) : Cloth.State :=
  fold_left (fun acc t => snd (Cloth.animate t acc)) times s.

(** The sync loop over the position buffer of [m] stays within the nodes of
    the soft body [m] refers to: that body has [res] nodes, the loop runs
    [res] times, and every index it reads is one of a node. *)
Definition syncInBounds (res : nat) (m : THREE.Mesh) (heap : Ammo.Heap) : Prop :=
  exists g i sb,
    THREE.geometry m = THREE.Buffer g /\
    THREE.physicsBody m = Some (THREE.SoftRef i) /\
    Ammo.softs heap !! i = Some sb /\
    length (Ammo.m_nodes sb) = res /\
    loopCount (length (THREE.array (THREE.attr_position g))) = res /\
    forall k, (k < loopCount (length (THREE.array (THREE.attr_position g))))%nat ->
              is_Some (Ammo.m_nodes sb !! k).

Definition patchInBounds (sd : Side) (s : Curtain.State) : Prop :=
  exists m heap,
    Curtain.cloth sd s = Some m /\ Curtain.AmmoLib s = Some heap /\
    syncInBounds ((Curtain.segX + 1) * (Curtain.segY + 1)) m heap.

Definition clothInBounds (s : Cloth.State) : Prop :=
  exists m heap,
    Cloth.cloth s = Some m /\ Cloth.AmmoLib s = Some heap /\
    syncInBounds ((Cloth.clothNumSegmentsZ + 1) * (Cloth.clothNumSegmentsY + 1)) m heap.

(** The lever of the cloth scene is untouched. *)
Definition sameArm (s s' : Cloth.State) : Prop :=
  Cloth.armMovement s' = Cloth.armMovement s.

(** The three positions of the lever. *)
Definition armPosition (x : R) : Prop := x = -1 \/ x = 0 \/ x = 1.

(** Vertex [k] of a flat position array. *)
Definition vertexAt (arr : list R) (k : nat) : option Vec3 :=
  match arr !! (3 * k)%nat, arr !! (3 * k + 1)%nat, arr !! (3 * k + 2)%nat with
  | Some x, Some y, Some z => Some (mkVec3 x y z)
  | _, _, _ => None
  end.

(** The first [n] vertices of [arr] lie where the first [n] of [nodes] are. *)
Definition coincide (nodes : list Ammo.Node) (arr : list R) (n : nat) : Prop :=
  forall k, (k < n)%nat ->
    is_Some (nodes !! k) /\ vertexAt arr k = Ammo.m_x <$> nodes !! k.

(** The soft body [makePatch] creates between [xLeft] and [xRight], as it is
    configured before it is anchored. *)
Definition patchBody (viewH yTop xLeft xRight : R) : option Ammo.btSoftBody :=
  Ammo.configure 18 18 1.0 (Curtain.margin * 2) Ammo.DISABLE_DEACTIVATION
    <$> Ammo.CreatePatch (mkVec3 xLeft yTop 0) (mkVec3 xRight yTop 0)
          (mkVec3 xLeft (yTop - viewH) 0) (mkVec3 xRight (yTop - viewH) 0)
          (Curtain.segX + 1) (Curtain.segY + 1).

(** The anchors of the top row of a patch to rod body [b]. *)
Definition topRowAnchors (b : nat) : list Ammo.Anchor :=
  (fun i => Ammo.mkAnchor i b false 1.0) <$> seq 0 (Curtain.segX + 1).

(** The rigid body and the mesh [createParallelepiped] creates; [i] is the
    heap index of the body. *)
Definition boxBody (sx sy sz mass : R) (pos : Vec3) (quat : Quat) : Ammo.btRigidBody :=
  let body := Ammo.newRigidBody mass (mkVec3 (sx * 0.5) (sy * 0.5) (sz * 0.5))
                (Ammo.mkTransform pos quat) in
  if Rlt_dec 0 mass then Ammo.setActivationState Ammo.DISABLE_DEACTIVATION body else body.

Definition boxMesh (sx sy sz : R) (pos : Vec3) (quat : Quat) (i : nat) : THREE.Mesh :=
  THREE.mkMesh pos quat (THREE.Box sx sy sz) (Some (THREE.RigidRef i)).

(** The list [rigidBodies] holds exactly the dynamic bodies: each of its
    meshes refers to a rigid body of positive mass that is never put to
    sleep and sits where the mesh is, and every body of positive mass is
    referred to by one of its meshes. *)
Definition Tracked (s : Cloth.State) : Prop :=
  exists heap,
    Cloth.AmmoLib s = Some heap /\
    (forall obj, In obj (Cloth.rigidBodies s) ->
       exists b body,
         THREE.physicsBody obj = Some (THREE.RigidRef b) /\
         Ammo.bodies heap !! b = Some body /\
         0 < Ammo.mass body /\
         Ammo.activationState body = Ammo.DISABLE_DEACTIVATION /\
         Ammo.worldTransform body
         = Ammo.mkTransform (THREE.position obj) (THREE.quaternion obj)) /\
    (forall b body,
       Ammo.bodies heap !! b = Some body -> 0 < Ammo.mass body ->
       exists obj, In obj (Cloth.rigidBodies s) /\
                   THREE.physicsBody obj = Some (THREE.RigidRef b)).

(** The soft body of the cloth as [createObjects] configures it, before the
    anchors. *)
Definition clothPatch : option Ammo.btSoftBody :=
  Ammo.configure 10 10 0.9 (Cloth.margin * 3) Ammo.DISABLE_DEACTIVATION
    <$> Ammo.CreatePatch
          (mkVec3 (vx Cloth.clothPos) (vy Cloth.clothPos + Cloth.clothHeight) (vz Cloth.clothPos))
          (mkVec3 (vx Cloth.clothPos) (vy Cloth.clothPos + Cloth.clothHeight)
                  (vz Cloth.clothPos - Cloth.clothWidth))
          (mkVec3 (vx Cloth.clothPos) (vy Cloth.clothPos) (vz Cloth.clothPos))
          (mkVec3 (vx Cloth.clothPos) (vy Cloth.clothPos)
                  (vz Cloth.clothPos - Cloth.clothWidth))
          (Cloth.clothNumSegmentsZ + 1) (Cloth.clothNumSegmentsY + 1).

(** The pylon and the arm of the cloth scene. *)
Definition pylonBody : Ammo.btRigidBody :=
  boxBody 0.4 Cloth.pylonHeight 0.4 0
    (mkVec3 (vx Cloth.clothPos) (0.5 * Cloth.pylonHeight)
            (vz Cloth.clothPos - Cloth.armLength)) qidentity.

Definition armBody : Ammo.btRigidBody :=
  boxBody 0.4 0.4 (Cloth.armLength + 0.4) Cloth.armMass
    (mkVec3 (vx Cloth.clothPos) (Cloth.pylonHeight + 0.2)
            (vz Cloth.clothPos - 0.5 * Cloth.armLength)) qidentity.

(** The renderer and the browser are untouched: what holds of a frame up to
    its presentation. *)
Definition sameScreen (s s' : Curtain.State) : Prop :=
  Curtain.renderer s' = Curtain.renderer s /\ Curtain.browser s' = Curtain.browser s /\
  Curtain.scrollProgress s' = Curtain.scrollProgress s.

(** The nodes after the force [f] is added to each node listed in [idxs], in
    that order. *)
Definition nudged (f : Vec3) (idxs : list nat) (nodes : list Ammo.Node) : list Ammo.Node :=
  fold_left (fun ns idx => alter (Ammo.addForce f) idx ns) idxs nodes.

(** The columns of a patch the seam assist works on: the two with the lowest
    index on the left, the two with the highest on the right. *)
Definition assistColumn (side : Side) (col : nat) : Prop :=
  match side with
  | LeftSide => (col < 2)%nat
  | RightSide => (Curtain.segX - 2 < col <= Curtain.segX)%nat
  end.

(** Row [j] of the wall as the two loops lay it out, brick by brick, in the
    code's own terms: [numBricksLength] whole bricks in an even row, one more
    in an odd row whose first and last brick are halved ([len *= 0.5]); the
    first brick centred at [z0], or at [z0 - 0.25 * brickLength] in an odd row;
    every next brick centred [brickLength] further along z, or
    [0.75 * brickLength] further next to a half brick; all at the same height
    in the plane [x = 0]. *)
Definition rowLaid (j : nat) (row : list THREE.Mesh) : Prop :=
  let oddRow := (j mod 2 =? 1)%nat in
  let nRow := if oddRow then (Cloth.numBricksLength + 1)%nat else Cloth.numBricksLength in
  length row = nRow /\
  (forall i m, row !! i = Some m ->
     THREE.geometry m
     = THREE.Box Cloth.brickDepth Cloth.brickHeight
         (if oddRow && ((i =? 0)%nat || (i =? nRow - 1)%nat)
          then Cloth.brickLength * 0.5 else Cloth.brickLength) /\
     vx (THREE.position m) = 0) /\
  (forall m, row !! 0%nat = Some m ->
     vz (THREE.position m)
     = if oddRow then Cloth.z0 - 0.25 * Cloth.brickLength else Cloth.z0) /\
  (forall i m m', row !! i = Some m -> row !! S i = Some m' ->
     vy (THREE.position m') = vy (THREE.position m) /\
     vz (THREE.position m')
     = vz (THREE.position m)
       + (if oddRow && ((i =? 0)%nat || (i =? nRow - 2)%nat)
          then 0.75 * Cloth.brickLength else Cloth.brickLength)).

(** The meshes the inner loop of the wall adds to [rigidBodies], the first
    one backed by body [b]. *)
Fixpoint rowMeshes (oddRow : bool) (nRow : nat) (idxs : list nat) (pos : Vec3) (b : nat)
  : list THREE.Mesh :=
  match idxs with
  | [] => []
  | i :: rest =>
      let ends := oddRow && ((i =? 0)%nat || (i =? nRow - 1)%nat) in
      let len := if ends then Cloth.brickLength * 0.5 else Cloth.brickLength in
      let dz := if oddRow && ((i =? 0)%nat || (i =? nRow - 2)%nat)
                then 0.75 * Cloth.brickLength else Cloth.brickLength in
      boxMesh Cloth.brickDepth Cloth.brickHeight len pos qidentity b
      :: rowMeshes oddRow nRow rest (mkVec3 (vx pos) (vy pos) (vz pos + dz)) (S b)
  end.

(** The list of dynamic meshes only grows. *)
Definition bodiesGrow (s s' : Cloth.State) : Prop :=
  exists more, Cloth.rigidBodies s' = Cloth.rigidBodies s ++ more.

(** Two relations on the states of a scene, read through its boot phase
    [ph] and the number [pend] of queued frame callbacks: nothing is queued
    and the phase stays, or at most one callback more is queued. *)
Definition sameLoop {St P} (ph : St -> P) (pend : St -> nat) (s s' : St) : Prop :=
  ph s' = ph s /\ pend s' = pend s.

Definition oneMoreFrame {St P} (ph : St -> P) (pend : St -> nat) (s s' : St) : Prop :=
  ph s' = ph s /\ (pend s' <= S (pend s))%nat.

Definition curtainQueue (s : Curtain.State) : nat := pendingFrames (Curtain.browser s).
Definition clothQueue (s : Cloth.State) : nat := pendingFrames (Cloth.browser s).

(** ** The script loader *)

Module Loader.

(** The promise [loadScript] returns: resolved on the spot, or waiting for
    the load or error event of the script element it appended. *)
Inductive Promise := Resolved | Awaiting (src : string).

(** The sources for which the interpolated selector [script[src="..."]] is
    the plain attribute test: printable ASCII characters other than the double
    quote and the backslash, so that the quoted string of the selector ends
    where the source ends and holds no escape. *)
Definition plainChar (c : Ascii.ascii) : bool :=
  let n := Ascii.nat_of_ascii c in
  (32 <=? n)%nat && (n <=? 126)%nat && negb (n =? 34)%nat && negb (n =? 92)%nat.

Definition plainSource (src : string) : bool :=
  forallb plainChar (list_ascii_of_string src).

(** [loadScript(src)] on a document whose script elements have the [src]
    attributes [scripts].  For a plain source [document.querySelector] finds
    an element exactly when one of them has this very attribute value.  Other
    sources are outside the model ([None]): their selector can be invalid, in
    which case [querySelector] throws, or can match differently. *)
Definition loadScript (src : string) (scripts : list string)
  : option (Promise * list string) :=
  if plainSource src then
    Some (if existsb (String.eqb src) scripts then (Resolved, scripts)
          else (Awaiting src, scripts ++ [src]))
  else None.

(** What [await] makes of the promise once the element's event is in:
    [onload] resolves, [onerror] rejects. *)
Definition settle (p : Promise) (loaded : bool) : Outcome unit :=
  match p with
  | Resolved => Ret tt
  | Awaiting src => if loaded then Ret tt else Throw (LoadFailure src)
  end.

End Loader.

(** The heap the solver step of a frame works on: in the curtain scene the
    one [moveRod] leaves after posing both rod bodies, in the cloth scene the
    one with the hinge motor set. *)
Definition rodsPosed (bL bR : nat) (trL trR : Ammo.btTransform) (heap : Ammo.Heap)
  : Ammo.Heap :=
  let heap1 := Ammo.set_bodies (alter (kinematicPose trL) bL (Ammo.bodies heap)) heap in
  Ammo.set_bodies (alter (kinematicPose trR) bR (Ammo.bodies heap1)) heap1.

Definition motorHeap (s : Cloth.State) (heap : Ammo.Heap) : Ammo.Heap :=
  match Cloth.hinge s with
  | Some hi =>
      Ammo.set_hinges
        (alter (Ammo.enableAngularMotor true (0.8 * Cloth.armMovement s) 50) hi
               (Ammo.hinges heap)) heap
  | None => heap
  end.

(** The sync has written the solver's result: the buffer [arr] holds, vertex
    by vertex, the positions of the first [n] nodes of soft body [i] of the
    heap [stepped] the solver step returned, and soft body [i] of the heap
    [final] the frame leaves still has those positions. *)
Definition stepWritten (stepped final : Ammo.Heap) (i n : nat) (arr : list R) : Prop :=
  exists sb sb',
    Ammo.softs stepped !! i = Some sb /\
    coincide (Ammo.m_nodes sb) arr n /\
    Ammo.softs final !! i = Some sb' /\
    Ammo.m_x <$> Ammo.m_nodes sb' = Ammo.m_x <$> Ammo.m_nodes sb.

(** * Properties *)

(** ** Easing *)

Lemma easeOutCubic_mono (c1 c2 : R) :
  c1 <= c2 -> c2 <= 1 -> Curtain.easeOutCubic c1 <= Curtain.easeOutCubic c2.
Proof.
  intros H12 H2. unfold Curtain.easeOutCubic.
  assert (Hp : (1 - c2) ^ 3 <= (1 - c1) ^ 3) by (apply pow_incr; lra).
  lra.
Qed.

(** C3: the easing function is [1 - (1 - c)^3], is non-decreasing on [0, 1]
    and has the exact endpoints [ease 0 = 0] and [ease 1 = 1]. *)
Theorem easeOutCubic_spec (c1 c2 : R) :
  0 <= c1 -> c1 <= c2 -> c2 <= 1 ->
  Curtain.easeOutCubic c1 = 1 - (1 - c1) ^ 3 /\
  Curtain.easeOutCubic c1 <= Curtain.easeOutCubic c2 /\
  Curtain.easeOutCubic 0 = 0 /\
  Curtain.easeOutCubic 1 = 1.
Proof.
  intros H0 H12 H1. split; [reflexivity |].
  split; [now apply easeOutCubic_mono |].
  unfold Curtain.easeOutCubic. split; lra.
Qed.

Lemma easeOutCubic_spec_witness :
  Curtain.easeOutCubic (1 / 4) = 1 - (1 - 1 / 4) ^ 3 /\
  Curtain.easeOutCubic (1 / 4) <= Curtain.easeOutCubic (1 / 2) /\
  Curtain.easeOutCubic 0 = 0 /\
  Curtain.easeOutCubic 1 = 1.
Proof. apply (easeOutCubic_spec (1 / 4) (1 / 2)); lra. Defined.

(** The eased value stays in [0, 1] on [0, 1]. *)
Lemma easeOutCubic_range (c : R) :
  0 <= c <= 1 -> 0 <= Curtain.easeOutCubic c <= 1.
Proof.
  intros [H0 H1].
  pose proof (easeOutCubic_mono 0 c H0 H1) as Hlo.
  pose proof (easeOutCubic_mono c 1 H1 (Rle_refl 1)) as Hhi.
  assert (E0 : Curtain.easeOutCubic 0 = 0) by (unfold Curtain.easeOutCubic; lra).
  assert (E1 : Curtain.easeOutCubic 1 = 1) by (unfold Curtain.easeOutCubic; lra).
  lra.
Qed.

(** [onScroll] keeps the control signal in [0, 1]. *)
Lemma onScroll_range (s : Curtain.State) :
  0 <= Curtain.scrollProgress (Curtain.onScroll s) <= 1.
Proof.
  unfold Curtain.onScroll. cbn.
  split; [apply Rmax_l |].
  apply Rmax_lub; [lra | apply Rmin_l].
Qed.

(** ** Frustum-relative layout *)

(** C4: with scene, camera and renderer initialised, [computeViewSize]
    returns [viewH = 2 * tan (fov / 2) * dist] (the field of view taken in
    radians, [dist] the camera's distance to the plane z = 0) and
    [viewW = viewH * aspect]; with any of the three missing it raises the
    not-ready error; in both cases the state is left as it was. *)
Theorem computeViewSize_spec (s : Curtain.State) :
  (forall sc cam rd,
      Curtain.scene s = Some sc -> Curtain.camera s = Some cam ->
      Curtain.renderer s = Some rd ->
      let fovRad := THREE.fov cam * PI / 180 in
      let dist := vz (THREE.cam_position cam) in
      let viewH := 2 * tan (fovRad / 2) * dist in
      Curtain.computeViewSize s
      = (Ret (Curtain.mkViewSize (viewH * THREE.aspect cam) viewH), s)) /\
  (Curtain.scene s = None \/ Curtain.camera s = None \/ Curtain.renderer s = None ->
   Curtain.computeViewSize s = (Throw GraphicsNotReady, s)).
Proof.
  split.
  - intros sc cam rd Hs Hc Hr. destruct s; cbn in *; subst. reflexivity.
  - intros Hn. destruct s as [rd sc cam]; cbn in *.
    destruct sc, cam, rd; try reflexivity;
      destruct Hn as [Hn | [Hn | Hn]]; discriminate.
Qed.

(** ** Reasoning about programs *)

Section ExecLemmas.
Context {St : Type}.

Lemma bind_Ret {A B} (c : Exec St A) (k : A -> Exec St B) s a s1 :
  c s = (Ret a, s1) -> bind c k s = k a s1.
Proof. intros E. unfold bind. now rewrite E. Qed.

Lemma bind_Throw {A B} (c : Exec St A) (k : A -> Exec St B) s e s1 :
  c s = (Throw e, s1) -> bind c k s = (Throw e, s1).
Proof. intros E. unfold bind. now rewrite E. Qed.

Lemma bind_modify {B} (f : St -> St) (k : unit -> Exec St B) s :
  bind (modify f) k s = k tt (f s).
Proof. reflexivity. Qed.

Lemma bind_gets {A B} (f : St -> A) (k : A -> Exec St B) s :
  bind (gets f) k s = k (f s) s.
Proof. reflexivity. Qed.

Context (R : St -> St -> Prop) {Rrefl : Reflexive R} {Rtrans : Transitive R}.

Lemma framed_ret {A} (a : A) : framed R (ret a).
Proof. intros s. apply Rrefl. Qed.

Lemma framed_throw {A} e : framed R (@throw St A e).
Proof. intros s. apply Rrefl. Qed.

Lemma framed_gets {A} (f : St -> A) : framed R (gets f).
Proof. intros s. apply Rrefl. Qed.

Lemma framed_deref {A} what (f : St -> option A) : framed R (deref what f).
Proof. intros s. unfold deref. destruct (f s); apply Rrefl. Qed.

Lemma framed_modify (g : St -> St) : (forall s, R s (g s)) -> framed R (modify g).
Proof. intros Hg s. apply Hg. Qed.

Lemma framed_bind {A B} (c : Exec St A) (k : A -> Exec St B) :
  framed R c -> (forall a, framed R (k a)) -> framed R (bind c k).
Proof.
  intros Hc Hk s. unfold bind. specialize (Hc s).
  destruct (c s) as [[a | e] s1]; cbn in *; [| exact Hc].
  eapply Rtrans; [exact Hc | apply Hk].
Qed.

Lemma framed_try_catch {A} (c : Exec St A) (h : Error -> Exec St A) :
  framed R c -> (forall e, framed R (h e)) -> framed R (try_catch c h).
Proof.
  intros Hc Hh s. unfold try_catch. specialize (Hc s).
  destruct (c s) as [[a | e] s1]; cbn in *; [exact Hc |].
  eapply Rtrans; [exact Hc | apply Hh].
Qed.

Lemma framed_forEach {A} (body : A -> Exec St unit) (l : list A) :
  (forall x, framed R (body x)) -> framed R (forEach body l).
Proof.
  intros Hb. induction l as [| x l IH]; cbn.
  - apply framed_ret.
  - apply framed_bind; [apply Hb | intros _; exact IH].
Qed.

End ExecLemmas.

#[local] Instance sameControls_refl : Reflexive sameControls.
Proof. intros s. unfold sameControls. tauto. Qed.

#[local] Instance sameControls_trans : Transitive sameControls.
Proof. unfold sameControls. intros a b c; intuition congruence. Qed.

#[local] Instance sameRods_refl : Reflexive sameRods.
Proof. intros s. unfold sameRods, sameControls. tauto. Qed.

#[local] Instance sameRods_trans : Transitive sameRods.
Proof. unfold sameRods, sameControls. intros a b c; intuition congruence. Qed.

(** Steps of a framing proof: split binds, close the leaves. *)
Ltac framed_step :=
  lazymatch goal with
  | |- framed ?R (ret _) => apply (framed_ret R)
  | |- framed ?R (throw _) => apply (framed_throw R)
  | |- framed ?R (gets _) => apply (framed_gets R)
  | |- framed ?R (deref _ _) => apply (framed_deref R)
  | |- framed ?R (forEach _ _) => apply (framed_forEach R); intros ?
  | |- framed ?R (bind _ _) => apply (framed_bind R); [| intros ?]
  | |- framed ?R (modify _) =>
      apply (framed_modify R); intros []; hnf; cbn; repeat split; reflexivity
  end.

Ltac framed_auto := repeat (framed_step; cbn beta).

(** The same steps one at a time, for programs that branch. *)
Ltac f_bind :=
  lazymatch goal with |- framed ?R (bind _ _) => apply (framed_bind R) end.
Ltac f_leaf :=
  lazymatch goal with
  | |- framed ?R (ret _) => apply (framed_ret R)
  | |- framed ?R (throw _) => apply (framed_throw R)
  | |- framed ?R (gets _) => apply (framed_gets R)
  | |- framed ?R (deref _ _) => apply (framed_deref R)
  end.

(** ** The curtain scene: the kinematic actuator *)

Section CurtainActuator.
Context `{Engine}.

(** With no soft body behind a rod, [moveRod] returns; the rod mesh sits at
    the target and the other rod and the controls are as before. *)
Lemma moveRod_mesh t sd startX dir s m :
  Curtain.rod sd s = Some m -> rigidRod m ->
  exists s',
    Curtain.moveRod t sd startX dir s = (Ret tt, s') /\
    Curtain.rod sd s'
    = Some (THREE.set_position
              (Ammo.origin (rodTarget startX dir (Curtain.slideDistance s) t m)) m) /\
    (forall sd', sd' <> sd -> Curtain.rod sd' s' = Curtain.rod sd' s) /\
    sameControls s s'.
Proof.
  intros Hm Hr. unfold rigidRod in Hr.
  destruct s, sd; cbn in *; subst;
    unfold Curtain.moveRod, bind, gets, modify; cbn;
    (destruct (THREE.physicsBody m) as [[b | b] |] eqn:Eb;
     [ | exfalso; eapply Hr; reflexivity | ]);
    cbn; try rewrite Eb; cbn;
    try (destruct AmmoLib; cbn);
    eexists; (split; [reflexivity |]); cbn;
    (split; [reflexivity |]);
    (split; [intros [] Hne; try congruence; reflexivity |]);
    hnf; cbn; tauto.
Qed.

(** With a rigid body behind the rod and the engine loaded, [moveRod] is one
    kinematic overwrite of that body. *)
Lemma moveRod_body t sd startX dir s m b heap :
  Curtain.rod sd s = Some m ->
  THREE.physicsBody m = Some (THREE.RigidRef b) ->
  Curtain.AmmoLib s = Some heap ->
  let tr := rodTarget startX dir (Curtain.slideDistance s) t m in
  Curtain.moveRod t sd startX dir s
  = (Ret tt,
     Curtain.set_calls (Curtain.calls s ++ poseCalls b tr)
       (Curtain.set_AmmoLib
          (Some (Ammo.set_bodies (alter (kinematicPose tr) b (Ammo.bodies heap)) heap))
          (Curtain.set_rod sd (Some (THREE.set_position (Ammo.origin tr) m)) s))).
Proof.
  intros Hm Hb Hh.
  destruct s, sd; cbn in *; subst;
    unfold Curtain.moveRod, bind, gets, modify, Curtain.log, modify; cbn;
    rewrite Hb; cbn; rewrite <- !app_assoc; reflexivity.
Qed.

(** C6: right after [moveRod] overwrites the pose of a rod's rigid body, that
    body sits at the target pose, its linear and angular velocity are zero
    and it is marked active; the overwrite is followed by exactly the two
    velocity resets and the activation. *)
Theorem moveRod_zeroes_velocity t sd startX dir s m b heap body :
  Curtain.rod sd s = Some m ->
  THREE.physicsBody m = Some (THREE.RigidRef b) ->
  Curtain.AmmoLib s = Some heap ->
  Ammo.bodies heap !! b = Some body ->
  exists s' heap' body',
    Curtain.moveRod t sd startX dir s = (Ret tt, s') /\
    Curtain.AmmoLib s' = Some heap' /\
    Ammo.bodies heap' !! b = Some body' /\
    Ammo.worldTransform body' = rodTarget startX dir (Curtain.slideDistance s) t m /\
    Ammo.linearVelocity body' = vzero /\
    Ammo.angularVelocity body' = vzero /\
    Ammo.activationState body' = Ammo.ACTIVE_TAG /\
    Curtain.calls s'
    = Curtain.calls s
      ++ poseCalls b (rodTarget startX dir (Curtain.slideDistance s) t m).
Proof.
  intros Hm Hb Hh Hbody.
  pose proof (moveRod_body t sd startX dir s m b heap Hm Hb Hh) as E. cbv zeta in E.
  set (tr := rodTarget startX dir (Curtain.slideDistance s) t m) in *.
  exists (snd (Curtain.moveRod t sd startX dir s)),
    (Ammo.set_bodies (alter (kinematicPose tr) b (Ammo.bodies heap)) heap),
    (kinematicPose tr body).
  rewrite E. cbn [snd]. split; [reflexivity |]. clear E.
  split; [destruct s, sd; reflexivity |].
  split; [cbn; rewrite list_lookup_alter_eq, Hbody; reflexivity |].
  repeat (split; [reflexivity |]).
  destruct s, sd; reflexivity.
Qed.

End CurtainActuator.

(** ** The vertex copy shared by both scenes *)

Section VertexCopy.
Local Open Scope nat_scope.

(** The copy never changes the length of the buffer. *)
Lemma copyNodes_length nodes count : forall i i3 arr arr',
  copyNodes nodes count i i3 arr = Some arr' -> length arr' = length arr.
Proof.
  induction count as [| k IH]; intros i i3 arr arr' E; cbn in E.
  - now inversion E.
  - destruct (nodes !! i) as [n |]; [| discriminate].
    apply IH in E. rewrite E, !length_insert. reflexivity.
Qed.

(** The copy goes through when the node array covers every index it reads. *)
Lemma copyNodes_some nodes count : forall i i3 arr,
  i + count <= length nodes -> is_Some (copyNodes nodes count i i3 arr).
Proof.
  induction count as [| k IH]; intros i i3 arr Hle; cbn.
  - eauto.
  - destruct (lookup_lt_is_Some_2 nodes i) as [n Hn]; [lia |].
    rewrite Hn. apply IH. lia.
Qed.

(** What the copy leaves in the buffer: entries before the running index are
    untouched, and iteration [j] puts node [i + j] into the three entries from
    [i3 + 3 * j] on. *)
Lemma copyNodes_spec nodes count : forall i i3 arr arr',
  copyNodes nodes count i i3 arr = Some arr' ->
  i3 + 3 * count <= length arr ->
  (forall k, k < i3 -> arr' !! k = arr !! k) /\
  (forall j, j < count ->
     exists n, nodes !! (i + j) = Some n /\
               arr' !! (i3 + 3 * j) = Some (vx (Ammo.m_x n)) /\
               arr' !! (i3 + 3 * j + 1) = Some (vy (Ammo.m_x n)) /\
               arr' !! (i3 + 3 * j + 2) = Some (vz (Ammo.m_x n))).
Proof.
  induction count as [| k IH]; intros i i3 arr arr' E Hlen; cbn in E.
  - inversion E; subst. split; [reflexivity | intros j Hj; lia].
  - destruct (nodes !! i) as [n |] eqn:Hn; [| discriminate].
    apply IH in E; [| rewrite !length_insert; lia].
    destruct E as [Hbefore Hiter]. split.
    + intros k0 Hk. rewrite Hbefore by lia.
      rewrite !list_lookup_insert_ne by lia. reflexivity.
    + intros [| j] Hj.
      * exists n. rewrite Nat.add_0_r, Nat.mul_0_r, Nat.add_0_r.
        split; [exact Hn |].
        rewrite !Hbefore by lia.
        repeat split.
        -- rewrite !(list_lookup_insert_ne _ _ i3) by lia.
           apply list_lookup_insert_eq. lia.
        -- rewrite (list_lookup_insert_ne _ _ (i3 + 1)) by lia.
           replace (i3 + 1) with (S i3) by lia.
           apply list_lookup_insert_eq. rewrite length_insert. lia.
        -- replace (i3 + 2) with (S (S i3)) by lia.
           apply list_lookup_insert_eq. rewrite !length_insert. lia.
      * destruct (Hiter j) as (n' & Hn' & Hx & Hy & Hz); [lia |].
        exists n'.
        replace (i + S j) with (S i + j) by lia.
        replace (i3 + 3 * S j) with (S (S (S i3)) + 3 * j) by lia.
        auto.
Qed.

(** A buffer of [3 * n] entries is read as [n] vertices. *)
Lemma loopCount_triplets n : loopCount (3 * n) = n.
Proof. unfold loopCount. symmetry. apply (Nat.div_unique _ 3 n 2); lia. Qed.

(** [syncArray] on a buffer of [3 * n] entries and at least [n] nodes: the
    copy goes through, the length stays, and the triplet of vertex [i] holds
    the position of node [i]. *)
Lemma syncArray_spec nodes arr n :
  length arr = 3 * n -> n <= length nodes ->
  exists arr',
    syncArray nodes arr = Some arr' /\
    length arr' = length arr /\
    forall i, i < n ->
      exists nd, nodes !! i = Some nd /\
                 arr' !! (3 * i) = Some (vx (Ammo.m_x nd)) /\
                 arr' !! (3 * i + 1) = Some (vy (Ammo.m_x nd)) /\
                 arr' !! (3 * i + 2) = Some (vz (Ammo.m_x nd)).
Proof.
  intros Hlen Hn. unfold syncArray. rewrite Hlen, loopCount_triplets.
  destruct (copyNodes_some nodes n 0 0 arr) as [arr' E]; [lia |].
  exists arr'. split; [exact E |].
  split; [rewrite <- Hlen; eapply copyNodes_length; exact E |].
  destruct (copyNodes_spec nodes n 0 0 arr arr' E) as [_ Hiter]; [lia |].
  intros i Hi. destruct (Hiter i Hi) as (nd & H0 & Hx & Hy & Hz).
  exists nd. auto.
Qed.

Lemma syncArray_length nodes arr arr' :
  syncArray nodes arr = Some arr' -> length arr' = length arr.
Proof. apply copyNodes_length. Qed.

End VertexCopy.

(** ** Sizes of the constructed geometry and patches *)

Section Sizes.
Local Open Scope nat_scope.

Lemma length_flat_map_const {A B} (f : A -> list B) (k : nat) (l : list A) :
  (forall x, length (f x) = k) -> length (flat_map f l) = length l * k.
Proof.
  intros Hf. induction l as [| x l IH]; cbn; [reflexivity |].
  rewrite length_app, Hf, IH. reflexivity.
Qed.

(** The plane constructor lays out [(gridX + 1) * (gridY + 1)] triplets. *)
Lemma length_planeVertices w h gridX gridY :
  length (THREE.planeVertices w h gridX gridY) = (gridX + 1) * (gridY + 1) * 3.
Proof.
  unfold THREE.planeVertices.
  rewrite (length_flat_map_const _ ((gridX + 1) * 3)), length_seq; [lia |].
  intros iy. unfold THREE.planeRow.
  rewrite (length_flat_map_const _ 3), length_seq; reflexivity.
Qed.

(** A per-triplet map that yields triplets keeps the length of the array. *)
Lemma length_mapTriplets f :
  (forall a b c, length (f a b c) = 3) ->
  forall l, length (THREE.mapTriplets f l) = length l.
Proof.
  intros Hf l.
  assert (Hgen : forall n l, length l <= n -> length (THREE.mapTriplets f l) = length l).
  { clear l. induction n as [| n IH]; intros l Hl.
    - destruct l; [reflexivity | cbn in Hl; lia].
    - destruct l as [| x [| y [| z r]]]; try reflexivity.
      cbn [THREE.mapTriplets]. rewrite length_app, Hf, IH by (cbn in Hl; lia).
      reflexivity. }
  apply (Hgen (length l)). lia.
Qed.

Lemma length_translate x y z g :
  length (THREE.array (THREE.attr_position (THREE.translate x y z g)))
  = length (THREE.array (THREE.attr_position g)).
Proof. cbn. apply length_mapTriplets. reflexivity. Qed.

Lemma length_rotateY a g :
  length (THREE.array (THREE.attr_position (THREE.rotateY a g)))
  = length (THREE.array (THREE.attr_position g)).
Proof. cbn. apply length_mapTriplets. reflexivity. Qed.

(** The patch helper creates [resx * resy] nodes. *)
Lemma CreatePatch_nodes p00 p10 p01 p11 resx resy body :
  Ammo.CreatePatch p00 p10 p01 p11 resx resy = Some body ->
  length (Ammo.m_nodes body) = resx * resy.
Proof.
  unfold Ammo.CreatePatch. destruct ((resx <? 2) || (resy <? 2)); [discriminate |].
  intros E. inversion E; subst; clear E. cbn.
  rewrite (length_flat_map_const _ resx), length_seq; [lia |].
  intros iy. unfold Ammo.patchRow. rewrite length_map, length_seq. reflexivity.
Qed.

Lemma CreatePatch_some p00 p10 p01 p11 resx resy :
  2 <= resx -> 2 <= resy -> is_Some (Ammo.CreatePatch p00 p10 p01 p11 resx resy).
Proof.
  intros Hx Hy. unfold Ammo.CreatePatch.
  destruct (Nat.ltb_spec resx 2); [lia |].
  destruct (Nat.ltb_spec resy 2); [lia |]. cbn. eauto.
Qed.

End Sizes.

(** ** The curtain scene: seam forces *)

#[local] Arguments Ammo.CreatePatch : simpl never.
#[local] Arguments THREE.PlaneGeometry : simpl never.
#[local] Arguments THREE.translate : simpl never.
#[local] Arguments THREE.rotateY : simpl never.
#[local] Arguments forEach : simpl never.
#[local] Arguments syncArray : simpl never.
#[local] Arguments Curtain.assistIndices : simpl never.
#[local] Arguments seq : simpl never.
#[local] Arguments nodeCount : simpl never.
#[local] Arguments assistCalls : simpl never.
#[local] Arguments stepSimulation : simpl never.
#[local] Arguments computeVertexNormals : simpl never.

#[local] Instance keepsPositions_refl : Reflexive keepsPositions.
Proof. intros h j sb Hj. eauto. Qed.

#[local] Instance keepsPositions_trans : Transitive keepsPositions.
Proof.
  intros h1 h2 h3 H12 H23 j sb Hj.
  destruct (H12 j sb Hj) as (sb2 & Hj2 & E2).
  destruct (H23 j sb2 Hj2) as (sb3 & Hj3 & E3).
  exists sb3. split; [exact Hj3 | congruence].
Qed.

Lemma keepsPositions_length h h' j sb sb' :
  keepsPositions h h' -> Ammo.softs h !! j = Some sb -> Ammo.softs h' !! j = Some sb' ->
  length (Ammo.m_nodes sb') = length (Ammo.m_nodes sb).
Proof.
  intros Hk Hj Hj'. destruct (Hk j sb Hj) as (sb2 & Hj2 & E).
  assert (sb2 = sb') by congruence. subst sb2.
  apply (f_equal length) in E. now rewrite !length_fmap in E.
Qed.

Section CurtainAssist.
Context `{Engine}.
Local Open Scope nat_scope.

(** Every index the assist loop visits is a node of the patch. *)
Lemma assistIndices_bound side idx :
  In idx (Curtain.assistIndices side) -> idx < nodeCount.
Proof.
  unfold Curtain.assistIndices. rewrite in_flat_map.
  intros (c & Hc & Hin). rewrite in_map_iff in Hin.
  destruct Hin as (y & <- & Hy).
  apply in_seq in Hc. apply in_seq in Hy.
  unfold nodeCount, Curtain.cols, Curtain.segX, Curtain.segY in *.
  destruct side; lia.
Qed.

(** One force injection leaves every node where it is. *)
Lemma addNodeForce_eq soft f idx s heap sb n :
  Curtain.AmmoLib s = Some heap ->
  Ammo.softs heap !! soft = Some sb ->
  Ammo.m_nodes sb !! idx = Some n ->
  let heap' := Ammo.set_softs
                 (<[soft := Ammo.set_nodes (<[idx := Ammo.addForce f n]> (Ammo.m_nodes sb)) sb]>
                    (Ammo.softs heap)) heap in
  Curtain.addNodeForce soft f idx s
  = (Ret tt, Curtain.set_calls (Curtain.calls s ++ [AddForce soft idx f])
               (Curtain.set_AmmoLib (Some heap') s)) /\
  keepsPositions heap heap'.
Proof.
  intros Hh Hs Hn heap'. split.
  - unfold Curtain.addNodeForce, bind, deref, modify, Curtain.log, modify.
    rewrite Hh, Hs, Hn. reflexivity.
  - intros j sbj Hj. subst heap'. cbn.
    destruct (decide (soft = j)) as [-> | Hne].
    + rewrite list_lookup_insert_eq by (eapply lookup_lt_Some; exact Hj).
      eexists. split; [reflexivity |]. cbn.
      assert (sbj = sb) by congruence. subst sbj.
      rewrite list_fmap_insert. apply list_insert_id.
      rewrite list_lookup_fmap, Hn. reflexivity.
    + rewrite list_lookup_insert_ne by exact Hne. eauto.
Qed.

(** The whole loop: it returns, logs one call per visited index in order,
    and changes nothing but force accumulators. *)
Lemma addForces_eq soft f l : forall s heap sb,
  Curtain.AmmoLib s = Some heap ->
  Ammo.softs heap !! soft = Some sb ->
  (forall idx, In idx l -> idx < length (Ammo.m_nodes sb)) ->
  exists heap',
    forEach (Curtain.addNodeForce soft f) l s
    = (Ret tt, Curtain.set_calls
                 (Curtain.calls s ++ ((fun idx => AddForce soft idx f) <$> l))
                 (Curtain.set_AmmoLib (Some heap') s)) /\
    keepsPositions heap heap'.
Proof.
  induction l as [| idx l IH]; intros s heap sb Hh Hs Hb.
  - exists heap. split; [| reflexivity].
    cbn. unfold ret. rewrite app_nil_r. destruct s; cbn in *; subst; reflexivity.
  - destruct (lookup_lt_is_Some_2 (Ammo.m_nodes sb) idx) as [n Hn];
      [apply Hb; now left |].
    destruct (addNodeForce_eq soft f idx s heap sb n Hh Hs Hn) as [E1 K1].
    cbv zeta in E1, K1.
    set (heap1 := Ammo.set_softs _ heap) in *.
    set (s1 := Curtain.set_calls _ _) in E1.
    destruct (K1 soft sb Hs) as (sb1 & Hs1 & Ex1).
    destruct (IH s1 heap1 sb1) as (heap' & E2 & K2).
    + subst s1. destruct s; reflexivity.
    + exact Hs1.
    + intros i Hi.
      rewrite (keepsPositions_length heap heap1 soft sb sb1 K1 Hs Hs1).
      apply Hb. now right.
    + exists heap'. split; [| etransitivity; eassumption].
      change (forEach (Curtain.addNodeForce soft f) (idx :: l) s)
        with (bind (Curtain.addNodeForce soft f idx)
                   (fun _ => forEach (Curtain.addNodeForce soft f) l) s).
      rewrite (bind_Ret _ _ _ _ _ E1), E2. subst s1.
      destruct s; cbn. rewrite <- app_assoc. reflexivity.
Qed.

End CurtainAssist.

(** ** The curtain scene: one frame of the simulated scene *)

Section CurtainFrame.
Context `{Engine}.

Lemma whenCloth_Some sd k s m :
  Curtain.cloth sd s = Some m -> Curtain.whenCloth sd k s = k m s.
Proof. intros E. unfold Curtain.whenCloth, bind, gets. now rewrite E. Qed.

Lemma sync_eq sd i s m g heap sb :
  Curtain.cloth sd s = Some m ->
  Curtain.posAttr sd s = Some CachedAttribute ->
  THREE.geometry m = THREE.Buffer g ->
  THREE.physicsBody m = Some (THREE.SoftRef i) ->
  Curtain.AmmoLib s = Some heap ->
  Ammo.softs heap !! i = Some sb ->
  length (Ammo.m_nodes sb) = nodeCount ->
  length (THREE.array (THREE.attr_position g)) = (nodeCount * 3)%nat ->
  exists arr',
    syncArray (Ammo.m_nodes sb) (THREE.array (THREE.attr_position g)) = Some arr' /\
    Curtain.sync sd s
    = (Ret tt,
       Curtain.set_calls (Curtain.calls s ++ syncCalls i)
         (Curtain.set_cloth sd
            (Some (THREE.set_geometry (THREE.Buffer (Curtain.refreshGeometry arr' g)) m)) s)).
Proof.
  intros Hc Ha Hg Hb Hh Hs Hn Hl.
  destruct (syncArray_spec (Ammo.m_nodes sb) (THREE.array (THREE.attr_position g)) nodeCount)
    as (arr' & E & _); [lia | lia |].
  exists arr'. split; [exact E |].
  unfold Curtain.sync, bind, gets, deref, modify, Curtain.log, modify.
  rewrite Hc, Ha, Hb, Hg, Hh, Hs, E. cbn.
  destruct s, sd; cbn; rewrite <- app_assoc; reflexivity.
Qed.

Lemma step_keeps_soft (Hlaw : KeepsNodeCounts) w h dt n i sb :
  Ammo.softs h !! i = Some sb ->
  exists sb', Ammo.softs (stepSimulation w h dt n) !! i = Some sb' /\
              length (Ammo.m_nodes sb') = length (Ammo.m_nodes sb).
Proof.
  intros Hi. specialize (Hlaw w h dt n).
  apply (f_equal (fun l => l !! i)) in Hlaw.
  rewrite !list_lookup_fmap, Hi in Hlaw. cbn in Hlaw.
  destruct (Ammo.softs (stepSimulation w h dt n) !! i) as [sb' |]; [| discriminate].
  exists sb'. split; [reflexivity |]. cbn in Hlaw. congruence.
Qed.

Lemma applyAssist_eq t i side s heap sb :
  Curtain.AmmoLib s = Some heap ->
  Ammo.softs heap !! i = Some sb ->
  length (Ammo.m_nodes sb) = nodeCount ->
  exists heap',
    Curtain.applyAssist t (Some (THREE.SoftRef i)) side s
    = (Ret tt, Curtain.set_calls (Curtain.calls s ++ assistCalls i side t)
                 (Curtain.set_AmmoLib (Some heap') s)) /\
    keepsPositions heap heap'.
Proof.
  intros Hh Hs Hn.
  destruct (addForces_eq i (assistForce side t) (Curtain.assistIndices side) s heap sb Hh Hs)
    as (heap' & E & K).
  - intros idx Hin. rewrite Hn. eapply assistIndices_bound; exact Hin.
  - exists heap'. split; [| exact K].
    unfold Curtain.applyAssist. destruct side; exact E.
Qed.

Lemma keepsPositions_soft h h' i sb :
  keepsPositions h h' -> Ammo.softs h !! i = Some sb ->
  exists sb', Ammo.softs h' !! i = Some sb' /\
              length (Ammo.m_nodes sb') = length (Ammo.m_nodes sb).
Proof.
  intros K Hi. destruct (K i sb Hi) as (sb' & Hi' & E).
  exists sb'. split; [exact Hi' |].
  apply (f_equal length) in E. now rewrite !length_fmap in E.
Qed.

Lemma physicsStep_eq (Hlaw : KeepsNodeCounts) dt t world heap s mL gL iL sbL mR gR iR sbR :
  Curtain.AmmoLib s = Some heap ->
  Curtain.leftCloth s = Some mL -> Curtain.leftPosAttr s = Some CachedAttribute ->
  THREE.geometry mL = THREE.Buffer gL -> THREE.physicsBody mL = Some (THREE.SoftRef iL) ->
  Ammo.softs heap !! iL = Some sbL -> length (Ammo.m_nodes sbL) = nodeCount ->
  length (THREE.array (THREE.attr_position gL)) = (nodeCount * 3)%nat ->
  Curtain.rightCloth s = Some mR -> Curtain.rightPosAttr s = Some CachedAttribute ->
  THREE.geometry mR = THREE.Buffer gR -> THREE.physicsBody mR = Some (THREE.SoftRef iR) ->
  Ammo.softs heap !! iR = Some sbR -> length (Ammo.m_nodes sbR) = nodeCount ->
  length (THREE.array (THREE.attr_position gR)) = (nodeCount * 3)%nat ->
  exists heap' sbL' sbR' arrL arrR,
    Curtain.physicsStep dt t world heap s
    = (Ret tt,
       Curtain.set_calls
         (Curtain.calls s ++ StepSimulation dt 10 :: assistCalls iL LeftSide t
            ++ assistCalls iR RightSide t ++ syncCalls iL ++ syncCalls iR)
         (Curtain.set_rightCloth
            (Some (THREE.set_geometry (THREE.Buffer (Curtain.refreshGeometry arrR gR)) mR))
            (Curtain.set_leftCloth
               (Some (THREE.set_geometry (THREE.Buffer (Curtain.refreshGeometry arrL gL)) mL))
               (Curtain.set_AmmoLib (Some heap') s)))) /\
    keepsPositions (stepSimulation world heap dt 10) heap' /\
    Ammo.softs heap' !! iL = Some sbL' /\ length (Ammo.m_nodes sbL') = nodeCount /\
    syncArray (Ammo.m_nodes sbL') (THREE.array (THREE.attr_position gL)) = Some arrL /\
    Ammo.softs heap' !! iR = Some sbR' /\ length (Ammo.m_nodes sbR') = nodeCount /\
    syncArray (Ammo.m_nodes sbR') (THREE.array (THREE.attr_position gR)) = Some arrR.
Proof.
  intros Hh HcL HaL HgL HbL HsL HnL HlL HcR HaR HgR HbR HsR HnR HlR.
  set (heap1 := stepSimulation world heap dt 10).
  destruct (step_keeps_soft Hlaw world heap dt 10 iL sbL HsL) as (sbL1 & HsL1 & HnL1).
  destruct (step_keeps_soft Hlaw world heap dt 10 iR sbR HsR) as (sbR1 & HsR1 & HnR1).
  fold heap1 in HsL1, HsR1.
  (* after the step and its log entry *)
  set (s1 := Curtain.set_calls (Curtain.calls s ++ [StepSimulation dt 10])
               (Curtain.set_AmmoLib (Some heap1) s)).
  assert (Hh1 : Curtain.AmmoLib s1 = Some heap1) by (destruct s; reflexivity).
  (* left forces *)
  destruct (applyAssist_eq t iL LeftSide s1 heap1 sbL1 Hh1 HsL1 ltac:(congruence))
    as (heap2 & E2 & K2).
  set (s2 := Curtain.set_calls _ _) in E2.
  assert (Hh2 : Curtain.AmmoLib s2 = Some heap2) by (destruct s; reflexivity).
  destruct (keepsPositions_soft heap1 heap2 iR sbR1 K2 HsR1) as (sbR2 & HsR2 & HnR2).
  (* right forces *)
  destruct (applyAssist_eq t iR RightSide s2 heap2 sbR2 Hh2 HsR2 ltac:(congruence))
    as (heap3 & E3 & K3).
  set (s3 := Curtain.set_calls _ _) in E3.
  assert (Hh3 : Curtain.AmmoLib s3 = Some heap3) by (destruct s; reflexivity).
  assert (K13 : keepsPositions heap1 heap3) by (etransitivity; eassumption).
  destruct (keepsPositions_soft heap1 heap3 iL sbL1 K13 HsL1) as (sbL3 & HsL3 & HnL3).
  destruct (keepsPositions_soft heap1 heap3 iR sbR1 K13 HsR1) as (sbR3 & HsR3 & HnR3).
  (* left sync *)
  destruct (sync_eq LeftSide iL s3 mL gL heap3 sbL3) as (arrL & EaL & E4);
    try assumption; try (destruct s; assumption); try congruence.
  set (s4 := Curtain.set_calls _ _) in E4.
  (* right sync *)
  destruct (sync_eq RightSide iR s4 mR gR heap3 sbR3) as (arrR & EaR & E5);
    try assumption; try (destruct s; assumption); try congruence.
  exists heap3, sbL3, sbR3, arrL, arrR.
  split; [| repeat split; try assumption; congruence].
  unfold Curtain.physicsStep.
  rewrite (bind_Ret _ _ s tt (Curtain.set_AmmoLib (Some heap1) s)) by reflexivity.
  rewrite (bind_Ret _ _ _ tt s1) by reflexivity.
  destruct (Rlt_dec 0 Curtain.tinyAssistForce) as [_ | Hno];
    [| exfalso; apply Hno; unfold Curtain.tinyAssistForce; lra].
  assert (Eassist :
    bind (Curtain.whenCloth LeftSide
            (fun m => Curtain.applyAssist t (THREE.physicsBody m) LeftSide))
         (fun _ => Curtain.whenCloth RightSide
            (fun m => Curtain.applyAssist t (THREE.physicsBody m) RightSide)) s1
    = (Ret tt, s3)).
  { rewrite (bind_Ret _ _ s1 tt s2).
    - rewrite (whenCloth_Some _ _ _ mR) by (destruct s; assumption).
      rewrite HbR. exact E3.
    - rewrite (whenCloth_Some _ _ _ mL) by (destruct s; assumption).
      rewrite HbL. exact E2. }
  rewrite (bind_Ret _ _ _ _ _ Eassist).
  rewrite (bind_Ret _ _ s3 tt s4).
  - rewrite (whenCloth_Some _ _ _ mR) by (destruct s; assumption).
    rewrite E5. subst s4 s3 s2 s1. unfold syncCalls.
    destruct s; cbn. rewrite <- !app_assoc. reflexivity.
  - rewrite (whenCloth_Some _ _ _ mL) by (destruct s; assumption). exact E4.
Qed.

Lemma tickClock_eq now s :
  Curtain.tickClock now s
  = (Ret (fst (getDelta now (Curtain.clock s))),
     Curtain.set_clock (snd (getDelta now (Curtain.clock s))) s).
Proof. unfold Curtain.tickClock. destruct (getDelta now (Curtain.clock s)); reflexivity. Qed.

Lemma present_eq t s r :
  Curtain.renderer s = Some r ->
  Curtain.present t s
  = (Ret tt,
     Curtain.set_calls (Curtain.calls s ++ [Render; RequestAnimationFrame])
       (Curtain.set_browser
          (set_pendingFrames (S (pendingFrames (Curtain.browser s))) (Curtain.browser s))
          (Curtain.set_renderer
             (Some (THREE.render (THREE.setOpacity (if Rge_dec t 1 then "0" else "1")%string r)))
             s))).
Proof.
  intros Hr. unfold Curtain.present, bind, modify, deref, Curtain.log, modify.
  destruct s; cbn in *; subst; cbn. rewrite <- app_assoc. reflexivity.
Qed.

Lemma syncArray_synced nodes arr arr' :
  length arr = (nodeCount * 3)%nat -> length nodes = nodeCount ->
  syncArray nodes arr = Some arr' ->
  length arr' = (nodeCount * 3)%nat /\
  forall k, (k < nodeCount)%nat ->
    exists nd, nodes !! k = Some nd /\
               arr' !! (3 * k)%nat = Some (vx (Ammo.m_x nd)) /\
               arr' !! (3 * k + 1)%nat = Some (vy (Ammo.m_x nd)) /\
               arr' !! (3 * k + 2)%nat = Some (vz (Ammo.m_x nd)).
Proof.
  intros Hl Hn E.
  destruct (syncArray_spec nodes arr nodeCount) as (arr2 & E2 & Hlen & Hk); [lia | lia |].
  assert (arr2 = arr') by congruence. subst arr2.
  split; [congruence | exact Hk].
Qed.

Lemma frame_simulated (Hlaw : KeepsNodeCounts) now s bL bR iL iR :
  Simulated bL bR iL iR s ->
  exists s' mL mR,
    Curtain.rod LeftSide s = Some mL /\ Curtain.rod RightSide s = Some mR /\
    Curtain.animate now s = (Ret tt, s') /\
    Curtain.calls s'
    = Curtain.calls s
      ++ frameCalls bL bR iL iR
           (rodTarget (Curtain.leftRodStartX s) (-1) (Curtain.slideDistance s)
              (Curtain.easeOutCubic (Curtain.scrollProgress s)) mL)
           (rodTarget (Curtain.rightRodStartX s) 1 (Curtain.slideDistance s)
              (Curtain.easeOutCubic (Curtain.scrollProgress s)) mR)
           (fst (getDelta now (Curtain.clock s)))
           (Curtain.easeOutCubic (Curtain.scrollProgress s)) /\
    Simulated bL bR iL iR s' /\
    patchSynced LeftSide iL s' /\ patchSynced RightSide iR s' /\
    Curtain.phase s' = Curtain.phase s /\
    pendingFrames (Curtain.browser s') = S (pendingFrames (Curtain.browser s)) /\
    listeners (Curtain.browser s') = listeners (Curtain.browser s) /\
    sameControls s s'.
Proof.
  intros (([sc Hsc] & [cam Hcam] & [rd Hrd]) & [world Hw] & (mL & HrL & HbL) & (mR & HrR & HbR)
          & (cL & gL & heap & sbL & HcL & HaL & HgL & HpL & Hh & HsL & HnL & HlL)
          & (cR & gR & heap' & sbR & HcR & HaR & HgR & HpR & Hh' & HsR & HnR & HlR)).
  assert (heap' = heap) by congruence. subst heap'. clear Hh'.
  set (t := Curtain.easeOutCubic (Curtain.scrollProgress s)).
  set (dt := fst (getDelta now (Curtain.clock s))).
  set (s0 := Curtain.set_clock (snd (getDelta now (Curtain.clock s))) s).
  (* the two rods *)
  pose proof (moveRod_body t LeftSide (Curtain.leftRodStartX s) (-1) s0 mL bL heap) as E1.
  cbv zeta in E1. specialize (E1 ltac:(assumption) HbL ltac:(assumption)).
  set (s1 := Curtain.set_calls _ _) in E1.
  set (heap1 := Ammo.set_bodies _ heap) in s1.
  pose proof (moveRod_body t RightSide (Curtain.rightRodStartX s) 1 s1 mR bR heap1) as E2.
  cbv zeta in E2. specialize (E2 ltac:(assumption) HbR ltac:(reflexivity)).
  set (s2 := Curtain.set_calls _ _) in E2.
  set (heap2 := Ammo.set_bodies _ heap1) in s2.
  (* the physics part *)
  destruct (physicsStep_eq Hlaw dt t world heap2 s2 cL gL iL sbL cR gR iR sbR)
    as (heap3 & sbL3 & sbR3 & arrL & arrR & E3 & _ & HsL3 & HnL3 & EaL & HsR3 & HnR3 & EaR);
    try assumption; try reflexivity.
  set (s3 := Curtain.set_calls _ _) in E3.
  (* presenting *)
  pose proof (present_eq t s3 rd ltac:(assumption)) as E4.
  set (s4 := Curtain.set_calls _ _) in E4.
  exists s4, mL, mR. split; [exact HrL |]. split; [exact HrR |].
  split.
  { unfold Curtain.animate. rewrite Hrd, Hsc, Hcam. unfold Curtain.frame.
    rewrite (bind_Ret _ _ _ _ _ (tickClock_eq now s)). fold dt s0.
    rewrite (bind_Ret _ _ s0 t s0) by reflexivity.
    rewrite (bind_Ret _ _ s0 tt s1).
    2:{ rewrite (bind_Ret _ _ s0 (Curtain.leftRodStartX s) s0) by reflexivity.
        exact E1. }
    rewrite (bind_Ret _ _ s1 tt s2).
    2:{ rewrite (bind_Ret _ _ s1 (Curtain.rightRodStartX s) s1) by reflexivity.
        exact E2. }
    rewrite (bind_Ret _ _ s2 tt s3).
    2:{ rewrite (bind_Ret _ _ s2 (Some world) s2) by (unfold gets; cbn; rewrite Hw; reflexivity).
        rewrite (bind_Ret _ _ s2 (Some heap2) s2) by reflexivity.
        exact E3. }
    exact E4. }
  destruct (syncArray_synced _ _ _ HlL HnL3 EaL) as [HlL' HkL].
  destruct (syncArray_synced _ _ _ HlR HnR3 EaR) as [HlR' HkR].
  clear E1 E2 E3 E4 EaL EaR.
  split.
  { subst s4 s3 s2 s1 s0. unfold frameCalls, poseCalls, syncCalls.
    destruct s; cbn. rewrite <- !app_assoc. reflexivity. }
  assert (HL : patchSynced LeftSide iL s4).
  { exists (THREE.set_geometry (THREE.Buffer (Curtain.refreshGeometry arrL gL)) cL),
      (Curtain.refreshGeometry arrL gL), heap3, sbL3.
    split; [reflexivity |]. split; [reflexivity |].
    split; [reflexivity |]. split; [exact HsL3 |].
    split; [exact HkL |]. split; reflexivity. }
  assert (HR : patchSynced RightSide iR s4).
  { exists (THREE.set_geometry (THREE.Buffer (Curtain.refreshGeometry arrR gR)) cR),
      (Curtain.refreshGeometry arrR gR), heap3, sbR3.
    split; [reflexivity |]. split; [reflexivity |].
    split; [reflexivity |]. split; [exact HsR3 |].
    split; [exact HkR |]. split; reflexivity. }
  split; [| split; [exact HL | split; [exact HR | repeat split; reflexivity]]].
  split.
  { split; [exists sc; exact Hsc |].
    split; [exists cam; exact Hcam |].
    eexists. reflexivity. }
  split; [exists world; exact Hw |].
  split.
  { eexists. split; [reflexivity | exact HbL]. }
  split.
  { eexists. split; [reflexivity | exact HbR]. }
  split.
  - exists (THREE.set_geometry (THREE.Buffer (Curtain.refreshGeometry arrL gL)) cL),
      (Curtain.refreshGeometry arrL gL), heap3, sbL3.
    split; [reflexivity |].
    split; [exact HaL |].
    split; [reflexivity |]. split; [exact HpL |].
    split; [reflexivity |]. split; [exact HsL3 |].
    split; [exact HnL3 | exact HlL'].
  - exists (THREE.set_geometry (THREE.Buffer (Curtain.refreshGeometry arrR gR)) cR),
      (Curtain.refreshGeometry arrR gR), heap3, sbR3.
    split; [reflexivity |].
    split; [exact HaR |].
    split; [reflexivity |]. split; [exact HpR |].
    split; [reflexivity |]. split; [exact HsR3 |].
    split; [exact HnR3 | exact HlR'].
Qed.

End CurtainFrame.

(** ** The curtain scene: construction *)

(** [GraphicsReady] of a state given by setters over a ready one. *)
Ltac ready_tac :=
  (split; [| split]); eexists; first [reflexivity | eassumption].

Section CurtainBoot.
Context `{Engine}.

Lemma anchored_nodes b sb : Ammo.m_nodes (anchored b sb) = Ammo.m_nodes sb.
Proof.
  unfold anchored. generalize (seq 0 (Curtain.segX + 1)) as l. intros l. revert sb.
  induction l as [| i l IH]; intros sb; cbn; [reflexivity | now rewrite IH].
Qed.

Lemma assertReady_eq s : GraphicsReady s -> Curtain.assertReady s = (Ret tt, s).
Proof.
  intros ([sc Hsc] & [cam Hcam] & [rd Hrd]). unfold Curtain.assertReady.
  now rewrite Hsc, Hcam, Hrd.
Qed.

Lemma computeViewSize_eq s cam :
  GraphicsReady s -> Curtain.camera s = Some cam ->
  Curtain.computeViewSize s = (Ret (viewSizeOf cam), s).
Proof.
  intros Hg Hcam. unfold Curtain.computeViewSize.
  rewrite (bind_Ret _ _ _ _ _ (assertReady_eq s Hg)).
  unfold bind, deref. rewrite Hcam. reflexivity.
Qed.

Lemma createRod_static x y len s sc :
  GraphicsReady s -> Curtain.scene s = Some sc -> Curtain.AmmoLib s = None ->
  Curtain.createRod x y len s
  = (Ret (rodMesh x y len None),
     Curtain.set_scene (Some (THREE.add THREE.MeshObject sc)) s).
Proof.
  intros Hg Hsc Hh. unfold Curtain.createRod.
  rewrite (bind_Ret _ _ _ _ _ (assertReady_eq s Hg)).
  unfold bind, deref, modify, gets, ret. rewrite Hsc. cbn. rewrite Hh. reflexivity.
Qed.

Lemma createRod_physics x y len s sc heap w :
  GraphicsReady s -> Curtain.scene s = Some sc ->
  Curtain.AmmoLib s = Some heap -> Curtain.physicsWorld s = Some w ->
  Curtain.createRod x y len s
  = (Ret (rodMesh x y len (Some (THREE.RigidRef (length (Ammo.bodies heap))))),
     Curtain.set_physicsWorld (Some (Ammo.addRigidBody (length (Ammo.bodies heap)) w))
       (Curtain.set_AmmoLib
          (Some (Ammo.set_bodies (Ammo.bodies heap ++ [rodBody x y len]) heap))
          (Curtain.set_scene (Some (THREE.add THREE.MeshObject sc)) s))).
Proof.
  intros Hg Hsc Hh Hw. unfold Curtain.createRod.
  rewrite (bind_Ret _ _ _ _ _ (assertReady_eq s Hg)).
  unfold bind, deref, modify, gets, ret. rewrite Hsc. cbn. rewrite Hh. cbn. rewrite Hw.
  reflexivity.
Qed.

Lemma mk_eq half viewH yTop xShift s sc :
  Curtain.scene s = Some sc ->
  Curtain.mk half viewH yTop xShift s
  = (Ret (curtainMesh half viewH yTop xShift None),
     Curtain.set_scene (Some (THREE.add THREE.MeshObject sc)) s).
Proof.
  intros Hsc. unfold Curtain.mk, bind, deref, modify, ret. rewrite Hsc. reflexivity.
Qed.

Lemma makePatch_eq viewH yTop xLeft xRight s heap w :
  Curtain.AmmoLib s = Some heap -> Curtain.physicsWorld s = Some w ->
  exists body,
    length (Ammo.m_nodes body) = nodeCount /\
    Curtain.makePatch viewH yTop xLeft xRight s
    = (Ret (length (Ammo.softs heap)),
       Curtain.set_physicsWorld (Some (Ammo.addSoftBody (length (Ammo.softs heap)) 1 (-1) w))
         (Curtain.set_AmmoLib
            (Some (Ammo.set_softs (Ammo.softs heap ++ [body]) heap)) s)).
Proof.
  intros Hh Hw. unfold Curtain.makePatch.
  match goal with
  | |- context [Ammo.CreatePatch ?a ?b ?c ?d ?x ?y] =>
      destruct (CreatePatch_some a b c d x y) as [body0 E];
        [unfold Curtain.segX; lia | unfold Curtain.segY; lia |];
      pose proof (CreatePatch_nodes _ _ _ _ _ _ _ E) as N
  end.
  eexists. split; [| unfold bind, deref, modify, ret; rewrite Hw, Hh, E; reflexivity].
  exact N.
Qed.

Lemma setClothBody_eq sd soft s m :
  Curtain.cloth sd s = Some m ->
  Curtain.setClothBody sd soft s
  = (Ret tt, Curtain.set_cloth sd
               (Some (THREE.set_physicsBody (Some (THREE.SoftRef soft)) m)) s).
Proof.
  intros Hc. unfold Curtain.setClothBody, bind, deref, modify. rewrite Hc. reflexivity.
Qed.

Lemma anchorRow_eq soft r b s heap :
  THREE.physicsBody r = Some (THREE.RigidRef b) -> Curtain.AmmoLib s = Some heap ->
  Curtain.anchorRow soft (Some r) s
  = (Ret tt, Curtain.set_AmmoLib
               (Some (Ammo.set_softs (alter (anchored b) soft (Ammo.softs heap)) heap)) s).
Proof.
  intros Hb Hh. unfold Curtain.anchorRow. rewrite Hb.
  unfold bind, deref, modify. rewrite Hh. reflexivity.
Qed.

Lemma createCurtains_simulated s heap w :
  GraphicsReady s ->
  Curtain.AmmoLib s = Some heap ->
  Curtain.physicsWorld s = Some w ->
  exists s',
    Curtain.createCurtains s = (Ret tt, s') /\
    Simulated (length (Ammo.bodies heap)) (S (length (Ammo.bodies heap)))
              (length (Ammo.softs heap)) (S (length (Ammo.softs heap))) s' /\
    Curtain.calls s' = Curtain.calls s /\
    Curtain.browser s' = Curtain.browser s /\
    Curtain.clock s' = Curtain.clock s /\
    Curtain.scrollProgress s' = Curtain.scrollProgress s /\
    Curtain.phase s' = Curtain.phase s /\
    exists heap',
      Curtain.AmmoLib s' = Some heap' /\
      length (Ammo.bodies heap') = S (S (length (Ammo.bodies heap))).
Proof.
  intros Hg Hh Hw.
  pose proof Hg as ([sc Hsc] & [cam Hcam] & [rd Hrd]).
  unfold Curtain.createCurtains.
  rewrite (bind_Ret _ _ _ _ _ (assertReady_eq s Hg)).
  rewrite (bind_Ret _ _ _ _ _ (computeViewSize_eq s cam Hg Hcam)).
  set (v := viewSizeOf cam).
  set (half := Curtain.viewW v / 2). set (yTop := Curtain.viewH v / 2 - 0.2).
  rewrite bind_modify. set (s1 := Curtain.set_slideDistance _ s).
  (* the rods *)
  rewrite (bind_Ret _ _ _ _ _
             (createRod_physics (- half / 2) yTop half s1 sc heap w
                ltac:(ready_tac) Hsc Hh Hw)).
  set (heap1 := Ammo.set_bodies _ heap). set (w1 := Ammo.addRigidBody _ w).
  set (sc1 := THREE.add THREE.MeshObject sc).
  rewrite bind_modify.
  set (s2 := Curtain.set_leftRodMesh _ _).
  rewrite (bind_Ret _ _ _ _ _
             (createRod_physics (half / 2) yTop half s2 sc1 heap1 w1
                ltac:(ready_tac) eq_refl eq_refl eq_refl)).
  set (heap2 := Ammo.set_bodies _ heap1). set (w2 := Ammo.addRigidBody _ w1).
  set (sc2 := THREE.add THREE.MeshObject sc1).
  rewrite !bind_modify.
  set (s3 := Curtain.set_rightRodStartX _ _).
  (* the planes *)
  rewrite (bind_Ret _ _ _ _ _ (mk_eq half (Curtain.viewH v) yTop (- half / 2) s3 sc2 eq_refl)).
  rewrite bind_modify.
  set (s4 := Curtain.set_leftCloth _ _).
  rewrite (bind_Ret _ _ _ _ _
             (mk_eq half (Curtain.viewH v) yTop (half / 2) s4
                (THREE.add THREE.MeshObject sc2) eq_refl)).
  rewrite !bind_modify.
  set (s5 := Curtain.set_rightPosAttr _ _).
  rewrite bind_gets. change (Curtain.AmmoLib s5) with (Some heap2). cbv iota beta.
  (* the soft bodies *)
  destruct (makePatch_eq (Curtain.viewH v) yTop (- half) 0 s5 heap2 w2 eq_refl eq_refl)
    as (bodyL & NL & EL).
  rewrite (bind_Ret _ _ _ _ _ EL).
  set (heap3 := Ammo.set_softs _ heap2) in *. set (w3 := Ammo.addSoftBody _ _ _ w2) in *.
  set (s6 := Curtain.set_physicsWorld _ _).
  destruct (makePatch_eq (Curtain.viewH v) yTop 0 half s6 heap3 w3 eq_refl eq_refl)
    as (bodyR & NR & ER).
  rewrite (bind_Ret _ _ _ _ _ ER).
  set (heap4 := Ammo.set_softs _ heap3) in *. set (w4 := Ammo.addSoftBody _ _ _ w3) in *.
  set (s7 := Curtain.set_physicsWorld _ _).
  rewrite (bind_Ret _ _ _ _ _ (setClothBody_eq LeftSide _ s7 _ eq_refl)).
  set (s8 := Curtain.set_cloth LeftSide _ _).
  rewrite (bind_Ret _ _ _ _ _ (setClothBody_eq RightSide _ s8 _ eq_refl)).
  set (s9 := Curtain.set_cloth RightSide _ _).
  (* the anchors *)
  rewrite (bind_Ret _ _ s9 tt
             (Curtain.set_AmmoLib
                (Some (Ammo.set_softs
                         (alter (anchored (length (Ammo.bodies heap)))
                                (length (Ammo.softs heap)) (Ammo.softs heap4)) heap4)) s9)).
  2:{ rewrite bind_gets. apply anchorRow_eq; reflexivity. }
  set (heap5 := Ammo.set_softs _ heap4).
  set (s10 := Curtain.set_AmmoLib _ s9).
  rewrite bind_gets.
  eexists. split; [apply anchorRow_eq; reflexivity |].
  split;
    [| repeat (split; [reflexivity |]);
       eexists; split; [reflexivity |]; cbn; rewrite !length_app; cbn; lia].
  split; [ready_tac |].
  split; [eexists; reflexivity |].
  split; [eexists; split; reflexivity |].
  split.
  { eexists; split; [reflexivity |]. cbn. rewrite length_app. cbn.
    now rewrite Nat.add_1_r. }
  assert (Hlen : forall x,
             length (THREE.array (THREE.attr_position
                       (curtainGeometry half (Curtain.viewH v) yTop x)))
             = (nodeCount * 3)%nat).
  { intros. unfold curtainGeometry. rewrite length_translate. apply length_planeVertices. }
  split.
  - eexists (curtainMesh half (Curtain.viewH v) yTop (- half / 2)
              (Some (THREE.SoftRef (length (Ammo.softs heap))))),
      (curtainGeometry half (Curtain.viewH v) yTop (- half / 2)), _,
      (anchored (length (Ammo.bodies heap)) bodyL).
    split; [reflexivity |]. split; [reflexivity |]. split; [reflexivity |].
    split; [reflexivity |]. split; [reflexivity |].
    split.
    { subst heap5 heap4 heap3. cbn.
      rewrite list_lookup_alter_ne by (rewrite length_app; cbn; lia).
      rewrite list_lookup_alter_eq.
      rewrite lookup_app_l by (rewrite length_app; cbn; lia).
      rewrite list_lookup_middle by reflexivity. reflexivity. }
    split; [rewrite anchored_nodes; exact NL | apply Hlen].
  - eexists (curtainMesh half (Curtain.viewH v) yTop (half / 2)
              (Some (THREE.SoftRef (length (Ammo.softs heap3))))),
      (curtainGeometry half (Curtain.viewH v) yTop (half / 2)), _,
      (anchored (length (Ammo.bodies heap1)) bodyR).
    split; [reflexivity |]. split; [reflexivity |]. split; [reflexivity |].
    split; [subst heap3; cbn; rewrite length_app; cbn; now rewrite Nat.add_1_r |].
    split; [reflexivity |].
    split.
    { subst heap5 heap4. cbn.
      rewrite <- (Nat.add_1_r (length (Ammo.softs heap))).
      replace (length (Ammo.softs heap) + 1)%nat with (length (Ammo.softs heap3))
        by (subst heap3; cbn; rewrite length_app; reflexivity).
      rewrite list_lookup_alter_eq.
      rewrite list_lookup_alter_ne by (subst heap3; cbn; rewrite length_app; cbn; lia).
      rewrite list_lookup_middle by reflexivity. reflexivity. }
    split; [rewrite anchored_nodes; exact NR | apply Hlen].
Qed.

End CurtainBoot.

#[local] Instance frameKeeps_refl : Reflexive frameKeeps.
Proof. intros s. unfold frameKeeps. repeat split; reflexivity. Qed.

#[local] Instance frameKeeps_trans : Transitive frameKeeps.
Proof.
  intros a b c (P1 & L1 & C1 & K1) (P2 & L2 & C2 & K2).
  split; [congruence |]. split; [congruence |].
  split; [etransitivity; eassumption |].
  intros sd. rewrite K2. apply K1.
Qed.

(** ** The curtain scene: what a frame leaves alone *)

(** The parts of a frame after the rods are moved, framed by any relation
    that tolerates the updates they make. *)
Section FrameCondition.
Context `{Engine}.
Context (R : Curtain.State -> Curtain.State -> Prop)
        {Rrefl : Reflexive R} {Rtrans : Transitive R}.
Hypothesis R_AmmoLib : forall v s, R s (Curtain.set_AmmoLib v s).
Hypothesis R_calls : forall v s, R s (Curtain.set_calls v s).
Hypothesis R_renderer : forall v s, R s (Curtain.set_renderer v s).
Hypothesis R_frames :
  forall n s, R s (Curtain.set_browser (set_pendingFrames n (Curtain.browser s)) s).
Hypothesis R_sync :
  forall sd m g arr' s,
    Curtain.cloth sd s = Some m -> THREE.geometry m = THREE.Buffer g ->
    length arr' = length (THREE.array (THREE.attr_position g)) ->
    R s (Curtain.set_cloth sd
           (Some (THREE.set_geometry (THREE.Buffer (Curtain.refreshGeometry arr' g)) m)) s).

Lemma framed_log c : framed R (Curtain.log c).
Proof. apply (framed_modify R). intros s. apply R_calls. Qed.

Lemma framed_addNodeForce soft f idx : framed R (Curtain.addNodeForce soft f idx).
Proof.
  unfold Curtain.addNodeForce.
  f_bind; [f_leaf | intros heap].
  destruct (Ammo.softs heap !! soft) as [sb |]; [| f_leaf].
  destruct (Ammo.m_nodes sb !! idx) as [n |]; [| f_leaf].
  f_bind; [| intros _; apply framed_log].
  apply (framed_modify R). intros s. apply R_AmmoLib.
Qed.

Lemma framed_applyAssist t soft side : framed R (Curtain.applyAssist t soft side).
Proof.
  unfold Curtain.applyAssist. destruct soft as [[i | i] |]; try f_leaf.
  apply (framed_forEach R). intros idx. apply framed_addNodeForce.
Qed.

Lemma framed_sync sd : framed R (Curtain.sync sd).
Proof.
  intros s. unfold Curtain.sync, bind, gets.
  destruct (Curtain.cloth sd s) as [m |] eqn:Hc; [| apply Rrefl].
  destruct (Curtain.posAttr sd s) as [a |]; [| apply Rrefl].
  destruct (THREE.physicsBody m) as [[i | i] |], (THREE.geometry m) as [| g] eqn:Hg;
    try apply Rrefl.
  unfold deref. destruct (Curtain.AmmoLib s) as [heap |]; [| apply Rrefl].
  destruct (Ammo.softs heap !! i) as [sb |]; [| apply Rrefl].
  destruct (syncArray _ _) as [arr' |] eqn:E; [| apply Rrefl].
  apply syncArray_length in E.
  cbn. eapply Rtrans; [| apply R_calls]. eapply Rtrans; [| apply R_calls].
  now apply R_sync.
Qed.

Lemma framed_whenCloth sd k :
  (forall m, framed R (k m)) -> framed R (Curtain.whenCloth sd k).
Proof.
  intros Hk. unfold Curtain.whenCloth.
  f_bind; [f_leaf | intros [m |]]; [apply Hk | f_leaf].
Qed.

Lemma framed_physicsStep dt t world heap :
  framed R (Curtain.physicsStep dt t world heap).
Proof.
  unfold Curtain.physicsStep.
  f_bind; [apply (framed_modify R); intros s; apply R_AmmoLib | intros _].
  f_bind; [apply framed_log | intros _].
  f_bind.
  { destruct (Rlt_dec 0 Curtain.tinyAssistForce); [| f_leaf].
    f_bind; [| intros _];
      apply framed_whenCloth; intros m; apply framed_applyAssist. }
  intros _.
  f_bind; [| intros _]; apply framed_whenCloth; intros m; apply framed_sync.
Qed.

Lemma framed_present t : framed R (Curtain.present t).
Proof.
  unfold Curtain.present.
  f_bind.
  { apply (framed_modify R). intros s. destruct (Curtain.renderer s); [| apply Rrefl].
    apply R_renderer. }
  intros _. f_bind; [f_leaf | intros r].
  f_bind; [apply (framed_modify R); intros s; apply R_renderer | intros _].
  f_bind; [apply framed_log | intros _].
  f_bind; [apply (framed_modify R); intros s; apply R_frames | intros _].
  apply framed_log.
Qed.

(** The physics part and the presentation of a frame. *)
Lemma framed_afterRods dt t :
  framed R
    ((let! w := gets Curtain.physicsWorld in
      let! lib := gets Curtain.AmmoLib in
      match w, lib with
      | Some world, Some heap => Curtain.physicsStep dt t world heap
      | _, _ => ret tt
      end) >> Curtain.present t).
Proof.
  f_bind; [| intros _; apply framed_present].
  f_bind; [f_leaf | intros [world |]].
  - f_bind; [f_leaf | intros [heap |]]; [apply framed_physicsStep | f_leaf].
  - f_bind; [f_leaf | intros lib]. f_leaf.
Qed.

(** With the rods and the clock tolerated too, the whole frame. *)
Hypothesis R_rod : forall sd v s, R s (Curtain.set_rod sd v s).
Hypothesis R_clock : forall v s, R s (Curtain.set_clock v s).

Lemma framed_moveRod t sd startX dir : framed R (Curtain.moveRod t sd startX dir).
Proof.
  unfold Curtain.moveRod.
  f_bind; [f_leaf | intros [m |]]; [| f_leaf].
  f_bind; [f_leaf | intros sdist].
  f_bind; [apply (framed_modify R); intros s; apply R_rod | intros _].
  f_bind; [f_leaf | intros lib]. cbn [THREE.physicsBody THREE.set_position].
  destruct (THREE.physicsBody m) as [[b | b] |], lib as [heap |]; try f_leaf.
  f_bind; [apply (framed_modify R); intros s; apply R_AmmoLib | intros _].
  repeat (f_bind; [apply framed_log | intros _]). apply framed_log.
Qed.

Lemma framed_animate now : framed R (Curtain.animate now).
Proof.
  intros s. unfold Curtain.animate.
  destruct (Curtain.renderer s), (Curtain.scene s), (Curtain.camera s); try apply Rrefl.
  revert s. change (framed R (Curtain.frame now)). unfold Curtain.frame.
  f_bind.
  { intros s. rewrite tickClock_eq. apply R_clock. }
  intros dt. f_bind; [f_leaf | intros t].
  f_bind; [f_bind; [f_leaf | intros x]; apply framed_moveRod | intros _].
  f_bind; [f_bind; [f_leaf | intros x]; apply framed_moveRod | intros _].
  apply framed_afterRods.
Qed.

End FrameCondition.

(** ** The curtain scene: the rods after a frame *)

Section CurtainRods.
Context `{Engine}.

Lemma sameRods_afterRods dt t :
  framed sameRods
    ((let! w := gets Curtain.physicsWorld in
      let! lib := gets Curtain.AmmoLib in
      match w, lib with
      | Some world, Some heap => Curtain.physicsStep dt t world heap
      | _, _ => ret tt
      end) >> Curtain.present t).
Proof.
  apply (framed_afterRods sameRods).
  - intros v []; hnf; cbn; repeat split; reflexivity.
  - intros v []; hnf; cbn; repeat split; reflexivity.
  - intros v []; hnf; cbn; repeat split; reflexivity.
  - intros n []; hnf; cbn; repeat split; reflexivity.
  - intros [] m g arr' [] _ _ _; hnf; cbn; repeat split; reflexivity.
Qed.

Lemma clothLength_set_cloth sd sd' m s :
  clothLength sd' (Curtain.set_cloth sd (Some m) s)
  = if decide (sd' = sd) then length <$> THREE.positions m else clothLength sd' s.
Proof. destruct sd, sd', s; reflexivity. Qed.

Lemma frameKeeps_animate now : framed frameKeeps (Curtain.animate now).
Proof.
  apply (framed_animate frameKeeps).
  - intros v []; hnf; cbn; repeat split; reflexivity.
  - intros v []; hnf; cbn; repeat split; reflexivity.
  - intros v []; hnf; cbn; repeat split; reflexivity.
  - intros n []; hnf; cbn; repeat split; reflexivity.
  - intros sd m g arr' s Hc Hg Hlen.
    split; [destruct sd, s; reflexivity |].
    split; [destruct sd, s; reflexivity |].
    split; [destruct sd, s; hnf; cbn; repeat split; reflexivity |].
    intros sd'. rewrite clothLength_set_cloth.
    destruct (decide (sd' = sd)) as [-> | _]; [| reflexivity].
    unfold clothLength. rewrite Hc. cbn. unfold THREE.positions. rewrite Hg. cbn.
    now rewrite Hlen.
  - intros [] v []; hnf; cbn; repeat split; reflexivity.
  - intros v []; hnf; cbn; repeat split; reflexivity.
Qed.

(** After a frame both rods sit at their targets, whatever the physics part
    of the frame did. *)
Lemma animate_rods now s lm rm :
  GraphicsReady s ->
  Curtain.leftRodMesh s = Some lm -> Curtain.rightRodMesh s = Some rm ->
  rigidRod lm -> rigidRod rm ->
  let t := Curtain.easeOutCubic (Curtain.scrollProgress s) in
  let s' := snd (Curtain.animate now s) in
  rodX LeftSide s' = Some (Curtain.leftRodStartX s + -1 * Curtain.slideDistance s * t) /\
  rodX RightSide s' = Some (Curtain.rightRodStartX s + 1 * Curtain.slideDistance s * t) /\
  sameControls s s'.
Proof.
  intros ([sc Hsc] & [cam Hcam] & [rd Hrd]) HL HR HrL HrR t s'.
  subst s'. unfold Curtain.animate. rewrite Hrd, Hsc, Hcam. unfold Curtain.frame.
  rewrite (bind_Ret _ _ _ _ _ (tickClock_eq now s)).
  set (s0 := Curtain.set_clock _ s).
  rewrite bind_gets. change (Curtain.easeOutCubic (Curtain.scrollProgress s0)) with t.
  destruct (moveRod_mesh t LeftSide (Curtain.leftRodStartX s0) (-1) s0 lm HL HrL)
    as (s1 & E1 & R1 & O1 & C1).
  rewrite (bind_Ret _ _ s0 tt s1) by (rewrite bind_gets; exact E1).
  assert (HR1 : Curtain.rod RightSide s1 = Some rm).
  { rewrite (O1 RightSide) by discriminate. exact HR. }
  destruct (moveRod_mesh t RightSide (Curtain.rightRodStartX s1) 1 s1 rm HR1 HrR)
    as (s2 & E2 & R2 & O2 & C2).
  rewrite (bind_Ret _ _ s1 tt s2) by (rewrite bind_gets; exact E2).
  pose proof (sameRods_afterRods (fst (getDelta now (Curtain.clock s))) t s2) as F.
  destruct F as (FL & FR & FC).
  destruct C1 as (C1a & C1b & C1c & C1d). destruct C2 as (C2a & C2b & C2c & C2d).
  destruct FC as (Fa & Fb & Fc & Fd).
  unfold rodX. cbn [Curtain.rod]. rewrite FL, FR.
  change (Curtain.rightRodMesh s2) with (Curtain.rod RightSide s2).
  rewrite R2.
  change (Curtain.leftRodMesh s2) with (Curtain.rod LeftSide s2).
  rewrite (O2 LeftSide) by discriminate. rewrite R1. cbn.
  rewrite C1b, C1c.
  split; [reflexivity |]. split; [reflexivity |].
  unfold sameControls.
  rewrite Fa, Fb, Fc, Fd, C2a, C2b, C2c, C2d, C1a, C1b, C1c, C1d.
  repeat split; reflexivity.
Qed.

End CurtainRods.

(** ** The curtain scene: booting with the engine *)

Section CurtainEvents.
Context `{Engine}.

Lemma Simulated_onScroll bL bR iL iR s :
  Simulated bL bR iL iR s -> Simulated bL bR iL iR (Curtain.onScroll s).
Proof.
  intros (Hg & Hw & HrL & HrR & HpL & HpR). exact (conj Hg (conj Hw (conj HrL (conj HrR (conj HpL HpR))))).
Qed.

Lemma mount_ready b :
  container b = true ->
  GraphicsReady (Curtain.mount (Curtain.initial b)) /\
  Curtain.phase (Curtain.mount (Curtain.initial b)) = Curtain.AwaitingScript /\
  Curtain.AmmoLib (Curtain.mount (Curtain.initial b)) = None /\
  Curtain.physicsWorld (Curtain.mount (Curtain.initial b)) = None /\
  Curtain.calls (Curtain.mount (Curtain.initial b)) = [].
Proof.
  intros Hc. unfold Curtain.mount, Curtain.initGraphics. cbn. rewrite Hc. cbn.
  split; [ready_tac |]. repeat split; reflexivity.
Qed.

(** The engine resolves: the world is created, the curtains are built and
    the first frame runs. *)
Lemma handle_AmmoResolved (Hlaw : KeepsNodeCounts) now s :
  Curtain.phase s = Curtain.AwaitingAmmo -> GraphicsReady s ->
  exists sc mL mR dt t,
    Curtain.createCurtains
      (Curtain.set_physicsWorld (Some (Ammo.newWorld (mkVec3 0 Curtain.gravity 0)))
         (Curtain.set_AmmoLib (Some Ammo.emptyHeap) (Curtain.set_phase Curtain.BootEnded s)))
    = (Ret tt, sc) /\
    Simulated 0 1 0 1 sc /\
    Simulated 0 1 0 1 (Curtain.handle now Curtain.AmmoResolved s) /\
    Curtain.phase (Curtain.handle now Curtain.AmmoResolved s) = Curtain.BootEnded /\
    Curtain.calls (Curtain.handle now Curtain.AmmoResolved s)
    = Curtain.calls s
      ++ frameCalls 0 1 0 1
           (rodTarget (Curtain.leftRodStartX sc) (-1) (Curtain.slideDistance sc) t mL)
           (rodTarget (Curtain.rightRodStartX sc) 1 (Curtain.slideDistance sc) t mR) dt t /\
    patchSynced LeftSide 0 (Curtain.handle now Curtain.AmmoResolved s) /\
    patchSynced RightSide 1 (Curtain.handle now Curtain.AmmoResolved s) /\
    0 <= Curtain.scrollProgress (Curtain.handle now Curtain.AmmoResolved s) <= 1.
Proof.
  intros Hp Hg.
  set (sa := Curtain.set_AmmoLib (Some Ammo.emptyHeap) (Curtain.set_phase Curtain.BootEnded s)).
  set (sb := Curtain.set_physicsWorld (Some (Ammo.newWorld (mkVec3 0 Curtain.gravity 0))) sa).
  assert (Hgb : GraphicsReady sb) by exact Hg.
  destruct (createCurtains_simulated sb Ammo.emptyHeap _ Hgb eq_refl eq_refl)
    as (sc & Ec & Sc & Cc & Bc & Kc & Pc & Phc & _).
  cbn [length Ammo.bodies Ammo.softs Ammo.emptyHeap] in Sc.
  pose proof (Simulated_onScroll _ _ _ _ _ Sc) as Sd.
  destruct (frame_simulated Hlaw now (Curtain.onScroll sc) 0 1 0 1 Sd)
    as (se & mL & mR & HrL & HrR & Ee & Ce & Se & PL & PR & Phe & _ & _ & Ctl).
  assert (E : Curtain.handle now Curtain.AmmoResolved s = se).
  { unfold Curtain.handle. rewrite Hp. fold sa. unfold try_catch.
    unfold Curtain.initPhysics.
    rewrite (bind_Ret _ _ sa tt sb).
    2:{ unfold bind, deref, modify. reflexivity. }
    unfold Curtain.bootTail.
    rewrite (bind_Ret _ _ _ _ _ Ec), bind_modify, Ee. reflexivity. }
  rewrite E.
  exists sc, mL, mR, (fst (getDelta now (Curtain.clock (Curtain.onScroll sc)))),
    (Curtain.easeOutCubic (Curtain.scrollProgress (Curtain.onScroll sc))).
  split; [exact Ec |]. split; [exact Sc |]. split; [exact Se |].
  split; [rewrite Phe; exact Phc |].
  split; [rewrite Ce; f_equal; exact Cc |].
  split; [exact PL |]. split; [exact PR |].
  destruct Ctl as (_ & _ & _ & Esp). rewrite Esp. apply onScroll_range.
Qed.

End CurtainEvents.

Section DemoEngine.

Lemma demoEngine_keeps : @KeepsNodeCounts demoEngine.
Proof.
  intros w h dt n. change (stepSimulation w h dt n) with (fallStep w h dt n).
  unfold fallStep. cbn [Ammo.softs Ammo.set_softs].
  rewrite <- list_fmap_compose. apply list_fmap_ext.
  intros i sb _. cbn. now rewrite length_fmap.
Qed.

End DemoEngine.

(** ** The demo scene *)

Lemma demoStart_awaiting :
  GraphicsReady demoStart /\ Curtain.phase demoStart = Curtain.AwaitingScript /\
  Curtain.calls demoStart = [].
Proof.
  destruct (mount_ready demoBrowser eq_refl) as (Hg & Hp & _ & _ & Hc).
  exact (conj Hg (conj Hp Hc)).
Qed.

Lemma demoBooted_eq :
  demoBooted
  = @Curtain.handle demoEngine 16 Curtain.AmmoResolved
      (Curtain.set_phase Curtain.AwaitingAmmo demoStart).
Proof.
  destruct demoStart_awaiting as (_ & Hp & _).
  unfold demoBooted, Curtain.run. cbn [fold_left fst snd].
  unfold Curtain.handle at 2. rewrite Hp. reflexivity.
Qed.

Lemma demoBooted_simulated :
  exists trL trR dt t,
    Simulated 0 1 0 1 demoBooted /\
    Curtain.calls demoBooted = frameCalls 0 1 0 1 trL trR dt t /\
    @patchSynced demoEngine LeftSide 0 demoBooted /\
    @patchSynced demoEngine RightSide 1 demoBooted /\
    0 <= Curtain.scrollProgress demoBooted <= 1.
Proof.
  destruct demoStart_awaiting as (Hg & Hp & Hc).
  destruct (@handle_AmmoResolved demoEngine demoEngine_keeps 16
              (Curtain.set_phase Curtain.AwaitingAmmo demoStart) eq_refl Hg)
    as (sc & mL & mR & dt & t & _ & _ & HS & _ & HC & PL & PR & Hr).
  rewrite <- demoBooted_eq in *.
  eexists _, _, dt, t. split; [exact HS |].
  split; [rewrite HC; change (Curtain.calls (Curtain.set_phase Curtain.AwaitingAmmo demoStart))
                        with (Curtain.calls demoStart); rewrite Hc; reflexivity |].
  auto.
Qed.

(** ** The order of a frame *)

(** C1, as amended: in every frame of the simulated curtain scene the
    sub-steps run in one fixed order: both rods are driven kinematically to
    the targets of the eased control signal, then the physics world is stepped
    by the frame's elapsed time with sub-step argument 10, then the seam
    forces (scaled by the eased control value) are added to the nodes' force
    accumulators, then the vertices are synchronised and the frame is
    presented. *)
Theorem frame_order `{Engine} (Hlaw : KeepsNodeCounts) now s bL bR iL iR :
  Simulated bL bR iL iR s ->
  exists s' mL mR,
    Curtain.rod LeftSide s = Some mL /\ Curtain.rod RightSide s = Some mR /\
    Curtain.animate now s = (Ret tt, s') /\
    let t := Curtain.easeOutCubic (Curtain.scrollProgress s) in
    let dt := fst (getDelta now (Curtain.clock s)) in
    let trL := rodTarget (Curtain.leftRodStartX s) (-1) (Curtain.slideDistance s) t mL in
    let trR := rodTarget (Curtain.rightRodStartX s) 1 (Curtain.slideDistance s) t mR in
    Curtain.calls s'
    = Curtain.calls s
      ++ poseCalls bL trL ++ poseCalls bR trR
      ++ StepSimulation dt 10
      :: assistCalls iL LeftSide t ++ assistCalls iR RightSide t
      ++ syncCalls iL ++ syncCalls iR
      ++ [Render; RequestAnimationFrame].
Proof.
  intros HS.
  destruct (frame_simulated Hlaw now s bL bR iL iR HS)
    as (s' & mL & mR & HL & HR & E & C & _).
  exists s', mL, mR. auto.
Qed.

Lemma frame_order_witness :
  exists s' mL mR,
    Curtain.rod LeftSide demoBooted = Some mL /\
    Curtain.rod RightSide demoBooted = Some mR /\
    @Curtain.animate demoEngine 32 demoBooted = (Ret tt, s') /\
    let t := Curtain.easeOutCubic (Curtain.scrollProgress demoBooted) in
    let dt := fst (getDelta 32 (Curtain.clock demoBooted)) in
    let trL := rodTarget (Curtain.leftRodStartX demoBooted) (-1)
                 (Curtain.slideDistance demoBooted) t mL in
    let trR := rodTarget (Curtain.rightRodStartX demoBooted) 1
                 (Curtain.slideDistance demoBooted) t mR in
    Curtain.calls s'
    = Curtain.calls demoBooted
      ++ poseCalls 0 trL ++ poseCalls 1 trR
      ++ StepSimulation dt 10
      :: assistCalls 0 LeftSide t ++ assistCalls 1 RightSide t
      ++ syncCalls 0 ++ syncCalls 1
      ++ [Render; RequestAnimationFrame].
Proof.
  destruct demoBooted_simulated as (trL & trR & dt & t & HS & _).
  exact (@frame_order demoEngine demoEngine_keeps 32 demoBooted 0 1 0 1 HS).
Defined.

Lemma assistIndices_first side :
  exists idx rest, Curtain.assistIndices side = idx :: rest.
Proof. destruct side; eexists _, _; reflexivity. Qed.

(** C1, as stated, fails on the first frame of the demo scene: the world is
    stepped before the seam forces are injected. *)
Lemma frame_forces_follow_step : ~ forcesPrecedeStep (Curtain.calls demoBooted).
Proof.
  destruct demoBooted_simulated as (trL & trR & dt & t & _ & HC & _).
  intros Hclaim.
  destruct (assistIndices_first LeftSide) as (idx & rest & Ei).
  apply (Hclaim (poseCalls 0 trL ++ poseCalls 1 trR)
           (assistCalls 0 LeftSide t ++ assistCalls 1 RightSide t
            ++ syncCalls 0 ++ syncCalls 1 ++ [Render; RequestAnimationFrame])
           dt 10%nat 0%nat idx (assistForce LeftSide t)).
  - rewrite HC. unfold frameCalls. rewrite <- app_assoc. reflexivity.
  - apply in_or_app. left. unfold assistCalls. rewrite Ei. now left.
Qed.

Lemma demoBuilt_facts :
  Simulated 0 1 0 1 demoBuilt /\
  exists heap, Curtain.AmmoLib demoBuilt = Some heap /\ length (Ammo.bodies heap) = 2%nat.
Proof.
  destruct demoStart_awaiting as (Hg & _ & _).
  unfold demoBuilt.
  match goal with
  | |- context [Curtain.createCurtains ?s0] =>
      destruct (createCurtains_simulated s0 Ammo.emptyHeap _ Hg eq_refl eq_refl)
        as (sc & Ec & Sc & _ & _ & _ & _ & _ & heap & Hh & Hl)
  end.
  rewrite Ec. cbn [snd]. split; [exact Sc |]. exists heap. auto.
Qed.


#[local] Opaque demoBooted demoBuilt.

(** ** The slide actuator *)

Lemma rodDriven_rigid sd b s :
  rodDriven sd b s -> exists m, Curtain.rod sd s = Some m /\ rigidRod m.
Proof.
  intros (m & Hm & Hb). exists m. split; [exact Hm |].
  intros i Hi. congruence.
Qed.

(** C5: for every control signal [c] in [0, 1], a frame places the left rod
    at [leftRodStartX - slideDistance * ease c] and the right rod at
    [rightRodStartX + slideDistance * ease c]; at [c = 0] the rods sit at
    their start positions and at [c = 1] at [start - slideDistance] and
    [start + slideDistance]. *)
Theorem slide_targets `{Engine} now s lm rm :
  GraphicsReady s ->
  Curtain.leftRodMesh s = Some lm -> Curtain.rightRodMesh s = Some rm ->
  rigidRod lm -> rigidRod rm ->
  0 <= Curtain.scrollProgress s <= 1 ->
  let c := Curtain.scrollProgress s in
  let s' := snd (Curtain.animate now s) in
  rodX LeftSide s'
  = Some (Curtain.leftRodStartX s + -1 * Curtain.slideDistance s * Curtain.easeOutCubic c) /\
  rodX RightSide s'
  = Some (Curtain.rightRodStartX s + 1 * Curtain.slideDistance s * Curtain.easeOutCubic c) /\
  (c = 0 -> rodX LeftSide s' = Some (Curtain.leftRodStartX s) /\
            rodX RightSide s' = Some (Curtain.rightRodStartX s)) /\
  (c = 1 -> rodX LeftSide s' = Some (Curtain.leftRodStartX s - Curtain.slideDistance s) /\
            rodX RightSide s' = Some (Curtain.rightRodStartX s + Curtain.slideDistance s)).
Proof.
  intros Hg HL HR HrL HrR Hc c s'.
  destruct (animate_rods now s lm rm Hg HL HR HrL HrR) as (EL & ER & _).
  fold c s' in EL, ER.
  split; [exact EL |]. split; [exact ER |].
  split; intros E; rewrite EL, ER, E; unfold Curtain.easeOutCubic; split; f_equal; lra.
Qed.

Lemma slide_targets_witness :
  exists lm rm,
    Curtain.leftRodMesh demoBooted = Some lm /\ Curtain.rightRodMesh demoBooted = Some rm /\
    let c := Curtain.scrollProgress demoBooted in
    let s' := snd (@Curtain.animate demoEngine 32 demoBooted) in
    rodX LeftSide s'
    = Some (Curtain.leftRodStartX demoBooted
            + -1 * Curtain.slideDistance demoBooted * Curtain.easeOutCubic c) /\
    rodX RightSide s'
    = Some (Curtain.rightRodStartX demoBooted
            + 1 * Curtain.slideDistance demoBooted * Curtain.easeOutCubic c) /\
    (c = 0 -> rodX LeftSide s' = Some (Curtain.leftRodStartX demoBooted) /\
              rodX RightSide s' = Some (Curtain.rightRodStartX demoBooted)) /\
    (c = 1 -> rodX LeftSide s'
              = Some (Curtain.leftRodStartX demoBooted - Curtain.slideDistance demoBooted) /\
              rodX RightSide s'
              = Some (Curtain.rightRodStartX demoBooted + Curtain.slideDistance demoBooted)).
Proof.
  destruct demoBooted_simulated
    as (trL & trR & dt & t & (Hg & _ & HdL & HdR & _) & _ & _ & _ & Hc).
  destruct (rodDriven_rigid _ _ _ HdL) as (lm & HL & HrL).
  destruct (rodDriven_rigid _ _ _ HdR) as (rm & HR & HrR).
  exists lm, rm. split; [exact HL |]. split; [exact HR |].
  exact (@slide_targets demoEngine 32 demoBooted lm rm Hg HL HR HrL HrR Hc).
Defined.

(** ** The kinematic overwrite at a built scene *)

Lemma moveRod_zeroes_velocity_witness :
  exists m s' heap' body',
    Curtain.rod LeftSide demoBuilt = Some m /\
    Curtain.moveRod (1 / 2) LeftSide (Curtain.leftRodStartX demoBuilt) (-1) demoBuilt
    = (Ret tt, s') /\
    Curtain.AmmoLib s' = Some heap' /\
    Ammo.bodies heap' !! 0%nat = Some body' /\
    Ammo.worldTransform body'
    = rodTarget (Curtain.leftRodStartX demoBuilt) (-1) (Curtain.slideDistance demoBuilt)
        (1 / 2) m /\
    Ammo.linearVelocity body' = vzero /\
    Ammo.angularVelocity body' = vzero /\
    Ammo.activationState body' = Ammo.ACTIVE_TAG /\
    Curtain.calls s'
    = Curtain.calls demoBuilt
      ++ poseCalls 0
           (rodTarget (Curtain.leftRodStartX demoBuilt) (-1)
              (Curtain.slideDistance demoBuilt) (1 / 2) m).
Proof.
  destruct demoBuilt_facts as ((_ & _ & (m & Hm & Hb) & _) & heap & Hh & Hl).
  destruct (lookup_lt_is_Some_2 (Ammo.bodies heap) 0%nat) as [body Hbody]; [lia |].
  destruct (moveRod_zeroes_velocity (1 / 2) LeftSide (Curtain.leftRodStartX demoBuilt) (-1)
              demoBuilt m 0%nat heap body Hm Hb Hh Hbody)
    as (s' & heap' & body' & P).
  exists m, s', heap', body'. split; [exact Hm | exact P].
Defined.

Lemma computeViewSize_spec_witness :
  Curtain.computeViewSize demoStart
  = (Ret (Curtain.mkViewSize (2 * tan (60 * PI / 180 / 2) * 8 * (1600 / 900))
                             (2 * tan (60 * PI / 180 / 2) * 8)),
     demoStart) /\
  Curtain.computeViewSize (Curtain.initial demoBrowser)
  = (Throw GraphicsNotReady, Curtain.initial demoBrowser).
Proof.
  split.
  - apply (proj1 (computeViewSize_spec demoStart) _ _ _ eq_refl eq_refl eq_refl).
  - apply (proj2 (computeViewSize_spec (Curtain.initial demoBrowser))).
    left. reflexivity.
Defined.

(** ** The curtain scene: construction and frames without the engine *)

Section CurtainStatic.
Context `{Engine}.

Lemma createCurtains_static s cam :
  GraphicsReady s -> Curtain.camera s = Some cam -> Curtain.AmmoLib s = None ->
  let v := viewSizeOf cam in
  let half := Curtain.viewW v / 2 in
  let yTop := Curtain.viewH v / 2 - 0.2 in
  exists s',
    Curtain.createCurtains s = (Ret tt, s') /\
    GraphicsReady s' /\
    Curtain.leftCloth s' = Some (curtainMesh half (Curtain.viewH v) yTop (- half / 2) None) /\
    Curtain.rightCloth s' = Some (curtainMesh half (Curtain.viewH v) yTop (half / 2) None) /\
    Curtain.leftRodMesh s' = Some (rodMesh (- half / 2) yTop half None) /\
    Curtain.rightRodMesh s' = Some (rodMesh (half / 2) yTop half None) /\
    Curtain.AmmoLib s' = None /\
    Curtain.physicsWorld s' = Curtain.physicsWorld s /\
    Curtain.calls s' = Curtain.calls s /\
    Curtain.browser s' = Curtain.browser s /\
    Curtain.renderer s' = Curtain.renderer s /\
    Curtain.phase s' = Curtain.phase s.
Proof.
  intros Hg Hcam Hh v half yTop.
  pose proof Hg as ([sc Hsc] & _ & [rd Hrd]).
  unfold Curtain.createCurtains.
  rewrite (bind_Ret _ _ _ _ _ (assertReady_eq s Hg)).
  rewrite (bind_Ret _ _ _ _ _ (computeViewSize_eq s cam Hg Hcam)).
  fold v. fold half. fold yTop.
  rewrite bind_modify. set (s1 := Curtain.set_slideDistance _ s).
  rewrite (bind_Ret _ _ _ _ _
             (createRod_static (- half / 2) yTop half s1 sc ltac:(ready_tac) Hsc Hh)).
  set (sc1 := THREE.add THREE.MeshObject sc).
  rewrite bind_modify. set (s2 := Curtain.set_leftRodMesh _ _).
  rewrite (bind_Ret _ _ _ _ _
             (createRod_static (half / 2) yTop half s2 sc1 ltac:(ready_tac) eq_refl Hh)).
  set (sc2 := THREE.add THREE.MeshObject sc1).
  rewrite !bind_modify. set (s3 := Curtain.set_rightRodStartX _ _).
  rewrite (bind_Ret _ _ _ _ _ (mk_eq half (Curtain.viewH v) yTop (- half / 2) s3 sc2 eq_refl)).
  rewrite bind_modify. set (s4 := Curtain.set_leftCloth _ _).
  rewrite (bind_Ret _ _ _ _ _
             (mk_eq half (Curtain.viewH v) yTop (half / 2) s4
                (THREE.add THREE.MeshObject sc2) eq_refl)).
  rewrite !bind_modify. set (s5 := Curtain.set_rightPosAttr _ _).
  rewrite bind_gets. change (Curtain.AmmoLib s5) with (Curtain.AmmoLib s). rewrite Hh.
  eexists. split; [reflexivity |].
  split; [ready_tac |].
  repeat (split; [first [reflexivity | exact Hh] |]). reflexivity.
Qed.

(** A frame without the engine: the rods move, nothing is simulated, the
    curtains stay as they are and the frame is presented. *)
Lemma animate_static now s :
  GraphicsReady s -> Curtain.AmmoLib s = None ->
  exists s' r,
    Curtain.animate now s = (Ret tt, s') /\
    GraphicsReady s' /\
    Curtain.leftCloth s' = Curtain.leftCloth s /\
    Curtain.rightCloth s' = Curtain.rightCloth s /\
    Curtain.AmmoLib s' = None /\
    Curtain.physicsWorld s' = Curtain.physicsWorld s /\
    Curtain.renderer s = Some r /\
    THREE.framesRendered <$> Curtain.renderer s' = Some (S (THREE.framesRendered r)) /\
    pendingFrames (Curtain.browser s') = S (pendingFrames (Curtain.browser s)) /\
    console (Curtain.browser s') = console (Curtain.browser s) /\
    Curtain.calls s' = Curtain.calls s ++ [Render; RequestAnimationFrame] /\
    Curtain.phase s' = Curtain.phase s.
Proof.
  intros ([sc Hsc] & [cam Hcam] & [rd Hrd]) Hh.
  destruct s as [r0 sc0 cam0 [run old] lib pw lc rc la ra lr rr lx rx sd sp br cs ph].
  cbn in *. subst.
  unfold Curtain.animate, Curtain.frame, Curtain.tickClock, Curtain.moveRod,
    Curtain.present, Curtain.log, bind, gets, modify, deref, ret.
  cbn.
  destruct run, lr as [lm |], rr as [rm |]; cbn;
    try destruct (THREE.physicsBody lm) as [[b | b] |]; cbn;
    try destruct (THREE.physicsBody rm) as [[b' | b'] |]; cbn;
    destruct pw; cbn;
    (eexists _, _; split; [reflexivity |]);
    (split; [ready_tac |]);
    do 8 (split; [reflexivity |]);
    (split; [rewrite <- app_assoc; reflexivity | reflexivity]).
Qed.

End CurtainStatic.

(** ** The curtain scene: booting without the engine *)

Section CurtainDegraded.
Context `{Engine}.

(** The script loads but leaves no [window.Ammo]: the curtains are built as
    static planes at their constructed geometry, nothing is simulated, no
    error is logged and the first frame is presented. *)
Lemma static_boot now b :
  container b = true ->
  let s0 := Curtain.mount (Curtain.initial b) in
  let s := Curtain.handle now (Curtain.ScriptLoaded false) s0 in
  exists cam,
    Curtain.camera s0 = Some cam /\
    let v := viewSizeOf cam in
    let half := Curtain.viewW v / 2 in
    let yTop := Curtain.viewH v / 2 - 0.2 in
    Curtain.leftCloth s = Some (curtainMesh half (Curtain.viewH v) yTop (- half / 2) None) /\
    Curtain.rightCloth s = Some (curtainMesh half (Curtain.viewH v) yTop (half / 2) None) /\
    Curtain.AmmoLib s = None /\ Curtain.physicsWorld s = None /\
    console (Curtain.browser s) = console b /\
    THREE.framesRendered <$> Curtain.renderer s = Some 1%nat /\
    pendingFrames (Curtain.browser s) = S (pendingFrames b) /\
    Curtain.phase s = Curtain.BootEnded.
Proof.
  intros Hc s0 s.
  destruct (mount_ready b Hc) as (Hg & Hp & Hh & Hw & _).
  fold s0 in Hg, Hp, Hh, Hw.
  pose proof Hg as (_ & [cam Hcam] & _).
  exists cam. split; [exact Hcam |]. cbv zeta.
  set (s1 := Curtain.set_phase Curtain.BootEnded s0).
  destruct (createCurtains_static s1 cam Hg Hcam Hh)
    as (s2 & E2 & Hg2 & HL & HR & _ & _ & Hh2 & Hw2 & _ & Hb2 & Hr2 & Hp2).
  assert (Hg3 : GraphicsReady (Curtain.onScroll s2)) by exact Hg2.
  destruct (animate_static now (Curtain.onScroll s2) Hg3 Hh2)
    as (s3 & r & E3 & _ & HL3 & HR3 & Hh3 & Hw3 & Hr & Hf & Hpf & Hco & _ & Hp3).
  assert (E : s = s3).
  { subst s. unfold Curtain.handle. rewrite Hp. fold s1. unfold try_catch, Curtain.bootTail.
    rewrite (bind_Ret _ _ _ _ _ E2), bind_modify, E3. reflexivity. }
  rewrite E, HL3, HR3, Hh3, Hw3, Hf, Hpf, Hco, Hp3.
  change (Curtain.renderer (Curtain.onScroll s2)) with (Curtain.renderer s2) in Hr.
  rewrite Hr2 in Hr.
  assert (Hr0 : Curtain.renderer s1
                = Some (THREE.mkRenderer (devicePixelRatio (window b))
                          (innerWidth (window b), innerHeight (window b)) "" 0)).
  { subst s1 s0. unfold Curtain.mount, Curtain.initGraphics. cbn. rewrite Hc. reflexivity. }
  rewrite Hr0 in Hr. inversion Hr; subst r. cbn [THREE.framesRendered].
  assert (Hbr : Curtain.browser s2 = Curtain.browser s0) by exact Hb2.
  change (Curtain.browser (Curtain.onScroll s2)) with (Curtain.browser s2).
  rewrite Hbr.
  assert (Hb0 : pendingFrames (Curtain.browser s0) = pendingFrames b /\
                console (Curtain.browser s0) = console b).
  { subst s0. unfold Curtain.mount, Curtain.initGraphics. cbn. rewrite Hc. cbn. auto. }
  destruct Hb0 as [-> ->].
  split; [exact HL |]. split; [exact HR |]. split; [reflexivity |].
  split; [change (Curtain.physicsWorld s2 = None); rewrite Hw2; exact Hw |].
  do 3 (split; [reflexivity |]).
  change (Curtain.phase s2 = Curtain.BootEnded). rewrite Hp2. reflexivity.
Qed.

End CurtainDegraded.

(** C8 at its failing input: when the script of the physics engine fails to
    load (or the module's initialisation is rejected), the boot sequence logs
    the error and stops; no curtain is created, nothing is rendered and no
    frame is scheduled. *)
Theorem load_failure_skips_curtains `{Engine} :
  let failed := Curtain.handle 0 (Curtain.ScriptFailed "/ammo/ammo.wasm.js") demoStart in
  let rejected :=
    Curtain.handle 16 Curtain.AmmoRejected
      (Curtain.handle 0 (Curtain.ScriptLoaded true) demoStart) in
  (Curtain.leftCloth failed = None /\ Curtain.rightCloth failed = None /\
   THREE.framesRendered <$> Curtain.renderer failed = Some 0%nat /\
   pendingFrames (Curtain.browser failed) = 0%nat /\
   console (Curtain.browser failed) = [LoadFailure "/ammo/ammo.wasm.js"] /\
   Curtain.phase failed = Curtain.BootEnded) /\
  (Curtain.leftCloth rejected = None /\ Curtain.rightCloth rejected = None /\
   THREE.framesRendered <$> Curtain.renderer rejected = Some 0%nat /\
   pendingFrames (Curtain.browser rejected) = 0%nat /\
   console (Curtain.browser rejected) = [AmmoInitFailure] /\
   Curtain.phase rejected = Curtain.BootEnded).
Proof. cbv zeta. repeat split; reflexivity. Qed.

(** ** The curtain scene: events once the boot has ended *)

Lemma listening_remove l l' ls :
  existsb (listener_eqb l) (removeEventListener l' ls)
  = existsb (listener_eqb l) ls && negb (listener_eqb l' l).
Proof.
  unfold removeEventListener.
  induction ls as [| a ls IH]; [reflexivity |].
  destruct a, l, l'; cbn in *; rewrite ?IH; cbn;
    rewrite ?andb_true_r, ?andb_false_r; reflexivity.
Qed.

Section CurtainEventsAfterBoot.
Context `{Engine}.

Lemma report_keeps e : framed frameKeeps (Curtain.report e).
Proof.
  apply (framed_modify frameKeeps). intros []. hnf; cbn. repeat split; reflexivity.
Qed.

(** A frame callback keeps phase, listeners, controls and buffer lengths,
    in whatever state it fires. *)
Lemma handle_frame_keeps now s : frameKeeps s (Curtain.handle now Curtain.Frame s).
Proof.
  unfold Curtain.handle. destruct (pendingFrames (Curtain.browser s)) as [| n] eqn:E;
    [reflexivity |].
  etransitivity;
    [| apply (framed_try_catch frameKeeps);
       [apply frameKeeps_animate | intros e; apply report_keeps]].
  destruct s; hnf; cbn. repeat split; reflexivity.
Qed.

(** Every other event leaves both curtain meshes exactly as they are. *)
Lemma handle_other_cloth now e s sd :
  Curtain.phase s = Curtain.BootEnded -> e <> Curtain.Frame ->
  Curtain.cloth sd (Curtain.handle now e s) = Curtain.cloth sd s /\
  Curtain.phase (Curtain.handle now e s) = Curtain.BootEnded.
Proof.
  intros Hp Hne.
  destruct e; cbn [Curtain.handle]; try rewrite Hp; try congruence;
    try (split; [reflexivity | exact Hp]);
    try (match goal with |- context [if ?b then _ else _] => destruct b end);
    unfold Curtain.onResize, Curtain.onScroll, Curtain.cleanup;
    destruct s as [r sc cam]; destruct sd; try destruct r; try destruct cam;
    cbn in *; auto.
Qed.

(** No event changes the length of a position buffer once the boot has
    ended. *)
Lemma handle_lengths now e s :
  Curtain.phase s = Curtain.BootEnded ->
  (forall sd, clothLength sd (Curtain.handle now e s) = clothLength sd s) /\
  Curtain.phase (Curtain.handle now e s) = Curtain.BootEnded.
Proof.
  intros Hp.
  assert (He : e = Curtain.Frame \/ e <> Curtain.Frame)
    by (destruct e; auto; right; discriminate).
  destruct He as [-> | Hne].
  - destruct (handle_frame_keeps now s) as (P & _ & _ & K).
    split; [exact K | congruence].
  - split.
    + intros sd. unfold clothLength.
      destruct (handle_other_cloth now e s sd Hp Hne) as [-> _]. reflexivity.
    + apply (handle_other_cloth now e s LeftSide Hp Hne).
Qed.

Lemma run_lengths evs : forall s,
  Curtain.phase s = Curtain.BootEnded ->
  forall sd, clothLength sd (Curtain.run evs s) = clothLength sd s.
Proof.
  unfold Curtain.run.
  induction evs as [| [now e] evs IH]; intros s Hp sd; cbn [fold_left fst snd];
    [reflexivity |].
  destruct (handle_lengths now e s Hp) as [K Hp'].
  rewrite IH by exact Hp'. apply K.
Qed.

End CurtainEventsAfterBoot.

(** ** The curtain scene: disposal *)

Section CurtainDisposal.
Context `{Engine}.

Lemma cleanup_disposed s : Disposed (Curtain.cleanup s).
Proof.
  destruct s. unfold Disposed, Curtain.cleanup. cbn.
  rewrite !listening_remove. cbn. rewrite ?andb_false_r. auto.
Qed.

Lemma createCurtains_disposed s :
  Curtain.renderer s = None -> Curtain.createCurtains s = (Throw GraphicsNotReady, s).
Proof.
  intros Hr. unfold Curtain.createCurtains, bind, Curtain.assertReady. rewrite Hr.
  destruct (Curtain.scene s), (Curtain.camera s); reflexivity.
Qed.

Lemma animate_disposed now s :
  Curtain.renderer s = None -> Curtain.animate now s = (Ret tt, s).
Proof. intros Hr. unfold Curtain.animate. rewrite Hr. reflexivity. Qed.

(** Once disposed, no event brings a listener back, requests a frame or
    calls an engine. *)
Lemma handle_disposed now e s :
  Disposed s ->
  Disposed (Curtain.handle now e s) /\
  (pendingFrames (Curtain.browser (Curtain.handle now e s))
   <= pendingFrames (Curtain.browser s))%nat /\
  Curtain.calls (Curtain.handle now e s) = Curtain.calls s.
Proof.
  intros (Hr & HlR & HlS).
  destruct e; cbn [Curtain.handle].
  - (* ScriptLoaded *)
    destruct (Curtain.phase s); try (repeat split; auto; fail).
    destruct windowAmmo; [repeat split; auto |].
    unfold try_catch, Curtain.bootTail.
    rewrite (bind_Throw _ _ _ _ _
               (createCurtains_disposed (Curtain.set_phase Curtain.BootEnded s) Hr)).
    repeat split; auto.
  - (* ScriptFailed *)
    destruct (Curtain.phase s); repeat split; auto.
  - (* AmmoResolved *)
    destruct (Curtain.phase s); try (repeat split; auto; fail).
    unfold try_catch, Curtain.initPhysics.
    match goal with
    | |- context [bind (bind ?c ?k1) ?k2 ?s0] =>
        rewrite (bind_Ret (bind c k1) k2 s0 tt
                   (Curtain.set_physicsWorld
                      (Some (Ammo.newWorld (mkVec3 0 Curtain.gravity 0))) s0))
          by reflexivity
    end.
    unfold Curtain.bootTail.
    match goal with
    | |- context [bind Curtain.createCurtains ?k ?s0] =>
        rewrite (bind_Throw Curtain.createCurtains k s0 _ _
                   (createCurtains_disposed s0 Hr))
    end.
    repeat split; auto.
  - (* AmmoRejected *)
    destruct (Curtain.phase s); repeat split; auto.
  - (* Frame *)
    destruct (pendingFrames (Curtain.browser s)) as [| n] eqn:En;
      [rewrite En; repeat split; auto |].
    unfold try_catch. rewrite animate_disposed by exact Hr.
    repeat split; auto; cbn; destruct s; cbn in *; lia.
  - (* Scroll *)
    unfold Curtain.listening.
    match goal with |- context [if ?b then _ else _] => change b with
      (existsb (listener_eqb ScrollListener) (listeners (Curtain.browser s))) end.
    rewrite HlS. repeat split; auto.
  - (* Resize *)
    unfold Curtain.listening.
    match goal with |- context [if ?b then _ else _] => change b with
      (existsb (listener_eqb ResizeListener) (listeners (Curtain.browser s))) end.
    rewrite HlR. repeat split; auto.
  - (* Unmount *)
    destruct (cleanup_disposed s) as (A & B & C).
    repeat split; auto.
Qed.

Lemma run_disposed evs : forall s,
  Disposed s ->
  Disposed (Curtain.run evs s) /\
  (pendingFrames (Curtain.browser (Curtain.run evs s))
   <= pendingFrames (Curtain.browser s))%nat /\
  Curtain.calls (Curtain.run evs s) = Curtain.calls s.
Proof.
  unfold Curtain.run.
  induction evs as [| [now e] evs IH]; intros s Hd; cbn [fold_left fst snd].
  - repeat split; auto; apply Hd.
  - destruct (handle_disposed now e s Hd) as (Hd' & Hp & Hc).
    destruct (IH _ Hd') as (Hd'' & Hp' & Hc').
    split; [exact Hd'' |]. split; [lia | congruence].
Qed.

(** Disposal in the curtain scene: after the unmount no listener of the
    scene is registered, whatever happens next; a frame callback that was
    already queued returns at its guard without doing anything, and no
    further frame is ever requested. *)
Lemma curtain_disposal now s evs :
  let s0 := Curtain.handle now Curtain.Unmount s in
  let s' := Curtain.run evs s0 in
  Disposed s' /\
  (pendingFrames (Curtain.browser s') <= pendingFrames (Curtain.browser s))%nat /\
  framesRequested (Curtain.calls s') = framesRequested (Curtain.calls s) /\
  (forall t, Curtain.animate t s' = (Ret tt, s')).
Proof.
  intros s0 s'.
  assert (Hd0 : Disposed s0) by apply cleanup_disposed.
  destruct (run_disposed evs s0 Hd0) as (Hd & Hp & Hc). fold s' in Hd, Hp, Hc.
  split; [exact Hd |].
  split; [etransitivity; [exact Hp |]; subst s0; destruct s; cbn; lia |].
  split; [rewrite Hc; subst s0; destruct s; reflexivity |].
  intros t. apply animate_disposed. apply Hd.
Qed.

End CurtainDisposal.

#[local] Arguments clothNodeCount : simpl never.

#[local] Instance buildKeeps_refl : Reflexive buildKeeps.
Proof. intros s. unfold buildKeeps. repeat split; reflexivity. Qed.

#[local] Instance buildKeeps_trans : Transitive buildKeeps.
Proof. unfold buildKeeps. intros a b c Hab Hbc. intuition congruence. Qed.

(** ** The cloth scene: construction *)

Section ClothBuild.
Context `{Engine}.

(** [createRigidBody] returns a mesh that refers to a new rigid body. *)
Lemma createParallelepiped_ok sx sy sz mass pos quat s :
  bodyUp s ->
  exists m s' i,
    Cloth.createParallelepiped sx sy sz mass pos quat s = (Ret m, s') /\
    bodyUp s' /\ buildKeeps s s' /\
    THREE.physicsBody m = Some (THREE.RigidRef i).
Proof.
  intros ([heap Hh] & [sc Hsc] & [w Hw]).
  unfold Cloth.createParallelepiped, Cloth.createRigidBody.
  unfold bind, deref, modify, ret.
  destruct s; cbn in *; subst.
  destruct (Rlt_dec 0 mass); cbn;
    (eexists _, _, _; split; [reflexivity |]);
    (split; [repeat split; eexists; reflexivity |]);
    (split; [hnf; cbn; repeat split; reflexivity | reflexivity]).
Qed.

Lemma brickRow_ok oddRow nRow idxs : forall pos s,
  bodyUp s ->
  exists p s', Cloth.brickRow oddRow nRow idxs pos s = (Ret p, s') /\
               bodyUp s' /\ buildKeeps s s'.
Proof.
  induction idxs as [| i idxs IH]; intros pos s Hup; cbn [Cloth.brickRow].
  - exists pos, s. repeat split; try apply Hup; reflexivity.
  - match goal with
    | |- context [bind (Cloth.createParallelepiped ?a ?b ?c ?d ?e ?f) ?k s] =>
        destruct (createParallelepiped_ok a b c d e f s Hup) as (m & s1 & j & E1 & U1 & K1 & _);
        rewrite (bind_Ret _ k s m s1 E1)
    end.
    match goal with
    | |- context [Cloth.brickRow oddRow nRow idxs ?p s1] =>
        destruct (IH p s1 U1) as (p' & s2 & E2 & U2 & K2)
    end.
    exists p', s2. split; [exact E2 |]. split; [exact U2 |].
    etransitivity; eassumption.
Qed.

Lemma wallRows_ok js : forall pos s,
  bodyUp s ->
  exists p s', Cloth.wallRows js pos s = (Ret p, s') /\ bodyUp s' /\ buildKeeps s s'.
Proof.
  induction js as [| j js IH]; intros pos s Hup; cbn [Cloth.wallRows].
  - exists pos, s. repeat split; try apply Hup; reflexivity.
  - match goal with
    | |- context [bind (Cloth.brickRow ?o ?n ?l ?p) ?k s] =>
        destruct (brickRow_ok o n l p s Hup) as (p1 & s1 & E1 & U1 & K1);
        rewrite (bind_Ret _ k s p1 s1 E1)
    end.
    match goal with
    | |- context [Cloth.wallRows js ?p s1] =>
        destruct (IH p s1 U1) as (p' & s2 & E2 & U2 & K2)
    end.
    exists p', s2. split; [exact E2 |]. split; [exact U2 |].
    etransitivity; eassumption.
Qed.

End ClothBuild.

Section ClothBuild2.
Context `{Engine}.

Lemma length_clothGeometry :
  length (THREE.array (THREE.attr_position Cloth.clothGeometry)) = (clothNodeCount * 3)%nat.
Proof.
  unfold Cloth.clothGeometry. rewrite length_translate, length_rotateY.
  apply length_planeVertices.
Qed.

Lemma rigidOf_eq m i s :
  THREE.physicsBody m = Some (THREE.RigidRef i) -> Cloth.rigidOf m s = (Ret i, s).
Proof. intros E. unfold Cloth.rigidOf. rewrite E. reflexivity. Qed.

Lemma alterSoft_eq i f s heap :
  Cloth.AmmoLib s = Some heap ->
  Cloth.alterSoft i f s
  = (Ret tt, Cloth.set_AmmoLib (Some (Ammo.set_softs (alter f i (Ammo.softs heap)) heap)) s).
Proof. intros E. unfold Cloth.alterSoft, bind, deref, modify. rewrite E. reflexivity. Qed.

(** [createObjects] goes through once the engine, the scene and the world
    exist; it leaves a cloth mesh and a soft body of matching sizes. *)
Lemma createObjects_ready s :
  bodyUp s ->
  exists s' soft,
    Cloth.createObjects s = (Ret tt, s') /\
    ClothReady soft s' /\
    Cloth.renderer s' = Cloth.renderer s /\ Cloth.camera s' = Cloth.camera s /\
    Cloth.clock s' = Cloth.clock s /\ Cloth.browser s' = Cloth.browser s /\
    Cloth.calls s' = Cloth.calls s /\ Cloth.phase s' = Cloth.phase s /\
    is_Some (Cloth.scene s') /\
    Some soft = (fun heap => length (Ammo.softs heap)) <$> Cloth.AmmoLib s.
Proof.
  intros Hup. unfold Cloth.createObjects.
  (* ground and wall *)
  destruct (createParallelepiped_ok 40 1 40 0 (mkVec3 0 (-0.5) 0) qidentity s Hup)
    as (m0 & s0 & i0 & E0 & U0 & K0 & _).
  rewrite (bind_Ret _ _ _ _ _ E0).
  destruct (wallRows_ok (seq 0 Cloth.numBricksHeight)
              (mkVec3 0 (Cloth.brickHeight * 0.5) Cloth.z0) s0 U0)
    as (p1 & s1 & E1 & U1 & K1).
  rewrite (bind_Ret _ _ _ _ _ E1).
  assert (K01 : buildKeeps s s1) by (etransitivity; eassumption).
  clear E0 E1 K0 K1 U0 m0 i0 p1 s0.
  destruct U1 as ([heap1 Hh1] & [sc1 Hsc1] & [w1 Hw1]).
  (* the cloth mesh *)
  rewrite bind_modify.
  set (mesh := THREE.mkMesh vzero qidentity (THREE.Buffer Cloth.clothGeometry) None).
  set (s2 := Cloth.set_cloth (Some mesh) s1).
  rewrite (bind_Ret _ _ s2 sc1 s2) by (unfold deref; cbn; rewrite Hsc1; reflexivity).
  rewrite !bind_modify.
  set (s3 := Cloth.set_cloth _ _).
  (* the soft body *)
  rewrite (bind_Ret _ _ s3 w1 s3) by (unfold deref; cbn; rewrite Hw1; reflexivity).
  rewrite (bind_Ret _ _ s3 heap1 s3) by (unfold deref; cbn; rewrite Hh1; reflexivity).
  match goal with
  | |- context [Ammo.CreatePatch ?a ?b ?c ?d ?x ?y] =>
      destruct (CreatePatch_some a b c d x y) as [body0 Eb];
        [unfold Cloth.clothNumSegmentsZ; lia | unfold Cloth.clothNumSegmentsY; lia |];
      pose proof (CreatePatch_nodes _ _ _ _ _ _ _ Eb) as Nb; rewrite Eb
  end.
  set (body := Ammo.configure _ _ _ _ _ body0).
  set (soft := length (Ammo.softs heap1)).
  rewrite !bind_modify.
  set (heap2 := Ammo.set_softs _ heap1).
  set (s4 := Cloth.set_physicsWorld _ _).
  rewrite (bind_Ret _ _ s4 _ s4) by (unfold deref; reflexivity).
  rewrite bind_modify.
  set (s5 := Cloth.set_cloth _ s4).
  assert (U5 : bodyUp s5).
  { repeat split; eexists; reflexivity. }
  (* the arm *)
  match goal with
  | |- context [bind (Cloth.createParallelepiped ?a ?b ?c ?d ?e ?f) ?k s5] =>
      destruct (createParallelepiped_ok a b c d e f s5 U5) as (mb & s6 & ib & E6 & U6 & K6 & _);
      rewrite (bind_Ret _ k s5 mb s6 E6)
  end.
  match goal with
  | |- context [bind (Cloth.createParallelepiped ?a ?b ?c ?d ?e ?f) ?k s6] =>
      destruct (createParallelepiped_ok a b c d e f s6 U6)
        as (pylon & s7 & ip & E7 & U7 & K7 & Hpy);
      rewrite (bind_Ret _ k s6 pylon s7 E7)
  end.
  match goal with
  | |- context [bind (Cloth.createParallelepiped ?a ?b ?c ?d ?e ?f) ?k s7] =>
      destruct (createParallelepiped_ok a b c d e f s7 U7)
        as (arm & s8 & ia & E8 & U8 & K8 & Harm);
      rewrite (bind_Ret _ k s7 arm s8 E8)
  end.
  assert (K58 : buildKeeps s5 s8) by (etransitivity; [etransitivity |]; eassumption).
  clear E6 E7 E8 K6 K7 K8 U6 U7 mb ib s6 s7.
  destruct U8 as ([heap8 Hh8] & [sc8 Hsc8] & [w8 Hw8]).
  (* anchors and hinge *)
  rewrite (bind_Ret _ _ _ _ _ (rigidOf_eq arm ia s8 Harm)).
  rewrite (bind_Ret _ _ _ _ _ (alterSoft_eq soft _ s8 heap8 Hh8)).
  set (heap9 := Ammo.set_softs _ heap8). set (s9 := Cloth.set_AmmoLib _ s8).
  rewrite (bind_Ret _ _ _ _ _ (alterSoft_eq soft _ s9 heap9 eq_refl)).
  set (heap10 := Ammo.set_softs _ heap9). set (s10 := Cloth.set_AmmoLib _ s9).
  rewrite (bind_Ret _ _ _ _ _ (rigidOf_eq pylon ip s10 Hpy)).
  rewrite (bind_Ret _ _ s10 heap10 s10) by reflexivity.
  rewrite !bind_modify.
  rewrite (bind_Ret _ _ _ w8 _) by (unfold deref; cbn; rewrite Hw8; reflexivity).
  eexists _, soft. split; [reflexivity |].
  destruct K01 as (R1 & C1 & L1 & _ & _ & _ & _ & _ & B1 & A1 & P1 & So1 & _).
  destruct K58 as (R8 & C8 & L8 & _ & _ & Cl8 & Pa8 & Na8 & B8 & A8 & P8 & So8 & _).
  rewrite Hh8 in So8. cbn in So8. inversion So8 as [So8']. clear So8.
  split.
  { eexists (THREE.set_physicsBody (Some (THREE.SoftRef soft))
              (THREE.set_geometry (THREE.Buffer (Cloth.recomputeNormals Cloth.clothGeometry)) mesh)),
      (Cloth.recomputeNormals Cloth.clothGeometry), _,
      (Ammo.appendAnchor Cloth.clothNumSegmentsZ ia false Cloth.influence
         (Ammo.appendAnchor 0 ia false Cloth.influence body)).
    split; [cbn; rewrite Cl8; reflexivity |].
    split; [cbn; rewrite Pa8; reflexivity |].
    split; [cbn; rewrite Na8; reflexivity |].
    split; [reflexivity |]. split; [reflexivity |]. split; [reflexivity |].
    split.
    { subst heap10 heap9. cbn. rewrite So8'. subst heap2. cbn.
      rewrite !list_lookup_alter_eq. subst soft.
      rewrite list_lookup_middle by reflexivity. reflexivity. }
    split; [exact Nb |].
    split; [apply length_clothGeometry |].
    eexists; reflexivity. }
  cbn. rewrite R8, C8, L8, B8, A8, P8. cbn.
  repeat (split; [assumption |]). split; [exists sc8; exact Hsc8 |].
  rewrite Hh1 in So1. destruct (Cloth.AmmoLib s) as [heap |]; [| discriminate].
  cbn in So1 |- *. inversion So1 as [So1']. subst soft. rewrite So1'. reflexivity.
Qed.

End ClothBuild2.

(** ** The cloth scene: one frame *)

Section ClothFrame.
Context `{Engine}.

Lemma cloth_tickClock_eq now s :
  Cloth.tickClock now s
  = (Ret (fst (getDelta now (Cloth.clock s))),
     Cloth.set_clock (snd (getDelta now (Cloth.clock s))) s).
Proof. unfold Cloth.tickClock. destruct (getDelta now (Cloth.clock s)); reflexivity. Qed.

Lemma syncCloth_eq soft s m g heap sb :
  THREE.geometry m = THREE.Buffer g ->
  THREE.physicsBody m = Some (THREE.SoftRef soft) ->
  Cloth.clothNormAttr s = Some CachedAttribute ->
  Cloth.AmmoLib s = Some heap ->
  Ammo.softs heap !! soft = Some sb ->
  length (Ammo.m_nodes sb) = clothNodeCount ->
  length (THREE.array (THREE.attr_position g)) = (clothNodeCount * 3)%nat ->
  exists arr',
    syncArray (Ammo.m_nodes sb) (THREE.array (THREE.attr_position g)) = Some arr' /\
    Cloth.syncCloth m s
    = (Ret tt,
       Cloth.set_calls (Cloth.calls s ++ [SyncVertices soft; ComputeVertexNormals])
         (Cloth.set_cloth
            (Some (THREE.set_geometry
                     (THREE.Buffer
                        (THREE.mkGeo (THREE.mkAttr arr' true)
                           (Some (THREE.mkAttr (computeVertexNormals arr') true)))) m)) s)).
Proof.
  intros Hg Hb Hn Hh Hs Hc Hl.
  destruct (syncArray_spec (Ammo.m_nodes sb) (THREE.array (THREE.attr_position g))
              clothNodeCount) as (arr' & E & _); [lia | lia |].
  exists arr'. split; [exact E |].
  unfold Cloth.syncCloth, bind, gets, deref, modify, Cloth.log, modify.
  rewrite Hb, Hg, Hh, Hs, E. cbn. rewrite Hn. cbn.
  destruct s; cbn. rewrite <- app_assoc. reflexivity.
Qed.

Lemma cloth_frame (Hlaw : KeepsNodeCounts) now s soft :
  ClothReady soft s ->
  exists s1,
    ClothReady soft s1 /\ clothSynced soft s1 /\
    Cloth.calls s1
    = Cloth.calls s ++ motorCalls s
      ++ [StepSimulation (fst (getDelta now (Cloth.clock s))) 10;
          SyncVertices soft; ComputeVertexNormals] /\
    Cloth.renderer s1 = Cloth.renderer s /\
    Cloth.browser s1 = Cloth.browser s /\
    Cloth.phase s1 = Cloth.phase s /\
    (forall r, Cloth.renderer s = Some r ->
               Cloth.animate now s = (Ret tt, presented r s1)) /\
    (Cloth.renderer s = None ->
     Cloth.animate now s = (Throw (TypeError "renderer"), s1)).
Proof.
  intros (m & g & heap & sb & Hc & Ha & Hna & Hg & Hb & Hh & Hs & Hn & Hl & [world Hw]).
  set (dt := fst (getDelta now (Cloth.clock s))).
  set (s0 := Cloth.set_clock (snd (getDelta now (Cloth.clock s))) s).
  (* the motor *)
  assert (Hmotor : exists heapH sH,
    (let! h := gets Cloth.hinge in
     match h with
     | Some hi =>
         let! am := gets Cloth.armMovement in
         let! heap := deref "AmmoLib" Cloth.AmmoLib in
         modify (Cloth.set_AmmoLib (Some (Ammo.set_hinges
           (alter (Ammo.enableAngularMotor true (0.8 * am) 50) hi (Ammo.hinges heap)) heap))) >>
         Cloth.log (EnableAngularMotor true (0.8 * am) 50)
     | None => ret tt
     end) s0 = (Ret tt, sH) /\
    sH = Cloth.set_calls (Cloth.calls s ++ motorCalls s)
           (Cloth.set_AmmoLib (Some heapH) s0) /\
    Ammo.softs heapH = Ammo.softs heap).
  { unfold motorCalls. rewrite bind_gets.
    change (Cloth.hinge s0) with (Cloth.hinge s).
    destruct (Cloth.hinge s) as [hi |].
    - eexists _, _. split; [| split; [reflexivity |]].
      + rewrite bind_gets.
        rewrite (bind_Ret _ _ s0 heap s0) by (unfold deref; cbn; rewrite Hh; reflexivity).
        rewrite bind_modify. unfold Cloth.log, modify. reflexivity.
      + reflexivity.
    - exists heap, s0. split; [reflexivity |]. split; [| reflexivity].
      destruct s; cbn in *; subst. rewrite app_nil_r. reflexivity. }
  destruct Hmotor as (heapH & sH & EH & HsH & HsoftH).
  (* the step *)
  destruct (step_keeps_soft Hlaw world heapH dt 10 soft sb ltac:(rewrite HsoftH; exact Hs))
    as (sb1 & Hs1 & Hn1).
  set (heap1 := stepSimulation world heapH dt 10) in *.
  set (s2 := Cloth.set_calls (Cloth.calls sH ++ [StepSimulation dt 10])
               (Cloth.set_AmmoLib (Some heap1) sH)).
  destruct (syncCloth_eq soft s2 m g heap1 sb1 Hg Hb) as (arr' & Ea & E3);
    [subst s2 sH; exact Hna | reflexivity | exact Hs1 | congruence | exact Hl |].
  set (s3 := Cloth.set_calls _ _) in E3.
  set (s4 := Cloth.set_rigidBodies (Cloth.mirrorPose heap1 <$> Cloth.rigidBodies s3) s3).
  destruct (syncArray_spec (Ammo.m_nodes sb1) (THREE.array (THREE.attr_position g))
              clothNodeCount) as (arr2 & Ea2 & Hlen2 & Hk2); [lia | lia |].
  assert (arr2 = arr') by congruence. subst arr2.
  exists s4.
  split.
  { exists (THREE.set_geometry
              (THREE.Buffer (THREE.mkGeo (THREE.mkAttr arr' true)
                               (Some (THREE.mkAttr (computeVertexNormals arr') true)))) m),
      (THREE.mkGeo (THREE.mkAttr arr' true)
         (Some (THREE.mkAttr (computeVertexNormals arr') true))), heap1, sb1.
    subst s4 s3 s2 sH.
    split; [reflexivity |]. split; [exact Ha |]. split; [exact Hna |].
    split; [reflexivity |]. split; [exact Hb |]. split; [reflexivity |].
    split; [exact Hs1 |]. split; [congruence |]. split; [cbn; congruence |].
    exists world. exact Hw. }
  split.
  { exists (THREE.set_geometry
              (THREE.Buffer (THREE.mkGeo (THREE.mkAttr arr' true)
                               (Some (THREE.mkAttr (computeVertexNormals arr') true)))) m),
      (THREE.mkGeo (THREE.mkAttr arr' true)
         (Some (THREE.mkAttr (computeVertexNormals arr') true))), heap1, sb1.
    subst s4 s3 s2 sH.
    split; [reflexivity |]. split; [reflexivity |]. split; [reflexivity |].
    split; [exact Hs1 |]. split; [exact Hk2 |]. split; reflexivity. }
  split.
  { subst s4 s3 s2. rewrite HsH. cbn. rewrite <- !app_assoc. reflexivity. }
  split; [subst s4 s3 s2; rewrite HsH; reflexivity |].
  split; [subst s4 s3 s2; rewrite HsH; reflexivity |].
  split; [subst s4 s3 s2; rewrite HsH; reflexivity |].
  assert (Epre : forall k : unit -> Exec Cloth.State unit,
    bind (Cloth.tickClock now)
      (fun deltaTime =>
         bind (let! h := gets Cloth.hinge in
               match h with
               | Some hi =>
                   let! am := gets Cloth.armMovement in
                   let! heap := deref "AmmoLib" Cloth.AmmoLib in
                   modify (Cloth.set_AmmoLib (Some (Ammo.set_hinges
                     (alter (Ammo.enableAngularMotor true (0.8 * am) 50) hi
                            (Ammo.hinges heap)) heap))) >>
                   Cloth.log (EnableAngularMotor true (0.8 * am) 50)
               | None => ret tt
               end)
           (fun _ =>
              bind (let! w := gets Cloth.physicsWorld in
                    match w with
                    | Some world =>
                        let! heap := deref "AmmoLib" Cloth.AmmoLib in
                        modify (Cloth.set_AmmoLib
                                  (Some (stepSimulation world heap deltaTime 10))) >>
                        Cloth.log (StepSimulation deltaTime 10) >>
                        (let! c := gets Cloth.cloth in
                         let! a := gets Cloth.clothPosAttr in
                         match c, a with
                         | Some m, Some _ => Cloth.syncCloth m
                         | _, _ => ret tt
                         end) >>
                        let! heap' := deref "AmmoLib" Cloth.AmmoLib in
                        modify (fun s => Cloth.set_rigidBodies
                                           (map (Cloth.mirrorPose heap') (Cloth.rigidBodies s)) s)
                    | None => ret tt
                    end) k)) s
    = k tt s4).
  { intros k.
    rewrite (bind_Ret _ _ _ _ _ (cloth_tickClock_eq now s)). fold dt s0.
    rewrite (bind_Ret _ _ _ _ _ EH).
    rewrite (bind_Ret _ _ sH tt s4); [reflexivity |].
    rewrite bind_gets.
    assert (HwH : Cloth.physicsWorld sH = Some world) by (rewrite HsH; exact Hw).
    rewrite HwH.
    rewrite (bind_Ret _ _ sH heapH sH) by (unfold deref; rewrite HsH; reflexivity).
    rewrite bind_modify. unfold Cloth.log at 1. rewrite bind_modify. fold heap1. fold s2.
    rewrite (bind_Ret _ _ s2 tt s3).
    2:{ rewrite !bind_gets.
        assert (Hc2 : Cloth.cloth s2 = Some m) by (subst s2; rewrite HsH; exact Hc).
        assert (Ha2 : Cloth.clothPosAttr s2 = Some CachedAttribute)
          by (subst s2; rewrite HsH; exact Ha).
        rewrite Hc2, Ha2. exact E3. }
    rewrite (bind_Ret _ _ s3 heap1 s3) by reflexivity.
    reflexivity. }
  split.
  - intros r Hr. unfold Cloth.animate. rewrite Epre.
    assert (Hr4 : Cloth.renderer s4 = Some r)
      by (subst s4 s3 s2; rewrite HsH; exact Hr).
    unfold bind, deref, modify, Cloth.log, modify. rewrite Hr4. unfold presented.
    destruct s4; cbn. rewrite <- app_assoc. reflexivity.
  - intros Hr. unfold Cloth.animate. rewrite Epre.
    assert (Hr4 : Cloth.renderer s4 = None)
      by (subst s4 s3 s2; rewrite HsH; exact Hr).
    unfold bind, deref. rewrite Hr4. reflexivity.
Qed.

End ClothFrame.

(** ** The cloth scene: booting *)

Lemma listening_add l ls : existsb (listener_eqb l) (addEventListener l ls) = true.
Proof.
  unfold addEventListener. destruct (existsb (listener_eqb l) ls) eqn:E; [exact E |].
  rewrite existsb_app. cbn. destruct l; cbn; rewrite orb_true_r; reflexivity.
Qed.

Lemma listening_add_mono l l' ls :
  existsb (listener_eqb l) ls = true ->
  existsb (listener_eqb l) (addEventListener l' ls) = true.
Proof.
  intros E. unfold addEventListener. destruct (existsb (listener_eqb l') ls); [exact E |].
  rewrite existsb_app, E. reflexivity.
Qed.

Section ClothEvents.
Context `{Engine}.

Lemma ClothReady_ext soft s s' :
  Cloth.cloth s' = Cloth.cloth s ->
  Cloth.clothPosAttr s' = Cloth.clothPosAttr s ->
  Cloth.clothNormAttr s' = Cloth.clothNormAttr s ->
  Cloth.AmmoLib s' = Cloth.AmmoLib s ->
  Cloth.physicsWorld s' = Cloth.physicsWorld s ->
  ClothReady soft s -> ClothReady soft s'.
Proof.
  intros E1 E2 E3 E4 E5 (m & g & heap & sb & H1 & H2 & H3 & H4 & H5 & H6 & H7 & H8 & H9 & H10).
  exists m, g, heap, sb. rewrite E1, E2, E3, E4, E5. auto 12.
Qed.

Lemma clothSynced_ext soft s s' :
  Cloth.cloth s' = Cloth.cloth s -> Cloth.AmmoLib s' = Cloth.AmmoLib s ->
  clothSynced soft s -> clothSynced soft s'.
Proof.
  intros E1 E2 (m & g & heap & sb & H1 & H2 & H3 & H4 & H5).
  exists m, g, heap, sb. rewrite E1, E2. auto.
Qed.

Lemma cloth_initGraphics_eq s :
  container (Cloth.browser s) = true ->
  exists s',
    Cloth.initGraphics s = (Ret tt, s') /\
    is_Some (Cloth.scene s') /\ is_Some (Cloth.renderer s') /\
    Cloth.AmmoLib s' = Cloth.AmmoLib s /\
    Cloth.phase s' = Cloth.phase s /\
    pendingFrames (Cloth.browser s') = pendingFrames (Cloth.browser s) /\
    console (Cloth.browser s') = console (Cloth.browser s) /\
    Cloth.listening ResizeListener s' = true.
Proof.
  intros Hc. unfold Cloth.initGraphics, bind, gets, modify. cbn. rewrite Hc.
  eexists. split; [reflexivity |].
  split; [eexists; reflexivity |]. split; [eexists; reflexivity |].
  do 4 (split; [reflexivity |]).
  unfold Cloth.listening. cbn. apply listening_add.
Qed.

(** The engine resolves with the container attached: graphics, world and
    objects are built, the key listeners registered and the first frame
    runs to its end. *)
Lemma cloth_boot (Hlaw : KeepsNodeCounts) now s :
  Cloth.phase s = Cloth.AwaitingAmmo -> container (Cloth.browser s) = true ->
  ClothReady 0 (Cloth.handle now Cloth.AmmoResolved s) /\
    clothSynced 0 (Cloth.handle now Cloth.AmmoResolved s) /\
    Cloth.phase (Cloth.handle now Cloth.AmmoResolved s) = Cloth.BootEnded /\
    is_Some (Cloth.renderer (Cloth.handle now Cloth.AmmoResolved s)) /\
    pendingFrames (Cloth.browser (Cloth.handle now Cloth.AmmoResolved s))
    = S (pendingFrames (Cloth.browser s)) /\
    console (Cloth.browser (Cloth.handle now Cloth.AmmoResolved s))
    = console (Cloth.browser s) /\
    Cloth.listening ResizeListener (Cloth.handle now Cloth.AmmoResolved s) = true /\
    Cloth.listening KeydownListener (Cloth.handle now Cloth.AmmoResolved s) = true /\
    Cloth.listening KeyupListener (Cloth.handle now Cloth.AmmoResolved s) = true.
Proof.
  intros Hp Hc.
  set (sa := Cloth.set_AmmoLib (Some Ammo.emptyHeap) (Cloth.set_phase Cloth.BootEnded s)).
  destruct (cloth_initGraphics_eq sa Hc)
    as (sg & Eg & Hsc & [r Hr] & Hlib & Hph & Hpf & Hco & Hli).
  set (sw := Cloth.set_physicsWorld
               (Some (Ammo.newWorld (mkVec3 0 Cloth.gravityConstant 0))) sg).
  assert (Ew : Cloth.initPhysics sg = (Ret tt, sw)).
  { unfold Cloth.initPhysics, bind, deref, modify. rewrite Hlib. reflexivity. }
  assert (Hup : bodyUp sw).
  { split; [exists Ammo.emptyHeap; exact Hlib |]. split; [exact Hsc |].
    eexists; reflexivity. }
  destruct (createObjects_ready sw Hup)
    as (so & soft & Eo & Ro & Hro & _ & _ & Hbo & _ & Hpo & _ & Hsoft).
  assert (soft = 0%nat) as ->.
  { change (Cloth.AmmoLib sw) with (Cloth.AmmoLib sg) in Hsoft. rewrite Hlib in Hsoft.
    cbn in Hsoft. congruence. }
  set (si := Cloth.initInput so).
  assert (Ri : ClothReady 0 si) by (revert Ro; apply ClothReady_ext; reflexivity).
  destruct (cloth_frame Hlaw now si 0%nat Ri)
    as (s1 & R1 & S1 & _ & Hr1 & Hb1 & Hp1 & Eok & _).
  assert (Hri : Cloth.renderer si = Some r).
  { change (Cloth.renderer so = Some r). rewrite Hro. exact Hr. }
  specialize (Eok r Hri).
  assert (E : Cloth.handle now Cloth.AmmoResolved s = presented r s1).
  { unfold Cloth.handle. rewrite Hp. fold sa. unfold try_catch, Cloth.bootTail.
    rewrite (bind_Ret _ _ _ _ _ Eg), (bind_Ret _ _ _ _ _ Ew), (bind_Ret _ _ _ _ _ Eo).
    rewrite bind_modify. fold si. rewrite Eok. reflexivity. }
  rewrite E.
  split; [revert R1; apply ClothReady_ext; reflexivity |].
  split; [revert S1; apply clothSynced_ext; reflexivity |].
  assert (Hbi : Cloth.browser si
                = set_listeners
                    (addEventListener KeyupListener
                       (addEventListener KeydownListener (listeners (Cloth.browser sg))))
                    (Cloth.browser sg)).
  { change (Cloth.browser si) with
      (set_listeners
         (addEventListener KeyupListener
            (addEventListener KeydownListener (listeners (Cloth.browser so))))
         (Cloth.browser so)).
    rewrite Hbo. reflexivity. }
  split.
  { change (Cloth.phase s1 = Cloth.BootEnded). rewrite Hp1.
    change (Cloth.phase so = Cloth.BootEnded). rewrite Hpo. exact Hph. }
  split; [eexists; reflexivity |].
  split.
  { change (S (pendingFrames (Cloth.browser s1)) = S (pendingFrames (Cloth.browser s))).
    rewrite Hb1, Hbi. cbn. rewrite Hpf. reflexivity. }
  split.
  { change (console (Cloth.browser s1) = console (Cloth.browser s)).
    rewrite Hb1, Hbi. cbn. rewrite Hco. reflexivity. }
  unfold Cloth.listening in *.
  change (listeners (Cloth.browser (presented r s1))) with (listeners (Cloth.browser s1)).
  rewrite Hb1, Hbi. cbn [listeners set_listeners].
  split; [apply listening_add_mono, listening_add_mono; exact Hli |].
  split; [apply listening_add_mono, listening_add | apply listening_add].
Qed.

End ClothEvents.

#[local] Instance clothKeeps_refl : Reflexive clothKeeps.
Proof. intros s. unfold clothKeeps. repeat split; reflexivity. Qed.

#[local] Instance clothKeeps_trans : Transitive clothKeeps.
Proof.
  intros a b c (P1 & L1 & K1) (P2 & L2 & K2). repeat split; congruence.
Qed.

(** ** The cloth scene: what events leave alone *)

Section ClothEventsAfterBoot.
Context `{Engine}.

Lemma clothKeeps_log c : framed clothKeeps (Cloth.log c).
Proof. apply (framed_modify clothKeeps). intros []. hnf; cbn. repeat split; reflexivity. Qed.

Lemma clothKeeps_set_AmmoLib v : framed clothKeeps (modify (Cloth.set_AmmoLib v)).
Proof. apply (framed_modify clothKeeps). intros []. hnf; cbn. repeat split; reflexivity. Qed.

Lemma clothKeeps_report e : framed clothKeeps (Cloth.report e).
Proof. apply (framed_modify clothKeeps). intros []. hnf; cbn. repeat split; reflexivity. Qed.

(** The vertex copy writes a buffer of the length it found. *)
Lemma clothKeeps_sync :
  framed clothKeeps
    (let! c := gets Cloth.cloth in
     let! a := gets Cloth.clothPosAttr in
     match c, a with
     | Some m, Some _ => Cloth.syncCloth m
     | _, _ => ret tt
     end).
Proof.
  intros s. unfold bind, gets.
  destruct (Cloth.cloth s) as [m |] eqn:Hc; [| reflexivity].
  destruct (Cloth.clothPosAttr s) as [a |]; [| reflexivity].
  unfold Cloth.syncCloth.
  destruct (THREE.physicsBody m) as [[i | i] |], (THREE.geometry m) as [| g] eqn:Hg;
    try reflexivity.
  unfold bind, deref. destruct (Cloth.AmmoLib s) as [heap |]; [| reflexivity].
  destruct (Ammo.softs heap !! i) as [sb |]; [| reflexivity].
  destruct (syncArray _ _) as [arr' |] eqn:E; [| reflexivity].
  apply syncArray_length in E.
  unfold gets, modify, Cloth.log, modify. cbn.
  split; [reflexivity |]. split; [reflexivity |].
  unfold clothBuffer. cbn. rewrite Hc. cbn. unfold THREE.positions. rewrite Hg. cbn.
  rewrite E. reflexivity.
Qed.

Lemma clothKeeps_animate now : framed clothKeeps (Cloth.animate now).
Proof.
  unfold Cloth.animate.
  f_bind.
  { intros s. rewrite cloth_tickClock_eq. destruct s; hnf; cbn. repeat split; reflexivity. }
  intros dt. f_bind.
  { f_bind; [f_leaf | intros [hi |]]; [| f_leaf].
    f_bind; [f_leaf | intros am]. f_bind; [f_leaf | intros heap].
    f_bind; [apply clothKeeps_set_AmmoLib | intros _; apply clothKeeps_log]. }
  intros _. f_bind.
  { f_bind; [f_leaf | intros [world |]]; [| f_leaf].
    f_bind; [f_leaf | intros heap].
    f_bind; [apply clothKeeps_set_AmmoLib | intros _].
    f_bind; [apply clothKeeps_log | intros _].
    f_bind; [apply clothKeeps_sync | intros _].
    f_bind; [f_leaf | intros heap'].
    apply (framed_modify clothKeeps). intros []. hnf; cbn. repeat split; reflexivity. }
  intros _. f_bind; [f_leaf | intros r].
  f_bind; [apply (framed_modify clothKeeps); intros []; hnf; cbn; repeat split; reflexivity
          | intros _].
  f_bind; [apply clothKeeps_log | intros _].
  f_bind; [apply (framed_modify clothKeeps); intros []; hnf; cbn; repeat split; reflexivity
          | intros _].
  apply clothKeeps_log.
Qed.

(** A frame callback keeps phase, listeners and the buffer length, in
    whatever state it fires. *)
Lemma cloth_handle_frame_keeps now s : clothKeeps s (Cloth.handle now Cloth.Frame s).
Proof.
  unfold Cloth.handle. destruct (pendingFrames (Cloth.browser s)) as [| n] eqn:E;
    [reflexivity |].
  etransitivity;
    [| apply (framed_try_catch clothKeeps);
       [apply clothKeeps_animate | intros e; apply clothKeeps_report]].
  destruct s; hnf; cbn. repeat split; reflexivity.
Qed.

(** Every other event leaves the cloth mesh, the engine's heap and the world
    exactly as they are. *)
Lemma cloth_handle_other now e s :
  Cloth.phase s = Cloth.BootEnded -> e <> Cloth.Frame ->
  Cloth.cloth (Cloth.handle now e s) = Cloth.cloth s /\
  Cloth.clothPosAttr (Cloth.handle now e s) = Cloth.clothPosAttr s /\
  Cloth.clothNormAttr (Cloth.handle now e s) = Cloth.clothNormAttr s /\
  Cloth.AmmoLib (Cloth.handle now e s) = Cloth.AmmoLib s /\
  Cloth.physicsWorld (Cloth.handle now e s) = Cloth.physicsWorld s /\
  Cloth.phase (Cloth.handle now e s) = Cloth.BootEnded.
Proof.
  intros Hp Hne.
  destruct e; cbn [Cloth.handle]; try rewrite Hp; try congruence;
    try (repeat split; first [reflexivity | exact Hp]);
    try (match goal with |- context [if ?b then _ else _] => destruct b end);
    unfold Cloth.onWindowResize, Cloth.keydown, Cloth.keyup, Cloth.cleanup;
    try (destruct (String.eqb code "KeyQ"), (String.eqb code "KeyA"));
    destruct s as [r sc cam]; try destruct r; try destruct cam;
    cbn in *; auto 10.
Qed.

(** No event changes the length of the position buffer once the boot has
    ended. *)
Lemma cloth_handle_length now e s :
  Cloth.phase s = Cloth.BootEnded ->
  clothBuffer (Cloth.handle now e s) = clothBuffer s /\
  Cloth.phase (Cloth.handle now e s) = Cloth.BootEnded.
Proof.
  intros Hp.
  assert (He : e = Cloth.Frame \/ e <> Cloth.Frame)
    by (destruct e; auto; right; discriminate).
  destruct He as [-> | Hne].
  - destruct (cloth_handle_frame_keeps now s) as (P & _ & K).
    split; [exact K | congruence].
  - destruct (cloth_handle_other now e s Hp Hne) as (Ec & _ & _ & _ & _ & P).
    split; [unfold clothBuffer; rewrite Ec; reflexivity | exact P].
Qed.

Lemma cloth_run_length evs : forall s,
  Cloth.phase s = Cloth.BootEnded ->
  clothBuffer (Cloth.run evs s) = clothBuffer s.
Proof.
  unfold Cloth.run.
  induction evs as [| [now e] evs IH]; intros s Hp; cbn [fold_left fst snd];
    [reflexivity |].
  destruct (cloth_handle_length now e s Hp) as [K Hp'].
  rewrite IH by exact Hp'. exact K.
Qed.

Lemma ClothReady_buffer soft s :
  ClothReady soft s -> clothBuffer s = Some (clothNodeCount * 3)%nat.
Proof.
  intros (m & g & heap & sb & Hc & _ & _ & Hg & _ & _ & _ & _ & Hl & _).
  unfold clothBuffer. rewrite Hc. cbn. unfold THREE.positions. rewrite Hg. cbn.
  rewrite Hl. reflexivity.
Qed.

(** ** The cloth scene: disposal *)

Lemma cloth_cleanup_eq s :
  Unlistened (Cloth.cleanup s) /\ Cloth.renderer (Cloth.cleanup s) = None /\
  Cloth.cloth (Cloth.cleanup s) = Cloth.cloth s /\
  Cloth.clothPosAttr (Cloth.cleanup s) = Cloth.clothPosAttr s /\
  Cloth.clothNormAttr (Cloth.cleanup s) = Cloth.clothNormAttr s /\
  Cloth.AmmoLib (Cloth.cleanup s) = Cloth.AmmoLib s /\
  Cloth.physicsWorld (Cloth.cleanup s) = Cloth.physicsWorld s /\
  Cloth.hinge (Cloth.cleanup s) = Cloth.hinge s /\
  Cloth.armMovement (Cloth.cleanup s) = Cloth.armMovement s /\
  Cloth.clock (Cloth.cleanup s) = Cloth.clock s /\
  Cloth.calls (Cloth.cleanup s) = Cloth.calls s /\
  pendingFrames (Cloth.browser (Cloth.cleanup s)) = pendingFrames (Cloth.browser s) /\
  console (Cloth.browser (Cloth.cleanup s)) = console (Cloth.browser s).
Proof.
  destruct s as [r]. unfold Unlistened, Cloth.listening, Cloth.cleanup.
  destruct r; cbn; rewrite !listening_remove; cbn; rewrite ?andb_false_r;
    repeat split; reflexivity.
Qed.

(** The frame callback that was queued when the scene is disposed: it drives
    the motor, steps the world and syncs the cloth, then throws at
    [renderer!.render]; nothing is rendered and no frame is requested. *)
Lemma cloth_frame_disposed (Hlaw : KeepsNodeCounts) now now' s soft n :
  ClothReady soft s -> pendingFrames (Cloth.browser s) = S n ->
  let s1 := Cloth.handle now Cloth.Unmount s in
  let s2 := Cloth.handle now' Cloth.Frame s1 in
  Unlistened s1 /\ Cloth.renderer s1 = None /\
  Unlistened s2 /\ Cloth.renderer s2 = None /\
  console (Cloth.browser s2) = console (Cloth.browser s) ++ [TypeError "renderer"] /\
  Cloth.calls s2
  = Cloth.calls s ++ motorCalls s
    ++ [StepSimulation (fst (getDelta now' (Cloth.clock s))) 10;
        SyncVertices soft; ComputeVertexNormals] /\
  pendingFrames (Cloth.browser s2) = n /\
  ClothReady soft s2 /\ clothSynced soft s2.
Proof.
  intros Hr Hpf s1 s2.
  destruct (cloth_cleanup_eq s)
    as (Hu & Hrn & Ec & Ea & En & Eh & Ew & Ehi & Eam & Ecl & Eca & Epf & Eco).
  assert (Hu1 : Unlistened s1) by exact Hu.
  assert (Hr1 : Cloth.renderer s1 = None) by exact Hrn.
  set (sF := Cloth.set_browser (set_pendingFrames n (Cloth.browser s1)) s1).
  assert (RF : ClothReady soft sF) by (revert Hr; apply ClothReady_ext; assumption).
  destruct (cloth_frame Hlaw now' sF soft RF)
    as (s3 & R3 & S3 & C3 & Hr3 & Hb3 & Hp3 & _ & Eth).
  specialize (Eth Hrn).
  assert (E2 : s2 = Cloth.set_browser (consoleError (TypeError "renderer") (Cloth.browser s3)) s3).
  { subst s2. unfold Cloth.handle at 1.
    change (pendingFrames (Cloth.browser s1)) with (pendingFrames (Cloth.browser (Cloth.cleanup s))).
    rewrite Epf, Hpf. fold sF. unfold try_catch. rewrite Eth. reflexivity. }
  split; [exact Hu1 |]. split; [exact Hr1 |].
  rewrite E2.
  split.
  { unfold Unlistened, Cloth.listening in *.
    change (listeners (Cloth.browser (Cloth.set_browser
              (consoleError (TypeError "renderer") (Cloth.browser s3)) s3)))
      with (listeners (Cloth.browser s3)).
    rewrite Hb3. exact Hu1. }
  split; [change (Cloth.renderer s3 = None); rewrite Hr3; exact Hrn |].
  split.
  { change (console (Cloth.browser s3) ++ [TypeError "renderer"]
            = console (Cloth.browser s) ++ [TypeError "renderer"]).
    rewrite Hb3. cbn. rewrite Eco. reflexivity. }
  split.
  { change (Cloth.calls s3 = Cloth.calls s ++ motorCalls s
              ++ [StepSimulation (fst (getDelta now' (Cloth.clock s))) 10;
                  SyncVertices soft; ComputeVertexNormals]).
    rewrite C3. unfold motorCalls.
    change (Cloth.calls sF) with (Cloth.calls (Cloth.cleanup s)).
    change (Cloth.hinge sF) with (Cloth.hinge (Cloth.cleanup s)).
    change (Cloth.armMovement sF) with (Cloth.armMovement (Cloth.cleanup s)).
    change (Cloth.clock sF) with (Cloth.clock (Cloth.cleanup s)).
    rewrite Eca, Ehi, Eam, Ecl. reflexivity. }
  split; [change (pendingFrames (Cloth.browser s3) = n); rewrite Hb3; reflexivity |].
  split; [revert R3; apply ClothReady_ext; reflexivity
         | revert S3; apply clothSynced_ext; reflexivity].
Qed.

End ClothEventsAfterBoot.

(** ** The cloth demo *)

Lemma clothBooted_eq :
  clothBooted
  = @Cloth.handle demoEngine 16 Cloth.AmmoResolved
      (Cloth.set_phase Cloth.AwaitingAmmo clothStart).
Proof. reflexivity. Qed.

Lemma clothBooted_facts :
  ClothReady 0 clothBooted /\ @clothSynced demoEngine 0 clothBooted /\
  Cloth.phase clothBooted = Cloth.BootEnded /\
  pendingFrames (Cloth.browser clothBooted) = 1%nat /\
  console (Cloth.browser clothBooted) = [] /\
  Cloth.listening ResizeListener clothBooted = true /\
  Cloth.listening KeydownListener clothBooted = true /\
  Cloth.listening KeyupListener clothBooted = true.
Proof.
  rewrite clothBooted_eq.
  destruct (@cloth_boot demoEngine demoEngine_keeps 16
              (Cloth.set_phase Cloth.AwaitingAmmo clothStart) eq_refl eq_refl)
    as (A & B & C & _ & D & E & F & G & I).
  auto 10.
Qed.

#[local] Opaque clothBooted.

Lemma demoBooted_phase : Curtain.phase demoBooted = Curtain.BootEnded.
Proof.
  destruct demoStart_awaiting as (Hg & _ & _).
  rewrite demoBooted_eq.
  destruct (@handle_AmmoResolved demoEngine demoEngine_keeps 16
              (Curtain.set_phase Curtain.AwaitingAmmo demoStart) eq_refl Hg)
    as (sc & mL & mR & dt & t & _ & _ & _ & Hp & _).
  exact Hp.
Qed.

Lemma demoWorld_ready :
  GraphicsReady demoWorld /\ Curtain.phase demoWorld = Curtain.BootEnded /\
  Curtain.AmmoLib demoWorld = Some Ammo.emptyHeap /\
  Curtain.physicsWorld demoWorld = Some (Ammo.newWorld (mkVec3 0 Curtain.gravity 0)).
Proof.
  destruct demoStart_awaiting as (Hg & _ & _).
  split; [exact Hg |]. repeat split; reflexivity.
Qed.

Lemma clothGround_ready :
  bodyUp clothGround /\ Cloth.phase clothGround = Cloth.BootEnded.
Proof. split; [repeat split; eexists; reflexivity | reflexivity]. Qed.

#[local] Opaque demoWorld clothGround.

(** ** Buffers and nodes stay aligned *)

Lemma length_curtainGeometry half viewH yTop xShift :
  length (THREE.array (THREE.attr_position (curtainGeometry half viewH yTop xShift)))
  = (nodeCount * 3)%nat.
Proof. unfold curtainGeometry. rewrite length_translate. apply length_planeVertices. Qed.

Lemma patchAligned_length sd i s :
  patchAligned sd i s -> clothLength sd s = Some (nodeCount * 3)%nat.
Proof.
  intros (m & g & heap & sb & Hc & _ & Hg & _ & _ & _ & _ & Hl).
  unfold clothLength. rewrite Hc. cbn. unfold THREE.positions. rewrite Hg. cbn.
  rewrite Hl. reflexivity.
Qed.

Lemma aligned_inBounds res m g i heap sb :
  THREE.geometry m = THREE.Buffer g ->
  THREE.physicsBody m = Some (THREE.SoftRef i) ->
  Ammo.softs heap !! i = Some sb ->
  length (Ammo.m_nodes sb) = res ->
  length (THREE.array (THREE.attr_position g)) = (res * 3)%nat ->
  syncInBounds res m heap.
Proof.
  intros Hg Hb Hs Hn Hl. exists g, i, sb.
  assert (El : loopCount (length (THREE.array (THREE.attr_position g))) = res)
    by (rewrite Hl, Nat.mul_comm; apply loopCount_triplets).
  do 4 (split; [assumption |]). split; [exact El |].
  intros k Hk. apply lookup_lt_is_Some_2. rewrite Hn, <- El. exact Hk.
Qed.

Lemma patchAligned_inBounds sd i s : patchAligned sd i s -> patchInBounds sd s.
Proof.
  intros (m & g & heap & sb & Hc & _ & Hg & Hb & Hh & Hs & Hn & Hl).
  exists m, heap. split; [exact Hc |]. split; [exact Hh |].
  exact (aligned_inBounds nodeCount m g i heap sb Hg Hb Hs Hn Hl).
Qed.

Lemma ClothReady_inBounds soft s : ClothReady soft s -> clothInBounds s.
Proof.
  intros (m & g & heap & sb & Hc & _ & _ & Hg & Hb & Hh & Hs & Hn & Hl & _).
  exists m, heap. split; [exact Hc |]. split; [exact Hh |].
  exact (aligned_inBounds clothNodeCount m g soft heap sb Hg Hb Hs Hn Hl).
Qed.

Section Frames.
Context `{Engine}.

Lemma Simulated_frames (Hlaw : KeepsNodeCounts) bL bR iL iR times : forall s,
  Simulated bL bR iL iR s -> Simulated bL bR iL iR (curtainFrames times s).
Proof.
  unfold curtainFrames.
  induction times as [| t times IH]; intros s HS; cbn [fold_left]; [exact HS |].
  apply IH.
  destruct (frame_simulated Hlaw t s bL bR iL iR HS) as (s' & mL & mR & _ & _ & E & _ & HS' & _).
  rewrite E. exact HS'.
Qed.

Lemma ClothReady_animate (Hlaw : KeepsNodeCounts) now soft s :
  ClothReady soft s ->
  ClothReady soft (snd (Cloth.animate now s)) /\
  clothSynced soft (snd (Cloth.animate now s)).
Proof.
  intros Hr.
  destruct (cloth_frame Hlaw now s soft Hr) as (s1 & R1 & S1 & _ & _ & _ & _ & Eok & Eth).
  destruct (Cloth.renderer s) as [r |].
  - rewrite (Eok r eq_refl).
    split; [revert R1; apply ClothReady_ext; reflexivity
           | revert S1; apply clothSynced_ext; reflexivity].
  - rewrite (Eth eq_refl). auto.
Qed.

Lemma ClothReady_frames (Hlaw : KeepsNodeCounts) soft times : forall s,
  ClothReady soft s -> ClothReady soft (clothFrames times s).
Proof.
  unfold clothFrames.
  induction times as [| t times IH]; intros s HS; cbn [fold_left]; [exact HS |].
  apply IH. apply (ClothReady_animate Hlaw t soft s HS).
Qed.

End Frames.

(** ** The length of the vertex buffers *)

(** C7: a plane built with [gridX] by [gridY] subdivisions has a position
    buffer of [(gridX+1)*(gridY+1)*3] entries; the buffers of both curtains
    after [createCurtains] and of the cloth after [createObjects] have that
    length for the subdivision counts of their scene, and no sequence of
    events, frames included, changes it afterwards. *)
Theorem buffer_length_fixed `{Engine} sC sK evsC evsK :
  GraphicsReady sC -> Curtain.phase sC = Curtain.BootEnded ->
  (Curtain.AmmoLib sC = None \/
   is_Some (Curtain.AmmoLib sC) /\ is_Some (Curtain.physicsWorld sC)) ->
  bodyUp sK -> Cloth.phase sK = Cloth.BootEnded ->
  let sC' := snd (Curtain.createCurtains sC) in
  let sK' := snd (Cloth.createObjects sK) in
  (forall w h gridX gridY,
     length (THREE.array (THREE.attr_position (THREE.PlaneGeometry w h gridX gridY)))
     = ((gridX + 1) * (gridY + 1) * 3)%nat) /\
  (forall sd, clothLength sd sC'
              = Some ((Curtain.segX + 1) * (Curtain.segY + 1) * 3)%nat) /\
  (forall sd, clothLength sd (Curtain.run evsC sC') = clothLength sd sC') /\
  clothBuffer sK'
  = Some ((Cloth.clothNumSegmentsZ + 1) * (Cloth.clothNumSegmentsY + 1) * 3)%nat /\
  clothBuffer (Cloth.run evsK sK') = clothBuffer sK'.
Proof.
  intros Hg HpC Hlib Hup HpK sC' sK'.
  split; [intros; apply length_planeVertices |].
  assert (HC : (forall sd, clothLength sd sC' = Some (nodeCount * 3)%nat) /\
               Curtain.phase sC' = Curtain.BootEnded).
  { subst sC'. destruct Hlib as [Hn | [[heap Hh] [w Hw]]].
    - pose proof Hg as (_ & [cam Hcam] & _).
      destruct (createCurtains_static sC cam Hg Hcam Hn)
        as (s' & E & _ & HL & HR & _ & _ & _ & _ & _ & _ & _ & Hp).
      rewrite E. cbn [snd]. split; [| congruence].
      intros []; unfold clothLength; cbn [Curtain.cloth]; [rewrite HL | rewrite HR]; cbn;
        f_equal; apply length_curtainGeometry.
    - destruct (createCurtains_simulated sC heap w Hg Hh Hw)
        as (s' & E & (_ & _ & _ & _ & AL & AR) & _ & _ & _ & _ & Hp & _).
      rewrite E. cbn [snd]. split; [| congruence].
      intros []; eapply patchAligned_length; eassumption. }
  destruct HC as [HC HpC'].
  split; [exact HC |].
  split; [intros sd; apply run_lengths; exact HpC' |].
  subst sK'.
  destruct (createObjects_ready sK Hup) as (s' & soft & E & HR & _ & _ & _ & _ & _ & Hp & _).
  rewrite E. cbn [snd].
  split; [exact (ClothReady_buffer soft s' HR) |].
  apply cloth_run_length. congruence.
Qed.

Lemma buffer_length_fixed_witness :
  let sC' := snd (Curtain.createCurtains demoWorld) in
  let sK' := snd (@Cloth.createObjects demoEngine clothGround) in
  let evsC := [(16, Curtain.Frame); (20, Curtain.Scroll 300); (32, Curtain.Frame);
               (40, Curtain.Resize 800 600); (48, Curtain.Frame); (50, Curtain.Unmount);
               (64, Curtain.Frame)] in
  let evsK := [(16, Cloth.Frame); (20, Cloth.Keydown "KeyQ"); (32, Cloth.Frame);
               (40, Cloth.Keyup); (48, Cloth.Frame); (50, Cloth.Unmount);
               (64, Cloth.Frame)] in
  (forall w h gridX gridY,
     length (THREE.array (THREE.attr_position (THREE.PlaneGeometry w h gridX gridY)))
     = ((gridX + 1) * (gridY + 1) * 3)%nat) /\
  (forall sd, clothLength sd sC'
              = Some ((Curtain.segX + 1) * (Curtain.segY + 1) * 3)%nat) /\
  (forall sd, clothLength sd (@Curtain.run demoEngine evsC sC') = clothLength sd sC') /\
  clothBuffer sK'
  = Some ((Cloth.clothNumSegmentsZ + 1) * (Cloth.clothNumSegmentsY + 1) * 3)%nat /\
  clothBuffer (@Cloth.run demoEngine evsK sK') = clothBuffer sK'.
Proof.
  destruct demoWorld_ready as (Hg & Hp & Hh & Hw).
  destruct clothGround_ready as (Hup & HpK).
  apply (@buffer_length_fixed demoEngine demoWorld clothGround _ _ Hg Hp);
    [right; split; eexists; eassumption | exact Hup | exact HpK].
Defined.

(** ** The sync loop stays within the nodes *)

(** C10: in both scenes the soft body of a patch is created with as many
    nodes as the render geometry has vertices, [(segX+1)*(segY+1)], which is
    also the number of rounds of the sync loop; so after construction and
    after any number of frames every node index the sync reads, from 0 to
    [bufferLength/3 - 1], is the index of a node of the patch. *)
Theorem sync_in_bounds `{Engine} (Hlaw : KeepsNodeCounts) sC heap world sK timesC timesK :
  GraphicsReady sC -> Curtain.AmmoLib sC = Some heap ->
  Curtain.physicsWorld sC = Some world -> bodyUp sK ->
  let sC' := snd (Curtain.createCurtains sC) in
  let sK' := snd (Cloth.createObjects sK) in
  (forall sd, patchInBounds sd sC') /\
  (forall sd, patchInBounds sd (curtainFrames timesC sC')) /\
  clothInBounds sK' /\
  clothInBounds (clothFrames timesK sK').
Proof.
  intros Hg Hh Hw Hup sC' sK'.
  subst sC' sK'.
  destruct (createCurtains_simulated sC heap world Hg Hh Hw) as (s' & E & HS & _).
  rewrite E. cbn [snd].
  destruct (createObjects_ready sK Hup) as (k' & soft & EK & HR & _).
  rewrite EK. cbn [snd].
  assert (HI : forall s bL bR iL iR sd, Simulated bL bR iL iR s -> patchInBounds sd s).
  { intros s bL bR iL iR sd (_ & _ & _ & _ & AL & AR).
    destruct sd; eapply patchAligned_inBounds; eassumption. }
  split; [intros sd; eapply HI; exact HS |].
  split; [intros sd; eapply HI; apply (Simulated_frames Hlaw); exact HS |].
  split; [exact (ClothReady_inBounds soft k' HR) |].
  apply (ClothReady_inBounds soft). apply (ClothReady_frames Hlaw). exact HR.
Qed.

Lemma sync_in_bounds_witness :
  let sC' := snd (Curtain.createCurtains demoWorld) in
  let sK' := snd (@Cloth.createObjects demoEngine clothGround) in
  (forall sd, patchInBounds sd sC') /\
  (forall sd, patchInBounds sd (@curtainFrames demoEngine [16; 32; 48] sC')) /\
  clothInBounds sK' /\
  clothInBounds (@clothFrames demoEngine [16; 32; 48] sK').
Proof.
  destruct demoWorld_ready as (Hg & _ & Hh & Hw).
  destruct clothGround_ready as (Hup & _).
  exact (@sync_in_bounds demoEngine demoEngine_keeps demoWorld _ _ clothGround
           [16; 32; 48] [16; 32; 48] Hg Hh Hw Hup).
Defined.

(** ** Disposal of the cloth scene *)

(** C9, where the cloth scene departs from it: the unmount removes the three
    listeners of the scene and clears the renderer, but the frame callback
    that was queued at that moment does not complete.  It drives the motor,
    steps the world and syncs the cloth as before, then throws a [TypeError]
    at [renderer!.render]: the error goes uncaught to the console, nothing is
    rendered, and no frame is requested only because the throw comes first. *)
Theorem cloth_frame_after_disposal `{Engine} (Hlaw : KeepsNodeCounts) now now' s soft n :
  ClothReady soft s -> pendingFrames (Cloth.browser s) = S n ->
  let s1 := Cloth.handle now Cloth.Unmount s in
  let s2 := Cloth.handle now' Cloth.Frame s1 in
  Unlistened s1 /\ Cloth.renderer s1 = None /\
  Cloth.animate now' (Cloth.set_browser (set_pendingFrames n (Cloth.browser s1)) s1)
  = (Throw (TypeError "renderer"), snd (Cloth.animate now'
       (Cloth.set_browser (set_pendingFrames n (Cloth.browser s1)) s1))) /\
  console (Cloth.browser s2) = console (Cloth.browser s) ++ [TypeError "renderer"] /\
  Cloth.calls s2
  = Cloth.calls s ++ motorCalls s
    ++ [StepSimulation (fst (getDelta now' (Cloth.clock s))) 10;
        SyncVertices soft; ComputeVertexNormals] /\
  pendingFrames (Cloth.browser s2) = n /\
  Unlistened s2 /\ Cloth.renderer s2 = None.
Proof.
  intros HR Hpf s1 s2.
  destruct (cloth_frame_disposed Hlaw now now' s soft n HR Hpf)
    as (U1 & R1 & U2 & R2 & Hco & Hca & Hn & R & _).
  split; [exact U1 |]. split; [exact R1 |].
  split.
  { assert (RF : ClothReady soft
                   (Cloth.set_browser (set_pendingFrames n (Cloth.browser s1)) s1)).
    { revert HR. apply ClothReady_ext; apply (cloth_cleanup_eq s). }
    destruct (cloth_frame Hlaw now' _ soft RF) as (s3 & _ & _ & _ & _ & _ & _ & _ & Eth).
    rewrite (Eth R1). reflexivity. }
  auto.
Qed.

Lemma cloth_frame_after_disposal_witness :
  let s1 := @Cloth.handle demoEngine 20 Cloth.Unmount clothBooted in
  let s2 := @Cloth.handle demoEngine 32 Cloth.Frame s1 in
  Unlistened s1 /\ Cloth.renderer s1 = None /\
  @Cloth.animate demoEngine 32
    (Cloth.set_browser (set_pendingFrames 0 (Cloth.browser s1)) s1)
  = (Throw (TypeError "renderer"), snd (@Cloth.animate demoEngine 32
       (Cloth.set_browser (set_pendingFrames 0 (Cloth.browser s1)) s1))) /\
  console (Cloth.browser s2) = console (Cloth.browser clothBooted) ++ [TypeError "renderer"] /\
  Cloth.calls s2
  = Cloth.calls clothBooted ++ motorCalls clothBooted
    ++ [StepSimulation (fst (getDelta 32 (Cloth.clock clothBooted))) 10;
        SyncVertices 0; ComputeVertexNormals] /\
  pendingFrames (Cloth.browser s2) = 0%nat /\
  Unlistened s2 /\ Cloth.renderer s2 = None.
Proof.
  destruct clothBooted_facts as (HR & _ & _ & Hpf & _).
  exact (@cloth_frame_after_disposal demoEngine demoEngine_keeps 20 32 clothBooted 0 0 HR Hpf).
Defined.

(** * Further properties of the two scenes *)

(** ** The scroll control *)

(** X1: a scroll event that reaches the registered listener sets the control
    signal to [scrollY / 600] clamped to [0, 1]: 0 at the top of the page (or
    above it), [scrollY / 600] up to 600 px, 1 from 600 px on; the signal is
    monotone in the scroll position; and with [window.scrollY] undefined
    [onScroll] yields 0. *)
Theorem scroll_sets_progress `{Engine} now y s :
  Curtain.listening ScrollListener s = true ->
  let p := Curtain.scrollProgress (Curtain.handle now (Curtain.Scroll y) s) in
  0 <= p <= 1 /\
  (y <= 0 -> p = 0) /\
  (0 <= y <= 600 -> p = y / 600) /\
  (600 <= y -> p = 1) /\
  (forall y', y <= y' ->
     p <= Curtain.scrollProgress (Curtain.handle now (Curtain.Scroll y') s)) /\
  (forall s0, scrollY (window (Curtain.browser s0)) = None ->
     Curtain.scrollProgress (Curtain.onScroll s0) = 0).
Proof.
  intros Hl p.
  assert (E : forall z, Curtain.scrollProgress (Curtain.handle now (Curtain.Scroll z) s)
                        = Rmax 0 (Rmin 1 (z / 600))).
  { intros z. unfold Curtain.handle.
    match goal with
    | |- context [if ?b then _ else _] =>
        change b with (Curtain.listening ScrollListener s)
    end.
    rewrite Hl. reflexivity. }
  subst p. rewrite E.
  assert (C : forall z, 0 <= Rmax 0 (Rmin 1 (z / 600)) <= 1 /\
                        (z <= 0 -> Rmax 0 (Rmin 1 (z / 600)) = 0) /\
                        (0 <= z <= 600 -> Rmax 0 (Rmin 1 (z / 600)) = z / 600) /\
                        (600 <= z -> Rmax 0 (Rmin 1 (z / 600)) = 1)).
  { intros z. unfold Rmax, Rmin.
    destruct (Rle_dec 1 (z / 600)), (Rle_dec 0 _); repeat split; intros; lra. }
  destruct (C y) as (C1 & C2 & C3 & C4).
  split; [exact C1 |]. split; [exact C2 |]. split; [exact C3 |]. split; [exact C4 |].
  split.
  - intros y' Hy. rewrite E.
    apply Rle_max_compat_l. apply Rle_min_compat_l. lra.
  - intros s0 Hn. unfold Curtain.onScroll. rewrite Hn. cbn.
    unfold Curtain.maxScrollPx, Rmax, Rmin.
    destruct (Rle_dec 1 (0 / 600)), (Rle_dec 0 _); lra.
Qed.

Lemma scroll_sets_progress_witness :
  let p := Curtain.scrollProgress (@Curtain.handle demoEngine 20 (Curtain.Scroll 150) demoStart) in
  0 <= p <= 1 /\
  (150 <= 0 -> p = 0) /\
  (0 <= 150 <= 600 -> p = 150 / 600) /\
  (600 <= 150 -> p = 1) /\
  (forall y', 150 <= y' ->
     p <= Curtain.scrollProgress (@Curtain.handle demoEngine 20 (Curtain.Scroll y') demoStart)) /\
  (forall s0, scrollY (window (Curtain.browser s0)) = None ->
     Curtain.scrollProgress (Curtain.onScroll s0) = 0).
Proof. exact (@scroll_sets_progress demoEngine 20 150 demoStart eq_refl). Defined.

(** ** Disposal of the curtain scene *)

Section CurtainGone.
Context `{Engine}.

(** Once disposed, no event brings scene or camera back. *)
Lemma handle_gone now e s :
  Disposed s -> Curtain.scene s = None -> Curtain.camera s = None ->
  Curtain.scene (Curtain.handle now e s) = None /\
  Curtain.camera (Curtain.handle now e s) = None.
Proof.
  intros (Hr & HlR & HlS) Hsc Hcam.
  destruct e; cbn [Curtain.handle].
  - destruct (Curtain.phase s); try (split; assumption).
    destruct windowAmmo; [split; assumption |].
    unfold try_catch, Curtain.bootTail.
    rewrite (bind_Throw _ _ _ _ _
               (createCurtains_disposed (Curtain.set_phase Curtain.BootEnded s) Hr)).
    split; assumption.
  - destruct (Curtain.phase s); split; assumption.
  - destruct (Curtain.phase s); try (split; assumption).
    unfold try_catch, Curtain.initPhysics.
    match goal with
    | |- context [bind (bind ?c ?k1) ?k2 ?s0] =>
        rewrite (bind_Ret (bind c k1) k2 s0 tt
                   (Curtain.set_physicsWorld
                      (Some (Ammo.newWorld (mkVec3 0 Curtain.gravity 0))) s0))
          by reflexivity
    end.
    unfold Curtain.bootTail.
    match goal with
    | |- context [bind Curtain.createCurtains ?k ?s0] =>
        rewrite (bind_Throw Curtain.createCurtains k s0 _ _
                   (createCurtains_disposed s0 Hr))
    end.
    split; assumption.
  - destruct (Curtain.phase s); split; assumption.
  - destruct (pendingFrames (Curtain.browser s)) as [| n] eqn:En; [split; assumption |].
    unfold try_catch. rewrite animate_disposed by exact Hr.
    split; assumption.
  - unfold Curtain.listening.
    match goal with |- context [if ?b then _ else _] => change b with
      (existsb (listener_eqb ScrollListener) (listeners (Curtain.browser s))) end.
    rewrite HlS. split; assumption.
  - unfold Curtain.listening.
    match goal with |- context [if ?b then _ else _] => change b with
      (existsb (listener_eqb ResizeListener) (listeners (Curtain.browser s))) end.
    rewrite HlR. split; assumption.
  - split; reflexivity.
Qed.

Lemma run_gone evs : forall s,
  Disposed s -> Curtain.scene s = None -> Curtain.camera s = None ->
  Curtain.scene (Curtain.run evs s) = None /\ Curtain.camera (Curtain.run evs s) = None.
Proof.
  unfold Curtain.run.
  induction evs as [| [now e] evs IH]; intros s Hd Hsc Hcam; cbn [fold_left fst snd];
    [split; assumption |].
  destruct (handle_gone now e s Hd Hsc Hcam) as [Hsc' Hcam'].
  destruct (handle_disposed now e s Hd) as (Hd' & _).
  exact (IH _ Hd' Hsc' Hcam').
Qed.

End CurtainGone.

(** X2: once the curtain scene is unmounted, whatever events follow, neither
    of its two listeners is registered and renderer, scene and camera stay
    null; a frame callback that was still queued returns at the guard of
    [animate]: no engine is called, nothing is logged to the console by it,
    and the number of queued frames never grows again. *)
Theorem curtain_unmount_stops_loop `{Engine} now s evs :
  let s0 := Curtain.handle now Curtain.Unmount s in
  let s' := Curtain.run evs s0 in
  Disposed s' /\
  Curtain.scene s' = None /\ Curtain.camera s' = None /\
  Curtain.calls s' = Curtain.calls s /\
  (pendingFrames (Curtain.browser s') <= pendingFrames (Curtain.browser s))%nat /\
  (forall t, Curtain.animate t s' = (Ret tt, s')) /\
  (forall t, Curtain.handle t Curtain.Frame s0
             = Curtain.set_browser
                 (set_pendingFrames (Nat.pred (pendingFrames (Curtain.browser s0)))
                    (Curtain.browser s0)) s0).
Proof.
  intros s0 s'.
  assert (Hd0 : Disposed s0) by apply cleanup_disposed.
  destruct (run_disposed evs s0 Hd0) as (Hd & Hp & Hc). fold s' in Hd, Hp, Hc.
  destruct (run_gone evs s0 Hd0) as [Hsc Hcam];
    [subst s0; destruct s; reflexivity | subst s0; destruct s; reflexivity |].
  fold s' in Hsc, Hcam.
  split; [exact Hd |]. split; [exact Hsc |]. split; [exact Hcam |].
  split; [rewrite Hc; subst s0; destruct s; reflexivity |].
  split; [etransitivity; [exact Hp |]; subst s0; destruct s; cbn; lia |].
  split; [intros t; apply animate_disposed; apply Hd |].
  intros t. unfold Curtain.handle at 1.
  destruct (pendingFrames (Curtain.browser s0)) as [| n] eqn:En.
  - cbn [Nat.pred]. rewrite <- En. destruct s0 as [? ? ? ? ? ? ? ? ? ? ? ? ? ? ? ? []]; reflexivity.
  - unfold try_catch. rewrite animate_disposed by apply Hd0. reflexivity.
Qed.

(** ** Booting the curtain scene without the engine *)

(** X3: when the script loads but defines no [window.Ammo], the boot builds
    both curtains as static planes at the geometry computed from the camera,
    creates no physics world and no engine object, logs nothing, renders the
    first frame and queues the next. *)
Theorem curtain_static_boot `{Engine} now b :
  container b = true ->
  let s0 := Curtain.mount (Curtain.initial b) in
  let s := Curtain.handle now (Curtain.ScriptLoaded false) s0 in
  exists cam,
    Curtain.camera s0 = Some cam /\
    let v := viewSizeOf cam in
    let half := Curtain.viewW v / 2 in
    let yTop := Curtain.viewH v / 2 - 0.2 in
    Curtain.leftCloth s = Some (curtainMesh half (Curtain.viewH v) yTop (- half / 2) None) /\
    Curtain.rightCloth s = Some (curtainMesh half (Curtain.viewH v) yTop (half / 2) None) /\
    Curtain.AmmoLib s = None /\ Curtain.physicsWorld s = None /\
    console (Curtain.browser s) = console b /\
    THREE.framesRendered <$> Curtain.renderer s = Some 1%nat /\
    pendingFrames (Curtain.browser s) = S (pendingFrames b) /\
    Curtain.phase s = Curtain.BootEnded.
Proof. intros Hc. exact (static_boot now b Hc). Qed.

Lemma curtain_static_boot_witness :
  let s0 := Curtain.mount (Curtain.initial demoBrowser) in
  let s := @Curtain.handle demoEngine 0 (Curtain.ScriptLoaded false) s0 in
  exists cam,
    Curtain.camera s0 = Some cam /\
    let v := viewSizeOf cam in
    let half := Curtain.viewW v / 2 in
    let yTop := Curtain.viewH v / 2 - 0.2 in
    Curtain.leftCloth s = Some (curtainMesh half (Curtain.viewH v) yTop (- half / 2) None) /\
    Curtain.rightCloth s = Some (curtainMesh half (Curtain.viewH v) yTop (half / 2) None) /\
    Curtain.AmmoLib s = None /\ Curtain.physicsWorld s = None /\
    console (Curtain.browser s) = console demoBrowser /\
    THREE.framesRendered <$> Curtain.renderer s = Some 1%nat /\
    pendingFrames (Curtain.browser s) = S (pendingFrames demoBrowser) /\
    Curtain.phase s = Curtain.BootEnded.
Proof. exact (@curtain_static_boot demoEngine 0 demoBrowser eq_refl). Defined.

(** ** Booting without a container *)



(** ** Boot failures of the cloth scene *)

(** X5: the boot of the cloth scene has no [try]: when the script fails to
    load, when it loads without defining [window.Ammo], or when
    [window.Ammo()] rejects, the error escapes to the console before
    [initGraphics] is reached, so no scene, camera or renderer exists, no
    listener is registered, no object is built and no frame is queued. *)
Theorem cloth_boot_failure `{Engine} now now' src b :
  let s0 := Cloth.mount (Cloth.initial b) in
  let untouched (e : Error) (s : Cloth.State) :=
    Cloth.renderer s = None /\ Cloth.scene s = None /\ Cloth.camera s = None /\
    Cloth.physicsWorld s = None /\ Cloth.cloth s = None /\ Cloth.rigidBodies s = [] /\
    listeners (Cloth.browser s) = listeners b /\
    pendingFrames (Cloth.browser s) = pendingFrames b /\
    console (Cloth.browser s) = console b ++ [e] /\
    Cloth.calls s = [] /\ Cloth.phase s = Cloth.BootEnded in
  untouched (LoadFailure src) (Cloth.handle now (Cloth.ScriptFailed src) s0) /\
  untouched AmmoLoaderMissing (Cloth.handle now (Cloth.ScriptLoaded false) s0) /\
  untouched AmmoInitFailure
    (Cloth.handle now' Cloth.AmmoRejected (Cloth.handle now (Cloth.ScriptLoaded true) s0)).
Proof. cbv zeta. repeat split; reflexivity. Qed.

(** X6: when [containerRef.current] is null as the engine resolves,
    [initGraphics] of the cloth scene throws at [container.appendChild] after
    it has assigned scene, camera and renderer: the [TypeError] escapes to the
    console, the lights and the resize listener are never added, no physics
    world and no object is created, and no frame is queued. *)
Theorem cloth_boot_without_container `{Engine} now s :
  Cloth.phase s = Cloth.AwaitingAmmo -> container (Cloth.browser s) = false ->
  let s' := Cloth.handle now Cloth.AmmoResolved s in
  console (Cloth.browser s') = console (Cloth.browser s) ++ [TypeError "container.appendChild"] /\
  Cloth.scene s' = Some (THREE.mkScene []) /\
  is_Some (Cloth.camera s') /\ is_Some (Cloth.renderer s') /\
  Cloth.physicsWorld s' = Cloth.physicsWorld s /\
  Cloth.cloth s' = Cloth.cloth s /\ Cloth.rigidBodies s' = Cloth.rigidBodies s /\
  Cloth.hinge s' = Cloth.hinge s /\
  listeners (Cloth.browser s') = listeners (Cloth.browser s) /\
  pendingFrames (Cloth.browser s') = pendingFrames (Cloth.browser s) /\
  Cloth.calls s' = Cloth.calls s /\ Cloth.phase s' = Cloth.BootEnded.
Proof.
  intros Hp Hc. cbv zeta. unfold Cloth.handle. rewrite Hp.
  unfold try_catch, Cloth.bootTail, Cloth.initGraphics, bind, gets, modify, throw, Cloth.report.
  cbn. rewrite Hc. cbn. unfold modify. cbn.
  repeat split; try reflexivity; eexists; reflexivity.
Qed.

Lemma cloth_boot_without_container_witness :
  let s := Cloth.set_browser (set_container false demoBrowser)
             (Cloth.set_phase Cloth.AwaitingAmmo clothStart) in
  let s' := @Cloth.handle demoEngine 16 Cloth.AmmoResolved s in
  console (Cloth.browser s') = console (Cloth.browser s) ++ [TypeError "container.appendChild"] /\
  Cloth.scene s' = Some (THREE.mkScene []) /\
  is_Some (Cloth.camera s') /\ is_Some (Cloth.renderer s') /\
  Cloth.physicsWorld s' = Cloth.physicsWorld s /\
  Cloth.cloth s' = Cloth.cloth s /\ Cloth.rigidBodies s' = Cloth.rigidBodies s /\
  Cloth.hinge s' = Cloth.hinge s /\
  listeners (Cloth.browser s') = listeners (Cloth.browser s) /\
  pendingFrames (Cloth.browser s') = pendingFrames (Cloth.browser s) /\
  Cloth.calls s' = Cloth.calls s /\ Cloth.phase s' = Cloth.BootEnded.
Proof.
  exact (@cloth_boot_without_container demoEngine 16
           (Cloth.set_browser (set_container false demoBrowser)
              (Cloth.set_phase Cloth.AwaitingAmmo clothStart)) eq_refl eq_refl).
Defined.

(** ** The frame of the cloth scene *)

(** X7: a frame of the booted cloth scene with its renderer in place runs in
    one fixed order and completes: the hinge motor is enabled with target
    velocity [0.8 * armMovement] and maximal impulse 50 (when the hinge
    exists), the world is stepped by the elapsed time with sub-step argument
    10, the cloth vertices are synced and the normals recomputed, the scene is
    rendered once and exactly one further frame is requested. *)
Theorem cloth_frame_order `{Engine} (Hlaw : KeepsNodeCounts) now s soft r :
  ClothReady soft s -> Cloth.renderer s = Some r ->
  exists s',
    Cloth.animate now s = (Ret tt, s') /\
    Cloth.calls s'
    = Cloth.calls s
      ++ match Cloth.hinge s with
         | Some _ => [EnableAngularMotor true (0.8 * Cloth.armMovement s) 50]
         | None => []
         end
      ++ [StepSimulation (fst (getDelta now (Cloth.clock s))) 10;
          SyncVertices soft; ComputeVertexNormals; Render; RequestAnimationFrame] /\
    THREE.framesRendered <$> Cloth.renderer s' = Some (S (THREE.framesRendered r)) /\
    pendingFrames (Cloth.browser s') = S (pendingFrames (Cloth.browser s)) /\
    console (Cloth.browser s') = console (Cloth.browser s) /\
    ClothReady soft s'.
Proof.
  intros HR Hr.
  destruct (cloth_frame Hlaw now s soft HR) as (s1 & R1 & _ & C1 & Hr1 & Hb1 & _ & Eok & _).
  exists (presented r s1). split; [exact (Eok r Hr) |].
  split.
  { transitivity (Cloth.calls s1 ++ [Render; RequestAnimationFrame]); [reflexivity |].
    rewrite C1. unfold motorCalls. rewrite <- !app_assoc. reflexivity. }
  split; [reflexivity |].
  split; [cbn; rewrite Hb1; reflexivity |].
  split; [cbn; rewrite Hb1; reflexivity |].
  revert R1. apply ClothReady_ext; reflexivity.
Qed.

Lemma clothBooted_renderer : is_Some (Cloth.renderer clothBooted).
Proof.
  rewrite clothBooted_eq.
  apply (@cloth_boot demoEngine demoEngine_keeps 16
           (Cloth.set_phase Cloth.AwaitingAmmo clothStart) eq_refl eq_refl).
Qed.

Lemma cloth_frame_order_witness :
  exists r s',
    Cloth.renderer clothBooted = Some r /\
    @Cloth.animate demoEngine 32 clothBooted = (Ret tt, s') /\
    Cloth.calls s'
    = Cloth.calls clothBooted
      ++ match Cloth.hinge clothBooted with
         | Some _ => [EnableAngularMotor true (0.8 * Cloth.armMovement clothBooted) 50]
         | None => []
         end
      ++ [StepSimulation (fst (getDelta 32 (Cloth.clock clothBooted))) 10;
          SyncVertices 0; ComputeVertexNormals; Render; RequestAnimationFrame] /\
    THREE.framesRendered <$> Cloth.renderer s' = Some (S (THREE.framesRendered r)) /\
    pendingFrames (Cloth.browser s') = S (pendingFrames (Cloth.browser clothBooted)) /\
    console (Cloth.browser s') = console (Cloth.browser clothBooted) /\
    ClothReady 0 s'.
Proof.
  destruct clothBooted_facts as (HR & _).
  destruct clothBooted_renderer as [r Hr].
  exists r.
  destruct (@cloth_frame_order demoEngine demoEngine_keeps 32 clothBooted 0 r HR Hr)
    as (s' & Hs').
  exists s'. split; [exact Hr | exact Hs'].
Defined.

(** Framing proofs for programs that branch on data: split binds, take
    every branch, close the leaves. *)
Ltac framed_go :=
  repeat (cbn beta;
          lazymatch goal with
          | |- framed _ (match ?x with _ => _ end) => destruct x
          | |- framed _ (if ?b then _ else _) => destruct b
          | |- _ => framed_step
          end).

#[local] Instance sameArm_refl : Reflexive sameArm.
Proof. intros s. reflexivity. Qed.

#[local] Instance sameArm_trans : Transitive sameArm.
Proof. unfold sameArm. intros a b c. congruence. Qed.

(** ** The lever of the cloth scene *)

Section ClothArm.
Context `{Engine}.

Lemma sameArm_createParallelepiped sx sy sz mass pos quat :
  framed sameArm (Cloth.createParallelepiped sx sy sz mass pos quat).
Proof. unfold Cloth.createParallelepiped, Cloth.createRigidBody. framed_go. Qed.

Lemma sameArm_brickRow oddRow nRow idxs : forall pos,
  framed sameArm (Cloth.brickRow oddRow nRow idxs pos).
Proof.
  induction idxs as [| i idxs IH]; intros pos; cbn [Cloth.brickRow]; [framed_go |].
  f_bind; [apply sameArm_createParallelepiped | intros _; apply IH].
Qed.

Lemma sameArm_wallRows js : forall pos, framed sameArm (Cloth.wallRows js pos).
Proof.
  induction js as [| j js IH]; intros pos; cbn [Cloth.wallRows]; [framed_go |].
  f_bind; [apply sameArm_brickRow | intros p; apply IH].
Qed.

Lemma sameArm_createObjects : framed sameArm Cloth.createObjects.
Proof.
  unfold Cloth.createObjects.
  f_bind; [apply sameArm_createParallelepiped | intros _].
  f_bind; [apply sameArm_wallRows | intros _].
  do 8 (f_bind; [framed_go | intros ?]).
  destruct (Ammo.CreatePatch _ _ _ _ _ _); [| framed_go].
  do 4 (f_bind; [framed_go | intros ?]).
  do 3 (f_bind; [apply sameArm_createParallelepiped | intros ?]).
  unfold Cloth.rigidOf, Cloth.alterSoft. framed_go.
Qed.

Lemma sameArm_animate now : framed sameArm (Cloth.animate now).
Proof.
  unfold Cloth.animate.
  f_bind; [intros s; rewrite cloth_tickClock_eq; destruct s; reflexivity | intros dt].
  unfold Cloth.syncCloth, Cloth.log. framed_go.
Qed.

Lemma sameArm_bootTail now : framed sameArm (Cloth.bootTail now).
Proof.
  unfold Cloth.bootTail.
  f_bind; [unfold Cloth.initGraphics; framed_go | intros _].
  f_bind; [unfold Cloth.initPhysics; framed_go | intros _].
  f_bind; [apply sameArm_createObjects | intros _].
  f_bind; [apply (framed_modify sameArm); intros []; reflexivity | intros _].
  apply sameArm_animate.
Qed.

Lemma sameArm_report e : framed sameArm (Cloth.report e).
Proof. unfold Cloth.report. framed_go. Qed.

(** Only the two key handlers move the lever. *)
Lemma handle_arm now e s :
  match e with
  | Cloth.Keydown _ | Cloth.Keyup => True
  | _ => Cloth.armMovement (Cloth.handle now e s) = Cloth.armMovement s
  end.
Proof.
  destruct e; cbn [Cloth.handle]; trivial.
  - destruct (Cloth.phase s); try reflexivity. destruct windowAmmo; reflexivity.
  - destruct (Cloth.phase s); reflexivity.
  - destruct (Cloth.phase s); try reflexivity.
    etransitivity;
      [apply (framed_try_catch sameArm);
       [apply sameArm_bootTail | intros e; apply sameArm_report] |].
    reflexivity.
  - destruct (Cloth.phase s); reflexivity.
  - destruct (pendingFrames (Cloth.browser s)); [reflexivity |].
    etransitivity;
      [apply (framed_try_catch sameArm);
       [apply sameArm_animate | intros e; apply sameArm_report] |].
    reflexivity.
  - match goal with |- context [if ?b then _ else _] => destruct b end; [| reflexivity].
    unfold Cloth.onWindowResize. cbn. destruct (Cloth.renderer s); reflexivity.
  - unfold Cloth.cleanup. cbn. destruct (Cloth.renderer s); reflexivity.
Qed.

Lemma handle_armPosition now e s :
  armPosition (Cloth.armMovement s) -> armPosition (Cloth.armMovement (Cloth.handle now e s)).
Proof.
  intros Ha. pose proof (handle_arm now e s) as Hk.
  destruct e; try (rewrite Hk; exact Ha).
  - cbn [Cloth.handle]. destruct (Cloth.listening KeydownListener s); [| exact Ha].
    unfold Cloth.keydown.
    destruct (String.eqb code "KeyQ"), (String.eqb code "KeyA"); cbn;
      unfold armPosition; auto.
  - cbn [Cloth.handle]. destruct (Cloth.listening KeyupListener s); [| exact Ha].
    unfold armPosition; cbn; auto.
Qed.

End ClothArm.

(** X8: the lever of the cloth scene only ever takes the values -1, 0 and
    1, whatever events arrive in whatever order; with the key listeners
    registered, pressing Q sets it to 1, pressing A sets it to -1, any other
    key leaves it where it is, and releasing any key resets it to 0; without
    the listeners (before the boot and after the unmount) keys do nothing. *)
Theorem cloth_lever `{Engine} evs s now code :
  armPosition (Cloth.armMovement s) ->
  armPosition (Cloth.armMovement (Cloth.run evs s)) /\
  (Cloth.listening KeydownListener s = true ->
   Cloth.armMovement (Cloth.handle now (Cloth.Keydown "KeyQ") s) = 1 /\
   Cloth.armMovement (Cloth.handle now (Cloth.Keydown "KeyA") s) = -1 /\
   (code <> "KeyQ"%string -> code <> "KeyA"%string ->
    Cloth.armMovement (Cloth.handle now (Cloth.Keydown code) s) = Cloth.armMovement s)) /\
  (Cloth.listening KeyupListener s = true ->
   Cloth.armMovement (Cloth.handle now Cloth.Keyup s) = 0) /\
  (Cloth.listening KeydownListener s = false ->
   Cloth.handle now (Cloth.Keydown code) s = s) /\
  (Cloth.listening KeyupListener s = false -> Cloth.handle now Cloth.Keyup s = s).
Proof.
  intros Ha. split.
  - revert s Ha. unfold Cloth.run.
    induction evs as [| [t e] evs IH]; intros s Ha; cbn [fold_left fst snd]; [exact Ha |].
    apply IH. apply handle_armPosition. exact Ha.
  - split; [| split; [| split]].
    + intros Hl. cbn [Cloth.handle]. rewrite Hl. unfold Cloth.keydown.
      split; [reflexivity |]. split; [reflexivity |].
      intros HQ HA. apply String.eqb_neq in HQ, HA. rewrite HQ, HA. reflexivity.
    + intros Hl. cbn [Cloth.handle]. rewrite Hl. reflexivity.
    + intros Hl. cbn [Cloth.handle]. rewrite Hl. reflexivity.
    + intros Hl. cbn [Cloth.handle]. rewrite Hl. reflexivity.
Qed.

Lemma clothBooted_arm : armPosition (Cloth.armMovement clothBooted).
Proof.
  rewrite clothBooted_eq. apply (@handle_armPosition demoEngine).
  right. left. reflexivity.
Qed.

Lemma cloth_lever_witness :
  let evs := [(20, Cloth.Keydown "KeyQ"); (32, Cloth.Frame); (40, Cloth.Keyup);
              (48, Cloth.Frame); (50, Cloth.Keydown "KeyA"); (60, Cloth.Unmount);
              (64, Cloth.Frame)] in
  armPosition (Cloth.armMovement (@Cloth.run demoEngine evs clothBooted)) /\
  (Cloth.listening KeydownListener clothBooted = true ->
   Cloth.armMovement (@Cloth.handle demoEngine 20 (Cloth.Keydown "KeyQ") clothBooted) = 1 /\
   Cloth.armMovement (@Cloth.handle demoEngine 20 (Cloth.Keydown "KeyA") clothBooted) = -1 /\
   ("KeyZ"%string <> "KeyQ"%string -> "KeyZ"%string <> "KeyA"%string ->
    Cloth.armMovement (@Cloth.handle demoEngine 20 (Cloth.Keydown "KeyZ") clothBooted)
    = Cloth.armMovement clothBooted)) /\
  (Cloth.listening KeyupListener clothBooted = true ->
   Cloth.armMovement (@Cloth.handle demoEngine 20 Cloth.Keyup clothBooted) = 0) /\
  (Cloth.listening KeydownListener clothBooted = false ->
   @Cloth.handle demoEngine 20 (Cloth.Keydown "KeyZ") clothBooted = clothBooted) /\
  (Cloth.listening KeyupListener clothBooted = false ->
   @Cloth.handle demoEngine 20 Cloth.Keyup clothBooted = clothBooted).
Proof. exact (@cloth_lever demoEngine _ clothBooted 20 "KeyZ" clothBooted_arm). Defined.

(** ** Resizing the curtain scene *)

(** X9: a resize event to a window of non-zero height that reaches the
    registered listener gives the camera the aspect [innerWidth / innerHeight]
    and the renderer the new size, so that the view width [computeViewSize]
    reports becomes the unchanged view height times the new aspect; the
    curtains, the rods, the slide distance and the engine's objects stay as
    they were built: the layout is not recomputed.  Without renderer or camera
    [onResize] does nothing. *)
Theorem curtain_resize `{Engine} now w h s r c :
  0 < h ->
  Curtain.listening ResizeListener s = true ->
  Curtain.renderer s = Some r -> Curtain.camera s = Some c -> is_Some (Curtain.scene s) ->
  let s' := Curtain.handle now (Curtain.Resize w h) s in
  Curtain.camera s' = Some (THREE.set_aspect (w / h) c) /\
  Curtain.renderer s' = Some (THREE.setSize w h r) /\
  Curtain.computeViewSize s'
  = (Ret (Curtain.mkViewSize (Curtain.viewH (viewSizeOf c) * (w / h))
                             (Curtain.viewH (viewSizeOf c))), s') /\
  (forall sd, Curtain.cloth sd s' = Curtain.cloth sd s /\ Curtain.rod sd s' = Curtain.rod sd s) /\
  Curtain.slideDistance s' = Curtain.slideDistance s /\
  Curtain.leftRodStartX s' = Curtain.leftRodStartX s /\
  Curtain.rightRodStartX s' = Curtain.rightRodStartX s /\
  Curtain.AmmoLib s' = Curtain.AmmoLib s /\
  Curtain.physicsWorld s' = Curtain.physicsWorld s /\
  Curtain.calls s' = Curtain.calls s /\
  (forall s0, Curtain.renderer s0 = None \/ Curtain.camera s0 = None ->
              Curtain.onResize s0 = s0).
Proof.
  intros _ Hl Hr Hc [sc Hsc] s'.
  assert (E : s' = Curtain.set_renderer (Some (THREE.setSize w h r))
                     (Curtain.set_camera (Some (THREE.set_aspect (w / h) c))
                        (Curtain.set_browser
                           (set_window
                              (mkWindow w h (devicePixelRatio (window (Curtain.browser s)))
                                 (scrollY (window (Curtain.browser s))))
                              (Curtain.browser s)) s))).
  { subst s'. unfold Curtain.handle.
    match goal with
    | |- context [if ?b then _ else _] =>
        change b with (Curtain.listening ResizeListener s)
    end.
    rewrite Hl. unfold Curtain.onResize. cbn. rewrite Hr, Hc. reflexivity. }
  rewrite E. clear E s'.
  split; [reflexivity |]. split; [reflexivity |].
  split.
  { rewrite (computeViewSize_eq _ (THREE.set_aspect (w / h) c)); [reflexivity | | reflexivity].
    split; [exists sc; exact Hsc |]. split; eexists; reflexivity. }
  split; [intros []; split; reflexivity |].
  do 6 (split; [reflexivity |]).
  intros s0 [Hn | Hn]; unfold Curtain.onResize; rewrite Hn; [| destruct (Curtain.renderer s0)];
    reflexivity.
Qed.

#[local] Transparent demoWorld.

Lemma demoWorld_listening : Curtain.listening ResizeListener demoWorld = true.
Proof. reflexivity. Qed.

#[local] Opaque demoWorld.

Lemma curtain_resize_witness :
  let s := snd (Curtain.createCurtains demoWorld) in
  0 < 600 /\
  Curtain.listening ResizeListener s = true /\
  is_Some (Curtain.cloth LeftSide s) /\ is_Some (Curtain.rod LeftSide s) /\
  exists r c,
    Curtain.renderer s = Some r /\ Curtain.camera s = Some c /\
    let s' := @Curtain.handle demoEngine 20 (Curtain.Resize 800 600) s in
    Curtain.camera s' = Some (THREE.set_aspect (800 / 600) c) /\
    Curtain.renderer s' = Some (THREE.setSize 800 600 r) /\
    Curtain.computeViewSize s'
    = (Ret (Curtain.mkViewSize (Curtain.viewH (viewSizeOf c) * (800 / 600))
                               (Curtain.viewH (viewSizeOf c))), s') /\
    (forall sd, Curtain.cloth sd s' = Curtain.cloth sd s /\
                Curtain.rod sd s' = Curtain.rod sd s) /\
    Curtain.slideDistance s' = Curtain.slideDistance s /\
    Curtain.leftRodStartX s' = Curtain.leftRodStartX s /\
    Curtain.rightRodStartX s' = Curtain.rightRodStartX s /\
    Curtain.AmmoLib s' = Curtain.AmmoLib s /\
    Curtain.physicsWorld s' = Curtain.physicsWorld s /\
    Curtain.calls s' = Curtain.calls s /\
    (forall s0, Curtain.renderer s0 = None \/ Curtain.camera s0 = None ->
                Curtain.onResize s0 = s0).
Proof.
  intros s.
  assert (Hpos : 0 < 600) by lra.
  destruct demoWorld_ready as (Hg & _ & Hh & Hw).
  destruct (createCurtains_simulated demoWorld _ _ Hg Hh Hw)
    as (sc & Ec & ((Hsc & [c Hc] & [r Hr]) & _ & (mL & HmL & _) & _ & (cL & ? & ? & ? & HcL & _) & _)
        & _ & Hb & _).
  assert (Es : s = sc) by (subst s; rewrite Ec; reflexivity).
  assert (Hl : Curtain.listening ResizeListener s = true).
  { unfold Curtain.listening. rewrite Es, Hb. exact demoWorld_listening. }
  split; [exact Hpos |]. split; [exact Hl |].
  split; [rewrite Es; eexists; exact HcL |]. split; [rewrite Es; eexists; exact HmL |].
  exists r, c. split; [rewrite Es; exact Hr |]. split; [rewrite Es; exact Hc |].
  apply (@curtain_resize demoEngine 20 800 600 s r c Hpos Hl);
    rewrite Es; assumption.
Defined.

(** ** Grids: where vertices and nodes lie *)

Section Grids.
Local Open Scope nat_scope.

Lemma lookup_flat_map_block {A B} (f : A -> list B) (c : nat) :
  (forall a, length (f a) = c) ->
  forall l j i x, l !! j = Some x -> i < c -> flat_map f l !! (j * c + i) = f x !! i.
Proof.
  intros Hf. induction l as [| a l IH]; intros j i x Hj Hi; [discriminate |].
  cbn [flat_map]. destruct j as [| j]; cbn in Hj.
  - inversion Hj; subst. cbn [Nat.mul Nat.add].
    apply lookup_app_l. rewrite Hf. exact Hi.
  - rewrite lookup_app_r by (rewrite Hf; lia).
    rewrite Hf. replace (S j * c + i - c) with (j * c + i) by lia.
    apply IH; assumption.
Qed.

(** Index [k] of a grid with [cols] columns, split into column and row. *)
Lemma grid_index cols rows k :
  k < cols * rows -> exists ix iy, ix < cols /\ iy < rows /\ k = iy * cols + ix.
Proof.
  intros Hk. assert (Hc : cols <> 0) by (intros ->; lia).
  exists (k mod cols), (k / cols).
  split; [apply Nat.mod_upper_bound; exact Hc |].
  split; [apply Nat.Div0.div_lt_upper_bound; lia |].
  rewrite (Nat.div_mod_eq k cols) at 1. lia.
Qed.

Lemma planeVertices_vertex w h gridX gridY ix iy :
  ix < gridX + 1 -> iy < gridY + 1 ->
  vertexAt (THREE.planeVertices w h gridX gridY) (iy * (gridX + 1) + ix)
  = Some (mkVec3 (INR ix * (w / INR gridX) - w / 2)%R
                 (- (INR iy * (h / INR gridY) - h / 2))%R 0%R).
Proof.
  intros Hx Hy. unfold vertexAt, THREE.planeVertices.
  assert (Hrow : forall a, length (THREE.planeRow w h gridX gridY a) = (gridX + 1) * 3).
  { intros a. unfold THREE.planeRow.
    rewrite (length_flat_map_const _ 3), length_seq; reflexivity. }
  assert (E : forall d, d < 3 ->
            flat_map (THREE.planeRow w h gridX gridY) (seq 0 (gridY + 1))
              !! (3 * (iy * (gridX + 1) + ix) + d)
            = [(INR ix * (w / INR gridX) - w / 2)%R;
               (- (INR iy * (h / INR gridY) - h / 2))%R; 0%R] !! d).
  { intros d Hd.
    replace (3 * (iy * (gridX + 1) + ix) + d) with (iy * ((gridX + 1) * 3) + (ix * 3 + d))
      by lia.
    rewrite (lookup_flat_map_block _ _ Hrow _ iy _ iy)
      by (first [apply lookup_seq_lt; exact Hy | lia]).
    unfold THREE.planeRow.
    rewrite (lookup_flat_map_block
               (fun ix0 => [(INR ix0 * (w / INR gridX) - w / 2)%R;
                            (- (INR iy * (h / INR gridY) - h / 2))%R; 0%R])
               3 (fun _ => eq_refl) _ ix _ ix)
      by (first [apply lookup_seq_lt; exact Hx | lia]).
    reflexivity. }
  pose proof (E 0 ltac:(lia)) as E0. rewrite Nat.add_0_r in E0.
  rewrite E0, (E 1), (E 2) by lia. reflexivity.
Qed.

Lemma mapTriplets_vertex f :
  (forall a b c, length (f a b c) = 3) ->
  forall k l v,
    vertexAt l k = Some v ->
    vertexAt (THREE.mapTriplets f l) k = vertexAt (f (vx v) (vy v) (vz v)) 0.
Proof.
  intros Hf.
  assert (Hlen : forall k l v, vertexAt l k = Some v -> 3 * k + 2 < length l).
  { intros k l v Hv. unfold vertexAt in Hv.
    destruct (l !! (3 * k)); [| discriminate Hv].
    destruct (l !! (3 * k + 1)); [| discriminate Hv].
    destruct (l !! (3 * k + 2)) eqn:E; [| discriminate Hv].
    eapply lookup_lt_Some; exact E. }
  induction k as [| k IH]; intros l v Hv; pose proof (Hlen _ _ _ Hv) as Hl.
  - destruct l as [| x [| y [| z r]]]; try (cbn in Hl; lia).
    unfold vertexAt in Hv. cbn in Hv. inversion Hv; subst; clear Hv. cbn [vx vy vz].
    unfold vertexAt. cbn [THREE.mapTriplets].
    rewrite !lookup_app_l by (rewrite Hf; lia). reflexivity.
  - destruct l as [| x [| y [| z r]]]; try (cbn in Hl; lia).
    assert (Hr : vertexAt r k = Some v).
    { unfold vertexAt in *.
      replace (3 * S k) with (S (S (S (3 * k)))) in Hv by lia.
      replace (3 * S k + 1) with (S (S (S (3 * k + 1)))) in Hv by lia.
      replace (3 * S k + 2) with (S (S (S (3 * k + 2)))) in Hv by lia.
      exact Hv. }
    specialize (IH r v Hr). rewrite <- IH.
    unfold vertexAt. cbn [THREE.mapTriplets].
    rewrite !lookup_app_r by (rewrite Hf; lia). rewrite Hf.
    replace (3 * S k - 3) with (3 * k) by lia.
    replace (3 * S k + 1 - 3) with (3 * k + 1) by lia.
    replace (3 * S k + 2 - 3) with (3 * k + 2) by lia.
    reflexivity.
Qed.

Lemma translate_vertex x y z g k v :
  vertexAt (THREE.array (THREE.attr_position g)) k = Some v ->
  vertexAt (THREE.array (THREE.attr_position (THREE.translate x y z g))) k
  = Some (mkVec3 (vx v + x) (vy v + y) (vz v + z))%R.
Proof.
  intros Hv. unfold THREE.translate, THREE.onPosition. cbn [THREE.attr_position THREE.array].
  rewrite (mapTriplets_vertex (fun a b c => [a + x; b + y; c + z]%R)
             (fun _ _ _ => eq_refl) k _ v Hv).
  reflexivity.
Qed.

Lemma rotateY_vertex a g k v :
  vertexAt (THREE.array (THREE.attr_position g)) k = Some v ->
  vertexAt (THREE.array (THREE.attr_position (THREE.rotateY a g))) k
  = Some (mkVec3 (cos a * vx v + sin a * vz v) (vy v)
                 (- sin a * vx v + cos a * vz v))%R.
Proof.
  intros Hv. unfold THREE.rotateY. cbn [THREE.attr_position THREE.array].
  rewrite (mapTriplets_vertex (THREE.rotY a) (fun _ _ _ => eq_refl) k _ v Hv).
  reflexivity.
Qed.

Lemma CreatePatch_node p00 p10 p01 p11 resx resy body ix iy :
  Ammo.CreatePatch p00 p10 p01 p11 resx resy = Some body ->
  ix < resx -> iy < resy ->
  Ammo.m_nodes body !! (iy * resx + ix)
  = Some (Ammo.mkNode
            (Ammo.lerp (Ammo.lerp p00 p01 (INR iy / INR (resy - 1)))
                       (Ammo.lerp p10 p11 (INR iy / INR (resy - 1)))
                       (INR ix / INR (resx - 1)))
            vzero).
Proof.
  unfold Ammo.CreatePatch. destruct ((resx <? 2) || (resy <? 2)); [discriminate |].
  intros E Hx Hy. inversion E; subst; clear E. cbn [Ammo.m_nodes].
  rewrite (lookup_flat_map_block _ resx) with (x := iy);
    [| intros a; unfold Ammo.patchRow; rewrite length_map, length_seq; reflexivity
     | apply lookup_seq_lt; exact Hy | exact Hx].
  unfold Ammo.patchRow.
  match goal with
  | |- map ?f ?l !! _ = _ => change (map f l) with (f <$> l)
  end.
  rewrite list_lookup_fmap, lookup_seq_lt by exact Hx. reflexivity.
Qed.

End Grids.

(** ** The curtain scene as it is built *)

Lemma patchBody_nodes viewH yTop xLeft xRight body ix iy :
  patchBody viewH yTop xLeft xRight = Some body ->
  (ix < Curtain.segX + 1)%nat -> (iy < Curtain.segY + 1)%nat ->
  Ammo.m_nodes body !! (iy * (Curtain.segX + 1) + ix)%nat
  = Some (Ammo.mkNode
            (mkVec3 (xLeft + (xRight - xLeft) * (INR ix / INR Curtain.segX))
                    (yTop - viewH * (INR iy / INR Curtain.segY)) 0)
            vzero).
Proof.
  unfold patchBody. intros E Hx Hy.
  destruct (Ammo.CreatePatch _ _ _ _ _ _) as [body0 |] eqn:E0; [| discriminate].
  cbn in E. inversion E; subst; clear E. cbn [Ammo.m_nodes Ammo.configure].
  rewrite (CreatePatch_node _ _ _ _ _ _ _ ix iy E0 Hx Hy).
  rewrite !Nat.add_sub. unfold Ammo.lerp. cbn [vx vy vz].
  f_equal. f_equal. f_equal; lra.
Qed.

Lemma curtainGeometry_vertex half viewH yTop xShift ix iy :
  (ix < Curtain.segX + 1)%nat -> (iy < Curtain.segY + 1)%nat ->
  vertexAt (THREE.array (THREE.attr_position (curtainGeometry half viewH yTop xShift)))
           (iy * (Curtain.segX + 1) + ix)
  = Some (mkVec3 (INR ix * (half / INR Curtain.segX) - half / 2 + xShift)
                 (- (INR iy * (viewH / INR Curtain.segY) - viewH / 2) + (yTop - viewH / 2))
                 (0 + 0)).
Proof.
  intros Hx Hy. unfold curtainGeometry.
  rewrite (translate_vertex _ _ _
             (THREE.PlaneGeometry half viewH Curtain.segX Curtain.segY) _ _
             (planeVertices_vertex half viewH Curtain.segX Curtain.segY ix iy Hx Hy)).
  reflexivity.
Qed.

(** The plane [mk] builds around the middle of a patch has its vertices
    where [makePatch] puts the nodes. *)
Lemma curtain_coincide half viewH yTop xLeft xRight body :
  patchBody viewH yTop xLeft xRight = Some body -> xRight - xLeft = half ->
  coincide (Ammo.m_nodes body)
    (THREE.array (THREE.attr_position
                    (curtainGeometry half viewH yTop ((xLeft + xRight) / 2))))
    nodeCount.
Proof.
  intros Hb Hh k Hk.
  destruct (grid_index (Curtain.segX + 1) (Curtain.segY + 1) k Hk)
    as (ix & iy & Hx & Hy & ->).
  rewrite (patchBody_nodes _ _ _ _ _ ix iy Hb Hx Hy).
  split; [eexists; reflexivity |].
  rewrite (curtainGeometry_vertex _ _ _ _ ix iy Hx Hy). cbn [fmap option_fmap option_map Ammo.m_x].
  assert (HX : INR Curtain.segX <> 0) by (apply not_0_INR; discriminate).
  assert (HY : INR Curtain.segY <> 0) by (apply not_0_INR; discriminate).
  f_equal. f_equal; [subst half; field; exact HX | field; exact HY | lra].
Qed.

Lemma patchBody_anchors viewH yTop xLeft xRight body :
  patchBody viewH yTop xLeft xRight = Some body -> Ammo.m_anchors body = [].
Proof.
  unfold patchBody, Ammo.CreatePatch.
  destruct (_ || _); [discriminate |].
  intros E. apply (f_equal (fmap Ammo.m_anchors)) in E. cbn in E.
  injection E as <-. reflexivity.
Qed.

Lemma anchored_anchors b sb :
  Ammo.m_anchors (anchored b sb) = Ammo.m_anchors sb ++ topRowAnchors b.
Proof.
  unfold anchored, topRowAnchors. generalize (seq 0 (Curtain.segX + 1)) as l.
  intros l. revert sb.
  induction l as [| i l IH]; intros sb; cbn [fold_left fmap list_fmap].
  - rewrite app_nil_r. reflexivity.
  - rewrite IH. cbn. rewrite <- app_assoc. reflexivity.
Qed.

Lemma makePatch_built viewH yTop xLeft xRight s heap w :
  Curtain.AmmoLib s = Some heap -> Curtain.physicsWorld s = Some w ->
  exists body,
    patchBody viewH yTop xLeft xRight = Some body /\
    Curtain.makePatch viewH yTop xLeft xRight s
    = (Ret (length (Ammo.softs heap)),
       Curtain.set_physicsWorld (Some (Ammo.addSoftBody (length (Ammo.softs heap)) 1 (-1) w))
         (Curtain.set_AmmoLib
            (Some (Ammo.set_softs (Ammo.softs heap ++ [body]) heap)) s)).
Proof.
  intros Hh Hw. unfold Curtain.makePatch, patchBody.
  match goal with
  | |- context [Ammo.CreatePatch ?a ?b ?c ?d ?x ?y] =>
      destruct (CreatePatch_some a b c d x y) as [body0 E];
        [unfold Curtain.segX; lia | unfold Curtain.segY; lia |]
  end.
  rewrite E. eexists. split; [reflexivity |].
  unfold bind, deref, modify, ret. rewrite Hw, Hh. reflexivity.
Qed.

(** What [createCurtains] leaves when the engine is there: the rods, the
    curtains, and the engine's objects behind them. *)
Lemma createCurtains_built s heap w cam :
  GraphicsReady s -> Curtain.camera s = Some cam ->
  Curtain.AmmoLib s = Some heap -> Curtain.physicsWorld s = Some w ->
  let v := viewSizeOf cam in
  let half := Curtain.viewW v / 2 in
  let yTop := Curtain.viewH v / 2 - 0.2 in
  let bL := length (Ammo.bodies heap) in
  let iL := length (Ammo.softs heap) in
  exists s' heap' bodyL bodyR,
    Curtain.createCurtains s = (Ret tt, s') /\
    patchBody (Curtain.viewH v) yTop (- half) 0 = Some bodyL /\
    patchBody (Curtain.viewH v) yTop 0 half = Some bodyR /\
    Curtain.leftCloth s'
    = Some (curtainMesh half (Curtain.viewH v) yTop (- half / 2) (Some (THREE.SoftRef iL))) /\
    Curtain.rightCloth s'
    = Some (curtainMesh half (Curtain.viewH v) yTop (half / 2) (Some (THREE.SoftRef (S iL)))) /\
    Curtain.leftRodMesh s'
    = Some (rodMesh (- half / 2) yTop half (Some (THREE.RigidRef bL))) /\
    Curtain.rightRodMesh s'
    = Some (rodMesh (half / 2) yTop half (Some (THREE.RigidRef (S bL)))) /\
    Curtain.leftRodStartX s' = - half / 2 /\ Curtain.rightRodStartX s' = half / 2 /\
    Curtain.slideDistance s' = Curtain.viewW v * 5 /\
    Curtain.AmmoLib s' = Some heap' /\
    Ammo.bodies heap'
    = Ammo.bodies heap ++ [rodBody (- half / 2) yTop half; rodBody (half / 2) yTop half] /\
    Ammo.softs heap' = Ammo.softs heap ++ [anchored bL bodyL; anchored (S bL) bodyR].
Proof.
  intros Hg Hcam Hh Hw v half yTop bL iL.
  pose proof Hg as ([sc Hsc] & _ & [rd Hrd]).
  unfold Curtain.createCurtains.
  rewrite (bind_Ret _ _ _ _ _ (assertReady_eq s Hg)).
  rewrite (bind_Ret _ _ _ _ _ (computeViewSize_eq s cam Hg Hcam)).
  fold v. fold half. fold yTop.
  rewrite bind_modify. set (s1 := Curtain.set_slideDistance _ s).
  rewrite (bind_Ret _ _ _ _ _
             (createRod_physics (- half / 2) yTop half s1 sc heap w
                ltac:(ready_tac) Hsc Hh Hw)).
  fold bL.
  set (heap1 := Ammo.set_bodies _ heap). set (w1 := Ammo.addRigidBody _ w).
  set (sc1 := THREE.add THREE.MeshObject sc).
  rewrite bind_modify.
  set (s2 := Curtain.set_leftRodMesh _ _).
  rewrite (bind_Ret _ _ _ _ _
             (createRod_physics (half / 2) yTop half s2 sc1 heap1 w1
                ltac:(ready_tac) eq_refl eq_refl eq_refl)).
  assert (Hb1 : length (Ammo.bodies heap1) = S bL)
    by (subst heap1 bL; cbn; rewrite length_app; cbn; lia).
  rewrite Hb1.
  set (heap2 := Ammo.set_bodies _ heap1). set (w2 := Ammo.addRigidBody _ w1).
  set (sc2 := THREE.add THREE.MeshObject sc1).
  rewrite !bind_modify.
  set (s3 := Curtain.set_rightRodStartX _ _).
  rewrite (bind_Ret _ _ _ _ _ (mk_eq half (Curtain.viewH v) yTop (- half / 2) s3 sc2 eq_refl)).
  rewrite bind_modify.
  set (s4 := Curtain.set_leftCloth _ _).
  rewrite (bind_Ret _ _ _ _ _
             (mk_eq half (Curtain.viewH v) yTop (half / 2) s4
                (THREE.add THREE.MeshObject sc2) eq_refl)).
  rewrite !bind_modify.
  set (s5 := Curtain.set_rightPosAttr _ _).
  rewrite bind_gets. change (Curtain.AmmoLib s5) with (Some heap2). cbv iota beta.
  destruct (makePatch_built (Curtain.viewH v) yTop (- half) 0 s5 heap2 w2 eq_refl eq_refl)
    as (bodyL & PL & EL).
  rewrite (bind_Ret _ _ _ _ _ EL).
  change (length (Ammo.softs heap2)) with iL in *.
  set (heap3 := Ammo.set_softs _ heap2) in *. set (w3 := Ammo.addSoftBody _ _ _ w2) in *.
  set (s6 := Curtain.set_physicsWorld _ _).
  destruct (makePatch_built (Curtain.viewH v) yTop 0 half s6 heap3 w3 eq_refl eq_refl)
    as (bodyR & PR & ER).
  rewrite (bind_Ret _ _ _ _ _ ER).
  assert (Hs3 : length (Ammo.softs heap3) = S iL)
    by (subst heap3 iL; cbn; rewrite length_app; cbn; lia).
  rewrite Hs3 in *.
  set (heap4 := Ammo.set_softs _ heap3) in *. set (w4 := Ammo.addSoftBody _ _ _ w3) in *.
  set (s7 := Curtain.set_physicsWorld _ _).
  rewrite (bind_Ret _ _ _ _ _ (setClothBody_eq LeftSide _ s7 _ eq_refl)).
  set (s8 := Curtain.set_cloth LeftSide _ _).
  rewrite (bind_Ret _ _ _ _ _ (setClothBody_eq RightSide _ s8 _ eq_refl)).
  set (s9 := Curtain.set_cloth RightSide _ _).
  rewrite (bind_Ret _ _ s9 tt
             (Curtain.set_AmmoLib
                (Some (Ammo.set_softs (alter (anchored bL) iL (Ammo.softs heap4)) heap4)) s9)).
  2:{ rewrite bind_gets. apply anchorRow_eq; reflexivity. }
  set (heap5 := Ammo.set_softs _ heap4).
  set (s10 := Curtain.set_AmmoLib _ s9).
  rewrite bind_gets.
  eexists _, _, bodyL, bodyR.
  split; [apply anchorRow_eq; reflexivity |].
  split; [exact PL |]. split; [exact PR |].
  do 7 (split; [reflexivity |]).
  split; [reflexivity |].
  split.
  - cbn. rewrite <- app_assoc. reflexivity.
  - cbn. subst heap3. cbn. rewrite <- app_assoc. cbn.
    assert (A1 : alter (anchored bL) iL (Ammo.softs heap ++ [bodyL; bodyR])
                 = Ammo.softs heap ++ [anchored bL bodyL; bodyR]).
    { apply list_eq. intros j.
      destruct (decide (j = iL)) as [-> | Hne].
      - rewrite list_lookup_alter_eq. subst iL.
        rewrite !list_lookup_middle by reflexivity || (cbn; reflexivity). reflexivity.
      - rewrite list_lookup_alter_ne by congruence.
        destruct (Nat.lt_ge_cases j iL) as [Hlt | Hge].
        + rewrite !lookup_app_l by (subst iL; exact Hlt). reflexivity.
        + rewrite !lookup_app_r by (subst iL; exact Hge).
          destruct (j - length (Ammo.softs heap))%nat as [| [| n]] eqn:En;
            [subst iL; lia | reflexivity | reflexivity]. }
    rewrite A1.
    apply list_eq. intros j.
    destruct (decide (j = S iL)) as [-> | Hne].
    + rewrite list_lookup_alter_eq. subst iL.
      rewrite !lookup_app_r by lia.
      replace (S (length (Ammo.softs heap)) - length (Ammo.softs heap))%nat with 1%nat by lia.
      reflexivity.
    + rewrite list_lookup_alter_ne by congruence.
      destruct (Nat.lt_ge_cases j iL) as [Hlt | Hge].
      * rewrite !lookup_app_l by (subst iL; exact Hlt). reflexivity.
      * rewrite !lookup_app_r by (subst iL; exact Hge).
        destruct (j - length (Ammo.softs heap))%nat as [| [| n]] eqn:En;
          [reflexivity | subst iL; lia | reflexivity].
Qed.

(** X10: when [createCurtains] runs with the engine, each curtain comes out
    with its vertices exactly where the nodes of its soft body are: for every
    index below [(segX+1)*(segY+1)], vertex [k] of the plane that [mk] built
    and translated has the coordinates of node [k] of the patch that
    [makePatch] created between the same edges.  The first sync therefore
    starts from a mesh that already matches the simulation. *)
Theorem curtains_built_aligned s heap w :
  GraphicsReady s -> Curtain.AmmoLib s = Some heap -> Curtain.physicsWorld s = Some w ->
  let s' := snd (Curtain.createCurtains s) in
  fst (Curtain.createCurtains s) = Ret tt /\
  exists heap',
    Curtain.AmmoLib s' = Some heap' /\
    forall sd, exists m g i sb,
      Curtain.cloth sd s' = Some m /\ THREE.geometry m = THREE.Buffer g /\
      THREE.physicsBody m = Some (THREE.SoftRef i) /\
      Ammo.softs heap' !! i = Some sb /\
      coincide (Ammo.m_nodes sb) (THREE.array (THREE.attr_position g))
               ((Curtain.segX + 1) * (Curtain.segY + 1)).
Proof.
  intros Hg Hh Hw s'. pose proof Hg as (_ & [cam Hcam] & _).
  destruct (createCurtains_built s heap w cam Hg Hcam Hh Hw)
    as (s1 & heap' & bodyL & bodyR & E & PL & PR & HL & HR & _ & _ & _ & _ & _ & Hh' & _ & Hs).
  subst s'. rewrite E. cbn [fst snd].
  split; [reflexivity |].
  exists heap'. split; [exact Hh' |].
  set (v := viewSizeOf cam) in *. set (half := Curtain.viewW v / 2) in *.
  set (yTop := Curtain.viewH v / 2 - 0.2) in *.
  intros [].
  - eexists _, _, _, (anchored _ bodyL). cbn [Curtain.cloth].
    split; [exact HL |]. split; [reflexivity |]. split; [reflexivity |].
    split; [rewrite Hs; apply list_lookup_middle; reflexivity |].
    rewrite anchored_nodes.
    replace (- half / 2) with ((- half + 0) / 2) by lra.
    apply curtain_coincide; [exact PL | lra].
  - eexists _, _, _, (anchored _ bodyR). cbn [Curtain.cloth].
    split; [exact HR |]. split; [reflexivity |]. split; [reflexivity |].
    split.
    { rewrite Hs. rewrite lookup_app_r by lia.
      replace (S (length (Ammo.softs heap)) - length (Ammo.softs heap))%nat with 1%nat by lia.
      reflexivity. }
    rewrite anchored_nodes.
    replace (half / 2) with ((0 + half) / 2) by lra.
    apply curtain_coincide; [exact PR | lra].
Qed.

Lemma curtains_built_aligned_witness :
  let s' := snd (Curtain.createCurtains demoWorld) in
  fst (Curtain.createCurtains demoWorld) = Ret tt /\
  exists heap',
    Curtain.AmmoLib s' = Some heap' /\
    forall sd, exists m g i sb,
      Curtain.cloth sd s' = Some m /\ THREE.geometry m = THREE.Buffer g /\
      THREE.physicsBody m = Some (THREE.SoftRef i) /\
      Ammo.softs heap' !! i = Some sb /\
      coincide (Ammo.m_nodes sb) (THREE.array (THREE.attr_position g))
               ((Curtain.segX + 1) * (Curtain.segY + 1)).
Proof.
  destruct demoWorld_ready as (Hg & _ & Hh & Hw).
  exact (curtains_built_aligned demoWorld _ _ Hg Hh Hw).
Defined.

(** X11: [createCurtains] with the engine gives each curtain a rod of its
    own: a rigid body of mass 0 at the rod mesh's position, spanning the
    curtain's width.  [anchorRow] then ties exactly the [segX + 1] nodes of
    the patch's top row to that body, each with influence 1 and collisions
    between the two left enabled; every anchored node lies on the rod's axis,
    node 0 at one end of the rod and node [segX] at the other. *)
Theorem curtains_hang_from_rods s heap w cam :
  GraphicsReady s -> Curtain.camera s = Some cam ->
  Curtain.AmmoLib s = Some heap -> Curtain.physicsWorld s = Some w ->
  let s' := snd (Curtain.createCurtains s) in
  let len := Curtain.viewW (viewSizeOf cam) / 2 in
  exists heap',
    Curtain.AmmoLib s' = Some heap' /\
    forall sd, exists rm b body m i sb,
      Curtain.rod sd s' = Some rm /\
      THREE.physicsBody rm = Some (THREE.RigidRef b) /\
      Ammo.bodies heap' !! b = Some body /\
      Ammo.mass body = 0 /\
      Ammo.origin (Ammo.worldTransform body) = THREE.position rm /\
      Ammo.halfExtents body = mkVec3 (len * 0.5) 0.05 0.05 /\
      Curtain.cloth sd s' = Some m /\
      THREE.physicsBody m = Some (THREE.SoftRef i) /\
      Ammo.softs heap' !! i = Some sb /\
      Ammo.m_anchors sb = topRowAnchors b /\
      forall k, (k < Curtain.segX + 1)%nat ->
        exists nd, Ammo.m_nodes sb !! k = Some nd /\
                   vx (Ammo.m_x nd)
                   = vx (THREE.position rm) - len / 2 + len * (INR k / INR Curtain.segX) /\
                   vy (Ammo.m_x nd) = vy (THREE.position rm) /\
                   vz (Ammo.m_x nd) = vz (THREE.position rm).
Proof.
  intros Hg Hcam Hh Hw s' len.
  destruct (createCurtains_built s heap w cam Hg Hcam Hh Hw)
    as (s1 & heap' & bodyL & bodyR & E & PL & PR & HL & HR & RL & RR & _ & _ & _ & Hh'
        & Hb & Hs).
  subst s'. rewrite E. cbn [snd].
  exists heap'. split; [exact Hh' |].
  set (v := viewSizeOf cam) in *. fold len in PL, PR, HL, HR, RL, RR, Hb.
  set (yTop := Curtain.viewH v / 2 - 0.2) in *.
  assert (AL : Ammo.m_anchors bodyL = [] /\ Ammo.m_anchors bodyR = [])
    by (split; eapply patchBody_anchors; eassumption).
  destruct AL as [AL AR].
  intros [].
  - eexists _, _, _, _, _, (anchored _ bodyL). cbn [Curtain.rod Curtain.cloth].
    split; [exact RL |]. split; [reflexivity |].
    split; [rewrite Hb; apply list_lookup_middle; reflexivity |].
    do 3 (split; [reflexivity |]).
    split; [exact HL |]. split; [reflexivity |].
    split; [rewrite Hs; apply list_lookup_middle; reflexivity |].
    split; [rewrite anchored_anchors, AL; reflexivity |].
    intros k Hk. rewrite anchored_nodes.
    pose proof (patchBody_nodes _ _ _ _ _ k 0%nat PL Hk ltac:(unfold Curtain.segY; lia)) as N.
    cbn [Nat.mul Nat.add] in N. rewrite N. eexists. split; [reflexivity |].
    cbn. repeat split; lra.
  - eexists _, _, _, _, _, (anchored _ bodyR). cbn [Curtain.rod Curtain.cloth].
    split; [exact RR |]. split; [reflexivity |].
    split.
    { rewrite Hb. rewrite lookup_app_r by lia.
      replace (S (length (Ammo.bodies heap)) - length (Ammo.bodies heap))%nat with 1%nat by lia.
      reflexivity. }
    do 3 (split; [reflexivity |]).
    split; [exact HR |]. split; [reflexivity |].
    split.
    { rewrite Hs. rewrite lookup_app_r by lia.
      replace (S (length (Ammo.softs heap)) - length (Ammo.softs heap))%nat with 1%nat by lia.
      reflexivity. }
    split; [rewrite anchored_anchors, AR; reflexivity |].
    intros k Hk. rewrite anchored_nodes.
    pose proof (patchBody_nodes _ _ _ _ _ k 0%nat PR Hk ltac:(unfold Curtain.segY; lia)) as N.
    cbn [Nat.mul Nat.add] in N. rewrite N. eexists. split; [reflexivity |].
    cbn. repeat split; lra.
Qed.

Lemma curtains_hang_from_rods_witness :
  exists cam,
  Curtain.camera demoWorld = Some cam /\
  let s' := snd (Curtain.createCurtains demoWorld) in
  let len := Curtain.viewW (viewSizeOf cam) / 2 in
  exists heap',
    Curtain.AmmoLib s' = Some heap' /\
    forall sd, exists rm b body m i sb,
      Curtain.rod sd s' = Some rm /\
      THREE.physicsBody rm = Some (THREE.RigidRef b) /\
      Ammo.bodies heap' !! b = Some body /\
      Ammo.mass body = 0 /\
      Ammo.origin (Ammo.worldTransform body) = THREE.position rm /\
      Ammo.halfExtents body = mkVec3 (len * 0.5) 0.05 0.05 /\
      Curtain.cloth sd s' = Some m /\
      THREE.physicsBody m = Some (THREE.SoftRef i) /\
      Ammo.softs heap' !! i = Some sb /\
      Ammo.m_anchors sb = topRowAnchors b /\
      forall k, (k < Curtain.segX + 1)%nat ->
        exists nd, Ammo.m_nodes sb !! k = Some nd /\
                   vx (Ammo.m_x nd)
                   = vx (THREE.position rm) - len / 2 + len * (INR k / INR Curtain.segX) /\
                   vy (Ammo.m_x nd) = vy (THREE.position rm) /\
                   vz (Ammo.m_x nd) = vz (THREE.position rm).
Proof.
  destruct demoWorld_ready as (Hg & _ & Hh & Hw).
  pose proof Hg as (_ & [cam Hcam] & _).
  exists cam. split; [exact Hcam |].
  exact (curtains_hang_from_rods demoWorld _ _ cam Hg Hcam Hh Hw).
Defined.

(** ** The cloth scene as it is built *)

Section ClothBuilt.
Context `{Engine}.

Lemma createParallelepiped_built sx sy sz mass pos quat s heap :
  bodyUp s -> Cloth.AmmoLib s = Some heap ->
  exists s',
    Cloth.createParallelepiped sx sy sz mass pos quat s
    = (Ret (boxMesh sx sy sz pos quat (length (Ammo.bodies heap))), s') /\
    bodyUp s' /\ buildKeeps s s' /\
    Cloth.AmmoLib s'
    = Some (Ammo.set_bodies (Ammo.bodies heap ++ [boxBody sx sy sz mass pos quat]) heap) /\
    Cloth.rigidBodies s'
    = Cloth.rigidBodies s
      ++ (if Rlt_dec 0 mass
          then [boxMesh sx sy sz pos quat (length (Ammo.bodies heap))] else []).
Proof.
  intros (_ & [sc Hsc] & [w Hw]) Hh.
  unfold Cloth.createParallelepiped, Cloth.createRigidBody, boxBody, boxMesh.
  unfold bind, deref, modify, ret.
  destruct s; cbn in *; subst.
  destruct (Rlt_dec 0 mass); cbn;
    (eexists; split; [reflexivity |]);
    (split; [repeat split; eexists; reflexivity |]);
    (split; [hnf; cbn; repeat split; reflexivity |]).
  - split; [| reflexivity]. do 2 f_equal.
    rewrite <- (Nat.add_0_r (length (Ammo.bodies heap))).
    rewrite alter_app_r. reflexivity.
  - split; [reflexivity | rewrite app_nil_r; reflexivity].
Qed.

Lemma Tracked_createParallelepiped sx sy sz mass pos quat s :
  bodyUp s -> Tracked s ->
  exists m s',
    Cloth.createParallelepiped sx sy sz mass pos quat s = (Ret m, s') /\
    bodyUp s' /\ buildKeeps s s' /\ Tracked s'.
Proof.
  intros Hup (heap & Hh & Hin & Hall).
  destruct (createParallelepiped_built sx sy sz mass pos quat s heap Hup Hh)
    as (s' & E & U & K & Hh' & Hr).
  eexists _, s'. split; [exact E |]. split; [exact U |]. split; [exact K |].
  eexists. split; [exact Hh' |]. cbn [Ammo.bodies Ammo.set_bodies]. split.
  - intros obj Ho. rewrite Hr in Ho. apply in_app_or in Ho. destruct Ho as [Ho | Ho].
    + destruct (Hin obj Ho) as (b & body & Hb & Hl & Hm & Ha & Ht).
      exists b, body. split; [exact Hb |].
      split; [apply lookup_app_l_Some; exact Hl |]. auto.
    + destruct (Rlt_dec 0 mass) as [Hpos |]; [| destruct Ho].
      destruct Ho as [<- | []].
      eexists _, _. split; [reflexivity |].
      split; [apply list_lookup_middle; reflexivity |].
      unfold boxBody. destruct (Rlt_dec 0 mass); [| contradiction].
      repeat split. exact Hpos.
  - intros b body Hl Hm.
    destruct (Nat.lt_ge_cases b (length (Ammo.bodies heap))) as [Hlt | Hge].
    + rewrite lookup_app_l in Hl by exact Hlt.
      destruct (Hall b body Hl Hm) as (obj & Ho & Hb).
      exists obj. split; [rewrite Hr; apply in_or_app; left; exact Ho | exact Hb].
    + rewrite lookup_app_r in Hl by exact Hge.
      destruct (b - length (Ammo.bodies heap))%nat as [| n] eqn:En; [| destruct n; discriminate].
      cbn in Hl. inversion Hl; subst body; clear Hl.
      assert (b = length (Ammo.bodies heap)) by lia. subst b.
      assert (Hpos : 0 < mass).
      { unfold boxBody in Hm. destruct (Rlt_dec 0 mass); [assumption | exact Hm]. }
      exists (boxMesh sx sy sz pos quat (length (Ammo.bodies heap))).
      split; [| reflexivity].
      rewrite Hr. apply in_or_app. right.
      destruct (Rlt_dec 0 mass); [now left | contradiction].
Qed.

(** [Tracked] looks at the rigid bodies and the tracked meshes only. *)
Lemma Tracked_ext s s' :
  Cloth.rigidBodies s' = Cloth.rigidBodies s ->
  Ammo.bodies <$> Cloth.AmmoLib s' = Ammo.bodies <$> Cloth.AmmoLib s ->
  Tracked s -> Tracked s'.
Proof.
  intros Er Eb (heap & Hh & Hin & Hall). rewrite Hh in Eb.
  destruct (Cloth.AmmoLib s') as [heap' |] eqn:Hh'; [| discriminate].
  cbn in Eb. inversion Eb as [Eb']. exists heap'. rewrite Er, Eb'. auto.
Qed.

End ClothBuilt.

Section ClothBuilt2.
Context `{Engine}.

(** An invariant of the builder: kept by every [createParallelepiped], and
    blind to everything but the rigid bodies and the tracked meshes. *)
Context (Inv : Cloth.State -> Prop).
Hypothesis Inv_box :
  forall sx sy sz mass pos quat s,
    bodyUp s -> Inv s -> Inv (snd (Cloth.createParallelepiped sx sy sz mass pos quat s)).
Hypothesis Inv_ext :
  forall s s',
    Cloth.rigidBodies s' = Cloth.rigidBodies s ->
    Ammo.bodies <$> Cloth.AmmoLib s' = Ammo.bodies <$> Cloth.AmmoLib s ->
    Inv s -> Inv s'.

Lemma Inv_createParallelepiped sx sy sz mass pos quat s :
  bodyUp s -> Inv s ->
  exists m s',
    Cloth.createParallelepiped sx sy sz mass pos quat s = (Ret m, s') /\
    bodyUp s' /\ buildKeeps s s' /\ Inv s'.
Proof.
  intros Hup Hi.
  destruct (createParallelepiped_ok sx sy sz mass pos quat s Hup) as (m & s' & i & E & U & K & _).
  exists m, s'. split; [exact E |]. split; [exact U |]. split; [exact K |].
  pose proof (Inv_box sx sy sz mass pos quat s Hup Hi) as Hi'. rewrite E in Hi'. exact Hi'.
Qed.

Lemma Inv_brickRow oddRow nRow idxs : forall pos s,
  bodyUp s -> Inv s ->
  exists p s', Cloth.brickRow oddRow nRow idxs pos s = (Ret p, s') /\
               bodyUp s' /\ buildKeeps s s' /\ Inv s'.
Proof.
  induction idxs as [| i idxs IH]; intros pos s Hup Ht; cbn [Cloth.brickRow].
  - exists pos, s. repeat split; try apply Hup; try exact Ht; reflexivity.
  - match goal with
    | |- context [bind (Cloth.createParallelepiped ?a ?b ?c ?d ?e ?f) ?k s] =>
        destruct (Inv_createParallelepiped a b c d e f s Hup Ht)
          as (m & s1 & E1 & U1 & K1 & T1);
        rewrite (bind_Ret _ k s m s1 E1)
    end.
    match goal with
    | |- context [Cloth.brickRow oddRow nRow idxs ?p s1] =>
        destruct (IH p s1 U1 T1) as (p' & s2 & E2 & U2 & K2 & T2)
    end.
    exists p', s2. split; [exact E2 |]. split; [exact U2 |].
    split; [etransitivity; eassumption | exact T2].
Qed.

Lemma Inv_wallRows js : forall pos s,
  bodyUp s -> Inv s ->
  exists p s', Cloth.wallRows js pos s = (Ret p, s') /\
               bodyUp s' /\ buildKeeps s s' /\ Inv s'.
Proof.
  induction js as [| j js IH]; intros pos s Hup Ht; cbn [Cloth.wallRows].
  - exists pos, s. repeat split; try apply Hup; try exact Ht; reflexivity.
  - match goal with
    | |- context [bind (Cloth.brickRow ?o ?n ?l ?p) ?k s] =>
        destruct (Inv_brickRow o n l p s Hup Ht) as (p1 & s1 & E1 & U1 & K1 & T1);
        rewrite (bind_Ret _ k s p1 s1 E1)
    end.
    match goal with
    | |- context [Cloth.wallRows js ?p s1] =>
        destruct (IH p s1 U1 T1) as (p' & s2 & E2 & U2 & K2 & T2)
    end.
    exists p', s2. split; [exact E2 |]. split; [exact U2 |].
    split; [etransitivity; eassumption | exact T2].
Qed.

(** What [createObjects] leaves: the cloth mesh over its soft body with the
    two anchors, the pylon and the arm joined by the hinge, and the builder's
    invariant. *)
Lemma createObjects_built s :
  bodyUp s -> Inv s ->
  exists s' heap' soft patch armB pylonB hi,
    Cloth.createObjects s = (Ret tt, s') /\
    Inv s' /\
    Some soft = (fun heap => length (Ammo.softs heap)) <$> Cloth.AmmoLib s /\
    clothPatch = Some patch /\
    Cloth.cloth s'
    = Some (THREE.mkMesh vzero qidentity
              (THREE.Buffer (Cloth.recomputeNormals Cloth.clothGeometry))
              (Some (THREE.SoftRef soft))) /\
    Cloth.AmmoLib s' = Some heap' /\
    Ammo.softs heap' !! soft
    = Some (Ammo.appendAnchor Cloth.clothNumSegmentsZ armB false Cloth.influence
              (Ammo.appendAnchor 0 armB false Cloth.influence patch)) /\
    Ammo.bodies heap' !! pylonB = Some pylonBody /\
    Ammo.bodies heap' !! armB = Some armBody /\
    Cloth.hinge s' = Some hi /\
    Ammo.hinges heap' !! hi
    = Some (Ammo.mkHinge pylonB armB (mkVec3 0 (Cloth.pylonHeight * 0.5) 0)
              (mkVec3 0 (-0.2) (- Cloth.armLength * 0.5)) (mkVec3 0 1 0) false 0 0) /\
    Cloth.armMovement s' = Cloth.armMovement s.
Proof.
  intros Hup Ht. unfold Cloth.createObjects.
  (* ground and wall *)
  destruct (Inv_createParallelepiped 40 1 40 0 (mkVec3 0 (-0.5) 0) qidentity s Hup Ht)
    as (m0 & s0 & E0 & U0 & K0 & T0).
  rewrite (bind_Ret _ _ _ _ _ E0).
  destruct (Inv_wallRows (seq 0 Cloth.numBricksHeight)
              (mkVec3 0 (Cloth.brickHeight * 0.5) Cloth.z0) s0 U0 T0)
    as (p1 & s1 & E1 & U1 & K1 & T1).
  rewrite (bind_Ret _ _ _ _ _ E1).
  assert (K01 : buildKeeps s s1) by (etransitivity; eassumption).
  clear E0 E1 K0 K1 U0 T0 m0 p1 s0.
  destruct U1 as ([heap1 Hh1] & [sc1 Hsc1] & [w1 Hw1]).
  (* the cloth mesh *)
  rewrite bind_modify.
  set (mesh := THREE.mkMesh vzero qidentity (THREE.Buffer Cloth.clothGeometry) None).
  set (s2 := Cloth.set_cloth (Some mesh) s1).
  rewrite (bind_Ret _ _ s2 sc1 s2) by (unfold deref; cbn; rewrite Hsc1; reflexivity).
  rewrite !bind_modify.
  set (s3 := Cloth.set_cloth _ _).
  (* the soft body *)
  rewrite (bind_Ret _ _ s3 w1 s3) by (unfold deref; cbn; rewrite Hw1; reflexivity).
  rewrite (bind_Ret _ _ s3 heap1 s3) by (unfold deref; cbn; rewrite Hh1; reflexivity).
  pose proof (eq_refl clothPatch) as Ep. unfold clothPatch at 2 in Ep.
  match goal with
  | |- context [Ammo.CreatePatch ?a ?b ?c ?d ?x ?y] =>
      destruct (CreatePatch_some a b c d x y) as [body0 Eb];
        [unfold Cloth.clothNumSegmentsZ; lia | unfold Cloth.clothNumSegmentsY; lia |];
      rewrite Eb in Ep |- *
  end.
  cbn [fmap option_fmap option_map] in Ep.
  set (patch := Ammo.configure _ _ _ _ _ body0) in *.
  set (soft := length (Ammo.softs heap1)).
  rewrite !bind_modify.
  set (heap2 := Ammo.set_softs _ heap1).
  set (s4 := Cloth.set_physicsWorld _ _).
  rewrite (bind_Ret _ _ s4 _ s4) by (unfold deref; reflexivity).
  rewrite bind_modify.
  set (s5 := Cloth.set_cloth _ s4).
  assert (U5 : bodyUp s5) by (repeat split; eexists; reflexivity).
  assert (T5 : Inv s5).
  { revert T1. apply Inv_ext; [reflexivity |].
    change (Cloth.AmmoLib s5) with (Some heap2). rewrite Hh1. reflexivity. }
  (* base, pylon and arm *)
  match goal with
  | |- context [bind (Cloth.createParallelepiped ?a ?b ?c ?d ?e ?f) ?k s5] =>
      destruct (createParallelepiped_built a b c d e f s5 heap2 U5 eq_refl)
        as (s6 & E6 & U6 & K6 & H6 & _);
      rewrite (bind_Ret _ k s5 _ s6 E6)
  end.
  set (heap6 := Ammo.set_bodies _ heap2) in H6.
  match goal with
  | |- context [bind (Cloth.createParallelepiped ?a ?b ?c ?d ?e ?f) ?k s6] =>
      destruct (createParallelepiped_built a b c d e f s6 heap6 U6 H6)
        as (s7 & E7 & U7 & K7 & H7 & _);
      rewrite (bind_Ret _ k s6 _ s7 E7)
  end.
  set (heap7 := Ammo.set_bodies _ heap6) in H7.
  set (pylonB := length (Ammo.bodies heap6)) in *.
  match goal with
  | |- context [bind (Cloth.createParallelepiped ?a ?b ?c ?d ?e ?f) ?k s7] =>
      destruct (createParallelepiped_built a b c d e f s7 heap7 U7 H7)
        as (s8 & E8 & U8 & K8 & H8 & _);
      rewrite (bind_Ret _ k s7 _ s8 E8)
  end.
  set (heap8 := Ammo.set_bodies _ heap7) in H8.
  set (armB := length (Ammo.bodies heap7)) in *.
  (* the tracked list after the three *)
  assert (T8 : Inv s8).
  { destruct (Inv_createParallelepiped 1 0.2 1 0
                (mkVec3 (vx Cloth.clothPos) 0.1 (vz Cloth.clothPos - Cloth.armLength))
                qidentity s5 U5 T5) as (m6' & s6' & E6' & U6' & _ & T6').
    rewrite E6 in E6'. inversion E6'; subst m6' s6'; clear E6'.
    destruct (Inv_createParallelepiped 0.4 Cloth.pylonHeight 0.4 0
                (mkVec3 (vx Cloth.clothPos) (0.5 * Cloth.pylonHeight)
                        (vz Cloth.clothPos - Cloth.armLength))
                qidentity s6 U6 T6') as (m7' & s7' & E7' & U7' & _ & T7').
    rewrite E7 in E7'. inversion E7'; subst m7' s7'; clear E7'.
    destruct (Inv_createParallelepiped 0.4 0.4 (Cloth.armLength + 0.4) Cloth.armMass
                (mkVec3 (vx Cloth.clothPos) (Cloth.pylonHeight + 0.2)
                        (vz Cloth.clothPos - 0.5 * Cloth.armLength))
                qidentity s7 U7 T7') as (m8' & s8' & E8' & U8' & _ & T8').
    rewrite E8 in E8'. inversion E8'; subst m8' s8'; clear E8'.
    exact T8'. }
  assert (K58 : buildKeeps s5 s8) by (etransitivity; [etransitivity |]; eassumption).
  clear E6 E7 E8 K6 K7 K8 U6 U7.
  destruct U8 as (_ & [sc8 Hsc8] & [w8 Hw8]).
  (* anchors and hinge *)
  rewrite (bind_Ret _ _ s8 armB s8) by reflexivity.
  rewrite (bind_Ret _ _ _ _ _ (alterSoft_eq soft _ s8 heap8 H8)).
  set (heap9 := Ammo.set_softs _ heap8). set (s9 := Cloth.set_AmmoLib _ s8).
  rewrite (bind_Ret _ _ _ _ _ (alterSoft_eq soft _ s9 heap9 eq_refl)).
  set (heap10 := Ammo.set_softs _ heap9). set (s10 := Cloth.set_AmmoLib _ s9).
  rewrite (bind_Ret _ _ s10 pylonB s10) by reflexivity.
  rewrite (bind_Ret _ _ s10 heap10 s10) by reflexivity.
  rewrite !bind_modify.
  rewrite (bind_Ret _ _ _ w8 _) by (unfold deref; cbn; rewrite Hw8; reflexivity).
  eexists _, _, soft, patch, armB, pylonB, _. split; [reflexivity |].
  destruct K01 as (_ & _ & _ & _ & Am1 & _ & _ & _ & _ & _ & _ & So1 & _).
  destruct K58 as (_ & _ & _ & _ & Am8 & Cl8 & _ & _ & _ & _ & _ & _ & _).
  split.
  { revert T8. apply Inv_ext; [reflexivity | rewrite H8; reflexivity]. }
  split.
  { rewrite Hh1 in So1. destruct (Cloth.AmmoLib s) as [heap |]; [| discriminate].
    cbn in So1 |- *. inversion So1 as [So1']. subst soft. rewrite So1'. reflexivity. }
  split; [exact Ep |].
  split; [cbn; rewrite Cl8; reflexivity |].
  split; [reflexivity |].
  split.
  { cbn. rewrite !list_lookup_alter_eq. subst soft.
    rewrite list_lookup_middle by reflexivity. reflexivity. }
  assert (Hb8 : Ammo.bodies heap8 = (Ammo.bodies heap6 ++ [pylonBody]) ++ [armBody])
    by reflexivity.
  split.
  { change (Ammo.bodies heap8 !! pylonB = Some pylonBody). rewrite Hb8.
    rewrite lookup_app_l by (rewrite length_app; cbn [length]; subst pylonB; lia).
    apply list_lookup_middle. reflexivity. }
  split.
  { change (Ammo.bodies heap8 !! armB = Some armBody). rewrite Hb8.
    apply list_lookup_middle. reflexivity. }
  split; [reflexivity |].
  split; [cbn [Ammo.hinges Ammo.set_hinges]; apply list_lookup_middle; reflexivity |].
  cbn. rewrite Am8. exact Am1.
Qed.

End ClothBuilt2.

Lemma Tracked_box `{Engine} sx sy sz mass pos quat s :
  bodyUp s -> Tracked s ->
  Tracked (snd (Cloth.createParallelepiped sx sy sz mass pos quat s)).
Proof.
  intros Hup Ht.
  destruct (Tracked_createParallelepiped sx sy sz mass pos quat s Hup Ht)
    as (m & s' & E & _ & _ & T).
  rewrite E. exact T.
Qed.

Lemma clothPatch_nodes patch ix iy :
  clothPatch = Some patch ->
  (ix < Cloth.clothNumSegmentsZ + 1)%nat -> (iy < Cloth.clothNumSegmentsY + 1)%nat ->
  Ammo.m_nodes patch !! (iy * (Cloth.clothNumSegmentsZ + 1) + ix)%nat
  = Some (Ammo.mkNode
            (mkVec3 (-3) (6 - 3 * (INR iy / INR Cloth.clothNumSegmentsY))
                    (2 - 4 * (INR ix / INR Cloth.clothNumSegmentsZ)))
            vzero).
Proof.
  unfold clothPatch. intros E Hx Hy.
  destruct (Ammo.CreatePatch _ _ _ _ _ _) as [body0 |] eqn:E0; [| discriminate].
  cbn [fmap option_fmap option_map] in E. inversion E; subst; clear E.
  cbn [Ammo.m_nodes Ammo.configure].
  rewrite (CreatePatch_node _ _ _ _ _ _ _ ix iy E0 Hx Hy).
  rewrite !Nat.add_sub. unfold Ammo.lerp, Cloth.clothPos, Cloth.clothHeight, Cloth.clothWidth.
  cbn [vx vy vz].
  f_equal. f_equal. f_equal; lra.
Qed.

Lemma clothGeometry_vertex `{Engine} ix iy :
  (ix < Cloth.clothNumSegmentsZ + 1)%nat -> (iy < Cloth.clothNumSegmentsY + 1)%nat ->
  vertexAt (THREE.array (THREE.attr_position Cloth.clothGeometry))
           (iy * (Cloth.clothNumSegmentsZ + 1) + ix)
  = Some (mkVec3 (-3) (6 - 3 * (INR iy / INR Cloth.clothNumSegmentsY))
                 (2 - 4 * (INR ix / INR Cloth.clothNumSegmentsZ))).
Proof.
  intros Hx Hy. unfold Cloth.clothGeometry.
  rewrite (translate_vertex _ _ _ _ _ _
             (rotateY_vertex _
                (THREE.PlaneGeometry Cloth.clothWidth Cloth.clothHeight
                   Cloth.clothNumSegmentsZ Cloth.clothNumSegmentsY) _ _
                (planeVertices_vertex Cloth.clothWidth Cloth.clothHeight
                   Cloth.clothNumSegmentsZ Cloth.clothNumSegmentsY ix iy Hx Hy))).
  assert (Hc : cos (PI * 0.5) = 0) by (replace (PI * 0.5) with (PI / 2) by lra; apply cos_PI2).
  assert (Hs : sin (PI * 0.5) = 1) by (replace (PI * 0.5) with (PI / 2) by lra; apply sin_PI2).
  rewrite Hc, Hs. cbn [vx vy vz].
  unfold Cloth.clothPos, Cloth.clothHeight, Cloth.clothWidth. cbn [vx vy vz].
  assert (HZ : INR Cloth.clothNumSegmentsZ <> 0) by (apply not_0_INR; discriminate).
  assert (HY : INR Cloth.clothNumSegmentsY <> 0) by (apply not_0_INR; discriminate).
  replace (3 + 3 * 0.5) with (9 / 2) by lra.
  replace (2 - 4 * 0.5) with 0 by lra.
  f_equal. f_equal; [lra | field; exact HY | field; exact HZ].
Qed.

(** The rotated and translated plane of the cloth has its vertices where
    [CreatePatch] puts the nodes. *)
Lemma cloth_coincide `{Engine} patch :
  clothPatch = Some patch ->
  coincide (Ammo.m_nodes patch)
    (THREE.array (THREE.attr_position Cloth.clothGeometry)) clothNodeCount.
Proof.
  intros Hp k Hk.
  destruct (grid_index (Cloth.clothNumSegmentsZ + 1) (Cloth.clothNumSegmentsY + 1) k Hk)
    as (ix & iy & Hx & Hy & ->).
  rewrite (clothPatch_nodes _ ix iy Hp Hx Hy).
  split; [eexists; reflexivity |].
  rewrite (clothGeometry_vertex ix iy Hx Hy). reflexivity.
Qed.

(** X12: [createObjects] leaves the cloth mesh with its vertices exactly
    where the nodes of its soft body are (over the reals, where the rotation
    by [PI / 2] is exact): vertex [k] of the plane, rotated about the y axis
    and translated, has the coordinates of node [k] of the patch created
    between the four corners, for every [k] below
    [(clothNumSegmentsZ+1)*(clothNumSegmentsY+1)]. *)
Theorem cloth_built_aligned `{Engine} s :
  bodyUp s ->
  let s' := snd (Cloth.createObjects s) in
  fst (Cloth.createObjects s) = Ret tt /\
  exists m g soft heap' sb,
    Cloth.cloth s' = Some m /\ THREE.geometry m = THREE.Buffer g /\
    THREE.physicsBody m = Some (THREE.SoftRef soft) /\
    Cloth.AmmoLib s' = Some heap' /\ Ammo.softs heap' !! soft = Some sb /\
    coincide (Ammo.m_nodes sb) (THREE.array (THREE.attr_position g))
             ((Cloth.clothNumSegmentsZ + 1) * (Cloth.clothNumSegmentsY + 1)).
Proof.
  intros Hup s'.
  destruct (createObjects_built (fun _ => True) (fun _ _ _ _ _ _ _ _ _ => I)
              (fun _ _ _ _ _ => I) s Hup I)
    as (s1 & heap' & soft & patch & armB & pylonB & hi & E & _ & _ & Hp & Hc & Hh & Hs & _).
  subst s'. rewrite E. cbn [fst snd]. split; [reflexivity |].
  eexists _, _, soft, heap', _.
  split; [exact Hc |]. split; [reflexivity |]. split; [reflexivity |].
  split; [exact Hh |]. split; [exact Hs |].
  exact (cloth_coincide patch Hp).
Qed.

Lemma cloth_built_aligned_witness :
  let s' := snd (@Cloth.createObjects demoEngine clothGround) in
  fst (@Cloth.createObjects demoEngine clothGround) = Ret tt /\
  exists m g soft heap' sb,
    Cloth.cloth s' = Some m /\ THREE.geometry m = THREE.Buffer g /\
    THREE.physicsBody m = Some (THREE.SoftRef soft) /\
    Cloth.AmmoLib s' = Some heap' /\ Ammo.softs heap' !! soft = Some sb /\
    coincide (Ammo.m_nodes sb) (THREE.array (THREE.attr_position g))
             ((Cloth.clothNumSegmentsZ + 1) * (Cloth.clothNumSegmentsY + 1)).
Proof.
  destruct clothGround_ready as (Hup & _).
  exact (@cloth_built_aligned demoEngine clothGround Hup).
Defined.




(** X14: [createRigidBody] keeps the list the frame loop mirrors exact: a
    body of positive mass is appended to [rigidBodies] with deactivation
    disabled, a body of mass 0 is left out; in both cases the mesh takes the
    given pose, refers to the new body at the end of the heap, and that body
    starts at the same pose.  So if [rigidBodies] held exactly the dynamic
    bodies before, it does after one call, and after the whole of
    [createObjects]. *)
Theorem rigid_bodies_tracked `{Engine} sx sy sz mass pos quat s heap :
  bodyUp s -> Cloth.AmmoLib s = Some heap -> Tracked s ->
  let r := Cloth.createParallelepiped sx sy sz mass pos quat s in
  let i := length (Ammo.bodies heap) in
  fst r = Ret (THREE.mkMesh pos quat (THREE.Box sx sy sz) (Some (THREE.RigidRef i))) /\
  (exists heap' body,
     Cloth.AmmoLib (snd r) = Some heap' /\
     Ammo.bodies heap' = Ammo.bodies heap ++ [body] /\
     Ammo.mass body = mass /\
     Ammo.worldTransform body = Ammo.mkTransform pos quat /\
     Ammo.halfExtents body = mkVec3 (sx * 0.5) (sy * 0.5) (sz * 0.5) /\
     (0 < mass -> Ammo.activationState body = Ammo.DISABLE_DEACTIVATION) /\
     (mass <= 0 -> Ammo.activationState body = Ammo.ACTIVE_TAG)) /\
  (0 < mass ->
   Cloth.rigidBodies (snd r)
   = Cloth.rigidBodies s
     ++ [THREE.mkMesh pos quat (THREE.Box sx sy sz) (Some (THREE.RigidRef i))]) /\
  (mass <= 0 -> Cloth.rigidBodies (snd r) = Cloth.rigidBodies s) /\
  Tracked (snd r) /\
  Tracked (snd (Cloth.createObjects s)).
Proof.
  intros Hup Hh Ht r i.
  destruct (createParallelepiped_built sx sy sz mass pos quat s heap Hup Hh)
    as (s' & E & _ & _ & Hh' & Hr).
  subst r. rewrite E. cbn [fst snd].
  split; [reflexivity |].
  split.
  { eexists _, _. split; [exact Hh' |]. split; [reflexivity |].
    unfold boxBody. destruct (Rlt_dec 0 mass); repeat split; intros; try reflexivity; lra. }
  split; [intros Hm; rewrite Hr; destruct (Rlt_dec 0 mass); [reflexivity | contradiction] |].
  split.
  { intros Hm. rewrite Hr. destruct (Rlt_dec 0 mass); [lra | apply app_nil_r]. }
  split.
  { pose proof (Tracked_box sx sy sz mass pos quat s Hup Ht) as T. rewrite E in T. exact T. }
  destruct (createObjects_built Tracked Tracked_box Tracked_ext s Hup Ht)
    as (s1 & heap1 & soft & patch & armB & pylonB & hi & E1 & T1 & _).
  rewrite E1. exact T1.
Qed.

#[local] Transparent clothGround.

Lemma clothGround_tracked :
  Cloth.AmmoLib clothGround = Some Ammo.emptyHeap /\ Tracked clothGround.
Proof.
  split; [reflexivity |]. exists Ammo.emptyHeap. split; [reflexivity |].
  split; [intros obj [] | intros b body Hb; discriminate Hb].
Qed.

#[local] Opaque clothGround.

Lemma rigid_bodies_tracked_witness :
  let pos := mkVec3 0 (Cloth.brickHeight * 0.5) Cloth.z0 in
  let r := Cloth.createParallelepiped Cloth.brickDepth Cloth.brickHeight
             Cloth.brickLength Cloth.brickMass pos qidentity clothGround in
  let i := length (Ammo.bodies Ammo.emptyHeap) in
  fst r = Ret (THREE.mkMesh pos qidentity
                 (THREE.Box Cloth.brickDepth Cloth.brickHeight Cloth.brickLength)
                 (Some (THREE.RigidRef i))) /\
  (exists heap' body,
     Cloth.AmmoLib (snd r) = Some heap' /\
     Ammo.bodies heap' = Ammo.bodies Ammo.emptyHeap ++ [body] /\
     Ammo.mass body = Cloth.brickMass /\
     Ammo.worldTransform body = Ammo.mkTransform pos qidentity /\
     Ammo.halfExtents body
     = mkVec3 (Cloth.brickDepth * 0.5) (Cloth.brickHeight * 0.5) (Cloth.brickLength * 0.5) /\
     (0 < Cloth.brickMass -> Ammo.activationState body = Ammo.DISABLE_DEACTIVATION) /\
     (Cloth.brickMass <= 0 -> Ammo.activationState body = Ammo.ACTIVE_TAG)) /\
  (0 < Cloth.brickMass ->
   Cloth.rigidBodies (snd r)
   = Cloth.rigidBodies clothGround
     ++ [THREE.mkMesh pos qidentity
           (THREE.Box Cloth.brickDepth Cloth.brickHeight Cloth.brickLength)
           (Some (THREE.RigidRef i))]) /\
  (Cloth.brickMass <= 0 -> Cloth.rigidBodies (snd r) = Cloth.rigidBodies clothGround) /\
  Tracked (snd r) /\
  Tracked (snd (@Cloth.createObjects demoEngine clothGround)).
Proof.
  destruct clothGround_ready as (Hup & _).
  destruct clothGround_tracked as (Hh & Ht).
  exact (@rigid_bodies_tracked demoEngine Cloth.brickDepth Cloth.brickHeight Cloth.brickLength
           Cloth.brickMass (mkVec3 0 (Cloth.brickHeight * 0.5) Cloth.z0) qidentity
           clothGround Ammo.emptyHeap Hup Hh Ht).
Defined.

(** ** The frame of the cloth scene: the rigid bodies *)

Section ClothMirror.
Context `{Engine}.

Lemma cloth_frame_bodies (Hlaw : KeepsNodeCounts) now s soft :
  ClothReady soft s ->
  exists s1 heap1,
    Cloth.AmmoLib s1 = Some heap1 /\
    Cloth.rigidBodies s1 = Cloth.mirrorPose heap1 <$> Cloth.rigidBodies s /\
    Cloth.clock s1 = snd (getDelta now (Cloth.clock s)) /\
    (forall r, Cloth.renderer s = Some r ->
               Cloth.animate now s = (Ret tt, presented r s1)) /\
    (Cloth.renderer s = None ->
     Cloth.animate now s = (Throw (TypeError "renderer"), s1)) /\
    exists world heap,
      Cloth.physicsWorld s = Some world /\ Cloth.AmmoLib s = Some heap /\
      heap1 = stepSimulation world (motorHeap s heap) (fst (getDelta now (Cloth.clock s))) 10.
Proof.
  intros (m & g & heap & sb & Hc & Ha & Hna & Hg & Hb & Hh & Hs & Hn & Hl & [world Hw]).
  set (dt := fst (getDelta now (Cloth.clock s))).
  set (s0 := Cloth.set_clock (snd (getDelta now (Cloth.clock s))) s).
  (* the motor *)
  assert (Hmotor : exists heapH sH,
    (let! h := gets Cloth.hinge in
     match h with
     | Some hi =>
         let! am := gets Cloth.armMovement in
         let! heap := deref "AmmoLib" Cloth.AmmoLib in
         modify (Cloth.set_AmmoLib (Some (Ammo.set_hinges
           (alter (Ammo.enableAngularMotor true (0.8 * am) 50) hi (Ammo.hinges heap)) heap))) >>
         Cloth.log (EnableAngularMotor true (0.8 * am) 50)
     | None => ret tt
     end) s0 = (Ret tt, sH) /\
    sH = Cloth.set_calls (Cloth.calls s ++ motorCalls s)
           (Cloth.set_AmmoLib (Some heapH) s0) /\
    Ammo.softs heapH = Ammo.softs heap /\
    heapH = motorHeap s heap).
  { unfold motorCalls, motorHeap. rewrite bind_gets.
    change (Cloth.hinge s0) with (Cloth.hinge s).
    destruct (Cloth.hinge s) as [hi |].
    - eexists _, _. split; [| split; [reflexivity | split; [| reflexivity]]].
      + rewrite bind_gets.
        rewrite (bind_Ret _ _ s0 heap s0) by (unfold deref; cbn; rewrite Hh; reflexivity).
        rewrite bind_modify. unfold Cloth.log, modify. reflexivity.
      + reflexivity.
    - exists heap, s0. split; [reflexivity |]. split; [| split; reflexivity].
      destruct s; cbn in *; subst. rewrite app_nil_r. reflexivity. }
  destruct Hmotor as (heapH & sH & EH & HsH & HsoftH & HmH).
  (* the step *)
  destruct (step_keeps_soft Hlaw world heapH dt 10 soft sb ltac:(rewrite HsoftH; exact Hs))
    as (sb1 & Hs1 & Hn1).
  set (heap1 := stepSimulation world heapH dt 10) in *.
  set (s2 := Cloth.set_calls (Cloth.calls sH ++ [StepSimulation dt 10])
               (Cloth.set_AmmoLib (Some heap1) sH)).
  destruct (syncCloth_eq soft s2 m g heap1 sb1 Hg Hb) as (arr' & Ea & E3);
    [subst s2 sH; exact Hna | reflexivity | exact Hs1 | congruence | exact Hl |].
  set (s3 := Cloth.set_calls _ _) in E3.
  set (s4 := Cloth.set_rigidBodies (Cloth.mirrorPose heap1 <$> Cloth.rigidBodies s3) s3).
  destruct (syncArray_spec (Ammo.m_nodes sb1) (THREE.array (THREE.attr_position g))
              clothNodeCount) as (arr2 & Ea2 & Hlen2 & Hk2); [lia | lia |].
  assert (arr2 = arr') by congruence. subst arr2.
  exists s4, heap1.
  split; [reflexivity |].
  split; [subst s4 s3 s2; rewrite HsH; reflexivity |].
  split; [subst s4 s3 s2; rewrite HsH; reflexivity |].
  assert (Epre : forall k : unit -> Exec Cloth.State unit,
    bind (Cloth.tickClock now)
      (fun deltaTime =>
         bind (let! h := gets Cloth.hinge in
               match h with
               | Some hi =>
                   let! am := gets Cloth.armMovement in
                   let! heap := deref "AmmoLib" Cloth.AmmoLib in
                   modify (Cloth.set_AmmoLib (Some (Ammo.set_hinges
                     (alter (Ammo.enableAngularMotor true (0.8 * am) 50) hi
                            (Ammo.hinges heap)) heap))) >>
                   Cloth.log (EnableAngularMotor true (0.8 * am) 50)
               | None => ret tt
               end)
           (fun _ =>
              bind (let! w := gets Cloth.physicsWorld in
                    match w with
                    | Some world =>
                        let! heap := deref "AmmoLib" Cloth.AmmoLib in
                        modify (Cloth.set_AmmoLib
                                  (Some (stepSimulation world heap deltaTime 10))) >>
                        Cloth.log (StepSimulation deltaTime 10) >>
                        (let! c := gets Cloth.cloth in
                         let! a := gets Cloth.clothPosAttr in
                         match c, a with
                         | Some m, Some _ => Cloth.syncCloth m
                         | _, _ => ret tt
                         end) >>
                        let! heap' := deref "AmmoLib" Cloth.AmmoLib in
                        modify (fun s => Cloth.set_rigidBodies
                                           (map (Cloth.mirrorPose heap') (Cloth.rigidBodies s)) s)
                    | None => ret tt
                    end) k)) s
    = k tt s4).
  { intros k.
    rewrite (bind_Ret _ _ _ _ _ (cloth_tickClock_eq now s)). fold dt s0.
    rewrite (bind_Ret _ _ _ _ _ EH).
    rewrite (bind_Ret _ _ sH tt s4); [reflexivity |].
    rewrite bind_gets.
    assert (HwH : Cloth.physicsWorld sH = Some world) by (rewrite HsH; exact Hw).
    rewrite HwH.
    rewrite (bind_Ret _ _ sH heapH sH) by (unfold deref; rewrite HsH; reflexivity).
    rewrite bind_modify. unfold Cloth.log at 1. rewrite bind_modify. fold heap1. fold s2.
    rewrite (bind_Ret _ _ s2 tt s3).
    2:{ rewrite !bind_gets.
        assert (Hc2 : Cloth.cloth s2 = Some m) by (subst s2; rewrite HsH; exact Hc).
        assert (Ha2 : Cloth.clothPosAttr s2 = Some CachedAttribute)
          by (subst s2; rewrite HsH; exact Ha).
        rewrite Hc2, Ha2. exact E3. }
    rewrite (bind_Ret _ _ s3 heap1 s3) by reflexivity.
    reflexivity. }
  split; [| split].
  - intros r Hr. unfold Cloth.animate. rewrite Epre.
    assert (Hr4 : Cloth.renderer s4 = Some r)
      by (subst s4 s3 s2; rewrite HsH; exact Hr).
    unfold bind, deref, modify, Cloth.log, modify. rewrite Hr4. unfold presented.
    destruct s4; cbn. rewrite <- app_assoc. reflexivity.
  - intros Hr. unfold Cloth.animate. rewrite Epre.
    assert (Hr4 : Cloth.renderer s4 = None)
      by (subst s4 s3 s2; rewrite HsH; exact Hr).
    unfold bind, deref. rewrite Hr4. reflexivity.
  - exists world, heap. split; [exact Hw |]. split; [exact Hh |].
    subst heap1 dt. rewrite HmH. reflexivity.
Qed.


End ClothMirror.

Lemma mirrorPose_body heap obj :
  THREE.physicsBody (Cloth.mirrorPose heap obj) = THREE.physicsBody obj.
Proof.
  unfold Cloth.mirrorPose. destruct (THREE.physicsBody obj) as [[b | b] |] eqn:E; try exact E.
  destruct (Ammo.bodies heap !! b); exact E.
Qed.

Lemma mirrorPose_pose heap obj b body :
  THREE.physicsBody obj = Some (THREE.RigidRef b) ->
  Ammo.bodies heap !! b = Some body ->
  THREE.position (Cloth.mirrorPose heap obj) = Ammo.origin (Ammo.worldTransform body) /\
  THREE.quaternion (Cloth.mirrorPose heap obj) = Ammo.rotation (Ammo.worldTransform body).
Proof.
  intros Hb Hl. unfold Cloth.mirrorPose. rewrite Hb, Hl. split; reflexivity.
Qed.

(** X15: a frame of the booted cloth scene ends with every mesh of
    [rigidBodies] at the pose its rigid body has after the step: position
    equal to the origin and quaternion equal to the rotation of the body's
    world transform.  The list keeps its length and every mesh keeps the body
    it refers to.  This holds also for the frame that finds the renderer
    gone, since the meshes are updated before the render call. *)
Theorem cloth_frame_mirrors_bodies `{Engine} (Hlaw : KeepsNodeCounts) now s soft :
  ClothReady soft s ->
  let s' := snd (Cloth.animate now s) in
  exists heap',
    Cloth.AmmoLib s' = Some heap' /\
    length (Cloth.rigidBodies s') = length (Cloth.rigidBodies s) /\
    THREE.physicsBody <$> Cloth.rigidBodies s' = THREE.physicsBody <$> Cloth.rigidBodies s /\
    forall obj b body,
      In obj (Cloth.rigidBodies s') ->
      THREE.physicsBody obj = Some (THREE.RigidRef b) ->
      Ammo.bodies heap' !! b = Some body ->
      THREE.position obj = Ammo.origin (Ammo.worldTransform body) /\
      THREE.quaternion obj = Ammo.rotation (Ammo.worldTransform body).
Proof.
  intros HR s'.
  destruct (cloth_frame_bodies Hlaw now s soft HR)
    as (s1 & heap1 & Hh & Hr & _ & Eok & Eth & _).
  assert (E : Cloth.AmmoLib s' = Some heap1 /\
              Cloth.rigidBodies s' = Cloth.mirrorPose heap1 <$> Cloth.rigidBodies s).
  { subst s'. destruct (Cloth.renderer s) as [r |].
    - rewrite (Eok r eq_refl). split; [exact Hh | exact Hr].
    - rewrite (Eth eq_refl). split; [exact Hh | exact Hr]. }
  destruct E as [Eh Er]. exists heap1. split; [exact Eh |]. rewrite Er.
  split; [apply length_fmap |].
  split.
  { rewrite <- list_fmap_compose. apply list_fmap_ext. intros i x _. apply mirrorPose_body. }
  intros obj b body Hin Hb Hl.
  change (In obj (map (Cloth.mirrorPose heap1) (Cloth.rigidBodies s))) in Hin.
  apply in_map_iff in Hin. destruct Hin as (obj0 & <- & _).
  rewrite mirrorPose_body in Hb. exact (mirrorPose_pose heap1 obj0 b body Hb Hl).
Qed.

Lemma cloth_frame_mirrors_bodies_witness :
  let s' := snd (@Cloth.animate demoEngine 32 clothBooted) in
  exists heap',
    Cloth.AmmoLib s' = Some heap' /\
    length (Cloth.rigidBodies s') = length (Cloth.rigidBodies clothBooted) /\
    THREE.physicsBody <$> Cloth.rigidBodies s'
    = THREE.physicsBody <$> Cloth.rigidBodies clothBooted /\
    forall obj b body,
      In obj (Cloth.rigidBodies s') ->
      THREE.physicsBody obj = Some (THREE.RigidRef b) ->
      Ammo.bodies heap' !! b = Some body ->
      THREE.position obj = Ammo.origin (Ammo.worldTransform body) /\
      THREE.quaternion obj = Ammo.rotation (Ammo.worldTransform body).
Proof.
  destruct clothBooted_facts as (HR & _).
  exact (@cloth_frame_mirrors_bodies demoEngine demoEngine_keeps 32 clothBooted 0 HR).
Defined.

#[local] Instance sameScreen_refl : Reflexive sameScreen.
Proof. intros s. repeat split. Qed.

#[local] Instance sameScreen_trans : Transitive sameScreen.
Proof. unfold sameScreen. intros a b c. intuition congruence. Qed.

(** ** The frame of the curtain scene: presentation *)

Section CurtainPresent.
Context `{Engine}.







End CurtainPresent.

(** ** The seam assist of the curtain scene *)

Section CurtainAssistNodes.
Local Open Scope nat_scope.

Lemma insert_alter_node (f : Ammo.Node -> Ammo.Node) idx n (nodes : list Ammo.Node) :
  nodes !! idx = Some n -> <[idx := f n]> nodes = alter f idx nodes.
Proof.
  intros Hn. apply list_eq. intros j. destruct (decide (idx = j)) as [<- | Hne].
  - rewrite list_lookup_insert_eq by (eapply lookup_lt_Some; exact Hn).
    rewrite list_lookup_alter_eq, Hn. reflexivity.
  - rewrite list_lookup_insert_ne, list_lookup_alter_ne by exact Hne. reflexivity.
Qed.

Lemma length_nudged f l : forall nodes, length (nudged f l nodes) = length nodes.
Proof.
  unfold nudged. induction l as [| a l IH]; intros nodes; cbn [fold_left]; [reflexivity |].
  rewrite IH. apply length_alter.
Qed.

(** The loop of [applyAssist], node by node. *)
Lemma addForces_nodes soft f l : forall s heap sb,
  Curtain.AmmoLib s = Some heap ->
  Ammo.softs heap !! soft = Some sb ->
  (forall idx, In idx l -> idx < length (Ammo.m_nodes sb)) ->
  forEach (Curtain.addNodeForce soft f) l s
  = (Ret tt,
     Curtain.set_calls (Curtain.calls s ++ ((fun idx => AddForce soft idx f) <$> l))
       (Curtain.set_AmmoLib
          (Some (Ammo.set_softs
                   (<[soft := Ammo.set_nodes (nudged f l (Ammo.m_nodes sb)) sb]>
                      (Ammo.softs heap)) heap)) s)).
Proof.
  induction l as [| idx l IH]; intros s heap sb Hh Hs Hb.
  - cbn. unfold ret, nudged. cbn [fold_left]. rewrite app_nil_r.
    replace (Ammo.set_nodes (Ammo.m_nodes sb) sb) with sb by (destruct sb; reflexivity).
    rewrite list_insert_id by exact Hs.
    destruct s, heap; cbn in *; subst; reflexivity.
  - destruct (lookup_lt_is_Some_2 (Ammo.m_nodes sb) idx) as [n Hn];
      [apply Hb; now left |].
    destruct (addNodeForce_eq soft f idx s heap sb n Hh Hs Hn) as [E1 _].
    cbv zeta in E1.
    set (sb1 := Ammo.set_nodes _ sb) in E1.
    set (heap1 := Ammo.set_softs _ heap) in E1.
    set (s1 := Curtain.set_calls _ _) in E1.
    assert (Hs1 : Ammo.softs heap1 !! soft = Some sb1).
    { subst heap1. cbn. apply list_lookup_insert_eq. eapply lookup_lt_Some; exact Hs. }
    change (forEach (Curtain.addNodeForce soft f) (idx :: l) s)
      with (bind (Curtain.addNodeForce soft f idx)
                 (fun _ => forEach (Curtain.addNodeForce soft f) l) s).
    rewrite (bind_Ret _ _ _ _ _ E1).
    rewrite (IH s1 heap1 sb1 eq_refl Hs1).
    2:{ intros i Hi. subst sb1. cbn. rewrite length_insert. apply Hb. now right. }
    subst s1 heap1 sb1. cbn.
    rewrite list_insert_insert_eq, (insert_alter_node _ _ _ _ Hn).
    destruct s; cbn. rewrite <- app_assoc. reflexivity.
Qed.

Lemma nudged_lookup f l : NoDup l -> forall nodes idx,
  nudged f l nodes !! idx
  = (fun nd => if decide (idx ∈ l) then Ammo.addForce f nd else nd) <$> nodes !! idx.
Proof.
  unfold nudged. induction 1 as [| a l Ha Hl IH]; intros nodes idx; cbn [fold_left].
  - destruct (nodes !! idx); [| reflexivity]. cbn.
    destruct (decide (idx ∈ [])) as [Hi |]; [inversion Hi | reflexivity].
  - rewrite IH.
    destruct (decide (a = idx)) as [<- | Hne].
    + rewrite list_lookup_alter_eq. destruct (nodes !! a); [| reflexivity]. cbn.
      destruct (decide (a ∈ l)); [contradiction |].
      destruct (decide (a ∈ a :: l)) as [| Hn]; [reflexivity |].
      exfalso. apply Hn. left.
    + rewrite list_lookup_alter_ne by exact Hne.
      destruct (nodes !! idx); [| reflexivity]. cbn.
      destruct (decide (idx ∈ l)), (decide (idx ∈ a :: l)) as [Hi | Hi];
        try reflexivity; exfalso.
      * apply Hi. now right.
      * apply elem_of_cons in Hi. destruct Hi; [congruence | contradiction].
Qed.

Lemma assistIndices_split side :
  Curtain.assistIndices side
  = ((fun y => match side with LeftSide => 0 | RightSide => Curtain.segX - 0 end
               + y * (Curtain.segX + 1)) <$> seq 0 (Curtain.segY + 1))
    ++ ((fun y => match side with LeftSide => 1 | RightSide => Curtain.segX - 1 end
                  + y * (Curtain.segX + 1)) <$> seq 0 (Curtain.segY + 1)).
Proof.
  unfold Curtain.assistIndices. change (seq 0 Curtain.cols) with [0; 1].
  cbn [flat_map]. rewrite app_nil_r. reflexivity.
Qed.

Lemma assistIndices_In side idx :
  In idx (Curtain.assistIndices side)
  <-> idx < nodeCount /\ assistColumn side (idx mod (Curtain.segX + 1)).
Proof.
  rewrite assistIndices_split, in_app_iff, <- !list_elem_of_In, !list_elem_of_fmap.
  unfold nodeCount, assistColumn, Curtain.segX, Curtain.segY.
  split.
  - intros [(y & -> & Hy) | (y & -> & Hy)]; apply elem_of_seq in Hy;
      rewrite Nat.Div0.mod_add; destruct side; cbn [Nat.sub]; rewrite Nat.mod_small by lia;
        split; lia.
  - intros [Hlt Hcol].
    pose proof (Nat.div_mod_eq idx (40 + 1)) as Hd.
    pose proof (Nat.mod_upper_bound idx (40 + 1) ltac:(lia)) as Hm.
    assert (Hq : idx / (40 + 1) < 50 + 1) by (apply Nat.Div0.div_lt_upper_bound; lia).
    destruct side; cbn [Nat.sub].
    + destruct (decide (idx mod (40 + 1) = 0)) as [E0 | N0]; [left | right];
        exists (idx / (40 + 1)); (split; [lia | apply elem_of_seq; lia]).
    + destruct (decide (idx mod (40 + 1) = 40)) as [E0 | N0]; [left | right];
        exists (idx / (40 + 1)); (split; [lia | apply elem_of_seq; lia]).
Qed.

Lemma assistIndices_NoDup side : NoDup (Curtain.assistIndices side).
Proof.
  rewrite assistIndices_split. apply NoDup_app. split; [| split].
  - apply NoDup_fmap_2; [| apply NoDup_seq]. intros a b E. cbv beta in E.
    unfold Curtain.segX in E. destruct side; lia.
  - intros x Ha Hb. apply list_elem_of_fmap in Ha, Hb.
    destruct Ha as (y & -> & _), Hb as (y' & E & _).
    apply (f_equal (fun n => n mod (Curtain.segX + 1))) in E.
    rewrite !Nat.Div0.mod_add in E. unfold Curtain.segX in E.
    destruct side; cbn in E; discriminate E.
  - apply NoDup_fmap_2; [| apply NoDup_seq]. intros a b E. cbv beta in E.
    unfold Curtain.segX in E. destruct side; lia.
Qed.

Lemma assistIndices_length side :
  length (Curtain.assistIndices side) = 2 * (Curtain.segY + 1).
Proof. rewrite assistIndices_split, length_app, !length_fmap, !length_seq. lia. Qed.

End CurtainAssistNodes.

(** X17: the seam assist of one curtain, called on a patch of the built size,
    completes and adds its force (along x only: [-3 t] on the left patch,
    [+3 t] on the right) exactly once to the force accumulator of every node
    in two columns of the patch, columns 0 and 1 on the left and columns
    [segX - 1] and [segX] on the right.  Every other node, every node
    position and every other soft body stay as they are. *)
Theorem assist_nudges_two_columns t i side s heap sb :
  Curtain.AmmoLib s = Some heap ->
  Ammo.softs heap !! i = Some sb ->
  length (Ammo.m_nodes sb) = nodeCount ->
  let out := Curtain.applyAssist t (Some (THREE.SoftRef i)) side s in
  exists heap' sb',
    fst out = Ret tt /\
    Curtain.AmmoLib (snd out) = Some heap' /\
    Ammo.softs heap' !! i = Some sb' /\
    (forall j, j <> i -> Ammo.softs heap' !! j = Ammo.softs heap !! j) /\
    length (Ammo.m_nodes sb') = nodeCount /\
    forall idx n, Ammo.m_nodes sb !! idx = Some n ->
      exists n',
        Ammo.m_nodes sb' !! idx = Some n' /\
        Ammo.m_x n' = Ammo.m_x n /\
        (assistColumn side (idx mod (Curtain.segX + 1)) ->
         Ammo.m_f n' = vadd (Ammo.m_f n) (assistForce side t)) /\
        (~ assistColumn side (idx mod (Curtain.segX + 1)) -> n' = n).
Proof.
  intros Hh Hs Hn out.
  assert (E : out
              = (Ret tt,
                 Curtain.set_calls (Curtain.calls s ++ assistCalls i side t)
                   (Curtain.set_AmmoLib
                      (Some (Ammo.set_softs
                               (<[i := Ammo.set_nodes
                                         (nudged (assistForce side t)
                                                 (Curtain.assistIndices side)
                                                 (Ammo.m_nodes sb)) sb]>
                                  (Ammo.softs heap)) heap)) s))).
  { subst out.
    transitivity (forEach (Curtain.addNodeForce i (assistForce side t))
                          (Curtain.assistIndices side) s).
    - unfold Curtain.applyAssist. destruct side; reflexivity.
    - apply (addForces_nodes i (assistForce side t) _ s heap sb Hh Hs).
      intros idx Hin. rewrite Hn. eapply assistIndices_bound; exact Hin. }
  rewrite E. cbn [fst snd]. eexists _, _.
  split; [reflexivity |]. split; [destruct s; reflexivity |].
  split; [cbn; apply list_lookup_insert_eq; eapply lookup_lt_Some; exact Hs |].
  split; [intros j Hj; cbn; apply list_lookup_insert_ne; congruence |].
  split; [cbn; rewrite length_nudged; exact Hn |].
  intros idx n Hidx. cbn [Ammo.m_nodes Ammo.set_nodes].
  rewrite (nudged_lookup _ _ (assistIndices_NoDup side)), Hidx. cbn [fmap option_fmap option_map].
  assert (Hlt : (idx < nodeCount)%nat) by (rewrite <- Hn; eapply lookup_lt_Some; exact Hidx).
  destruct (decide (idx ∈ Curtain.assistIndices side)) as [Hin | Hout];
    rewrite list_elem_of_In, assistIndices_In in *.
  - eexists. split; [reflexivity |]. split; [reflexivity |].
    split; [reflexivity |]. intros Hno. destruct Hno. apply Hin.
  - eexists. split; [reflexivity |]. split; [reflexivity |].
    split; [| reflexivity]. intros Hc. destruct Hout. split; assumption.
Qed.

Lemma assist_nudges_two_columns_witness :
  exists heap sb,
    Curtain.AmmoLib demoBuilt = Some heap /\ Ammo.softs heap !! 0%nat = Some sb /\
    let out := Curtain.applyAssist (1 / 2) (Some (THREE.SoftRef 0)) LeftSide demoBuilt in
    exists heap' sb',
      fst out = Ret tt /\
      Curtain.AmmoLib (snd out) = Some heap' /\
      Ammo.softs heap' !! 0%nat = Some sb' /\
      (forall j, j <> 0%nat -> Ammo.softs heap' !! j = Ammo.softs heap !! j) /\
      length (Ammo.m_nodes sb') = nodeCount /\
      forall idx n, Ammo.m_nodes sb !! idx = Some n ->
        exists n',
          Ammo.m_nodes sb' !! idx = Some n' /\
          Ammo.m_x n' = Ammo.m_x n /\
          (assistColumn LeftSide (idx mod (Curtain.segX + 1)) ->
           Ammo.m_f n' = vadd (Ammo.m_f n) (assistForce LeftSide (1 / 2))) /\
          (~ assistColumn LeftSide (idx mod (Curtain.segX + 1)) -> n' = n).
Proof.
  destruct demoBuilt_facts as ((_ & _ & _ & _ & PL & _) & _).
  destruct PL as (m & g & heap & sb & _ & _ & _ & _ & Hh & Hs & Hn & _).
  exists heap, sb. split; [exact Hh |]. split; [exact Hs |].
  exact (assist_nudges_two_columns (1 / 2) 0%nat LeftSide demoBuilt heap sb Hh Hs Hn).
Defined.

(** ** The brick wall of the cloth scene *)

Section ClothWall.
Context `{Engine}.

Lemma brickRow_lays oddRow nRow idxs : forall pos s heap,
  bodyUp s -> Cloth.AmmoLib s = Some heap ->
  exists p s' heap',
    Cloth.brickRow oddRow nRow idxs pos s = (Ret p, s') /\
    bodyUp s' /\ Cloth.AmmoLib s' = Some heap' /\
    vx p = vx pos /\ vy p = vy pos /\
    Cloth.rigidBodies s'
    = Cloth.rigidBodies s
      ++ rowMeshes oddRow nRow idxs pos (length (Ammo.bodies heap)) /\
    length (Ammo.bodies heap') = (length (Ammo.bodies heap) + length idxs)%nat.
Proof.
  induction idxs as [| i idxs IH]; intros pos s heap Hup Hh;
    cbn [Cloth.brickRow rowMeshes].
  - exists pos, s, heap. unfold ret. cbn [length]. rewrite app_nil_r, Nat.add_0_r.
    repeat split; try assumption; apply Hup.
  - match goal with
    | |- context [bind (Cloth.createParallelepiped ?a ?b ?c ?d ?e ?f) ?k s] =>
        destruct (createParallelepiped_built a b c d e f s heap Hup Hh)
          as (s1 & E1 & U1 & _ & H1 & R1);
        rewrite (bind_Ret _ k s _ s1 E1)
    end.
    match type of R1 with
    | context [Rlt_dec 0 ?m] =>
        destruct (Rlt_dec 0 m) as [_ | Hn];
          [| exfalso; apply Hn; unfold Cloth.brickMass;
             destruct (oddRow && _); lra]
    end.
    match goal with
    | |- context [Cloth.brickRow oddRow nRow idxs ?p s1] =>
        destruct (IH p s1 _ U1 H1) as (p' & s2 & heap2 & E2 & U2 & H2 & X2 & Y2 & R2 & L2)
    end.
    exists p', s2, heap2. split; [exact E2 |]. split; [exact U2 |]. split; [exact H2 |].
    split; [exact X2 |]. split; [exact Y2 |].
    cbn [Ammo.bodies Ammo.set_bodies] in R2, L2. rewrite length_app in R2, L2.
    cbn [length] in R2, L2.
    split.
    + rewrite R2, R1, <- app_assoc. cbn [app]. rewrite Nat.add_1_r. reflexivity.
    + cbn [length]. rewrite L2. lia.
Qed.

Lemma rowMeshes_length oddRow nRow idxs : forall pos b,
  length (rowMeshes oddRow nRow idxs pos b) = length idxs.
Proof.
  induction idxs as [| i idxs IH]; intros pos b; cbn [rowMeshes length]; [reflexivity |].
  rewrite IH. reflexivity.
Qed.

Lemma wallRows_cons j js pos :
  Cloth.wallRows (j :: js) pos
  = bind (Cloth.brickRow (j mod 2 =? 1)%nat
            (if (j mod 2 =? 1)%nat then (Cloth.numBricksLength + 1)%nat
             else Cloth.numBricksLength)
            (seq 0 (if (j mod 2 =? 1)%nat then (Cloth.numBricksLength + 1)%nat
                    else Cloth.numBricksLength))
            (mkVec3 (vx pos) (vy pos)
                    (if (j mod 2 =? 1)%nat then Cloth.z0 - 0.25 * Cloth.brickLength
                     else Cloth.z0)))
         (fun pos' => Cloth.wallRows js
                        (mkVec3 (vx pos') (vy pos' + Cloth.brickHeight) (vz pos'))).
Proof. reflexivity. Qed.

End ClothWall.

#[local] Instance bodiesGrow_refl : Reflexive bodiesGrow.
Proof. intros s. exists []. rewrite app_nil_r. reflexivity. Qed.

#[local] Instance bodiesGrow_trans : Transitive bodiesGrow.
Proof.
  intros a b c [m1 H1] [m2 H2]. exists (m1 ++ m2). rewrite H2, H1, app_assoc. reflexivity.
Qed.

(** Framing for [bodiesGrow]: an assignment either leaves the list alone or
    appends to it. *)
Ltac grow_go :=
  repeat (cbn beta;
          lazymatch goal with
          | |- framed _ (match ?x with _ => _ end) => destruct x
          | |- framed _ (if ?b then _ else _) => destruct b
          | |- framed _ (modify _) =>
              apply (framed_modify bodiesGrow); intros [];
              first [ exists []; rewrite app_nil_r; reflexivity
                    | eexists; reflexivity ]
          | |- _ => framed_step
          end).

Section ClothWallBuilt.
Context `{Engine}.

Lemma bodiesGrow_createParallelepiped sx sy sz mass pos quat :
  framed bodiesGrow (Cloth.createParallelepiped sx sy sz mass pos quat).
Proof. unfold Cloth.createParallelepiped, Cloth.createRigidBody. grow_go. Qed.

End ClothWallBuilt.

Section ClothWallRows.
Context `{Engine}.

(** The meshes of one row, read back brick by brick. *)
Lemma rowMeshes_spec oddRow nRow idxs : forall pos b,
  (forall i m, rowMeshes oddRow nRow idxs pos b !! i = Some m ->
     exists idx, idxs !! i = Some idx /\
       THREE.geometry m
       = THREE.Box Cloth.brickDepth Cloth.brickHeight
           (if oddRow && ((idx =? 0)%nat || (idx =? nRow - 1)%nat)
            then Cloth.brickLength * 0.5 else Cloth.brickLength) /\
       vx (THREE.position m) = vx pos /\ vy (THREE.position m) = vy pos) /\
  (forall m, rowMeshes oddRow nRow idxs pos b !! 0%nat = Some m ->
     vz (THREE.position m) = vz pos) /\
  (forall i m m',
     rowMeshes oddRow nRow idxs pos b !! i = Some m ->
     rowMeshes oddRow nRow idxs pos b !! S i = Some m' ->
     exists idx, idxs !! i = Some idx /\
       vz (THREE.position m')
       = vz (THREE.position m)
         + (if oddRow && ((idx =? 0)%nat || (idx =? nRow - 2)%nat)
            then 0.75 * Cloth.brickLength else Cloth.brickLength)).
Proof.
  induction idxs as [| a idxs IH]; intros pos b.
  - split; [| split]; intros; discriminate.
  - cbn [rowMeshes].
    match goal with
    | |- context [rowMeshes oddRow nRow idxs ?p ?c] =>
        destruct (IH p c) as (IHa & IHb & IHc)
    end.
    cbn [vx vy vz] in IHa, IHb.
    split; [| split].
    + intros [| i] m Hm.
      * apply (inj Some) in Hm. subst m. exists a. repeat split; reflexivity.
      * exact (IHa i m Hm).
    + intros m Hm. apply (inj Some) in Hm. subst m. reflexivity.
    + intros [| i] m m' Hm Hm'.
      * apply (inj Some) in Hm. subst m. exists a. split; [reflexivity |].
        exact (IHb m' Hm').
      * exact (IHc i m m' Hm Hm').
Qed.

Lemma rowLaid_rowMeshes j y b :
  rowLaid j
    (rowMeshes (j mod 2 =? 1)%nat
       (if (j mod 2 =? 1)%nat then (Cloth.numBricksLength + 1)%nat else Cloth.numBricksLength)
       (seq 0 (if (j mod 2 =? 1)%nat then (Cloth.numBricksLength + 1)%nat
               else Cloth.numBricksLength))
       (mkVec3 0 y (if (j mod 2 =? 1)%nat then Cloth.z0 - 0.25 * Cloth.brickLength
                    else Cloth.z0)) b).
Proof.
  unfold rowLaid. cbv zeta.
  set (oddRow := (j mod 2 =? 1)%nat).
  set (nRow := if oddRow then (Cloth.numBricksLength + 1)%nat else Cloth.numBricksLength).
  set (pos := mkVec3 0 y _).
  destruct (rowMeshes_spec oddRow nRow (seq 0 nRow) pos b) as (Ha & Hb & Hc).
  split; [rewrite rowMeshes_length; apply length_seq |].
  split; [| split].
  - intros i m Hm. destruct (Ha i m Hm) as (idx & Hi & Hg & Hx & _).
    apply lookup_seq in Hi. destruct Hi as [Hi _]. cbn in Hi. subst idx.
    split; [exact Hg | exact Hx].
  - intros m Hm. rewrite (Hb m Hm). reflexivity.
  - intros i m m' Hm Hm'.
    destruct (Ha i m Hm) as (_ & _ & _ & _ & Hy).
    destruct (Ha (S i) m' Hm') as (_ & _ & _ & _ & Hy').
    destruct (Hc i m m' Hm Hm') as (idx & Hi & Hz).
    apply lookup_seq in Hi. destruct Hi as [Hi _]. cbn in Hi. subst idx.
    split; [congruence | exact Hz].
Qed.

(** The outer loop: row after row, each one [brickHeight] above the one
    before. *)
Lemma wallRows_laid js : forall pos s,
  bodyUp s -> vx pos = 0 ->
  exists p s' rows,
    Cloth.wallRows js pos s = (Ret p, s') /\ bodyUp s' /\
    Cloth.rigidBodies s' = Cloth.rigidBodies s ++ concat rows /\
    length rows = length js /\
    (forall k j row, js !! k = Some j -> rows !! k = Some row -> rowLaid j row) /\
    (forall row m, rows !! 0%nat = Some row -> row !! 0%nat = Some m ->
       vy (THREE.position m) = vy pos) /\
    (forall k row row' m m',
       rows !! k = Some row -> rows !! S k = Some row' ->
       row !! 0%nat = Some m -> row' !! 0%nat = Some m' ->
       vy (THREE.position m') = vy (THREE.position m) + Cloth.brickHeight).
Proof.
  induction js as [| j js IH]; intros pos s Hup Hx.
  - exists pos, s, []. cbn [Cloth.wallRows]. unfold ret. cbn [concat]. rewrite app_nil_r.
    split; [reflexivity |]. split; [exact Hup |]. split; [reflexivity |].
    split; [reflexivity |].
    split; [intros k j row Hk; destruct k; discriminate Hk |].
    split; [intros row m Hr; discriminate Hr | intros k row row' m m' Hr; discriminate Hr].
  - destruct (proj1 Hup) as [heap Hh]. rewrite wallRows_cons.
    match goal with
    | |- context [bind (Cloth.brickRow ?o ?n ?l ?p) ?k s] =>
        destruct (brickRow_lays o n l p s heap Hup Hh)
          as (p1 & s1 & heap1 & E1 & U1 & _ & X1 & Y1 & R1 & _);
        rewrite (bind_Ret _ k s p1 s1 E1)
    end.
    cbn [vx vy] in X1, Y1.
    destruct (IH (mkVec3 (vx p1) (vy p1 + Cloth.brickHeight) (vz p1)) s1 U1
                ltac:(cbn [vx]; congruence))
      as (p' & s2 & rows & E2 & U2 & R2 & L2 & A2 & B2 & C2).
    cbn [vx vy] in B2. rewrite Y1 in B2.
    rewrite Hx in R1.
    match type of R1 with
    | _ = _ ++ ?r0 =>
        assert (HL0 : rowLaid j r0) by apply rowLaid_rowMeshes;
        assert (HY0 : forall m, r0 !! 0%nat = Some m -> vy (THREE.position m) = vy pos);
        [intros m Hm;
         destruct (proj1 (rowMeshes_spec _ _ _ _ _) 0%nat m Hm) as (_ & _ & _ & _ & Hy);
         exact Hy |];
        set (row0 := r0) in *
    end.
    exists p', s2, (row0 :: rows). split; [exact E2 |]. split; [exact U2 |].
    split; [rewrite R2, R1, <- app_assoc; reflexivity |].
    split; [cbn [length]; rewrite L2; reflexivity |].
    split; [| split].
    + intros k j' row Hk Hrow. destruct k as [| k].
      * apply (inj Some) in Hk, Hrow. subst j' row. exact HL0.
      * exact (A2 k j' row Hk Hrow).
    + intros row m Hrow Hm. apply (inj Some) in Hrow. subst row. exact (HY0 m Hm).
    + intros k row row' m m' Hrow Hrow' Hm Hm'. destruct k as [| k].
      * apply (inj Some) in Hrow. subst row.
        rewrite (B2 row' m' Hrow' Hm'), (HY0 m Hm). reflexivity.
      * exact (C2 k row row' m m' Hrow Hrow' Hm Hm').
Qed.

End ClothWallRows.

(** X18: [createObjects] builds the wall as eight rows of bricks, appended
    row by row to the list of dynamic meshes, each row laid out as the loops
    step through it: six whole bricks in an even row, seven in an odd row
    with the first and the last halved; the first brick centred at [z0], or a
    quarter brick before it in an odd row; each next brick centred
    [brickLength] further, or [0.75 * brickLength] further next to a half
    brick.  The first row is centred at height [brickHeight * 0.5] and each
    row [brickHeight] above the one before, all in the plane [x = 0]. *)
Theorem wall_rows_laid `{Engine} s :
  bodyUp s ->
  let s' := snd (Cloth.createObjects s) in
  fst (Cloth.createObjects s) = Ret tt /\
  exists rows more,
    Cloth.rigidBodies s' = Cloth.rigidBodies s ++ concat rows ++ more /\
    length rows = Cloth.numBricksHeight /\
    (forall j row, rows !! j = Some row -> rowLaid j row) /\
    (forall row m, rows !! 0%nat = Some row -> row !! 0%nat = Some m ->
       vy (THREE.position m) = Cloth.brickHeight * 0.5) /\
    (forall j row row' m m',
       rows !! j = Some row -> rows !! S j = Some row' ->
       row !! 0%nat = Some m -> row' !! 0%nat = Some m' ->
       vy (THREE.position m') = vy (THREE.position m) + Cloth.brickHeight).
Proof.
  intros Hup s'.
  destruct (createObjects_built (fun _ => True) (fun _ _ _ _ _ _ _ _ _ => I)
              (fun _ _ _ _ _ => I) s Hup I) as (sE & ? & ? & ? & ? & ? & ? & E & _).
  split; [rewrite E; reflexivity |]. clear E. subst s'.
  unfold Cloth.createObjects.
  destruct (proj1 Hup) as [heap Hh].
  destruct (createParallelepiped_built 40 1 40 0 (mkVec3 0 (-0.5) 0) qidentity s heap Hup Hh)
    as (s0 & E0 & U0 & _ & _ & R0).
  rewrite (bind_Ret _ _ _ _ _ E0).
  destruct (Rlt_dec 0 0) as [Hlt | _] in R0; [lra |]. rewrite app_nil_r in R0.
  destruct (wallRows_laid (seq 0 Cloth.numBricksHeight)
              (mkVec3 0 (Cloth.brickHeight * 0.5) Cloth.z0) s0 U0 eq_refl)
    as (p & s1 & rows & E1 & _ & R1 & L1 & A1 & B1 & C1).
  rewrite (bind_Ret _ _ _ _ _ E1). cbn beta.
  match goal with
  | |- context [snd (?c s1)] =>
      assert (F : framed bodiesGrow c);
        [| destruct (F s1) as [more Hm]; exists rows, more ]
  end.
  { do 8 (f_bind; [grow_go | intros ?]).
    destruct (Ammo.CreatePatch _ _ _ _ _ _); [| grow_go].
    do 4 (f_bind; [grow_go | intros ?]).
    do 3 (f_bind; [apply bodiesGrow_createParallelepiped | intros ?]).
    unfold Cloth.rigidOf, Cloth.alterSoft. grow_go. }
  split; [rewrite Hm, R1, R0, <- app_assoc; reflexivity |].
  rewrite length_seq in L1. split; [exact L1 |].
  split; [| split; [exact B1 | exact C1]].
  intros j row Hrow.
  assert (Hj : (j < Cloth.numBricksHeight)%nat)
    by (rewrite <- L1; eapply lookup_lt_Some; exact Hrow).
  exact (A1 j j row (lookup_seq_lt _ _ _ Hj) Hrow).
Qed.

Lemma wall_rows_laid_witness :
  let s' := snd (@Cloth.createObjects demoEngine clothGround) in
  fst (@Cloth.createObjects demoEngine clothGround) = Ret tt /\
  exists rows more,
    Cloth.rigidBodies s' = Cloth.rigidBodies clothGround ++ concat rows ++ more /\
    length rows = Cloth.numBricksHeight /\
    (forall j row, rows !! j = Some row -> rowLaid j row) /\
    (forall row m, rows !! 0%nat = Some row -> row !! 0%nat = Some m ->
       vy (THREE.position m) = Cloth.brickHeight * 0.5) /\
    (forall j row row' m m',
       rows !! j = Some row -> rows !! S j = Some row' ->
       row !! 0%nat = Some m -> row' !! 0%nat = Some m' ->
       vy (THREE.position m') = vy (THREE.position m) + Cloth.brickHeight).
Proof.
  exact (@wall_rows_laid demoEngine clothGround (proj1 clothGround_ready)).
Defined.

(** ** The animation loop never forks *)

Section Loop.
Context {St P : Type} (ph : St -> P) (pend : St -> nat).

#[local] Instance sameLoop_refl : Reflexive (sameLoop ph pend).
Proof. intros s. split; reflexivity. Qed.

#[local] Instance sameLoop_trans : Transitive (sameLoop ph pend).
Proof. intros a b c [P1 Q1] [P2 Q2]. split; congruence. Qed.

Lemma one_of_same {A} (c : Exec St A) :
  framed (sameLoop ph pend) c -> framed (oneMoreFrame ph pend) c.
Proof. intros Hc s. destruct (Hc s) as [Hp Hq]. split; [exact Hp | lia]. Qed.

Lemma one_bind {A B} (c : Exec St A) (k : A -> Exec St B) :
  framed (sameLoop ph pend) c -> (forall a, framed (oneMoreFrame ph pend) (k a)) ->
  framed (oneMoreFrame ph pend) (bind c k).
Proof.
  intros Hc Hk s. destruct (Hc s) as [Hp Hq]. unfold bind.
  destruct (c s) as [[a | e] s1]; cbn [snd] in *.
  - destruct (Hk a s1) as [Hp1 Hq1]. split; [congruence | lia].
  - split; [exact Hp | lia].
Qed.

Lemma one_try_catch {A} (c : Exec St A) (h : Error -> Exec St A) :
  framed (oneMoreFrame ph pend) c -> (forall e, framed (sameLoop ph pend) (h e)) ->
  framed (oneMoreFrame ph pend) (try_catch c h).
Proof.
  intros Hc Hh s. destruct (Hc s) as [Hp Hq]. unfold try_catch.
  destruct (c s) as [[a | e] s1]; cbn [snd] in *.
  - split; assumption.
  - destruct (Hh e s1) as [Hp1 Hq1]. split; [congruence | lia].
Qed.

End Loop.

#[local] Existing Instance sameLoop_refl.
#[local] Existing Instance sameLoop_trans.

(** The goal of a turn that changes neither phase nor queue. *)
Ltac loop_unchanged :=
  split; [intros Hx; split; [congruence | lia] | intros _; split; intros; lia].

Section CurtainLoop.
Context `{Engine}.




Lemma same_assertReady : framed (sameLoop Curtain.phase curtainQueue) Curtain.assertReady.
Proof.
  intros s. unfold Curtain.assertReady.
  destruct (Curtain.scene s), (Curtain.camera s), (Curtain.renderer s); reflexivity.
Qed.

Lemma same_createCurtains : framed (sameLoop Curtain.phase curtainQueue) Curtain.createCurtains.
Proof.
  unfold Curtain.createCurtains, Curtain.createRod, Curtain.mk, Curtain.makePatch,
    Curtain.setClothBody, Curtain.anchorRow, Curtain.computeViewSize, Curtain.log.
  framed_go; apply same_assertReady.
Qed.

Lemma same_initPhysics : framed (sameLoop Curtain.phase curtainQueue) Curtain.initPhysics.
Proof. unfold Curtain.initPhysics. framed_go. Qed.

Lemma same_report e : framed (sameLoop Curtain.phase curtainQueue) (Curtain.report e).
Proof. unfold Curtain.report. framed_go. Qed.

Lemma same_set_AmmoLib v s :
  sameLoop Curtain.phase curtainQueue s (Curtain.set_AmmoLib v s).
Proof. destruct s; split; reflexivity. Qed.

Lemma same_set_calls v s : sameLoop Curtain.phase curtainQueue s (Curtain.set_calls v s).
Proof. destruct s; split; reflexivity. Qed.

Lemma same_set_rod sd v s : sameLoop Curtain.phase curtainQueue s (Curtain.set_rod sd v s).
Proof. destruct sd, s; split; reflexivity. Qed.

Lemma same_set_cloth sd (m : THREE.Mesh) (g : THREE.BufferGeometry) (arr' : list R) s :
  Curtain.cloth sd s = Some m -> THREE.geometry m = THREE.Buffer g ->
  length arr' = length (THREE.array (THREE.attr_position g)) ->
  sameLoop Curtain.phase curtainQueue s
    (Curtain.set_cloth sd
       (Some (THREE.set_geometry (THREE.Buffer (Curtain.refreshGeometry arr' g)) m)) s).
Proof. intros _ _ _. destruct sd, s; split; reflexivity. Qed.

Lemma one_present t : framed (oneMoreFrame Curtain.phase curtainQueue) (Curtain.present t).
Proof.
  intros s. unfold Curtain.present, bind, modify, deref, Curtain.log, modify, curtainQueue.
  destruct s as [rd ? ? ? ? ? ? ? ? ? ? ? ? ? ? ? ? ? ?].
  destruct rd; cbn; split; try reflexivity; lia.
Qed.

Lemma one_animate now : framed (oneMoreFrame Curtain.phase curtainQueue) (Curtain.animate now).
Proof.
  intros s. unfold Curtain.animate.
  destruct (Curtain.renderer s), (Curtain.scene s), (Curtain.camera s);
    try (split; [reflexivity | cbn [snd]; lia]).
  revert s. change (framed (oneMoreFrame Curtain.phase curtainQueue) (Curtain.frame now)).
  unfold Curtain.frame.
  apply one_bind.
  { intros s. rewrite tickClock_eq. destruct s; split; reflexivity. }
  intros dt. apply one_bind; [f_leaf | intros t].
  apply one_bind.
  { f_bind; [f_leaf | intros x].
    apply (framed_moveRod _ same_set_AmmoLib same_set_calls same_set_rod). }
  intros _. apply one_bind.
  { f_bind; [f_leaf | intros x].
    apply (framed_moveRod _ same_set_AmmoLib same_set_calls same_set_rod). }
  intros _. apply one_bind; [| intros _; apply one_present].
  f_bind; [f_leaf | intros [world |]].
  - f_bind; [f_leaf | intros [heap |]]; [| f_leaf].
    apply (framed_physicsStep _ same_set_AmmoLib same_set_calls same_set_cloth).
  - f_bind; [f_leaf | intros lib]. f_leaf.
Qed.

Lemma one_bootTail now : framed (oneMoreFrame Curtain.phase curtainQueue) (Curtain.bootTail now).
Proof.
  unfold Curtain.bootTail.
  apply one_bind; [apply same_createCurtains | intros _].
  apply one_bind; [| intros _; apply one_animate].
  apply (framed_modify _). intros s. unfold Curtain.onScroll. destruct s; split; reflexivity.
Qed.

(** One turn of the event loop: the phase never goes back, and a callback
    is queued only by the boot sequence, or by a frame in place of the one it
    consumed. *)
Lemma handle_queue now e s :
  let s' := Curtain.handle now e s in
  (Curtain.phase s = Curtain.BootEnded ->
   Curtain.phase s' = Curtain.BootEnded /\ (curtainQueue s' <= curtainQueue s)%nat) /\
  (Curtain.phase s <> Curtain.BootEnded ->
   (curtainQueue s' <= S (curtainQueue s))%nat /\
   (Curtain.phase s' <> Curtain.BootEnded -> (curtainQueue s' <= curtainQueue s)%nat)).
Proof.
  assert (Hboot : forall c s0,
             framed (oneMoreFrame Curtain.phase curtainQueue) c ->
             Curtain.phase (snd (try_catch c Curtain.report s0)) = Curtain.phase s0 /\
             (curtainQueue (snd (try_catch c Curtain.report s0)) <= S (curtainQueue s0))%nat).
  { intros c s0 Hc. exact (one_try_catch _ _ c Curtain.report Hc same_report s0). }
  assert (Hrep : forall err s0,
             Curtain.phase (snd (Curtain.report err s0)) = Curtain.phase s0 /\
             curtainQueue (snd (Curtain.report err s0)) = curtainQueue s0).
  { intros err s0. exact (same_report err s0). }
  assert (Hset : forall p, curtainQueue (Curtain.set_phase p s) = curtainQueue s)
    by (intros p; destruct s; reflexivity).
  destruct e; cbn [Curtain.handle]; cbv zeta.
  - (* the script has loaded *)
    destruct (Curtain.phase s) eqn:Hp; try (loop_unchanged).
    split; [discriminate |]. intros _. destruct windowAmmo.
    + rewrite Hset. split; intros; lia.
    + destruct (Hboot (Curtain.bootTail now) (Curtain.set_phase Curtain.BootEnded s)
                  (one_bootTail now)) as [Hp' Hq'].
      rewrite Hset in Hq'. split; [exact Hq' |]. intros Hn. destruct Hn. rewrite Hp'.
      destruct s; reflexivity.
  - (* the script failed to load *)
    destruct (Curtain.phase s) eqn:Hp; try (loop_unchanged).
    split; [discriminate |]. intros _.
    destruct (Hrep (LoadFailure src) (Curtain.set_phase Curtain.BootEnded s)) as [Hp' Hq'].
    rewrite Hset in Hq'. rewrite Hq'. split; [lia |]. intros Hn. destruct Hn. rewrite Hp'.
    destruct s; reflexivity.
  - (* the engine resolved *)
    destruct (Curtain.phase s) eqn:Hp; try (loop_unchanged).
    split; [discriminate |]. intros _.
    match goal with
    | |- context [try_catch ?c Curtain.report ?s0] =>
        destruct (Hboot c s0) as [Hp' Hq'];
          [apply one_bind; [apply same_initPhysics | intros _; apply one_bootTail] |];
        replace (curtainQueue s0) with (curtainQueue s) in Hq' by (destruct s; reflexivity);
        split; [exact Hq' |]; intros Hn; destruct Hn; rewrite Hp'
    end.
    destruct s; reflexivity.
  - (* the engine rejected *)
    destruct (Curtain.phase s) eqn:Hp; try (loop_unchanged).
    split; [discriminate |]. intros _.
    destruct (Hrep AmmoInitFailure (Curtain.set_phase Curtain.BootEnded s)) as [Hp' Hq'].
    rewrite Hset in Hq'. rewrite Hq'. split; [lia |]. intros Hn. destruct Hn. rewrite Hp'.
    destruct s; reflexivity.
  - (* a frame callback fires *)
    destruct (pendingFrames (Curtain.browser s)) as [| n] eqn:Hq;
      [loop_unchanged |].
    match goal with
    | |- context [try_catch ?c Curtain.report ?s0] =>
        destruct (Hboot c s0 (one_animate now)) as [Hp' Hq'];
        replace (Curtain.phase s0) with (Curtain.phase s) in Hp' by (destruct s; reflexivity);
        replace (curtainQueue s0) with n in Hq' by (destruct s; reflexivity)
    end.
    assert (Hqs : curtainQueue s = S n) by exact Hq.
    rewrite Hp', Hqs. split; [intros Hp; split; [exact Hp | exact Hq'] |].
    intros _. split; [lia | intros _; exact Hq'].
  - (* scroll *)
    match goal with
    | |- context [if ?b then Curtain.onScroll ?s1 else _] =>
        assert (Es : sameLoop Curtain.phase curtainQueue s
                       (if b then Curtain.onScroll s1 else s1))
          by (unfold Curtain.onScroll; destruct b, s; split; reflexivity);
        destruct Es as [Ep Eq]; rewrite Ep, Eq
    end.
    loop_unchanged.
  - (* resize *)
    match goal with
    | |- context [if ?b then Curtain.onResize ?s1 else _] =>
        assert (Es : sameLoop Curtain.phase curtainQueue s
                       (if b then Curtain.onResize s1 else s1))
    end.
    { unfold Curtain.onResize.
      match goal with |- context [if ?b then _ else _] => destruct b end;
        destruct s as [rd ? cm ? ? ? ? ? ? ? ? ? ? ? ? ? ? ? ?]; cbn;
        try destruct rd; try destruct cm; split; reflexivity. }
    destruct Es as [Ep Eq]. rewrite Ep, Eq.
    loop_unchanged.
  - (* unmount *)
    assert (Es : sameLoop Curtain.phase curtainQueue s
                   (Curtain.set_browser
                      (set_container false (Curtain.browser (Curtain.cleanup s)))
                      (Curtain.cleanup s)))
      by (unfold Curtain.cleanup; destruct s; split; reflexivity).
    destruct Es as [Ep Eq]. rewrite Ep, Eq.
    loop_unchanged.
Qed.

Lemma run_queue evs : forall s,
  (curtainQueue s <= 1)%nat ->
  (Curtain.phase s <> Curtain.BootEnded -> curtainQueue s = 0%nat) ->
  (curtainQueue (Curtain.run evs s) <= 1)%nat /\
  (Curtain.phase (Curtain.run evs s) <> Curtain.BootEnded ->
   curtainQueue (Curtain.run evs s) = 0%nat).
Proof.
  induction evs as [| [now e] evs IH]; intros s H1 H0; [split; assumption |].
  change (Curtain.run ((now, e) :: evs) s) with (Curtain.run evs (Curtain.handle now e s)).
  destruct (handle_queue now e s) as [Hb Hn]. cbv zeta in Hb, Hn.
  destruct (Curtain.phase s) eqn:Hp.
  4:{ destruct (Hb eq_refl) as [Hp' Hq']. apply IH; [lia |]. intros Hne. contradiction. }
  all: destruct Hn as [Hq1 Hq0]; [discriminate |];
    rewrite (H0 ltac:(discriminate)) in Hq1, Hq0;
    apply IH; [exact Hq1 | intros Hne; specialize (Hq0 Hne); lia].
Qed.

End CurtainLoop.

(** X19: the curtain scene never runs more than one animation loop.
    Mounted in a browser with no frame callback queued, and whatever events
    follow in whatever order (script and engine outcomes, frames, scrolls,
    resizes, unmount), at most one frame callback is queued at any time and
    none before the boot sequence has ended; once it has ended no event adds
    to the queue, so a loop that has stopped is never started again. *)
Theorem curtain_single_loop `{Engine} b evs :
  pendingFrames b = 0%nat ->
  let s := Curtain.run evs (Curtain.mount (Curtain.initial b)) in
  (pendingFrames (Curtain.browser s) <= 1)%nat /\
  (Curtain.phase s <> Curtain.BootEnded -> pendingFrames (Curtain.browser s) = 0%nat) /\
  forall now e,
    Curtain.phase s = Curtain.BootEnded ->
    (pendingFrames (Curtain.browser (Curtain.handle now e s))
     <= pendingFrames (Curtain.browser s))%nat.
Proof.
  intros Hb s.
  assert (Hq : curtainQueue (Curtain.mount (Curtain.initial b)) = 0%nat).
  { unfold curtainQueue, Curtain.mount, Curtain.initGraphics. cbn.
    destruct (container b); exact Hb. }
  destruct (run_queue evs (Curtain.mount (Curtain.initial b))) as [H1 H0].
  - rewrite Hq. lia.
  - intros _. exact Hq.
  - split; [exact H1 |]. split; [exact H0 |].
    intros now e Hp. exact (proj2 (proj1 (handle_queue now e s) Hp)).
Qed.

Lemma curtain_single_loop_witness :
  pendingFrames demoBrowser = 0%nat /\
  let s := @Curtain.run demoEngine
             [(0, Curtain.ScriptLoaded true); (16, Curtain.AmmoResolved); (32, Curtain.Frame);
              (48, Curtain.Scroll 100); (64, Curtain.Unmount); (80, Curtain.Frame)]
             (Curtain.mount (Curtain.initial demoBrowser)) in
  (pendingFrames (Curtain.browser s) <= 1)%nat /\
  (Curtain.phase s <> Curtain.BootEnded -> pendingFrames (Curtain.browser s) = 0%nat) /\
  forall now e,
    Curtain.phase s = Curtain.BootEnded ->
    (pendingFrames (Curtain.browser (@Curtain.handle demoEngine now e s))
     <= pendingFrames (Curtain.browser s))%nat.
Proof.
  split; [reflexivity |].
  exact (@curtain_single_loop demoEngine demoBrowser _ eq_refl).
Defined.

Section ClothLoop.
Context `{Engine}.

Lemma same_createParallelepiped sx sy sz mass pos quat :
  framed (sameLoop Cloth.phase clothQueue)
         (Cloth.createParallelepiped sx sy sz mass pos quat).
Proof. unfold Cloth.createParallelepiped, Cloth.createRigidBody. framed_go. Qed.

Lemma same_brickRow oddRow nRow idxs : forall pos,
  framed (sameLoop Cloth.phase clothQueue) (Cloth.brickRow oddRow nRow idxs pos).
Proof.
  induction idxs as [| i idxs IH]; intros pos; cbn [Cloth.brickRow]; [framed_go |].
  f_bind; [apply same_createParallelepiped | intros _; apply IH].
Qed.

Lemma same_wallRows js : forall pos,
  framed (sameLoop Cloth.phase clothQueue) (Cloth.wallRows js pos).
Proof.
  induction js as [| j js IH]; intros pos; cbn [Cloth.wallRows]; [framed_go |].
  f_bind; [apply same_brickRow | intros p; apply IH].
Qed.

Lemma same_createObjects : framed (sameLoop Cloth.phase clothQueue) Cloth.createObjects.
Proof.
  unfold Cloth.createObjects.
  f_bind; [apply same_createParallelepiped | intros _].
  f_bind; [apply same_wallRows | intros _].
  do 8 (f_bind; [framed_go | intros ?]).
  destruct (Ammo.CreatePatch _ _ _ _ _ _); [| framed_go].
  do 4 (f_bind; [framed_go | intros ?]).
  do 3 (f_bind; [apply same_createParallelepiped | intros ?]).
  unfold Cloth.rigidOf, Cloth.alterSoft. framed_go.
Qed.

Lemma same_cloth_initGraphics : framed (sameLoop Cloth.phase clothQueue) Cloth.initGraphics.
Proof. unfold Cloth.initGraphics. framed_go. Qed.

Lemma same_cloth_initPhysics : framed (sameLoop Cloth.phase clothQueue) Cloth.initPhysics.
Proof. unfold Cloth.initPhysics. framed_go. Qed.

Lemma same_cloth_report e : framed (sameLoop Cloth.phase clothQueue) (Cloth.report e).
Proof. unfold Cloth.report. framed_go. Qed.

Lemma one_cloth_animate now :
  framed (oneMoreFrame Cloth.phase clothQueue) (Cloth.animate now).
Proof.
  unfold Cloth.animate.
  apply one_bind.
  { intros s. rewrite cloth_tickClock_eq. destruct s; split; reflexivity. }
  intros dt. apply one_bind; [unfold Cloth.log; framed_go | intros _].
  apply one_bind; [unfold Cloth.syncCloth, Cloth.log; framed_go | intros _].
  apply one_bind; [f_leaf | intros r].
  apply one_bind; [framed_go | intros _].
  apply one_bind; [unfold Cloth.log; framed_go | intros _].
  intros s. unfold bind, modify, Cloth.log, modify, clothQueue.
  destruct s. split; [reflexivity |].
  unfold Cloth.set_calls, Cloth.set_browser, set_pendingFrames. cbn. lia.
Qed.

Lemma one_cloth_bootTail now :
  framed (oneMoreFrame Cloth.phase clothQueue) (Cloth.bootTail now).
Proof.
  unfold Cloth.bootTail.
  apply one_bind; [apply same_cloth_initGraphics | intros _].
  apply one_bind; [apply same_cloth_initPhysics | intros _].
  apply one_bind; [apply same_createObjects | intros _].
  apply one_bind; [| intros _; apply one_cloth_animate].
  apply (framed_modify _). intros s. unfold Cloth.initInput. destruct s; split; reflexivity.
Qed.

Lemma cloth_handle_queue now e s :
  let s' := Cloth.handle now e s in
  (Cloth.phase s = Cloth.BootEnded ->
   Cloth.phase s' = Cloth.BootEnded /\ (clothQueue s' <= clothQueue s)%nat) /\
  (Cloth.phase s <> Cloth.BootEnded ->
   (clothQueue s' <= S (clothQueue s))%nat /\
   (Cloth.phase s' <> Cloth.BootEnded -> (clothQueue s' <= clothQueue s)%nat)).
Proof.
  assert (Hboot : forall c s0,
             framed (oneMoreFrame Cloth.phase clothQueue) c ->
             Cloth.phase (snd (try_catch c Cloth.report s0)) = Cloth.phase s0 /\
             (clothQueue (snd (try_catch c Cloth.report s0)) <= S (clothQueue s0))%nat).
  { intros c s0 Hc. exact (one_try_catch _ _ c Cloth.report Hc same_cloth_report s0). }
  assert (Hrep : forall err s0,
             Cloth.phase (snd (Cloth.report err s0)) = Cloth.phase s0 /\
             clothQueue (snd (Cloth.report err s0)) = clothQueue s0).
  { intros err s0. exact (same_cloth_report err s0). }
  assert (Hset : forall p, clothQueue (Cloth.set_phase p s) = clothQueue s)
    by (intros p; destruct s; reflexivity).
  destruct e; cbn [Cloth.handle]; cbv zeta.
  - (* the script has loaded *)
    destruct (Cloth.phase s) eqn:Hp; try loop_unchanged.
    split; [discriminate |]. intros _. destruct windowAmmo.
    + rewrite Hset. split; intros; lia.
    + destruct (Hrep AmmoLoaderMissing (Cloth.set_phase Cloth.BootEnded s)) as [Hp' Hq'].
      rewrite Hset in Hq'. rewrite Hq'. split; [lia |]. intros Hn. destruct Hn. rewrite Hp'.
      destruct s; reflexivity.
  - (* the script failed to load *)
    destruct (Cloth.phase s) eqn:Hp; try loop_unchanged.
    split; [discriminate |]. intros _.
    destruct (Hrep (LoadFailure src) (Cloth.set_phase Cloth.BootEnded s)) as [Hp' Hq'].
    rewrite Hset in Hq'. rewrite Hq'. split; [lia |]. intros Hn. destruct Hn. rewrite Hp'.
    destruct s; reflexivity.
  - (* the engine resolved *)
    destruct (Cloth.phase s) eqn:Hp; try loop_unchanged.
    split; [discriminate |]. intros _.
    match goal with
    | |- context [try_catch ?c Cloth.report ?s0] =>
        destruct (Hboot c s0 (one_cloth_bootTail now)) as [Hp' Hq'];
        replace (clothQueue s0) with (clothQueue s) in Hq' by (destruct s; reflexivity);
        split; [exact Hq' |]; intros Hn; destruct Hn; rewrite Hp'
    end.
    destruct s; reflexivity.
  - (* the engine rejected *)
    destruct (Cloth.phase s) eqn:Hp; try loop_unchanged.
    split; [discriminate |]. intros _.
    destruct (Hrep AmmoInitFailure (Cloth.set_phase Cloth.BootEnded s)) as [Hp' Hq'].
    rewrite Hset in Hq'. rewrite Hq'. split; [lia |]. intros Hn. destruct Hn. rewrite Hp'.
    destruct s; reflexivity.
  - (* a frame callback fires *)
    destruct (pendingFrames (Cloth.browser s)) as [| n] eqn:Hq; [loop_unchanged |].
    match goal with
    | |- context [try_catch ?c Cloth.report ?s0] =>
        destruct (Hboot c s0 (one_cloth_animate now)) as [Hp' Hq'];
        replace (Cloth.phase s0) with (Cloth.phase s) in Hp' by (destruct s; reflexivity);
        replace (clothQueue s0) with n in Hq' by (destruct s; reflexivity)
    end.
    assert (Hqs : clothQueue s = S n) by exact Hq.
    rewrite Hp', Hqs. split; [intros Hp; split; [exact Hp | exact Hq'] |].
    intros _. split; [lia | intros _; exact Hq'].
  - (* key down *)
    match goal with
    | |- context [if ?b then Cloth.keydown ?c ?s1 else _] =>
        assert (Es : sameLoop Cloth.phase clothQueue s (if b then Cloth.keydown c s1 else s1))
    end.
    { unfold Cloth.keydown.
      repeat match goal with |- context [if ?b then _ else _] => destruct b end;
        destruct s; split; reflexivity. }
    destruct Es as [Ep Eq]. rewrite Ep, Eq. loop_unchanged.
  - (* key up *)
    match goal with
    | |- context [if ?b then Cloth.keyup ?s1 else _] =>
        assert (Es : sameLoop Cloth.phase clothQueue s (if b then Cloth.keyup s1 else s1))
          by (unfold Cloth.keyup; destruct b, s; split; reflexivity)
    end.
    destruct Es as [Ep Eq]. rewrite Ep, Eq. loop_unchanged.
  - (* resize *)
    match goal with
    | |- context [if ?b then Cloth.onWindowResize ?s1 else _] =>
        assert (Es : sameLoop Cloth.phase clothQueue s
                       (if b then Cloth.onWindowResize s1 else s1))
    end.
    { unfold Cloth.onWindowResize.
      match goal with |- context [if ?b then _ else _] => destruct b end;
        destruct s as [rd ? ? ? ? ? ? ? ? ? ? ? ? ? ?]; cbn;
        try destruct rd; split; reflexivity. }
    destruct Es as [Ep Eq]. rewrite Ep, Eq. loop_unchanged.
  - (* unmount *)
    assert (Es : sameLoop Cloth.phase clothQueue s
                   (Cloth.set_browser
                      (set_container false (Cloth.browser (Cloth.cleanup s)))
                      (Cloth.cleanup s))).
    { unfold Cloth.cleanup. destruct s as [rd ? ? ? ? ? ? ? ? ? ? ? ? ? ?]; cbn.
      destruct rd; split; reflexivity. }
    destruct Es as [Ep Eq]. rewrite Ep, Eq. loop_unchanged.
Qed.

Lemma cloth_run_queue evs : forall s,
  (clothQueue s <= 1)%nat ->
  (Cloth.phase s <> Cloth.BootEnded -> clothQueue s = 0%nat) ->
  (clothQueue (Cloth.run evs s) <= 1)%nat /\
  (Cloth.phase (Cloth.run evs s) <> Cloth.BootEnded ->
   clothQueue (Cloth.run evs s) = 0%nat).
Proof.
  induction evs as [| [now e] evs IH]; intros s H1 H0; [split; assumption |].
  change (Cloth.run ((now, e) :: evs) s) with (Cloth.run evs (Cloth.handle now e s)).
  destruct (cloth_handle_queue now e s) as [Hb Hn]. cbv zeta in Hb, Hn.
  destruct (Cloth.phase s) eqn:Hp.
  4:{ destruct (Hb eq_refl) as [Hp' Hq']. apply IH; [lia |]. intros Hne. contradiction. }
  all: destruct Hn as [Hq1 Hq0]; [discriminate |];
    rewrite (H0 ltac:(discriminate)) in Hq1, Hq0;
    apply IH; [exact Hq1 | intros Hne; specialize (Hq0 Hne); lia].
Qed.

End ClothLoop.

(** X20: the cloth scene never runs more than one animation loop either,
    although its frame has no guard and its cleanup cancels nothing.  Mounted
    in a browser with no frame callback queued, and whatever events follow in
    whatever order (script and engine outcomes, frames, keys, resizes,
    unmount), at most one frame callback is queued at any time and none
    before the boot sequence has ended; once it has ended no event adds to the
    queue. *)
Theorem cloth_single_loop `{Engine} b evs :
  pendingFrames b = 0%nat ->
  let s := Cloth.run evs (Cloth.mount (Cloth.initial b)) in
  (pendingFrames (Cloth.browser s) <= 1)%nat /\
  (Cloth.phase s <> Cloth.BootEnded -> pendingFrames (Cloth.browser s) = 0%nat) /\
  forall now e,
    Cloth.phase s = Cloth.BootEnded ->
    (pendingFrames (Cloth.browser (Cloth.handle now e s))
     <= pendingFrames (Cloth.browser s))%nat.
Proof.
  intros Hb s.
  assert (Hq : clothQueue (Cloth.mount (Cloth.initial b)) = 0%nat) by exact Hb.
  destruct (cloth_run_queue evs (Cloth.mount (Cloth.initial b))) as [H1 H0].
  - rewrite Hq. lia.
  - intros _. exact Hq.
  - split; [exact H1 |]. split; [exact H0 |].
    intros now e Hp. exact (proj2 (proj1 (cloth_handle_queue now e s) Hp)).
Qed.

Lemma cloth_single_loop_witness :
  pendingFrames demoBrowser = 0%nat /\
  let s := @Cloth.run demoEngine
             [(0, Cloth.ScriptLoaded true); (16, Cloth.AmmoResolved); (32, Cloth.Frame);
              (48, Cloth.Keydown "KeyQ"); (64, Cloth.Unmount); (80, Cloth.Frame)]
             (Cloth.mount (Cloth.initial demoBrowser)) in
  (pendingFrames (Cloth.browser s) <= 1)%nat /\
  (Cloth.phase s <> Cloth.BootEnded -> pendingFrames (Cloth.browser s) = 0%nat) /\
  forall now e,
    Cloth.phase s = Cloth.BootEnded ->
    (pendingFrames (Cloth.browser (@Cloth.handle demoEngine now e s))
     <= pendingFrames (Cloth.browser s))%nat.
Proof.
  split; [reflexivity |].
  exact (@cloth_single_loop demoEngine demoBrowser _ eq_refl).
Defined.

(** ** The script loader *)

(** X21: for a source of printable ASCII characters without double quote or
    backslash, such as the one both scenes pass, [loadScript] never inserts a
    second script element: it appends one element when the document has none
    with this source and leaves the document alone otherwise, and elements
    with other sources are never touched.  A call for a source that already
    has an element, such as the second of two calls, resolves on the spot,
    before any load event and whatever that event turns out to be; only a
    call that appended the element can reject. *)
Theorem loadScript_once src scripts :
  Loader.plainSource src = true ->
  exists p scripts',
    Loader.loadScript src scripts = Some (p, scripts') /\
    count_occ string_dec scripts' src = Nat.max 1 (count_occ string_dec scripts src) /\
    (forall other, other <> src ->
       count_occ string_dec scripts' other = count_occ string_dec scripts other) /\
    (p = Loader.Resolved <-> In src scripts) /\
    (forall loaded e, Loader.settle p loaded = Throw e ->
       ~ In src scripts /\ loaded = false /\ e = LoadFailure src) /\
    Loader.loadScript src scripts' = Some (Loader.Resolved, scripts').
Proof.
  intros Hplain.
  assert (Hin : existsb (String.eqb src) scripts = true <-> In src scripts).
  { rewrite existsb_exists. split.
    - intros (x & Hx & E). apply String.eqb_eq in E. subst x. exact Hx.
    - intros Hx. exists src. split; [exact Hx | apply String.eqb_refl]. }
  assert (Hagain : forall l, In src l -> Loader.loadScript src l = Some (Loader.Resolved, l)).
  { intros l Hl. unfold Loader.loadScript. rewrite Hplain.
    replace (existsb (String.eqb src) l) with true; [reflexivity |].
    symmetry. rewrite existsb_exists. exists src. split; [exact Hl | apply String.eqb_refl]. }
  unfold Loader.loadScript at 1. rewrite Hplain.
  destruct (existsb (String.eqb src) scripts) eqn:E.
  - pose proof (proj1 Hin eq_refl) as Hs.
    exists Loader.Resolved, scripts. split; [reflexivity |].
    pose proof (proj1 (count_occ_In string_dec scripts src) Hs) as Hc.
    split; [lia |]. split; [reflexivity |].
    split; [split; [intros _; exact Hs | reflexivity] |].
    split; [intros loaded e He; discriminate He |].
    exact (Hagain scripts Hs).
  - assert (Hn : ~ In src scripts) by (intros Hs; apply Hin in Hs; discriminate Hs).
    pose proof (proj1 (count_occ_not_In string_dec scripts src) Hn) as Hc.
    exists (Loader.Awaiting src), (scripts ++ [src]). split; [reflexivity |].
    split.
    { rewrite count_occ_app, Hc. cbn [count_occ].
      destruct (string_dec src src); [reflexivity | contradiction]. }
    split.
    { intros other Ho. rewrite count_occ_app. cbn [count_occ].
      destruct (string_dec src other); [congruence | lia]. }
    split; [split; [discriminate | intros Hs; contradiction] |].
    split.
    { intros loaded e He. cbn [Loader.settle] in He. destruct loaded; [discriminate |].
      inversion He. auto. }
    apply Hagain. apply in_or_app. right. left. reflexivity.
Qed.

Lemma loadScript_once_witness :
  Loader.plainSource "/ammo/ammo.wasm.js" = true /\
  exists p scripts',
    Loader.loadScript "/ammo/ammo.wasm.js" ["/_next/static/chunks/main.js"%string]
    = Some (p, scripts') /\
    count_occ string_dec scripts' "/ammo/ammo.wasm.js"%string
    = Nat.max 1 (count_occ string_dec ["/_next/static/chunks/main.js"%string]
                   "/ammo/ammo.wasm.js"%string) /\
    (forall other, other <> "/ammo/ammo.wasm.js"%string ->
       count_occ string_dec scripts' other
       = count_occ string_dec ["/_next/static/chunks/main.js"%string] other) /\
    (p = Loader.Resolved
     <-> In "/ammo/ammo.wasm.js"%string ["/_next/static/chunks/main.js"%string]) /\
    (forall loaded e, Loader.settle p loaded = Throw e ->
       ~ In "/ammo/ammo.wasm.js"%string ["/_next/static/chunks/main.js"%string] /\
       loaded = false /\ e = LoadFailure "/ammo/ammo.wasm.js") /\
    Loader.loadScript "/ammo/ammo.wasm.js" scripts' = Some (Loader.Resolved, scripts').
Proof.
  split; [reflexivity |].
  exact (loadScript_once "/ammo/ammo.wasm.js" ["/_next/static/chunks/main.js"%string]
           eq_refl).
Defined.

(** ** The fade of the curtain scene *)

Section CurtainListeners.
Context `{Engine}.


End CurtainListeners.




(** ** The vertex sync *)

Section VertexSync.
Context `{Engine}.

(** A buffer that holds the positions of [nodes] holds those of any node
    list with the same positions. *)
Lemma triples_coincide (nodes nodes0 : list Ammo.Node) (arr : list R) n :
  (forall k, (k < n)%nat ->
     exists nd, nodes !! k = Some nd /\
                arr !! (3 * k)%nat = Some (vx (Ammo.m_x nd)) /\
                arr !! (3 * k + 1)%nat = Some (vy (Ammo.m_x nd)) /\
                arr !! (3 * k + 2)%nat = Some (vz (Ammo.m_x nd))) ->
  Ammo.m_x <$> nodes = Ammo.m_x <$> nodes0 ->
  coincide nodes0 arr n.
Proof.
  intros Hk Hx k Hlt. destruct (Hk k Hlt) as (nd & Hnd & Ex & Ey & Ez).
  apply (f_equal (fun l => l !! k)) in Hx. rewrite !list_lookup_fmap, Hnd in Hx.
  destruct (nodes0 !! k) as [nd0 |]; [| discriminate Hx].
  split; [eexists; reflexivity |].
  unfold vertexAt. rewrite Ex, Ey, Ez. rewrite <- Hx. cbn.
  destruct (Ammo.m_x nd); reflexivity.
Qed.

(** The heap a frame of the simulated curtain scene leaves has the node
    positions of the heap the solver step returned for the posed rods. *)
Lemma frame_stepped (Hlaw : KeepsNodeCounts) now s bL bR iL iR :
  Simulated bL bR iL iR s ->
  exists w heap mL mR heapOut,
    Curtain.physicsWorld s = Some w /\ Curtain.AmmoLib s = Some heap /\
    Curtain.rod LeftSide s = Some mL /\ Curtain.rod RightSide s = Some mR /\
    Curtain.AmmoLib (snd (Curtain.animate now s)) = Some heapOut /\
    keepsPositions
      (stepSimulation w
         (rodsPosed bL bR
            (rodTarget (Curtain.leftRodStartX s) (-1) (Curtain.slideDistance s)
               (Curtain.easeOutCubic (Curtain.scrollProgress s)) mL)
            (rodTarget (Curtain.rightRodStartX s) 1 (Curtain.slideDistance s)
               (Curtain.easeOutCubic (Curtain.scrollProgress s)) mR)
            heap)
         (fst (getDelta now (Curtain.clock s))) 10)
      heapOut.
Proof.
  intros (([sc Hsc] & [cam Hcam] & [rd Hrd]) & [world Hw] & (mL & HrL & HbL) & (mR & HrR & HbR)
          & (cL & gL & heap & sbL & HcL & HaL & HgL & HpL & Hh & HsL & HnL & HlL)
          & (cR & gR & heap' & sbR & HcR & HaR & HgR & HpR & Hh' & HsR & HnR & HlR)).
  assert (heap' = heap) by congruence. subst heap'. clear Hh'.
  set (t := Curtain.easeOutCubic (Curtain.scrollProgress s)).
  set (dt := fst (getDelta now (Curtain.clock s))).
  set (s0 := Curtain.set_clock (snd (getDelta now (Curtain.clock s))) s).
  pose proof (moveRod_body t LeftSide (Curtain.leftRodStartX s) (-1) s0 mL bL heap) as E1.
  cbv zeta in E1. specialize (E1 ltac:(assumption) HbL ltac:(assumption)).
  set (s1 := Curtain.set_calls _ _) in E1.
  set (heap1 := Ammo.set_bodies _ heap) in s1.
  pose proof (moveRod_body t RightSide (Curtain.rightRodStartX s) 1 s1 mR bR heap1) as E2.
  cbv zeta in E2. specialize (E2 ltac:(assumption) HbR ltac:(reflexivity)).
  set (s2 := Curtain.set_calls _ _) in E2.
  set (heap2 := Ammo.set_bodies _ heap1) in s2.
  destruct (physicsStep_eq Hlaw dt t world heap2 s2 cL gL iL sbL cR gR iR sbR)
    as (heap3 & sbL3 & sbR3 & arrL & arrR & E3 & K3 & _);
    try assumption; try reflexivity.
  set (s3 := Curtain.set_calls _ _) in E3.
  pose proof (present_eq t s3 rd ltac:(assumption)) as E4.
  set (s4 := Curtain.set_calls _ _) in E4.
  assert (E : Curtain.animate now s = (Ret tt, s4)).
  { unfold Curtain.animate. rewrite Hrd, Hsc, Hcam. unfold Curtain.frame.
    rewrite (bind_Ret _ _ _ _ _ (tickClock_eq now s)). fold dt s0.
    rewrite (bind_Ret _ _ s0 t s0) by reflexivity.
    rewrite (bind_Ret _ _ s0 tt s1).
    2:{ rewrite (bind_Ret _ _ s0 (Curtain.leftRodStartX s) s0) by reflexivity.
        exact E1. }
    rewrite (bind_Ret _ _ s1 tt s2).
    2:{ rewrite (bind_Ret _ _ s1 (Curtain.rightRodStartX s) s1) by reflexivity.
        exact E2. }
    rewrite (bind_Ret _ _ s2 tt s3).
    2:{ rewrite (bind_Ret _ _ s2 (Some world) s2) by (unfold gets; cbn; rewrite Hw; reflexivity).
        rewrite (bind_Ret _ _ s2 (Some heap2) s2) by reflexivity.
        exact E3. }
    exact E4. }
  exists world, heap, mL, mR, heap3.
  split; [exact Hw |]. split; [exact Hh |]. split; [exact HrL |]. split; [exact HrR |].
  rewrite E. split; [reflexivity |]. exact K3.
Qed.

(** From a synced patch and the heap the frame leaves to the solver's
    result. *)
Lemma written_from_synced (Hlaw : KeepsNodeCounts) w heapIn dt heapOut i sb0 sb n arr :
  Ammo.softs heapIn !! i = Some sb0 ->
  keepsPositions (stepSimulation w heapIn dt 10) heapOut ->
  Ammo.softs heapOut !! i = Some sb ->
  (forall k, (k < n)%nat ->
     exists nd, Ammo.m_nodes sb !! k = Some nd /\
                arr !! (3 * k)%nat = Some (vx (Ammo.m_x nd)) /\
                arr !! (3 * k + 1)%nat = Some (vy (Ammo.m_x nd)) /\
                arr !! (3 * k + 2)%nat = Some (vz (Ammo.m_x nd))) ->
  stepWritten (stepSimulation w heapIn dt 10) heapOut i n arr.
Proof.
  intros H0 K Hs Hk.
  destruct (step_keeps_soft Hlaw w heapIn dt 10 i sb0 H0) as (sbS & HsS & _).
  destruct (K i sbS HsS) as (sb' & Hs' & Hx).
  assert (sb' = sb) by congruence. subst sb'.
  exists sbS, sb. split; [exact HsS |].
  split; [exact (triples_coincide _ _ _ _ Hk Hx) |].
  split; [exact Hs | exact Hx].
Qed.

End VertexSync.

(** C2: in a frame of either scene the sync writes, for every patch, the
    position the solver step of this frame gave soft-body node [i] into the
    vertex-buffer triplet [i] (entries [3i], [3i+1], [3i+2]) for every [i]
    below the vertex count, and leaves the nodes as the step left them; the
    normals are recomputed from the written positions and both the position
    and the normal attribute are marked dirty; the handlers of all other
    events leave the patch meshes, and with them the vertex buffers, as they
    are. *)
Theorem vertex_sync `{Engine} (Hlaw : KeepsNodeCounts) now sC bL bR iL iR sK soft :
  Simulated bL bR iL iR sC -> Curtain.phase sC = Curtain.BootEnded ->
  ClothReady soft sK -> Cloth.phase sK = Cloth.BootEnded ->
  let sC' := snd (Curtain.animate now sC) in
  let sK' := snd (Cloth.animate now sK) in
  (exists w heap mL mR heapOut,
     Curtain.physicsWorld sC = Some w /\ Curtain.AmmoLib sC = Some heap /\
     Curtain.rod LeftSide sC = Some mL /\ Curtain.rod RightSide sC = Some mR /\
     Curtain.AmmoLib sC' = Some heapOut /\
     let t := Curtain.easeOutCubic (Curtain.scrollProgress sC) in
     let stepped :=
       stepSimulation w
         (rodsPosed bL bR
            (rodTarget (Curtain.leftRodStartX sC) (-1) (Curtain.slideDistance sC) t mL)
            (rodTarget (Curtain.rightRodStartX sC) 1 (Curtain.slideDistance sC) t mR)
            heap)
         (fst (getDelta now (Curtain.clock sC))) 10 in
     forall sd, exists m g,
       Curtain.cloth sd sC' = Some m /\ THREE.geometry m = THREE.Buffer g /\
       stepWritten stepped heapOut (match sd with LeftSide => iL | RightSide => iR end)
                   nodeCount (THREE.array (THREE.attr_position g))) /\
  (exists w heap m g heapOut,
     Cloth.physicsWorld sK = Some w /\ Cloth.AmmoLib sK = Some heap /\
     Cloth.AmmoLib sK' = Some heapOut /\
     Cloth.cloth sK' = Some m /\ THREE.geometry m = THREE.Buffer g /\
     heapOut = stepSimulation w (motorHeap sK heap) (fst (getDelta now (Cloth.clock sK))) 10 /\
     stepWritten heapOut heapOut soft clothNodeCount (THREE.array (THREE.attr_position g))) /\
  patchSynced LeftSide iL sC' /\
  patchSynced RightSide iR sC' /\
  clothSynced soft sK' /\
  (forall e sd, e <> Curtain.Frame ->
     Curtain.cloth sd (Curtain.handle now e sC) = Curtain.cloth sd sC) /\
  (forall e, e <> Cloth.Frame ->
     Cloth.cloth (Cloth.handle now e sK) = Cloth.cloth sK).
Proof.
  intros HS HpC HR HpK sC' sK'.
  destruct (frame_simulated Hlaw now sC bL bR iL iR HS)
    as (s' & mL0 & mR0 & _ & _ & E & _ & _ & PL & PR & _).
  assert (PL' : patchSynced LeftSide iL sC') by (subst sC'; rewrite E; exact PL).
  assert (PR' : patchSynced RightSide iR sC') by (subst sC'; rewrite E; exact PR).
  clear E PL PR s' mL0 mR0.
  destruct (ClothReady_animate Hlaw now soft sK HR) as [_ PK]. fold sK' in PK.
  split.
  { destruct (frame_stepped Hlaw now sC bL bR iL iR HS)
      as (w & heap & mL & mR & heapOut & Hw & Hh & HmL & HmR & Hout & K).
    fold sC' in Hout.
    exists w, heap, mL, mR, heapOut.
    split; [exact Hw |]. split; [exact Hh |]. split; [exact HmL |]. split; [exact HmR |].
    split; [exact Hout |]. cbv zeta.
    destruct HS as (_ & _ & _ & _ & AL & AR).
    intros sd. destruct sd.
    - destruct PL' as (m & g & heap' & sb & Hc & Hg & Hh' & Hs & Hk & _).
      destruct AL as (_ & _ & heap0 & sb0 & _ & _ & _ & _ & Hh0 & Hs0 & _).
      assert (heap' = heapOut) by congruence. assert (heap0 = heap) by congruence. subst.
      exists m, g. split; [exact Hc |]. split; [exact Hg |].
      lazymatch type of K with
      | keepsPositions (stepSimulation _ ?hin ?dt 10) _ =>
          exact (written_from_synced Hlaw w hin dt heapOut iL sb0 sb nodeCount _ Hs0 K Hs Hk)
      end.
    - destruct PR' as (m & g & heap' & sb & Hc & Hg & Hh' & Hs & Hk & _).
      destruct AR as (_ & _ & heap0 & sb0 & _ & _ & _ & _ & Hh0 & Hs0 & _).
      assert (heap' = heapOut) by congruence. assert (heap0 = heap) by congruence. subst.
      exists m, g. split; [exact Hc |]. split; [exact Hg |].
      lazymatch type of K with
      | keepsPositions (stepSimulation _ ?hin ?dt 10) _ =>
          exact (written_from_synced Hlaw w hin dt heapOut iR sb0 sb nodeCount _ Hs0 K Hs Hk)
      end. }
  split.
  { destruct (cloth_frame_bodies Hlaw now sK soft HR)
      as (s1 & heap1 & Hh1 & _ & _ & Eok & Eth & w & heap & Hw & Hh & Est).
    assert (Hout : Cloth.AmmoLib sK' = Some heap1).
    { subst sK'. destruct (Cloth.renderer sK) as [r |].
      - rewrite (Eok r eq_refl). exact Hh1.
      - rewrite (Eth eq_refl). exact Hh1. }
    destruct PK as (m & g & heap' & sb & Hc & Hg & Hh' & Hs & Hk & _).
    assert (heap' = heap1) by congruence. subst heap'.
    exists w, heap, m, g, heap1.
    split; [exact Hw |]. split; [exact Hh |]. split; [exact Hout |].
    split; [exact Hc |]. split; [exact Hg |]. split; [exact Est |].
    exists sb, sb. split; [exact Hs |].
    split; [exact (triples_coincide _ _ _ _ Hk eq_refl) |].
    split; [exact Hs | reflexivity]. }
  split; [exact PL' |]. split; [exact PR' |]. split; [exact PK |].
  split.
  - intros e sd Hne. apply (handle_other_cloth now e sC sd HpC Hne).
  - intros e Hne. apply (cloth_handle_other now e sK HpK Hne).
Qed.

Lemma vertex_sync_witness :
  let sC' := snd (@Curtain.animate demoEngine 32 demoBooted) in
  let sK' := snd (@Cloth.animate demoEngine 32 clothBooted) in
  (exists w heap mL mR heapOut,
     Curtain.physicsWorld demoBooted = Some w /\ Curtain.AmmoLib demoBooted = Some heap /\
     Curtain.rod LeftSide demoBooted = Some mL /\
     Curtain.rod RightSide demoBooted = Some mR /\
     Curtain.AmmoLib sC' = Some heapOut /\
     let t := Curtain.easeOutCubic (Curtain.scrollProgress demoBooted) in
     let stepped :=
       @stepSimulation demoEngine w
         (rodsPosed 0 1
            (rodTarget (Curtain.leftRodStartX demoBooted) (-1)
               (Curtain.slideDistance demoBooted) t mL)
            (rodTarget (Curtain.rightRodStartX demoBooted) 1
               (Curtain.slideDistance demoBooted) t mR)
            heap)
         (fst (getDelta 32 (Curtain.clock demoBooted))) 10 in
     forall sd, exists m g,
       Curtain.cloth sd sC' = Some m /\ THREE.geometry m = THREE.Buffer g /\
       stepWritten stepped heapOut (match sd with LeftSide => 0 | RightSide => 1 end)%nat
                   nodeCount (THREE.array (THREE.attr_position g))) /\
  (exists w heap m g heapOut,
     Cloth.physicsWorld clothBooted = Some w /\ Cloth.AmmoLib clothBooted = Some heap /\
     Cloth.AmmoLib sK' = Some heapOut /\
     Cloth.cloth sK' = Some m /\ THREE.geometry m = THREE.Buffer g /\
     heapOut = @stepSimulation demoEngine w (motorHeap clothBooted heap)
                 (fst (getDelta 32 (Cloth.clock clothBooted))) 10 /\
     stepWritten heapOut heapOut 0 clothNodeCount (THREE.array (THREE.attr_position g))) /\
  @patchSynced demoEngine LeftSide 0 sC' /\
  @patchSynced demoEngine RightSide 1 sC' /\
  @clothSynced demoEngine 0 sK' /\
  (forall e sd, e <> Curtain.Frame ->
     Curtain.cloth sd (@Curtain.handle demoEngine 32 e demoBooted)
     = Curtain.cloth sd demoBooted) /\
  (forall e, e <> Cloth.Frame ->
     Cloth.cloth (@Cloth.handle demoEngine 32 e clothBooted) = Cloth.cloth clothBooted).
Proof.
  destruct demoBooted_simulated as (trL & trR & dt & t & HS & _).
  destruct clothBooted_facts as (HR & _ & HpK & _).
  exact (@vertex_sync demoEngine demoEngine_keeps 32 demoBooted 0 1 0 1 clothBooted 0
           HS demoBooted_phase HR HpK).
Defined.
